(** * Verification of the trigger batch screening engine (trigger_batch.py)

    A shallow embedding of the screening/ranking pipeline: the pandas
    operations the program uses, the six category triggers, the final
    allocator [select_final_tickers] and the batch driver [run_batch].

    Numbers.  pandas stores every metric as a float64.  The embedding
    keeps the special values the program relies on (NaN, the two
    infinities) and represents finite values by exact rationals, so
    rounding and signed zeros are outside the model.  The one test of the
    program that rounding decides on whole prices, the flat test of the
    afternoon volume surge, is written as it comes out on the float64
    value (see [trigger_afternoon_volume_surge_flat]).

    Objects.  A DataFrame is a mutable object.  The embedding keeps a
    store of frames addressed by references; [df[c] = ...] updates the
    store in place, while [.copy()], boolean indexing, [sort_values] and
    [head] allocate a new frame. *)

From Stdlib Require Import List String Ascii Bool Arith ZArith QArith Qabs Lia Lqa.
From Stdlib Require Import Permutation Sorted Qround.
Import ListNotations.

Set Implicit Arguments.

(* ================================================================== *)
(** * float64 values *)
(* ================================================================== *)

Module Float.

Inductive float64 : Type :=
| Fin (q : Q)
| PInf
| NInf
| NaN.

Definition fneg (x : float64) : float64 :=
  match x with
  | Fin q => Fin (- q)
  | PInf => NInf
  | NInf => PInf
  | NaN => NaN
  end.

Definition fadd (x y : float64) : float64 :=
  match x, y with
  | NaN, _ | _, NaN => NaN
  | Fin a, Fin b => Fin (a + b)
  | PInf, NInf | NInf, PInf => NaN
  | PInf, _ | _, PInf => PInf
  | NInf, _ | _, NInf => NInf
  end.

Definition fsub (x y : float64) : float64 := fadd x (fneg y).

Definition fmul (x y : float64) : float64 :=
  match x, y with
  | NaN, _ | _, NaN => NaN
  | Fin a, Fin b => Fin (a * b)
  | Fin a, PInf | PInf, Fin a =>
      match a ?= 0 with Gt => PInf | Lt => NInf | Eq => NaN end
  | Fin a, NInf | NInf, Fin a =>
      match a ?= 0 with Gt => NInf | Lt => PInf | Eq => NaN end
  | PInf, PInf | NInf, NInf => PInf
  | PInf, NInf | NInf, PInf => NInf
  end.

(** True division as numpy performs it: a finite non-zero value divided by
    zero is an infinity, [0/0] and [inf/inf] are NaN. *)
Definition fdiv (x y : float64) : float64 :=
  match x, y with
  | NaN, _ | _, NaN => NaN
  | Fin a, Fin b =>
      match b ?= 0 with
      | Eq => match a ?= 0 with Gt => PInf | Lt => NInf | Eq => NaN end
      | _ => Fin (a / b)
      end
  | Fin _, PInf | Fin _, NInf => Fin 0
  | PInf, Fin b => match b ?= 0 with Lt => NInf | _ => PInf end
  | NInf, Fin b => match b ?= 0 with Lt => PInf | _ => NInf end
  | _, _ => NaN
  end.

Definition fabs (x : float64) : float64 :=
  match x with
  | Fin q => Fin (Qabs q)
  | PInf | NInf => PInf
  | NaN => NaN
  end.

(** Ordered comparison; [None] when an operand is NaN. *)
Definition fcompare (x y : float64) : option comparison :=
  match x, y with
  | NaN, _ | _, NaN => None
  | Fin a, Fin b => Some (a ?= b)
  | PInf, PInf | NInf, NInf => Some Eq
  | PInf, _ | _, NInf => Some Gt
  | NInf, _ | _, PInf => Some Lt
  end.

Definition fgt (x y : float64) : bool :=
  match fcompare x y with Some Gt => true | _ => false end.
Definition fge (x y : float64) : bool :=
  match fcompare x y with Some Gt | Some Eq => true | _ => false end.
Definition flt (x y : float64) : bool :=
  match fcompare x y with Some Lt => true | _ => false end.
Definition feq (x y : float64) : bool :=
  match fcompare x y with Some Eq => true | _ => false end.
Definition fne (x y : float64) : bool := negb (feq x y).

Definition is_nan (x : float64) : bool :=
  match x with NaN => true | _ => false end.

Definition is_finite (x : float64) : Prop :=
  match x with Fin _ => True | _ => False end.

Definition of_Z (z : Z) : float64 := Fin (inject_Z z).

End Float.
Export Float.

(* ================================================================== *)
(** * The pandas operations used by the program *)
(* ================================================================== *)

Module Pandas.

(** A cell holds a number, a boolean flag or a text. *)
Inductive cell : Type :=
| CNum (x : float64)
| CBool (b : bool)
| CStr (s : string).

(** Numeric reading of a cell (booleans count as 0/1). *)
Definition num (c : cell) : float64 :=
  match c with
  | CNum x => x
  | CBool true => Fin 1
  | CBool false => Fin 0
  | CStr _ => NaN
  end.

(** The test [c == True]. *)
Definition truth (c : cell) : bool :=
  match c with
  | CBool b => b
  | CNum x => feq x (Fin 1)
  | CStr _ => false
  end.

Fixpoint assoc {A : Type} (k : string) (l : list (string * A)) : option A :=
  match l with
  | [] => None
  | (k', v) :: l' => if String.eqb k k' then Some v else assoc k l'
  end.

Definition mem (s : string) (l : list string) : bool :=
  existsb (String.eqb s) l.

(** A row is an index label (the ticker) with its cells; the most recent
    binding of a column name is the live one. *)
Record Row : Type := mkRow { ticker : string; cells : list (string * cell) }.

Record DataFrame : Type := mkDF { columns : list string; rows : list Row }.

(** A Series: index labels with their values. *)
Definition Series : Type := list (string * cell).

Definition get_cell (r : Row) (c : string) : cell :=
  match assoc c (cells r) with Some v => v | None => CNum NaN end.

Definition set_cell (r : Row) (c : string) (v : cell) : Row :=
  mkRow (ticker r) ((c, v) :: cells r).

Definition at_label (s : Series) (t : string) : cell :=
  match assoc t s with Some v => v | None => CNum NaN end.

(** [pd.DataFrame()] *)
Definition empty_frame : DataFrame := mkDF [] [].

(** [df.empty]: some axis has length 0. *)
Definition empty (df : DataFrame) : bool :=
  match rows df, columns df with
  | [], _ | _, [] => true
  | _, _ => false
  end.

Definition index (df : DataFrame) : list string := map ticker (rows df).

(** [df[c]] for a column that exists. *)
Definition column (df : DataFrame) (c : string) : Series :=
  map (fun r => (ticker r, get_cell r c)) (rows df).

(** [df[c] = s]: the values are aligned on the index labels. *)
Definition add_column (df : DataFrame) (c : string) (s : Series) : DataFrame :=
  mkDF (if mem c (columns df) then columns df else columns df ++ [c])
       (map (fun r => set_cell r c (at_label s (ticker r))) (rows df)).

(** [df[c] = v] for a scalar [v]. *)
Definition add_const_column (df : DataFrame) (c : string) (v : cell) : DataFrame :=
  mkDF (if mem c (columns df) then columns df else columns df ++ [c])
       (map (fun r => set_cell r c v) (rows df)).

(** [df.loc[mask, c] = s]: only the rows selected by the mask change. *)
Definition add_column_where (df : DataFrame) (mask : Series) (c : string)
    (s : Series) : DataFrame :=
  mkDF (if mem c (columns df) then columns df else columns df ++ [c])
       (map (fun r => if truth (at_label mask (ticker r))
                      then set_cell r c (at_label s (ticker r)) else r)
            (rows df)).

(** [df[mask]] (also [df[mask == True]]). *)
Definition mask_rows (df : DataFrame) (mask : Series) : DataFrame :=
  mkDF (columns df)
       (filter (fun r => truth (at_label mask (ticker r))) (rows df)).

(** [s[mask]] on a Series. *)
Definition mask_series (s mask : Series) : Series :=
  filter (fun p => truth (at_label mask (fst p))) s.

(** [df.head(n)] *)
Definition head (n : nat) (df : DataFrame) : DataFrame :=
  mkDF (columns df) (firstn n (rows df)).

(** [idx1.intersection(idx2)], in the order of [idx1]. *)
Definition intersection (idx1 idx2 : list string) : list string :=
  filter (fun t => mem t idx2) idx1.

(** [df.loc[labels]] for labels that all occur in the index. *)
Definition loc (df : DataFrame) (labels : list string) : DataFrame :=
  mkDF (columns df)
       (flat_map (fun t => filter (fun r => String.eqb (ticker r) t) (rows df))
                 labels).

(** [df[[c]]]: the sub-frame with the single column [c]. *)
Definition select_column (df : DataFrame) (c : string) : DataFrame :=
  mkDF [c] (map (fun r => mkRow (ticker r) [(c, get_cell r c)]) (rows df)).

(** [pd.concat([a, b])] for frames with the same columns. *)
Definition concat (a b : DataFrame) : DataFrame :=
  mkDF (columns a ++ filter (fun c => negb (mem c (columns a))) (columns b))
       (rows a ++ rows b).

(** [left.merge(right, left_index=True, right_index=True, how="inner")]
    for tables keyed by unique labels: the rows of [left] whose label
    occurs in [right], in the order of [left]; a column name the two
    tables share gets the suffixes [_x] and [_y]. *)
Definition merge_inner (l r : DataFrame) : DataFrame :=
  let lname c := if mem c (columns r) then (c ++ "_x")%string else c in
  let rname c := if mem c (columns l) then (c ++ "_y")%string else c in
  mkDF (map lname (columns l) ++ map rname (columns r))
       (flat_map
          (fun lr =>
             match find (fun rr => String.eqb (ticker rr) (ticker lr)) (rows r) with
             | Some rr =>
                 [mkRow (ticker lr)
                    (map (fun c => (lname c, get_cell lr c)) (columns l) ++
                     map (fun c => (rname c, get_cell rr c)) (columns r))]
             | None => []
             end)
          (rows l)).

(** ** Element-wise Series arithmetic *)

Definition s_map (f : cell -> cell) (s : Series) : Series :=
  map (fun p => (fst p, f (snd p))) s.

(** Binary operation; the right operand is aligned on the labels of the
    left one (a label the right operand lacks reads as NaN). *)
Definition s_zip (f : float64 -> float64 -> cell) (s1 s2 : Series) : Series :=
  map (fun p => (fst p, f (num (snd p)) (num (at_label s2 (fst p))))) s1.

Definition s_add (s1 s2 : Series) : Series := s_zip (fun a b => CNum (fadd a b)) s1 s2.
Definition s_sub (s1 s2 : Series) : Series := s_zip (fun a b => CNum (fsub a b)) s1 s2.
Definition s_div (s1 s2 : Series) : Series := s_zip (fun a b => CNum (fdiv a b)) s1 s2.
Definition s_gt (s1 s2 : Series) : Series := s_zip (fun a b => CBool (fgt a b)) s1 s2.
Definition s_ne (s1 s2 : Series) : Series := s_zip (fun a b => CBool (fne a b)) s1 s2.

Definition s_add_c (s : Series) (k : float64) : Series :=
  s_map (fun c => CNum (fadd (num c) k)) s.
Definition s_sub_c (s : Series) (k : float64) : Series :=
  s_map (fun c => CNum (fsub (num c) k)) s.
Definition s_mul_c (s : Series) (k : float64) : Series :=
  s_map (fun c => CNum (fmul (num c) k)) s.
Definition s_div_c (s : Series) (k : float64) : Series :=
  s_map (fun c => CNum (fdiv (num c) k)) s.
Definition s_ge_c (s : Series) (k : float64) : Series :=
  s_map (fun c => CBool (fge (num c) k)) s.
Definition s_gt_c (s : Series) (k : float64) : Series :=
  s_map (fun c => CBool (fgt (num c) k)) s.
Definition s_lt_c (s : Series) (k : float64) : Series :=
  s_map (fun c => CBool (flt (num c) k)) s.
Definition s_abs (s : Series) : Series :=
  s_map (fun c => CNum (fabs (num c))) s.

(** [s.replace(0, np.nan)] *)
Definition s_replace_0_nan (s : Series) : Series :=
  s_map (fun c => if feq (num c) (Fin 0) then CNum NaN else c) s.

(** ** Reductions; NaN entries are skipped, as pandas does by default *)

Definition values (s : Series) : list float64 := map (fun p => num (snd p)) s.

Definition fmax_skipna (acc x : float64) : float64 :=
  if is_nan x then acc else if is_nan acc then x
  else if fgt x acc then x else acc.

Definition fmin_skipna (acc x : float64) : float64 :=
  if is_nan x then acc else if is_nan acc then x
  else if flt x acc then x else acc.

Definition s_max (s : Series) : float64 := fold_left fmax_skipna (values s) NaN.
Definition s_min (s : Series) : float64 := fold_left fmin_skipna (values s) NaN.

Definition s_sum (s : Series) : float64 :=
  fold_left (fun acc x => if is_nan x then acc else fadd acc x) (values s) (Fin 0).

Definition s_count (s : Series) : nat :=
  List.length (filter (fun x => negb (is_nan x)) (values s)).

Definition s_mean (s : Series) : float64 :=
  match s_count s with
  | O => NaN
  | n => fdiv (s_sum s) (of_Z (Z.of_nat n))
  end.

(** ** Sorting *)

(** [before x y]: in descending order [x] goes strictly before [y];
    NaN keys go last. *)
Definition before (x y : float64) : bool :=
  match x, y with
  | NaN, _ => false
  | _, NaN => true
  | _, _ => fgt x y
  end.

(** Insertion of [a] in front of the first element that does not go
    strictly before it. *)
Fixpoint insert_by {A : Type} (goes_before : A -> A -> bool) (a : A) (l : list A) : list A :=
  match l with
  | [] => [a]
  | b :: l' =>
      if goes_before b a then b :: insert_by goes_before a l'
      else a :: b :: l'
  end.

(** Stable sort: elements neither of which goes strictly before the other
    keep their order. *)
Definition sort_by {A : Type} (goes_before : A -> A -> bool) (l : list A) : list A :=
  fold_right (insert_by goes_before) [] l.

Definition sort_desc {A : Type} (key : A -> float64) (l : list A) : list A :=
  sort_by (fun b a => before (key b) (key a)) l.

(** [df.sort_values(c, ascending=False)]: descending, NaN last.  Rows of
    equal value keep their order here; the sort pandas uses by default
    may leave them in another order, which is why a statement that names
    the rows of a cut is made for scores that are pairwise different. *)
Definition sort_values_desc (c : string) (df : DataFrame) : DataFrame :=
  mkDF (columns df) (sort_desc (fun r => num (get_cell r c)) (rows df)).

End Pandas.
Export Pandas.

(* ================================================================== *)
(** * The numpy reduction used by the program *)
(* ================================================================== *)

Module Numpy.

(** The order of a sorted array: ascending, NaN last. *)
Definition ascending (x y : float64) : bool :=
  match x, y with
  | NaN, _ => false
  | _, NaN => true
  | _, _ => flt x y
  end.

(** [_lerp(a, b, t)]: [a + (b - a) * t], computed from [b] downwards once
    [t] reaches one half. *)
Definition lerp (a b : float64) (t : Q) : float64 :=
  let diff_b_a := fsub b a in
  if Qle_bool (1 # 2) t then fsub b (fmul diff_b_a (Fin (1 - t)))
  else fadd a (fmul diff_b_a (Fin t)).

(** [np.percentile(a, q)], default (linear) method: the array is sorted,
    the virtual index [(n - 1) * q / 100] is split into its floor and its
    fractional part, and the two neighbours are interpolated (a virtual
    index at the last element takes that element for both neighbours);
    an array that holds a NaN gives NaN.  [None]: numpy raises (a
    percentile outside [0, 100], or an array without elements). *)
Definition percentile (a : list float64) (q : Q) : option float64 :=
  if Qle_bool 0 q && Qle_bool q 100 then
    let arr := sort_by ascending a in
    match arr with
    | [] => None
    | _ :: _ =>
        if is_nan (last arr NaN) then Some NaN else
        let n := Z.of_nat (List.length arr) in
        let virtual_index := (inject_Z (n - 1) * (q / 100))%Q in
        let previous_index := Qfloor virtual_index in
        let gamma := (virtual_index - inject_Z previous_index)%Q in
        if (n - 1 <=? previous_index)%Z
        then Some (lerp (last arr NaN) (last arr NaN) gamma)
        else Some (lerp (nth (Z.to_nat previous_index) arr NaN)
                        (nth (Z.to_nat (previous_index + 1)) arr NaN) gamma)
    end
  else None.

End Numpy.
Export Numpy.

(* ================================================================== *)
(** * Store of frames, failures, and the program monad *)
(* ================================================================== *)

Module Store.

(** The failures the program can meet. *)
Inductive exn : Type :=
| ValueError        (* raised by the three fetchers when a table is empty *)
| KeyError          (* a column that is not in the frame *)
| NameLookupError   (* the ticker-name lookup of the provider failed *)
| ConversionError   (* int() of a NaN or an infinity *)
| TypeError.        (* a log level that is neither a number nor a string *)

(** One record of the output document. *)
Definition StockInfo : Type := list (string * cell).

(** The output document written by [run_batch]. *)
Record Document : Type := mkDoc {
  doc_free : list (string * list StockInfo);
  doc_premium : list (string * list StockInfo);
  doc_metadata : list (string * string)
}.

Definition ref : Type := nat.

Record State : Type := mkState {
  heap : list DataFrame;          (* the DataFrame objects *)
  fetched : list string;          (* dates asked of the OHLCV endpoint *)
  report : option (string * Document)   (* the file written, if any *)
}.

Definition M (A : Type) : Type := State -> (exn + A) * State.

Definition ret {A : Type} (a : A) : M A := fun s => (inr a, s).

Definition bind {A B : Type} (m : M A) (f : A -> M B) : M B :=
  fun s => match m s with
           | (inr a, s') => f a s'
           | (inl e, s') => (inl e, s')
           end.

Definition raise {A : Type} (e : exn) : M A := fun s => (inl e, s).

(** [try: m except: h] *)
Definition try_except {A : Type} (m : M A) (h : exn -> M A) : M A :=
  fun s => match m s with
           | (inl e, s') => h e s'
           | r => r
           end.

Declare Scope prog_scope.
Delimit Scope prog_scope with prog.
Notation "x <- m ;; k" := (bind m (fun x => k))
  (at level 100, m at next level, right associativity) : prog_scope.
Notation "m ;;; k" := (bind m (fun _ => k))
  (at level 100, right associativity) : prog_scope.
Local Open Scope prog_scope.

Fixpoint update_nth {A : Type} (n : nat) (a : A) (l : list A) : list A :=
  match l, n with
  | [], _ => []
  | _ :: l', O => a :: l'
  | b :: l', S n' => b :: update_nth n' a l'
  end.

(** A new DataFrame object. *)
Definition new_frame (df : DataFrame) : M ref :=
  fun s => (inr (List.length (heap s)),
            mkState (heap s ++ [df]) (fetched s) (report s)).

Definition read (r : ref) : M DataFrame :=
  fun s => (inr (nth r (heap s) empty_frame), s).

Definition write (r : ref) (df : DataFrame) : M unit :=
  fun s => (inr tt, mkState (update_nth r df (heap s)) (fetched s) (report s)).

(** [df[c]] *)
Definition getitem (r : ref) (c : string) : M Series :=
  df <- read r ;;
  if mem c (columns df) then ret (column df c) else raise KeyError.

(** [df[c] = s], in place *)
Definition setitem (r : ref) (c : string) (s : Series) : M unit :=
  df <- read r ;; write r (add_column df c s).

(** [df[c] = v] for a scalar, in place *)
Definition setitem_const (r : ref) (c : string) (v : cell) : M unit :=
  df <- read r ;; write r (add_const_column df c v).

(** [df.loc[mask, c] = s], in place *)
Definition setitem_where (r : ref) (mask : Series) (c : string) (s : Series) : M unit :=
  df <- read r ;; write r (add_column_where df mask c s).

(** [df.copy()] *)
Definition copy (r : ref) : M ref := df <- read r ;; new_frame df.

(** [df.loc[labels]] *)
Definition loc_ (r : ref) (labels : list string) : M ref :=
  df <- read r ;; new_frame (loc df labels).

(** [df[mask]] *)
Definition getitem_mask (r : ref) (mask : Series) : M ref :=
  df <- read r ;; new_frame (mask_rows df mask).

(** [df.head(n)] *)
Definition head_ (r : ref) (n : nat) : M ref :=
  df <- read r ;; new_frame (head n df).

(** [df.sort_values(c, ascending=False)] *)
Definition sort_values (r : ref) (c : string) : M ref :=
  df <- read r ;;
  if mem c (columns df) then new_frame (sort_values_desc c df)
  else raise KeyError.

Definition is_empty (r : ref) : M bool := df <- read r ;; ret (empty df).

Definition index_of (r : ref) : M (list string) := df <- read r ;; ret (index df).

(** [df[[c]]] *)
Definition getitem_cols (r : ref) (c : string) : M ref :=
  df <- read r ;;
  if mem c (columns df) then new_frame (select_column df c) else raise KeyError.

(** [left.merge(right, left_index=True, right_index=True, how="inner")] *)
Definition merge_ (l r : ref) : M ref :=
  a <- read l ;; b <- read r ;; new_frame (merge_inner a b).

Definition columns_of (r : ref) : M (list string) := df <- read r ;; ret (columns df).

Fixpoint mapM {A B : Type} (f : A -> M B) (l : list A) : M (list B) :=
  match l with
  | [] => ret []
  | a :: l' => b <- f a ;; bs <- mapM f l' ;; ret (b :: bs)
  end.

End Store.
Export Store.

(* ================================================================== *)
(** * trigger_batch.py *)
(* ================================================================== *)

Open Scope prog_scope.
Open Scope string_scope.

(** The market-data provider ([pykrx.stock.stock_api]), the clock and the
    case mapping of strings. *)
Record StockApi : Type := mkApi {
  get_market_ohlcv_by_ticker : string -> DataFrame;
  get_market_cap_by_ticker : string -> DataFrame;     (* market="ALL" *)
  get_nearest_business_day_in_a_week : string -> string;   (* prev=True *)
  get_market_ticker_name : string -> option string;   (* None: the call raises *)
  today_str : string;              (* datetime.today().strftime("%Y%m%d") *)
  day_before : string -> string;   (* strptime, minus one day, strftime *)
  now_iso : string;                (* datetime.now().isoformat() *)
  str_upper : string -> string     (* str.upper() *)
}.

(** What [getattr(logging, name, logging.INFO)] finds.  The attributes of
    the [logging] module whose names have no lower-case letter are the
    level numbers CRITICAL, FATAL, ERROR, WARNING, WARN, INFO, DEBUG and
    NOTSET, the format string BASIC_FORMAT and the dict _STYLES; any
    other name gives the default, the number [logging.INFO]. *)
Inductive attribute : Type :=
| LevelNumber
| FormatString
| StyleTable.

Definition logging_getattr (name : string) : attribute :=
  if String.eqb name "BASIC_FORMAT" then FormatString
  else if String.eqb name "_STYLES" then StyleTable
  else LevelNumber.

(** [setLevel(level)] of a logger or a handler: a number is accepted, a
    string has to name a level (the format string does not), anything
    else is refused. *)
Definition setLevel (level : attribute) : M unit :=
  match level with
  | LevelNumber => ret tt
  | FormatString => raise ValueError
  | StyleTable => raise TypeError
  end.

(** A call of [stock_api.get_market_ohlcv_by_ticker(d)] leaves its date in
    the store, so that the requests of a run can be counted. *)
Definition log_fetch (d : string) : M unit :=
  fun s => (inr tt, mkState (heap s) (fetched s ++ [d]) (report s)).

Section Program.

Variable api : StockApi.

(** ** Data collection *)

Definition get_snapshot (trade_date : string) : M ref :=
  log_fetch trade_date ;;;
  df <- new_frame (get_market_ohlcv_by_ticker api trade_date) ;;
  e <- is_empty df ;;
  if e then raise ValueError else ret df.

Definition get_previous_snapshot (trade_date : string) : M (ref * string) :=
  let prev_date_str := day_before api trade_date in
  let prev_date := get_nearest_business_day_in_a_week api prev_date_str in
  log_fetch prev_date ;;;
  df <- new_frame (get_market_ohlcv_by_ticker api prev_date) ;;
  e <- is_empty df ;;
  if e then raise ValueError else ret (df, prev_date).

Definition get_market_cap_df (trade_date : string) : M ref :=
  cap_df <- new_frame (get_market_cap_by_ticker api trade_date) ;;
  e <- is_empty cap_df ;;
  if e then raise ValueError else ret cap_df.

(** ** Shared stages *)

(** [None]: the call raises ([KeyError] on a table without the volume
    column, or [np.percentile] refusing its arguments).  The table given
    is not modified; the rows kept form a new table. *)
Definition filter_low_liquidity (df : DataFrame) (threshold : Q) : option DataFrame :=
  if mem "거래량" (columns df) then
    match percentile (values (column df "거래량")) (threshold * 100) with
    | Some volume_cutoff =>
        Some (mask_rows df (s_gt_c (column df "거래량") volume_cutoff))
    | None => None
    end
  else None.

Definition apply_absolute_filters (df : ref) (min_value : Z) : M ref :=
  tv <- getitem df "거래대금" ;;
  filtered_df <- getitem_mask df (s_ge_c tv (of_Z min_value)) ;;
  vol <- getitem df "거래량" ;;
  let avg_volume := s_mean vol in
  let min_volume := fmul avg_volume (Fin (2 # 10)) in
  fvol <- getitem filtered_df "거래량" ;;
  getitem_mask filtered_df (s_ge_c fvol min_volume).

(** [col_range = col_max - col_min if col_max > col_min else 1] *)
Definition range_of (col_max col_min : float64) : float64 :=
  if fgt col_max col_min then fsub col_max col_min else Fin 1.

(** [(df[col] - col_min) / col_range] *)
Definition normalize (s : Series) (col_min col_range : float64) : Series :=
  s_div_c (s_sub_c s col_min) col_range.

(** A column normalised against its own minimum and range. *)
Definition minmax (s : Series) : Series :=
  normalize s (s_min s) (range_of (s_max s) (s_min s)).

(** The only sort direction any caller asks for is descending. *)
Definition normalize_and_score (df : ref) (ratio_col abs_col : string)
    (ratio_weight abs_weight : float64) : M ref :=
  e <- is_empty df ;;
  if e then ret df else
  rc <- getitem df ratio_col ;;
  let ratio_max := s_max rc in
  let ratio_min := s_min rc in
  ac <- getitem df abs_col ;;
  let abs_max := s_max ac in
  let abs_min := s_min ac in
  let ratio_range := range_of ratio_max ratio_min in
  let abs_range := range_of abs_max abs_min in
  rc <- getitem df ratio_col ;;
  setitem df (ratio_col ++ "_norm") (normalize rc ratio_min ratio_range) ;;;
  ac <- getitem df abs_col ;;
  setitem df (abs_col ++ "_norm") (normalize ac abs_min abs_range) ;;;
  rn <- getitem df (ratio_col ++ "_norm") ;;
  an <- getitem df (abs_col ++ "_norm") ;;
  setitem df "복합점수" (s_add (s_mul_c rn ratio_weight) (s_mul_c an abs_weight)) ;;;
  sort_values df "복합점수".

(** The loop [for col in cols: ... snap[f"{col}_norm"] = ...] of the
    triggers that score on three metrics. *)
Fixpoint normalize_columns (df : ref) (cols : list string) : M unit :=
  match cols with
  | [] => ret tt
  | col :: cols' =>
      s <- getitem df col ;;
      let col_max := s_max s in
      let col_min := s_min s in
      let col_range := range_of col_max col_min in
      s <- getitem df col ;;
      setitem df (col ++ "_norm") (normalize s col_min col_range) ;;;
      normalize_columns df cols'
  end.

Definition ticker_name (t : string) : M cell :=
  match get_market_ticker_name api t with
  | Some n => ret (CStr n)
  | None => raise NameLookupError
  end.

Definition enhance_dataframe (df : ref) : M ref :=
  e <- is_empty df ;;
  (if negb e then
     idx <- index_of df ;;
     names <- mapM ticker_name idx ;;
     setitem df "종목명" (combine idx names)
   else ret tt) ;;;
  ret df.

(** [((snap["종가"] - prev["종가"]) / prev["종가"]) * 100] *)
Definition day_over_day (snap prev : ref) : M Series :=
  c <- getitem snap "종가" ;;
  pc <- getitem prev "종가" ;;
  pc' <- getitem prev "종가" ;;
  ret (s_mul_c (s_div (s_sub c pc) pc') (Fin 100)).

(** [(snap["종가"] / snap["시가"] - 1) * 100] *)
Definition intraday (snap : ref) : M Series :=
  c <- getitem snap "종가" ;;
  o <- getitem snap "시가" ;;
  ret (s_mul_c (s_sub_c (s_div c o) (Fin 1)) (Fin 100)).

(** [snap["종가"] > snap["시가"]] *)
Definition rising (snap : ref) : M Series :=
  c <- getitem snap "종가" ;;
  o <- getitem snap "시가" ;;
  ret (s_gt c o).

(** [(snap["거래량"] / prev["거래량"].replace(0, np.nan) - 1) * 100] *)
Definition volume_growth (snap prev : ref) : M Series :=
  v <- getitem snap "거래량" ;;
  pv <- getitem prev "거래량" ;;
  ret (s_mul_c (s_sub_c (s_div v (s_replace_0_nan pv)) (Fin 1)) (Fin 100)).

(** [df[df[c] == True].copy()] *)
Definition qualify (df : ref) (c : string) : M ref :=
  flag <- getitem df c ;;
  sel <- getitem_mask df flag ;;
  copy sel.

(** [snapshot.loc[common].copy()] *)
Definition loc_copy (df : ref) (labels : list string) : M ref :=
  sel <- loc_ df labels ;; copy sel.

(** ** Morning triggers *)

Definition trigger_morning_volume_surge (trade_date : string)
    (snapshot prev_snapshot : ref) (top_n : nat) : M ref :=
  si <- index_of snapshot ;;
  pi <- index_of prev_snapshot ;;
  let common := intersection si pi in
  snap <- loc_copy snapshot common ;;
  prev <- loc_copy prev_snapshot common ;;
  (* the two debug lines format prev['종가'] and snap['종가'] *)
  getitem prev "종가" ;;;
  getitem snap "종가" ;;;
  snap <- apply_absolute_filters snap 500000000 ;;
  v <- getitem snap "거래량" ;;
  pv <- getitem prev "거래량" ;;
  setitem snap "거래량비율" (s_div v (s_replace_0_nan pv)) ;;;
  vr <- getitem snap "거래량비율" ;;
  setitem snap "거래량증가율" (s_mul_c (s_sub_c vr (Fin 1)) (Fin 100)) ;;;
  s <- intraday snap ;; setitem snap "장중등락률" s ;;;
  s <- day_over_day snap prev ;; setitem snap "전일대비등락률" s ;;;
  s <- rising snap ;; setitem snap "상승여부" s ;;;
  g <- getitem snap "거래량증가율" ;;
  snap <- getitem_mask snap (s_ge_c g (Fin 30)) ;;
  e <- is_empty snap ;;
  if e then new_frame empty_frame else
  scored <- normalize_and_score snap "거래량증가율" "거래량" (Fin (6 # 10)) (Fin (4 # 10)) ;;
  candidates <- head_ scored top_n ;;
  result <- qualify candidates "상승여부" ;;
  e <- is_empty result ;;
  if e then new_frame empty_frame else
  sorted <- sort_values result "복합점수" ;;
  top <- head_ sorted 3 ;;
  enhance_dataframe top.

(** The three-metric composite score and the top-N cut that follow the
    normalisation loop:
    [snap["복합점수"] = a_norm * wa + b_norm * wb + c_norm * wc;
     candidates = snap.sort_values("복합점수", ascending=False).head(top_n)] *)
Definition score3_top (df : ref) (a b c : string) (wa wb wc : float64)
    (top_n : nat) : M ref :=
  normalize_columns df [a; b; c] ;;;
  sa <- getitem df (a ++ "_norm") ;;
  sb <- getitem df (b ++ "_norm") ;;
  sc <- getitem df (c ++ "_norm") ;;
  setitem df "복합점수"
    (s_add (s_add (s_mul_c sa wa) (s_mul_c sb wb)) (s_mul_c sc wc)) ;;;
  sorted <- sort_values df "복합점수" ;;
  head_ sorted top_n.

Definition trigger_morning_gap_up_momentum (trade_date : string)
    (snapshot prev_snapshot : ref) (top_n : nat) : M ref :=
  si <- index_of snapshot ;;
  pi <- index_of prev_snapshot ;;
  let common := intersection si pi in
  snap <- loc_copy snapshot common ;;
  prev <- loc_copy prev_snapshot common ;;
  snap <- apply_absolute_filters snap 500000000 ;;
  o <- getitem snap "시가" ;;
  pc <- getitem prev "종가" ;;
  setitem snap "갭상승률" (s_mul_c (s_sub_c (s_div o pc) (Fin 1)) (Fin 100)) ;;;
  s <- intraday snap ;; setitem snap "장중등락률" s ;;;
  s <- day_over_day snap prev ;; setitem snap "전일대비등락률" s ;;;
  s <- rising snap ;; setitem snap "상승지속" s ;;;
  g <- getitem snap "갭상승률" ;;
  snap <- getitem_mask snap (s_ge_c g (Fin 1)) ;;
  e <- is_empty snap ;;
  candidates <-
    (if negb e then
       score3_top snap "갭상승률" "장중등락률" "거래대금"
         (Fin (5 # 10)) (Fin (3 # 10)) (Fin (2 # 10)) top_n
     else ret snap) ;;
  result <- qualify candidates "상승지속" ;;
  e <- is_empty result ;;
  if e then new_frame empty_frame else
  a <- getitem result "갭상승률" ;;
  b <- getitem result "장중등락률" ;;
  setitem result "종합모멘텀" (s_add a b) ;;;
  sorted <- sort_values result "복합점수" ;;
  top <- head_ sorted 3 ;;
  enhance_dataframe top.

Definition trigger_morning_value_to_cap_ratio (trade_date : string)
    (snapshot prev_snapshot cap_df : ref) (top_n : nat) : M ref :=
  e <- is_empty snapshot ;;
  if e then new_frame empty_frame else
  e <- is_empty prev_snapshot ;;
  if e then new_frame empty_frame else
  e <- is_empty cap_df ;;
  if e then new_frame empty_frame else
  cols <- columns_of cap_df ;;
  if negb (mem "시가총액" cols) then new_frame empty_frame else
  try_except
    (capsel <- getitem_cols cap_df "시가총액" ;;
     m <- merge_ snapshot capsel ;;
     merged <- copy m ;;
     mcols <- columns_of merged ;;
     if negb (mem "시가총액" mcols) then new_frame empty_frame else
     mi <- index_of merged ;;
     pi <- index_of prev_snapshot ;;
     let common := intersection mi pi in
     if Nat.eqb (List.length common) 0 then new_frame empty_frame else
     merged <- loc_copy merged common ;;
     prev <- loc_copy prev_snapshot common ;;
     merged <- apply_absolute_filters merged 500000000 ;;
     e <- is_empty merged ;;
     if e then new_frame empty_frame else
     mcols <- columns_of merged ;;
     let missing_columns :=
       filter (fun col => negb (mem col mcols)) ["거래대금"; "시가총액"; "종가"; "시가"] in
     if negb (Nat.eqb (List.length missing_columns) 0) then new_frame empty_frame else
     tv <- getitem merged "거래대금" ;;
     cap <- getitem merged "시가총액" ;;
     setitem merged "거래대금비율" (s_mul_c (s_div tv cap) (Fin 100)) ;;;
     s <- intraday merged ;; setitem merged "장중등락률" s ;;;
     s <- day_over_day merged prev ;; setitem merged "전일대비등락률" s ;;;
     s <- rising merged ;; setitem merged "상승여부" s ;;;
     cap <- getitem merged "시가총액" ;;
     merged <- getitem_mask merged (s_ge_c cap (of_Z 10000000000)) ;;
     e <- is_empty merged ;;
     if e then new_frame empty_frame else
     e <- is_empty merged ;;
     candidates <-
       (if negb e then
          score3_top merged "거래대금비율" "거래대금" "장중등락률"
            (Fin (5 # 10)) (Fin (3 # 10)) (Fin (2 # 10)) top_n
        else ret merged) ;;
     result <- qualify candidates "상승여부" ;;
     e <- is_empty result ;;
     if e then new_frame empty_frame else
     sorted <- sort_values result "복합점수" ;;
     top <- head_ sorted 3 ;;
     enhance_dataframe top)
    (fun _ => new_frame empty_frame).

(** ** Afternoon triggers *)

Definition trigger_afternoon_daily_rise_top (trade_date : string)
    (snapshot prev_snapshot : ref) (top_n : nat) : M ref :=
  si <- index_of snapshot ;;
  pi <- index_of prev_snapshot ;;
  let common := intersection si pi in
  snap <- loc_copy snapshot common ;;
  prev <- loc_copy prev_snapshot common ;;
  snap' <- copy snap ;;
  snap <- apply_absolute_filters snap' 1000000000 ;;
  s <- intraday snap ;; setitem snap "장중등락률" s ;;;
  s <- day_over_day snap prev ;; setitem snap "전일대비등락률" s ;;;
  g <- getitem snap "장중등락률" ;;
  snap <- getitem_mask snap (s_ge_c g (Fin 3)) ;;
  e <- is_empty snap ;;
  if e then new_frame empty_frame else
  scored <- normalize_and_score snap "장중등락률" "거래대금" (Fin (6 # 10)) (Fin (4 # 10)) ;;
  h <- head_ scored top_n ;;
  result <- copy h ;;
  top <- head_ result 3 ;;
  enhance_dataframe top.

Definition trigger_afternoon_closing_strength (trade_date : string)
    (snapshot prev_snapshot : ref) (top_n : nat) : M ref :=
  si <- index_of snapshot ;;
  pi <- index_of prev_snapshot ;;
  let common := intersection si pi in
  snap <- loc_copy snapshot common ;;
  prev <- loc_copy prev_snapshot common ;;
  snap <- apply_absolute_filters snap 500000000 ;;
  setitem_const snap "마감강도" (CNum (Fin 0)) ;;;
  hi <- getitem snap "고가" ;;
  lo <- getitem snap "저가" ;;
  let valid_range := s_ne hi lo in
  c <- getitem snap "종가" ;;
  lo1 <- getitem snap "저가" ;;
  hi2 <- getitem snap "고가" ;;
  lo2 <- getitem snap "저가" ;;
  setitem_where snap valid_range "마감강도"
    (s_div (s_sub (mask_series c valid_range) (mask_series lo1 valid_range))
           (s_sub (mask_series hi2 valid_range) (mask_series lo2 valid_range))) ;;;
  s <- volume_growth snap prev ;; setitem snap "거래량증가율" s ;;;
  s <- intraday snap ;; setitem snap "장중등락률" s ;;;
  s <- day_over_day snap prev ;; setitem snap "전일대비등락률" s ;;;
  v <- getitem snap "거래량" ;;
  pv <- getitem prev "거래량" ;;
  setitem snap "거래량증가" (s_gt_c (s_sub v (s_replace_0_nan pv)) (Fin 0)) ;;;
  s <- rising snap ;; setitem snap "상승여부" s ;;;
  candidates <- qualify snap "거래량증가" ;;
  e <- is_empty candidates ;;
  candidates <-
    (if negb e then
       score3_top candidates "마감강도" "거래량증가율" "거래대금"
         (Fin (5 # 10)) (Fin (3 # 10)) (Fin (2 # 10)) top_n
     else ret candidates) ;;
  result <- qualify candidates "상승여부" ;;
  e <- is_empty result ;;
  if e then new_frame empty_frame else
  sorted <- sort_values result "복합점수" ;;
  top <- head_ sorted 3 ;;
  enhance_dataframe top.

Definition trigger_afternoon_volume_surge_flat (trade_date : string)
    (snapshot prev_snapshot : ref) (top_n : nat) : M ref :=
  si <- index_of snapshot ;;
  pi <- index_of prev_snapshot ;;
  let common := intersection si pi in
  snap <- loc_copy snapshot common ;;
  prev <- loc_copy prev_snapshot common ;;
  snap <- apply_absolute_filters snap 500000000 ;;
  s <- volume_growth snap prev ;; setitem snap "거래량증가율" s ;;;
  s <- intraday snap ;; setitem snap "장중등락률" s ;;;
  s <- day_over_day snap prev ;; setitem snap "전일대비등락률" s ;;;
  i <- getitem snap "장중등락률" ;;
  (* abs(...) <= 5 on the float64 value of (close / open - 1) * 100, which
     is never 5 itself: at close / open = 1.05 it is 5.000000000000004 and
     at 0.95 it is -5.000000000000004, so that on the exact value the
     test is the strict one *)
  setitem snap "횡보여부" (s_lt_c (s_abs i) (Fin 5)) ;;;
  g <- getitem snap "거래량증가율" ;;
  snap <- getitem_mask snap (s_ge_c g (Fin 50)) ;;
  e <- is_empty snap ;;
  if e then new_frame empty_frame else
  scored <- normalize_and_score snap "거래량증가율" "거래대금" (Fin (6 # 10)) (Fin (4 # 10)) ;;
  candidates <- head_ scored top_n ;;
  result <- qualify candidates "횡보여부" ;;
  e <- is_empty result ;;
  if e then new_frame empty_frame else
  sorted <- sort_values result "복합점수" ;;
  top <- head_ sorted 3 ;;
  enhance_dataframe top.

(** ** Final selection *)

(** The dict [triggers]: category name to result table, in insertion order. *)
Definition Triggers : Type := list (string * DataFrame).

Definition PoolEntry : Type := (string * string * float64)%type.

Definition entry_trigger (e : PoolEntry) : string := fst (fst e).
Definition entry_ticker (e : PoolEntry) : string := snd (fst e).
Definition entry_score (e : PoolEntry) : float64 := snd e.

(** [d[k]] *)
Definition dict_get (d : Triggers) (k : string) : DataFrame :=
  match assoc k d with Some df => df | None => empty_frame end.

(** [d[k] = v] *)
Fixpoint dict_set (d : Triggers) (k : string) (v : DataFrame) : Triggers :=
  match d with
  | [] => [(k, v)]
  | (k', v') :: d' =>
      if String.eqb k k' then (k', v) :: d' else (k', v') :: dict_set d' k v
  end.

(** [k in d] *)
Definition dict_has (d : Triggers) (k : string) : bool := mem k (map fst d).

(** [df.loc[t, c]] *)
Definition loc_value (df : DataFrame) (t c : string) : cell :=
  match find (fun r => String.eqb (ticker r) t) (rows df) with
  | Some r => get_cell r c
  | None => CNum NaN
  end.

(** The inner loop [for ticker in df.index] of step 1. *)
Fixpoint collect_tickers (name : string) (df : DataFrame) (idx : list string)
    (all_tickers : list string) (pool : list PoolEntry)
    : list string * list PoolEntry :=
  match idx with
  | [] => (all_tickers, pool)
  | t :: idx' =>
      if mem t all_tickers then collect_tickers name df idx' all_tickers pool
      else
        let score := if mem "복합점수" (columns df)
                     then num (loc_value df t "복합점수") else Fin 0 in
        collect_tickers name df idx' (t :: all_tickers) (pool ++ [(name, t, score)])
  end.

(** The outer loop [for name, df in triggers.items()] of step 1. *)
Fixpoint collect_all (items : Triggers) (all_tickers : list string)
    (pool : list PoolEntry) : list string * list PoolEntry :=
  match items with
  | [] => (all_tickers, pool)
  | (name, df) :: items' =>
      if negb (empty df) then
        let '(all_tickers', pool') :=
          collect_tickers name df (index df) all_tickers pool in
        collect_all items' all_tickers' pool'
      else collect_all items' all_tickers pool
  end.

(** [all_tickers_with_scores], before the sort. *)
Definition all_tickers_with_scores (triggers : Triggers) : list PoolEntry :=
  snd (collect_all triggers [] []).

(** [l.sort(key=lambda x: x[2], reverse=True)]: stable, descending. *)
Definition sort_pool (pool : list PoolEntry) : list PoolEntry :=
  sort_by (fun b a => fgt (entry_score b) (entry_score a)) pool.

Definition free_select (triggers : Triggers) (pool : list PoolEntry) : Triggers :=
  match pool with
  | (best_trigger, best_ticker, _) :: _ =>
      dict_set [] best_trigger (loc (dict_get triggers best_trigger) [best_ticker])
  | [] => []
  end.

(** First premium loop: the top ticker of each trigger. *)
Fixpoint premium_tops (items : Triggers) (premium_result : Triggers)
    (premium_tickers : list string) : Triggers * list string :=
  match items with
  | [] => (premium_result, premium_tickers)
  | (name, df) :: items' =>
      if negb (empty df) && (List.length premium_tickers <? 3)%nat then
        let top_ticker := hd "" (index df) in
        if negb (mem top_ticker premium_tickers) then
          premium_tops items' (dict_set premium_result name (loc df [top_ticker]))
                       (top_ticker :: premium_tickers)
        else premium_tops items' premium_result premium_tickers
      else premium_tops items' premium_result premium_tickers
  end.

(** Second premium loop: fill up from the sorted pool. *)
Fixpoint premium_fill (triggers : Triggers) (pool : list PoolEntry)
    (premium_result : Triggers) (premium_tickers : list string)
    : Triggers * list string :=
  match pool with
  | [] => (premium_result, premium_tickers)
  | (trigger_name, t, _) :: pool' =>
      if negb (mem t premium_tickers) && (List.length premium_tickers <? 3)%nat then
        let row := loc (dict_get triggers trigger_name) [t] in
        let premium_result' :=
          if dict_has premium_result trigger_name
          then dict_set premium_result trigger_name
                 (concat (dict_get premium_result trigger_name) row)
          else dict_set premium_result trigger_name row in
        premium_fill triggers pool' premium_result' (t :: premium_tickers)
      else premium_fill triggers pool' premium_result premium_tickers
  end.

(** The returned dict [{"free": ..., "premium": ...}]. *)
Record Allocation : Type := mkAlloc { free : Triggers; premium : Triggers }.

Definition select_final_tickers (triggers : Triggers) : Allocation :=
  let pool := sort_pool (all_tickers_with_scores triggers) in
  let free_result := free_select triggers pool in
  let '(premium_result, premium_tickers) := premium_tops triggers [] [] in
  let '(premium_result, premium_tickers) :=
    if (List.length premium_tickers <? 3)%nat
    then premium_fill triggers pool premium_result premium_tickers
    else (premium_result, premium_tickers) in
  mkAlloc free_result premium_result.

(** ** Batch driver *)

(** [float(x)] *)
Definition to_float (c : cell) : M cell :=
  match c with
  | CStr _ => raise ConversionError
  | _ => ret (CNum (num c))
  end.

(** [int(x)]: truncation towards zero; NaN and infinities are refused. *)
Definition to_int (c : cell) : M cell :=
  match c with
  | CStr _ => raise ConversionError
  | _ =>
      match num c with
      | Fin q => ret (CNum (of_Z (Z.quot (Qnum q) (Zpos (Qden q)))))
      | _ => raise ConversionError
      end
  end.

(** The record built for one ticker of [stocks_df]. *)
Definition stock_info (trigger_type : string) (stocks_df : DataFrame)
    (t : string) : M StockInfo :=
  let has c := mem c (columns stocks_df) in
  let name := if has "종목명" then loc_value stocks_df t "종목명" else CStr "" in
  current_price <- (if has "종가" then to_float (loc_value stocks_df t "종가")
                    else ret (CNum (Fin 0))) ;;
  change_rate <- (if has "전일대비등락률"
                  then to_float (loc_value stocks_df t "전일대비등락률")
                  else ret (CNum (Fin 0))) ;;
  volume <- (if has "거래량" then to_int (loc_value stocks_df t "거래량")
             else ret (CNum (Fin 0))) ;;
  trade_value <- (if has "거래대금" then to_float (loc_value stocks_df t "거래대금")
                  else ret (CNum (Fin 0))) ;;
  let info := [("code", CStr t); ("name", name); ("current_price", current_price);
               ("change_rate", change_rate); ("volume", volume);
               ("trade_value", trade_value)] in
  if has "거래량증가율" && String.eqb trigger_type "거래량 급증 상위주" then
    v <- to_float (loc_value stocks_df t "거래량증가율") ;;
    ret (info ++ [("volume_increase", v)])%list
  else if has "갭상승률" then
    v <- to_float (loc_value stocks_df t "갭상승률") ;;
    ret (info ++ [("gap_rate", v)])%list
  else if has "거래대금비율" then
    v <- to_float (loc_value stocks_df t "거래대금비율") ;;
    w <- to_float (loc_value stocks_df t "시가총액") ;;
    ret (info ++ [("trade_value_ratio", v); ("market_cap", w)])%list
  else if has "마감강도" then
    v <- to_float (loc_value stocks_df t "마감강도") ;;
    ret (info ++ [("closing_strength", v)])%list
  else ret info.

(** The records of one tier of the output document. *)
Fixpoint tier_records (items : Triggers) : M (list (string * list StockInfo)) :=
  match items with
  | [] => ret []
  | (trigger_type, stocks_df) :: items' =>
      if negb (empty stocks_df) then
        infos <- mapM (stock_info trigger_type stocks_df) (index stocks_df) ;;
        rest <- tier_records items' ;;
        ret ((trigger_type, infos) :: rest)
      else tier_records items'
  end.

Definition write_report (path : string) (doc : Document) : M unit :=
  fun s => (inr tt, mkState (heap s) (fetched s) (Some (path, doc))).

(** [except ValueError] *)
Definition on_value_error {A : Type} (m : M A) (h : M A) : M A :=
  try_except m (fun e => match e with ValueError => h | _ => raise e end).

Definition read_all (rs : list (string * ref)) : M Triggers :=
  mapM (fun p => df <- read (snd p) ;; ret (fst p, df)) rs.

(** The [try]/[except ValueError] block: the snapshot of the trade date
    or, when that raises, of the business day before it. *)
Definition snapshot_or_retry (trade_date : string) : M (ref * string) :=
  on_value_error
    (snapshot <- get_snapshot trade_date ;; ret (snapshot, trade_date))
    (let trade_date := get_nearest_business_day_in_a_week api trade_date in
     snapshot <- get_snapshot trade_date ;; ret (snapshot, trade_date)).

(** The [if]/[elif]/[else] on [trigger_time]; [None] stands for the
    bare [return] of the last branch. *)
Definition run_triggers (trigger_time trade_date : string)
    (snapshot prev_snapshot cap_df : ref) : M (option (list (string * ref))) :=
  if String.eqb trigger_time "morning" then
    res1 <- trigger_morning_volume_surge trade_date snapshot prev_snapshot 10 ;;
    res2 <- trigger_morning_gap_up_momentum trade_date snapshot prev_snapshot 15 ;;
    res3 <- trigger_morning_value_to_cap_ratio trade_date snapshot prev_snapshot cap_df 10 ;;
    ret (Some [("거래량 급증 상위주", res1); ("갭 상승 모멘텀 상위주", res2);
               ("시총 대비 집중 자금 유입 상위주", res3)])
  else if String.eqb trigger_time "afternoon" then
    res1 <- trigger_afternoon_daily_rise_top trade_date snapshot prev_snapshot 15 ;;
    res2 <- trigger_afternoon_closing_strength trade_date snapshot prev_snapshot 15 ;;
    res3 <- trigger_afternoon_volume_surge_flat trade_date snapshot prev_snapshot 20 ;;
    ret (Some [("일중 상승률 상위주", res1); ("마감 강도 상위주", res2);
               ("거래량 증가 상위 횡보주", res3)])
  else ret None.

(** The [if output_file:] block. *)
Definition save_results (output_file : option string) (trigger_time trade_date : string)
    (final_results : Allocation) : M unit :=
  match output_file with
  | Some path =>
      if negb (String.eqb path "") then
        f <- tier_records (free final_results) ;;
        p <- tier_records (premium final_results) ;;
        write_report path
          (mkDoc f p [("run_time", now_iso api); ("trigger_mode", trigger_time);
                      ("trade_date", trade_date)])
      else ret tt
  | None => ret tt
  end.

Definition run_batch (trigger_time : string) (log_level : string)
    (output_file : option string) : M (option Allocation) :=
  let numeric_level := logging_getattr (str_upper api log_level) in
  setLevel numeric_level ;;;   (* logger.setLevel *)
  setLevel numeric_level ;;;   (* ch.setLevel *)
  let trade_date := get_nearest_business_day_in_a_week api (today_str api) in
  sd <- snapshot_or_retry trade_date ;;
  let snapshot := fst sd in
  let trade_date := snd sd in
  pp <- get_previous_snapshot trade_date ;;
  let prev_snapshot := fst pp in
  cap_df <- get_market_cap_df trade_date ;;
  triggers <- run_triggers trigger_time trade_date snapshot prev_snapshot cap_df ;;
  match triggers with
  | None => ret None
  | Some refs =>
      triggers <- read_all refs ;;
      let final_results := select_final_tickers triggers in
      save_results output_file trigger_time trade_date final_results ;;;
      ret (Some final_results)
  end.

End Program.

Unset Implicit Arguments.
Open Scope list_scope.

(* ================================================================== *)
(** * Facts about float64 values and reductions *)
(* ================================================================== *)

Module FloatFacts.

Lemma fgt_fin (a b : Q) : fgt (Fin a) (Fin b) = true <-> (b < a)%Q.
Proof.
  unfold fgt; simpl. rewrite Qgt_alt.
  destruct (a ?= b)%Q; split; intro H; congruence.
Qed.

Lemma fgt_fin_false (a b : Q) : fgt (Fin a) (Fin b) = false <-> (a <= b)%Q.
Proof.
  rewrite <- Bool.not_true_iff_false, fgt_fin. split.
  - apply Qnot_lt_le.
  - apply Qle_not_lt.
Qed.

Lemma flt_fin (a b : Q) : flt (Fin a) (Fin b) = true <-> (a < b)%Q.
Proof.
  unfold flt; simpl. rewrite Qlt_alt.
  destruct (a ?= b)%Q; split; intro H; congruence.
Qed.

Lemma flt_fin_false (a b : Q) : flt (Fin a) (Fin b) = false <-> (b <= a)%Q.
Proof.
  rewrite <- Bool.not_true_iff_false, flt_fin. split.
  - apply Qnot_lt_le.
  - apply Qle_not_lt.
Qed.


(** NaN is absorbing for the arithmetic the program performs. *)
Lemma nan_propagates (x : float64) :
  fadd NaN x = NaN /\ fadd x NaN = NaN /\ fsub NaN x = NaN /\ fsub x NaN = NaN /\
  fmul NaN x = NaN /\ fmul x NaN = NaN /\ fdiv NaN x = NaN /\ fdiv x NaN = NaN.
Proof. destruct x; repeat split; reflexivity. Qed.

(** The running maximum over finite values. *)
Lemma fold_max_fin (qs : list Q) (a : Q) :
  exists m, fold_left fmax_skipna (map Fin qs) (Fin a) = Fin m /\
            In m (a :: qs) /\ (forall x, In x (a :: qs) -> (x <= m)%Q).
Proof.
  revert a. induction qs as [|q qs IH]; intros a; simpl.
  - exists a. split; [reflexivity|]. split; [now left|].
    intros x [->|[]]. apply Qle_refl.
  - unfold fmax_skipna at 2. simpl.
    destruct (fgt (Fin q) (Fin a)) eqn:E.
    + apply fgt_fin in E. destruct (IH q) as (m & Hm & Hin & Hle).
      exists m. split; [exact Hm|]. split.
      * destruct Hin as [<-|Hin]; [right; now left | right; now right].
      * intros x [<-|[<-|Hx]].
        -- apply Qle_trans with q; [now apply Qlt_le_weak | apply Hle; now left].
        -- apply Hle; now left.
        -- apply Hle; now right.
    + apply fgt_fin_false in E. destruct (IH a) as (m & Hm & Hin & Hle).
      exists m. split; [exact Hm|]. split.
      * destruct Hin as [<-|Hin]; [now left | right; now right].
      * intros x [<-|[<-|Hx]].
        -- apply Hle; now left.
        -- apply Qle_trans with a; [exact E | apply Hle; now left].
        -- apply Hle; now right.
Qed.

Lemma fold_min_fin (qs : list Q) (a : Q) :
  exists m, fold_left fmin_skipna (map Fin qs) (Fin a) = Fin m /\
            In m (a :: qs) /\ (forall x, In x (a :: qs) -> (m <= x)%Q).
Proof.
  revert a. induction qs as [|q qs IH]; intros a; simpl.
  - exists a. split; [reflexivity|]. split; [now left|].
    intros x [->|[]]. apply Qle_refl.
  - unfold fmin_skipna at 2. simpl.
    destruct (flt (Fin q) (Fin a)) eqn:E.
    + apply flt_fin in E. destruct (IH q) as (m & Hm & Hin & Hle).
      exists m. split; [exact Hm|]. split.
      * destruct Hin as [<-|Hin]; [right; now left | right; now right].
      * intros x [<-|[<-|Hx]].
        -- apply Qle_trans with q; [apply Hle; now left | now apply Qlt_le_weak].
        -- apply Hle; now left.
        -- apply Hle; now right.
    + apply flt_fin_false in E. destruct (IH a) as (m & Hm & Hin & Hle).
      exists m. split; [exact Hm|]. split.
      * destruct Hin as [<-|Hin]; [now left | right; now right].
      * intros x [<-|[<-|Hx]].
        -- apply Hle; now left.
        -- apply Qle_trans with a; [apply Hle; now left | exact E].
        -- apply Hle; now right.
Qed.

Lemma s_max_fin (s : Series) (qs : list Q) :
  values s = map Fin qs -> qs <> [] ->
  exists m, s_max s = Fin m /\ In m qs /\ (forall x, In x qs -> (x <= m)%Q).
Proof.
  intros Hv Hne. unfold s_max. rewrite Hv.
  destruct qs as [|q qs]; [congruence|]. simpl.
  apply fold_max_fin.
Qed.

Lemma s_min_fin (s : Series) (qs : list Q) :
  values s = map Fin qs -> qs <> [] ->
  exists m, s_min s = Fin m /\ In m qs /\ (forall x, In x qs -> (m <= x)%Q).
Proof.
  intros Hv Hne. unfold s_min. rewrite Hv.
  destruct qs as [|q qs]; [congruence|]. simpl.
  apply fold_min_fin.
Qed.

End FloatFacts.

(* ================================================================== *)
(** * Min-max normalisation *)
(* ================================================================== *)

Module Normalization.
Import FloatFacts.

Lemma normalize_entry_fin (x mn r : Q) :
  ~ (r == 0)%Q ->
  fdiv (fsub (Fin x) (Fin mn)) (Fin r) = Fin ((x + - mn) / r).
Proof.
  intros Hr. simpl.
  destruct (r ?= 0)%Q eqn:E; try reflexivity.
  apply Qeq_alt in E. contradiction.
Qed.

End Normalization.

(* ================================================================== *)
(** * Facts about the stable sort *)
(* ================================================================== *)

Module SortFacts.

Section SortBy.

Variable A : Type.
Variable goes_before : A -> A -> bool.

Lemma insert_by_perm (a : A) (l : list A) :
  Permutation (insert_by goes_before a l) (a :: l).
Proof.
  induction l as [|b l IH]; simpl.
  - apply Permutation_refl.
  - destruct (goes_before b a).
    + apply Permutation_trans with (b :: a :: l).
      * apply perm_skip. exact IH.
      * apply perm_swap.
    + apply Permutation_refl.
Qed.

Lemma sort_by_perm (l : list A) : Permutation (sort_by goes_before l) l.
Proof.
  unfold sort_by. induction l as [|a l IH]; simpl.
  - apply perm_nil.
  - apply Permutation_trans with (a :: fold_right (insert_by goes_before) [] l).
    + apply insert_by_perm.
    + apply perm_skip. exact IH.
Qed.

Lemma sort_by_in (x : A) (l : list A) : In x (sort_by goes_before l) <-> In x l.
Proof.
  split; apply Permutation_in.
  - apply sort_by_perm.
  - apply Permutation_sym, sort_by_perm.
Qed.

Lemma sort_by_length (l : list A) : List.length (sort_by goes_before l) = List.length l.
Proof. apply Permutation_length, sort_by_perm. Qed.

Lemma sort_by_nil (l : list A) : sort_by goes_before l = [] <-> l = [].
Proof.
  split; intros H.
  - apply length_zero_iff_nil. rewrite <- sort_by_length, H. reflexivity.
  - subst. reflexivity.
Qed.

Lemma sort_by_Forall (P : A -> Prop) (l : list A) :
  Forall P l -> Forall P (sort_by goes_before l).
Proof.
  intros H. apply Forall_forall. intros x Hx.
  apply (proj1 (sort_by_in x l)) in Hx. exact (proj1 (Forall_forall _ _) H x Hx).
Qed.

(** [x] does not come after [y]: [y] does not go strictly before [x]. *)
Definition not_after (x y : A) : Prop := goes_before y x = false.

(** The order need only behave on the elements that are sorted. *)
Variable ok : A -> Prop.
Hypothesis asym : forall a b, ok a -> ok b ->
  goes_before b a = true -> goes_before a b = false.
Hypothesis neg_trans : forall a b c, ok a -> ok b -> ok c ->
  goes_before b a = false -> goes_before c b = false -> goes_before c a = false.

Lemma insert_by_sorted (a : A) (l : list A) :
  ok a -> Forall ok l ->
  StronglySorted not_after l -> StronglySorted not_after (insert_by goes_before a l).
Proof.
  intros Ha Hl Hs. induction Hs as [|b l Hs IH Hb]; simpl.
  - constructor; constructor.
  - inversion Hl as [|? ? Hokb Hokl]; subst.
    destruct (goes_before b a) eqn:E.
    + constructor.
      * apply IH. exact Hokl.
      * apply Forall_forall. intros x Hx.
        apply (Permutation_in _ (insert_by_perm a l)) in Hx.
        destruct Hx as [<-|Hx].
        -- unfold not_after. apply asym; assumption.
        -- exact (proj1 (Forall_forall _ _) Hb x Hx).
    + constructor.
      * constructor; assumption.
      * constructor; [exact E|].
        apply Forall_forall. intros x Hx.
        unfold not_after.
        apply neg_trans with b; try assumption.
        -- exact (proj1 (Forall_forall _ _) Hokl x Hx).
        -- rewrite Forall_forall in Hb. apply Hb. exact Hx.
Qed.

Lemma sort_by_sorted (l : list A) :
  Forall ok l -> StronglySorted not_after (sort_by goes_before l).
Proof.
  unfold sort_by. induction l as [|a l IH]; intros H; simpl.
  - constructor.
  - inversion H; subst. apply insert_by_sorted.
    + assumption.
    + apply sort_by_Forall. assumption.
    + apply IH. assumption.
Qed.

(** The first element of the sorted list is not after any element. *)
Lemma sort_by_head (l : list A) (h : A) (t : list A) :
  Forall ok l -> sort_by goes_before l = h :: t ->
  forall x, In x l -> x = h \/ not_after h x.
Proof.
  intros Hok E x Hx.
  pose proof (sort_by_sorted l Hok) as Hs. rewrite E in Hs.
  apply (proj2 (sort_by_in x l)) in Hx. rewrite E in Hx.
  destruct Hx as [<-|Hx]; [now left | right].
  inversion Hs as [|? ? _ Hall]; subst.
  rewrite Forall_forall in Hall. apply Hall. exact Hx.
Qed.

End SortBy.

(** ** The pandas order: descending, NaN last *)

Lemma before_asym (x y : float64) : before y x = true -> before x y = false.
Proof.
  destruct x as [a| | |], y as [b| | |]; simpl; intros H;
    try reflexivity; try discriminate H.
  apply FloatFacts.fgt_fin in H.
  apply FloatFacts.fgt_fin_false. apply Qlt_le_weak. exact H.
Qed.

Lemma before_neg_trans (x y z : float64) :
  before y x = false -> before z y = false -> before z x = false.
Proof.
  destruct x as [a| | |], y as [b| | |], z as [c| | |]; simpl; intros H1 H2;
    try reflexivity; try discriminate H1; try discriminate H2.
  apply FloatFacts.fgt_fin_false in H1. apply FloatFacts.fgt_fin_false in H2.
  apply FloatFacts.fgt_fin_false. apply Qle_trans with b; assumption.
Qed.

(** [sort_desc] orders by descending key. *)
Lemma sort_desc_sorted {A : Type} (key : A -> float64) (l : list A) :
  StronglySorted (fun x y => before (key y) (key x) = false) (sort_desc key l).
Proof.
  unfold sort_desc.
  apply (sort_by_sorted A (fun b a => before (key b) (key a)) (fun _ => True)).
  - intros a b _ _. apply before_asym.
  - intros a b c _ _ _. apply before_neg_trans.
  - apply Forall_forall. intros; exact I.
Qed.

Lemma sort_desc_perm {A : Type} (key : A -> float64) (l : list A) :
  Permutation (sort_desc key l) l.
Proof. apply sort_by_perm. Qed.

End SortFacts.

(* ================================================================== *)
(** * The final allocator *)
(* ================================================================== *)

Module Selection.
Import SortFacts.

(** All tickers of a tier, over all its categories. *)
Definition tickers_of (d : Triggers) : list string :=
  flat_map (fun p => index (snd p)) d.

(** The index labels of a table are pairwise distinct. *)
Definition unique_index (df : DataFrame) : Prop := NoDup (index df).

Definition unique_indexes (t : Triggers) : Prop :=
  Forall (fun p => unique_index (snd p)) t.

(** ** Lists *)

Lemma mem_In (x : string) (l : list string) : mem x l = true <-> In x l.
Proof.
  unfold mem. rewrite existsb_exists. split.
  - intros (y & Hy & E). apply String.eqb_eq in E. now subst.
  - intros H. exists x. split; [exact H | apply String.eqb_refl].
Qed.

Lemma mem_not_In (x : string) (l : list string) : mem x l = false <-> ~ In x l.
Proof.
  rewrite <- mem_In. destruct (mem x l); split; intro H; congruence.
Qed.

(** Dropping rows keeps the labels distinct. *)
Lemma filter_rows_NoDup (keep : Row -> bool) (rs : list Row) :
  NoDup (map ticker rs) -> NoDup (map ticker (filter keep rs)).
Proof.
  induction rs as [|r rs IH]; simpl; intros H; [constructor|].
  inversion H as [|? ? Hn Hd]; subst.
  destruct (keep r); simpl.
  - constructor; [|apply IH; exact Hd].
    intros Hin. apply Hn. apply in_map_iff in Hin.
    destruct Hin as (x & E & Hx). apply filter_In in Hx.
    apply in_map_iff. exists x. tauto.
  - apply IH; exact Hd.
Qed.

(** ** [df.loc[[t]]] *)

Lemma index_loc_single (df : DataFrame) (t : string) :
  index (loc df [t]) =
  map ticker (filter (fun r => String.eqb (ticker r) t) (rows df)).
Proof. unfold index, loc. simpl. rewrite app_nil_r. reflexivity. Qed.

Lemma index_loc_single_eq (df : DataFrame) (t x : string) :
  In x (index (loc df [t])) -> x = t.
Proof.
  rewrite index_loc_single. intros H. apply in_map_iff in H.
  destruct H as (r & E & Hr). apply filter_In in Hr.
  destruct Hr as [_ Hr]. apply String.eqb_eq in Hr. congruence.
Qed.

Lemma index_loc_single_NoDup (df : DataFrame) (t : string) :
  unique_index df -> NoDup (index (loc df [t])).
Proof.
  intros H. rewrite index_loc_single. apply filter_rows_NoDup. exact H.
Qed.

Lemma filter_ticker_none (l : list Row) (t : string) :
  ~ In t (map ticker l) ->
  filter (fun r => String.eqb (ticker r) t) l = [].
Proof.
  induction l as [|b l IH]; simpl; intros Hn; [reflexivity|].
  destruct (String.eqb (ticker b) t) eqn:E.
  - apply String.eqb_eq in E. exfalso. apply Hn. now left.
  - apply IH. intros H. apply Hn. now right.
Qed.

Lemma filter_eq_single (l : list Row) (t : string) :
  NoDup (map ticker l) -> In t (map ticker l) ->
  map ticker (filter (fun r => String.eqb (ticker r) t) l) = [t].
Proof.
  induction l as [|a l IH]; simpl; intros Hnd Hin; [contradiction|].
  inversion Hnd as [|? ? Hn Hd]; subst.
  destruct (String.eqb (ticker a) t) eqn:E.
  - apply String.eqb_eq in E. subst t. simpl. f_equal.
    rewrite filter_ticker_none; [reflexivity | exact Hn].
  - apply String.eqb_neq in E. destruct Hin as [Hin|Hin]; [contradiction|].
    apply IH; assumption.
Qed.

Lemma index_loc_single_in (df : DataFrame) (t : string) :
  unique_index df -> In t (index df) -> index (loc df [t]) = [t].
Proof.
  intros Hu Hin. rewrite index_loc_single. apply filter_eq_single; assumption.
Qed.

(** ** Dict updates and the tickers of a tier *)

Lemma index_concat (a b : DataFrame) : index (concat a b) = index a ++ index b.
Proof. unfold index, concat. simpl. apply map_app. Qed.

Lemma index_dict_get_incl (d : Triggers) (k : string) :
  incl (index (dict_get d k)) (tickers_of d).
Proof.
  unfold dict_get. induction d as [|[k' v'] d IH]; simpl.
  - intros x [].
  - destruct (String.eqb k k').
    + intros x Hx. apply in_or_app. now left.
    + intros x Hx. apply in_or_app. right. apply IH. exact Hx.
Qed.

Lemma tickers_dict_set_in (d : Triggers) (k : string) (v : DataFrame) (x : string) :
  In x (tickers_of (dict_set d k v)) -> In x (tickers_of d) \/ In x (index v).
Proof.
  induction d as [|[k' v'] d IH]; simpl.
  - rewrite app_nil_r. tauto.
  - destruct (String.eqb k k'); simpl; intros H; apply in_app_or in H.
    + destruct H as [H|H]; [now right | left; apply in_or_app; now right].
    + destruct H as [H|H].
      * left; apply in_or_app; now left.
      * destruct (IH H) as [H'|H']; [left; apply in_or_app; now right | now right].
Qed.

Lemma NoDup_app_intro {A : Type} (l1 l2 : list A) :
  NoDup l1 -> NoDup l2 -> (forall x, In x l1 -> In x l2 -> False) -> NoDup (l1 ++ l2).
Proof.
  induction l1 as [|a l1 IH]; simpl; intros H1 H2 Hd; [exact H2|].
  inversion H1 as [|? ? Hn Hd1]; subst. constructor.
  - intros Hin. apply in_app_or in Hin. destruct Hin as [Hin|Hin].
    + contradiction.
    + apply (Hd a); [now left | exact Hin].
  - apply IH; try assumption. intros x Hx. apply Hd. now right.
Qed.

Lemma NoDup_app_l {A : Type} (l1 l2 : list A) : NoDup (l1 ++ l2) -> NoDup l1.
Proof.
  induction l1 as [|a l1 IH]; simpl; intros H; [constructor|].
  inversion H as [|? ? Hn Hd]; subst. constructor.
  - intros Hin. apply Hn. apply in_or_app. now left.
  - apply IH. exact Hd.
Qed.

Lemma NoDup_app_r {A : Type} (l1 l2 : list A) : NoDup (l1 ++ l2) -> NoDup l2.
Proof.
  induction l1 as [|a l1 IH]; simpl; intros H; [exact H|].
  inversion H; subst. apply IH. assumption.
Qed.

Lemma NoDup_app_disjoint {A : Type} (l1 l2 : list A) (x : A) :
  NoDup (l1 ++ l2) -> In x l1 -> In x l2 -> False.
Proof.
  induction l1 as [|a l1 IH]; simpl; intros H H1 H2; [contradiction|].
  inversion H as [|? ? Hn Hd]; subst. destruct H1 as [->|H1].
  - apply Hn. apply in_or_app. now right.
  - apply IH; assumption.
Qed.

(** Updating a key keeps the tickers of the tier distinct when the new
    table only shares tickers with the table it replaces. *)
Lemma NoDup_tickers_dict_set (d : Triggers) (k : string) (v : DataFrame) :
  NoDup (tickers_of d) -> NoDup (index v) ->
  (forall x, In x (index v) -> In x (tickers_of d) -> In x (index (dict_get d k))) ->
  NoDup (tickers_of (dict_set d k v)).
Proof.
  unfold dict_get.
  induction d as [|[k' v'] d IH]; simpl; intros Hd Hv Hov.
  - rewrite app_nil_r. exact Hv.
  - destruct (String.eqb k k') eqn:E; simpl.
    + apply NoDup_app_intro; [exact Hv | eapply NoDup_app_r; exact Hd |].
      intros x Hx Hx'.
      assert (In x (index v')) as Hxv.
      { apply Hov; [exact Hx | apply in_or_app; now right]. }
      exact (NoDup_app_disjoint _ _ x Hd Hxv Hx').
    + apply NoDup_app_intro.
      * eapply NoDup_app_l; exact Hd.
      * apply IH; [eapply NoDup_app_r; exact Hd | exact Hv |].
        intros x Hx Hx'. apply Hov; [exact Hx | apply in_or_app; now right].
      * intros x Hx Hx'. apply tickers_dict_set_in in Hx'.
        destruct Hx' as [Hx'|Hx'].
        -- exact (NoDup_app_disjoint _ _ x Hd Hx Hx').
        -- assert (In x (index match assoc k d with Some df => df | None => empty_frame end)) as Hg.
           { apply Hov; [exact Hx' | apply in_or_app; now left]. }
           apply (NoDup_app_disjoint _ _ x Hd Hx).
           apply (index_dict_get_incl d k). exact Hg.
Qed.

(** ** The premium tier *)

(** What both premium loops maintain: the tickers stored in the result
    are pairwise distinct and all recorded in [premium_tickers], which
    has no repetition and at most three members. *)
Definition premium_inv (d : Triggers) (pt : list string) : Prop :=
  NoDup (tickers_of d) /\ incl (tickers_of d) pt /\
  NoDup pt /\ (List.length pt <= 3)%nat.

Lemma premium_inv_add (d : Triggers) (pt : list string) (k t : string) (v : DataFrame) :
  premium_inv d pt ->
  ~ In t pt -> (List.length pt < 3)%nat ->
  NoDup (index v) ->
  (forall x, In x (index v) -> x = t \/ In x (index (dict_get d k))) ->
  premium_inv (dict_set d k v) (t :: pt).
Proof.
  intros (Hnd & Hincl & Hpt & Hlen) Hnt Hlt Hv Hsrc.
  split; [|split; [|split]].
  - apply NoDup_tickers_dict_set; try assumption.
    intros x Hx Hxd. destruct (Hsrc x Hx) as [->|H]; [|exact H].
    exfalso. apply Hnt. apply Hincl. exact Hxd.
  - intros x Hx. apply tickers_dict_set_in in Hx. destruct Hx as [Hx|Hx].
    + right. apply Hincl. exact Hx.
    + destruct (Hsrc x Hx) as [->|H]; [now left|].
      right. apply Hincl. apply (index_dict_get_incl d k). exact H.
  - constructor; assumption.
  - simpl. lia.
Qed.

Lemma premium_tops_inv (items d : Triggers) (pt : list string) :
  unique_indexes items -> premium_inv d pt ->
  premium_inv (fst (premium_tops items d pt)) (snd (premium_tops items d pt)).
Proof.
  revert d pt. induction items as [|[name df] items IH]; intros d pt Hu Hinv; simpl.
  - exact Hinv.
  - inversion Hu as [|? ? Hdf Hrest]; subst. simpl in Hdf.
    destruct (negb (empty df) && (List.length pt <? 3)%nat) eqn:C; [|apply IH; assumption].
    apply andb_true_iff in C. destruct C as [_ C]. apply Nat.ltb_lt in C.
    destruct (negb (mem (hd "" (index df)) pt)) eqn:Hm; [|apply IH; assumption].
    apply negb_true_iff, mem_not_In in Hm.
    apply IH; [assumption|].
    apply premium_inv_add; try assumption.
    + apply index_loc_single_NoDup. exact Hdf.
    + intros x Hx. left. apply (index_loc_single_eq df). exact Hx.
Qed.

Lemma dict_get_index_NoDup (d : Triggers) (k : string) :
  unique_indexes d -> unique_index (dict_get d k).
Proof.
  unfold dict_get. induction d as [|[k' v'] d IH]; simpl; intros Hu.
  - constructor.
  - inversion Hu; subst. destruct (String.eqb k k'); [assumption | apply IH; assumption].
Qed.

Lemma dict_get_sub_NoDup (d : Triggers) (k : string) :
  NoDup (tickers_of d) -> NoDup (index (dict_get d k)).
Proof.
  unfold dict_get. induction d as [|[k' v'] d IHd]; simpl; intros Hnd; [constructor|].
  destruct (String.eqb k k').
  - eapply NoDup_app_l. exact Hnd.
  - apply IHd. eapply NoDup_app_r. exact Hnd.
Qed.

Lemma premium_fill_inv (triggers : Triggers) (pool : list PoolEntry)
    (d : Triggers) (pt : list string) :
  unique_indexes triggers -> premium_inv d pt ->
  premium_inv (fst (premium_fill triggers pool d pt))
              (snd (premium_fill triggers pool d pt)).
Proof.
  intros Hu. revert d pt.
  induction pool as [|[[name t] sc] pool IH]; intros d pt Hinv; simpl.
  - exact Hinv.
  - destruct (negb (mem t pt) && (List.length pt <? 3)%nat) eqn:C; [|apply IH; assumption].
    apply andb_true_iff in C. destruct C as [Hm C].
    apply Nat.ltb_lt in C. apply negb_true_iff, mem_not_In in Hm.
    apply IH.
    assert (unique_index (loc (dict_get triggers name) [t])) as Hrow.
    { apply index_loc_single_NoDup. apply dict_get_index_NoDup. exact Hu. }
    destruct (dict_has d name).
    + apply premium_inv_add; try assumption.
      * rewrite index_concat. apply NoDup_app_intro.
        -- apply dict_get_sub_NoDup. destruct Hinv as (Hnd & _). exact Hnd.
        -- exact Hrow.
        -- intros x Hx Hx'. apply index_loc_single_eq in Hx'. subst x.
           apply Hm. destruct Hinv as (_ & Hincl & _). apply Hincl.
           apply (index_dict_get_incl d name). exact Hx.
      * intros x Hx. rewrite index_concat in Hx. apply in_app_or in Hx.
        destruct Hx as [Hx|Hx]; [now right | left].
        apply (index_loc_single_eq (dict_get triggers name)). exact Hx.
    + apply premium_inv_add; try assumption.
      intros x Hx. left.
      apply (index_loc_single_eq (dict_get triggers name)). exact Hx.
Qed.

Lemma premium_inv_init : premium_inv [] [].
Proof.
  split; [constructor|]. split; [intros x []|]. split; [constructor | simpl; lia].
Qed.

(** The premium tier as the two loops compute it. *)
Definition premium_select (triggers : Triggers) : Triggers * list string :=
  let pool := sort_pool (all_tickers_with_scores triggers) in
  let r := premium_tops triggers [] [] in
  if (List.length (snd r) <? 3)%nat
  then premium_fill triggers pool (fst r) (snd r)
  else r.

Lemma premium_select_eq (triggers : Triggers) :
  premium (select_final_tickers triggers) = fst (premium_select triggers).
Proof.
  unfold select_final_tickers, premium_select.
  destruct (premium_tops triggers [] []) as [r pt]. simpl.
  destruct (List.length pt <? 3)%nat.
  - destruct (premium_fill triggers _ r pt). reflexivity.
  - reflexivity.
Qed.

Lemma premium_select_inv (triggers : Triggers) :
  unique_indexes triggers ->
  premium_inv (fst (premium_select triggers)) (snd (premium_select triggers)).
Proof.
  intros Hu. unfold premium_select.
  pose proof (premium_tops_inv triggers [] [] Hu premium_inv_init) as H1.
  cbv zeta. destruct (List.length (snd (premium_tops triggers [] [])) <? 3)%nat.
  - apply premium_fill_inv; [exact Hu|].
    destruct (premium_tops triggers [] []); exact H1.
  - exact H1.
Qed.

(** C2.  Whatever the trigger results (tables keyed by distinct tickers),
    no ticker occurs twice in the premium tier, over all its categories,
    and the premium tier holds at most three tickers. *)
Theorem premium_no_duplicate_at_most_three (triggers : Triggers) :
  unique_indexes triggers ->
  NoDup (tickers_of (premium (select_final_tickers triggers))) /\
  (List.length (tickers_of (premium (select_final_tickers triggers))) <= 3)%nat.
Proof.
  intros Hu. rewrite premium_select_eq.
  destruct (premium_select_inv triggers Hu) as (Hnd & Hincl & Hpt & Hlen).
  split; [exact Hnd|].
  apply Nat.le_trans with (List.length (snd (premium_select triggers))); [|exact Hlen].
  apply NoDup_incl_length; assumption.
Qed.

(** ** The pool and the free tier *)

(** The score the pool records for ticker [t] of table [df]. *)
Definition score_in (df : DataFrame) (t : string) : float64 :=
  if mem "복합점수" (columns df) then num (loc_value df t "복합점수") else Fin 0.

Definition entries_of (name : string) (df : DataFrame) : list PoolEntry :=
  map (fun t => (name, t, score_in df t)) (index df).

(** Every ticker-per-category occurrence over the non-empty tables, in
    category order: the flat pool as the specification describes it. *)
Definition occurrences (triggers : Triggers) : list PoolEntry :=
  flat_map (fun p => if negb (empty (snd p)) then entries_of (fst p) (snd p) else [])
           triggers.

(** Keep, for each ticker not yet seen, its first entry only. *)
Fixpoint first_per_ticker (seen : list string) (l : list PoolEntry) : list PoolEntry :=
  match l with
  | [] => []
  | e :: l' =>
      if mem (entry_ticker e) seen then first_per_ticker seen l'
      else e :: first_per_ticker (entry_ticker e :: seen) l'
  end.

Fixpoint seen_after (seen : list string) (l : list PoolEntry) : list string :=
  match l with
  | [] => seen
  | e :: l' =>
      if mem (entry_ticker e) seen then seen_after seen l'
      else seen_after (entry_ticker e :: seen) l'
  end.

Lemma first_per_ticker_app (seen : list string) (l1 l2 : list PoolEntry) :
  first_per_ticker seen (l1 ++ l2) =
  first_per_ticker seen l1 ++ first_per_ticker (seen_after seen l1) l2.
Proof.
  revert seen. induction l1 as [|e l1 IH]; intros seen; simpl; [reflexivity|].
  destruct (mem (entry_ticker e) seen); simpl; rewrite IH; reflexivity.
Qed.

Lemma seen_after_app (seen : list string) (l1 l2 : list PoolEntry) :
  seen_after seen (l1 ++ l2) = seen_after (seen_after seen l1) l2.
Proof.
  revert seen. induction l1 as [|e l1 IH]; intros seen; simpl; [reflexivity|].
  destruct (mem (entry_ticker e) seen); apply IH.
Qed.

Lemma collect_tickers_spec (name : string) (df : DataFrame) (idx seen : list string)
    (pool : list PoolEntry) :
  collect_tickers name df idx seen pool =
  (seen_after seen (map (fun t => (name, t, score_in df t)) idx),
   pool ++ first_per_ticker seen (map (fun t => (name, t, score_in df t)) idx)).
Proof.
  revert seen pool. induction idx as [|t idx IH]; intros seen pool; simpl.
  - rewrite app_nil_r. reflexivity.
  - unfold entry_ticker at 1 3. simpl.
    destruct (mem t seen).
    + apply IH.
    + rewrite IH. rewrite <- app_assoc. reflexivity.
Qed.

Lemma collect_all_spec (items : Triggers) (seen : list string) (pool : list PoolEntry) :
  collect_all items seen pool =
  (seen_after seen (occurrences items), pool ++ first_per_ticker seen (occurrences items)).
Proof.
  revert seen pool. induction items as [|[name df] items IH]; intros seen pool; simpl.
  - rewrite app_nil_r. reflexivity.
  - destruct (negb (empty df)); simpl.
    + rewrite collect_tickers_spec, IH.
      unfold entries_of. rewrite seen_after_app, first_per_ticker_app, app_assoc.
      reflexivity.
    + apply IH.
Qed.

(** The pool is the flat list of occurrences with the repeated tickers
    dropped. *)
Lemma pool_is_first_per_ticker (triggers : Triggers) :
  all_tickers_with_scores triggers = first_per_ticker [] (occurrences triggers).
Proof.
  unfold all_tickers_with_scores. rewrite collect_all_spec. reflexivity.
Qed.

Lemma first_per_ticker_in (seen : list string) (l : list PoolEntry) (e : PoolEntry) :
  In e (first_per_ticker seen l) -> In e l /\ ~ In (entry_ticker e) seen.
Proof.
  revert seen. induction l as [|a l IH]; intros seen; simpl; [tauto|].
  destruct (mem (entry_ticker a) seen) eqn:E.
  - intros H. destruct (IH _ H). tauto.
  - apply mem_not_In in E. intros [<-|H]; [tauto|].
    destruct (IH _ H) as [H1 H2]. split; [tauto|].
    intros H3. apply H2. now right.
Qed.

Lemma first_per_ticker_NoDup (seen : list string) (l : list PoolEntry) :
  NoDup (map entry_ticker (first_per_ticker seen l)).
Proof.
  revert seen. induction l as [|a l IH]; intros seen; simpl; [constructor|].
  destruct (mem (entry_ticker a) seen); [apply IH|].
  simpl. constructor; [|apply IH].
  intros H. apply in_map_iff in H. destruct H as (e & E & He).
  apply first_per_ticker_in in He. destruct He as [_ He].
  apply He. left. symmetry. exact E.
Qed.

Lemma first_per_ticker_cover (seen : list string) (l : list PoolEntry) (e : PoolEntry) :
  In e l -> ~ In (entry_ticker e) seen ->
  exists e', In e' (first_per_ticker seen l) /\ entry_ticker e' = entry_ticker e.
Proof.
  revert seen. induction l as [|a l IH]; intros seen; simpl; [tauto|].
  intros Hin Hns.
  destruct (mem (entry_ticker a) seen) eqn:E.
  - apply mem_In in E. destruct Hin as [->|Hin]; [contradiction|].
    apply IH; assumption.
  - destruct (string_dec (entry_ticker a) (entry_ticker e)) as [Eq|Ne].
    + exists a. split; [now left | exact Eq].
    + destruct Hin as [->|Hin]; [congruence|].
      destruct (IH (entry_ticker a :: seen) Hin) as (e' & He' & Et).
      * intros [H|H]; [congruence | contradiction].
      * exists e'. split; [now right | exact Et].
Qed.

Lemma occurrences_in (triggers : Triggers) (e : PoolEntry) :
  In e (occurrences triggers) ->
  exists df, In (entry_trigger e, df) triggers /\ empty df = false /\
             In (entry_ticker e) (index df) /\
             entry_score e = score_in df (entry_ticker e).
Proof.
  unfold occurrences. intros H. apply in_flat_map in H.
  destruct H as ([name df] & Hin & He). simpl in He.
  destruct (empty df) eqn:E; simpl in He; [contradiction|].
  unfold entries_of in He. apply in_map_iff in He.
  destruct He as (t & <- & Ht). exists df. simpl.
  unfold entry_trigger, entry_ticker, entry_score. simpl. tauto.
Qed.

Lemma dict_get_unique (d : Triggers) (k : string) (v : DataFrame) :
  NoDup (map fst d) -> In (k, v) d -> dict_get d k = v.
Proof.
  unfold dict_get. induction d as [|[k' v'] d IH]; simpl; intros Hnd Hin; [contradiction|].
  inversion Hnd as [|? ? Hn Hd]; subst.
  destruct (String.eqb k k') eqn:E.
  - apply String.eqb_eq in E. subst k'. destruct Hin as [Hin|Hin]; [congruence|].
    exfalso. apply Hn. apply in_map_iff. exists (k, v). split; [reflexivity | exact Hin].
  - apply String.eqb_neq in E. destruct Hin as [Hin|Hin]; [congruence|].
    apply IH; assumption.
Qed.

(** On scores that are not NaN the comparison of the Python sort is the
    descending order of [before]. *)
Lemma fgt_before (x y : float64) :
  is_nan x = false -> is_nan y = false -> fgt x y = before x y.
Proof. destruct x, y; simpl; intros; try reflexivity; discriminate. Qed.

Lemma sort_pool_in (pool : list PoolEntry) (e : PoolEntry) :
  In e (sort_pool pool) <-> In e pool.
Proof. unfold sort_pool. apply sort_by_in. Qed.

Lemma sort_pool_nil (pool : list PoolEntry) : sort_pool pool = [] <-> pool = [].
Proof. unfold sort_pool. apply sort_by_nil. Qed.

Lemma sort_pool_head (pool : list PoolEntry) (best : PoolEntry) (rest : list PoolEntry) :
  Forall (fun e => is_nan (entry_score e) = false) pool ->
  sort_pool pool = best :: rest ->
  forall e, In e pool -> fgt (entry_score e) (entry_score best) = false.
Proof.
  intros Hok E e He.
  assert (is_nan (entry_score best) = false) as Hb.
  { rewrite Forall_forall in Hok. apply Hok.
    apply sort_pool_in. rewrite E. now left. }
  assert (forall a b : PoolEntry,
            is_nan (entry_score a) = false -> is_nan (entry_score b) = false ->
            fgt (entry_score b) (entry_score a) = true ->
            fgt (entry_score a) (entry_score b) = false) as Hasym.
  { intros a b Ha Hb' H. rewrite fgt_before in * by assumption.
    apply before_asym. exact H. }
  assert (forall a b c : PoolEntry,
            is_nan (entry_score a) = false -> is_nan (entry_score b) = false ->
            is_nan (entry_score c) = false ->
            fgt (entry_score b) (entry_score a) = false ->
            fgt (entry_score c) (entry_score b) = false ->
            fgt (entry_score c) (entry_score a) = false) as Htrans.
  { intros a b c Ha Hb' Hc H1 H2. rewrite fgt_before in * by assumption.
    apply before_neg_trans with (entry_score b); assumption. }
  destruct (sort_by_head PoolEntry
              (fun b a => fgt (entry_score b) (entry_score a))
              (fun e => is_nan (entry_score e) = false)
              Hasym Htrans pool best rest Hok E e He) as [->|H].
  - destruct (entry_score best) as [q| | |]; try reflexivity; try discriminate Hb.
    apply FloatFacts.fgt_fin_false. apply Qle_refl.
  - exact H.
Qed.

(** C1 (amended).  The pool holds one entry per distinct ticker, the
    first occurrence of that ticker in category order, so a ticker that
    appears in two categories yields one pool entry.  The free tier is
    empty exactly when the pool is; otherwise it is a single category
    holding a single ticker, taken from a pool entry that no pool entry
    beats on score. *)
Theorem free_is_best_of_deduplicated_pool (triggers : Triggers) :
  NoDup (map fst triggers) ->
  unique_indexes triggers ->
  Forall (fun e => is_nan (entry_score e) = false) (occurrences triggers) ->
  let pool := all_tickers_with_scores triggers in
  let alloc := select_final_tickers triggers in
  pool = first_per_ticker [] (occurrences triggers) /\
  NoDup (map entry_ticker pool) /\
  (forall e, In e pool -> In e (occurrences triggers)) /\
  (forall e, In e (occurrences triggers) ->
     exists e', In e' pool /\ entry_ticker e' = entry_ticker e) /\
  (free alloc = [] <-> pool = []) /\
  (pool <> [] ->
   exists best table,
     In best pool /\
     free alloc = [(entry_trigger best, table)] /\
     index table = [entry_ticker best] /\
     forall e, In e pool -> fgt (entry_score e) (entry_score best) = false).
Proof.
  intros Hnames Hu Hnan pool alloc.
  assert (pool = first_per_ticker [] (occurrences triggers)) as Hpool
    by apply pool_is_first_per_ticker.
  assert (forall e, In e pool -> In e (occurrences triggers)) as Hsub.
  { intros e He. rewrite Hpool in He. apply first_per_ticker_in in He. tauto. }
  assert (free alloc = free_select triggers (sort_pool pool)) as Hfree.
  { unfold alloc, select_final_tickers, pool.
    destruct (premium_tops triggers [] []) as [r pt].
    destruct (List.length pt <? 3)%nat; [destruct (premium_fill _ _ r pt)|]; reflexivity. }
  split; [exact Hpool|]. split; [rewrite Hpool; apply first_per_ticker_NoDup|].
  split; [exact Hsub|]. split.
  { intros e He. rewrite Hpool. apply first_per_ticker_cover; [exact He | intros []]. }
  split.
  { rewrite Hfree. unfold free_select.
    destruct (sort_pool pool) as [|[[bt bk] sc] rest] eqn:E.
    - apply (proj1 (sort_pool_nil pool)) in E. split; [intros _; exact E | reflexivity].
    - split; [discriminate|]. intros Hp. rewrite Hp in E. discriminate E. }
  intros Hne.
  destruct (sort_pool pool) as [|best rest] eqn:E.
  { apply (proj1 (sort_pool_nil pool)) in E. contradiction. }
  assert (In best pool) as Hbest.
  { apply sort_pool_in. rewrite E. now left. }
  destruct (occurrences_in triggers best (Hsub best Hbest)) as (df & Hdf & Hemp & Hin & Hsc).
  exists best, (loc (dict_get triggers (entry_trigger best)) [entry_ticker best]).
  split; [exact Hbest|]. split.
  { rewrite Hfree. destruct best as [[bt bk] sc]. reflexivity. }
  split.
  { rewrite (dict_get_unique triggers _ df Hnames Hdf).
    apply index_loc_single_in; [|exact Hin].
    unfold unique_indexes in Hu. rewrite Forall_forall in Hu.
    apply (Hu _ Hdf). }
  apply sort_pool_head with rest; [|exact E].
  apply Forall_forall. intros e He.
  rewrite Forall_forall in Hnan. apply Hnan. apply Hsub. exact He.
Qed.

End Selection.

(* ================================================================== *)
(** * Attaching the display names *)
(* ================================================================== *)

Module Enhance.

Section WithApi.

Variable api : StockApi.

Definition name_cell (t : string) : cell :=
  match get_market_ticker_name api t with
  | Some n => CStr n
  | None => CStr ""
  end.

Lemma mapM_ticker_name_ok (l : list string) (s : State) :
  (forall t, In t l -> get_market_ticker_name api t <> None) ->
  mapM (ticker_name api) l s = (inr (map name_cell l), s).
Proof.
  induction l as [|t l IH]; intros H; simpl; [reflexivity|].
  unfold bind at 1. unfold ticker_name at 1, name_cell at 1.
  destruct (get_market_ticker_name api t) eqn:E.
  - unfold ret at 1. unfold bind at 1. rewrite IH.
    + reflexivity.
    + intros t' Ht'. apply H. now right.
  - exfalso. apply (H t); [now left | exact E].
Qed.

Lemma mapM_ticker_name_fail (l : list string) (s : State) :
  (exists t, In t l /\ get_market_ticker_name api t = None) ->
  mapM (ticker_name api) l s = (inl NameLookupError, s).
Proof.
  induction l as [|t l IH]; intros (t' & Hin & Hnone); simpl; [contradiction|].
  unfold bind at 1. unfold ticker_name at 1.
  destruct (get_market_ticker_name api t) eqn:E.
  - unfold ret at 1. unfold bind at 1. rewrite IH; [reflexivity|].
    destruct Hin as [->|Hin]; [congruence|]. exists t'. split; assumption.
  - reflexivity.
Qed.

Lemma assoc_combine_map {B : Type} (f : string -> B) (l : list string) (t : string) :
  In t l -> assoc t (combine l (map f l)) = Some (f t).
Proof.
  induction l as [|a l IH]; simpl; intros H; [contradiction|].
  destruct (String.eqb t a) eqn:E.
  - apply String.eqb_eq in E. now subst.
  - apply String.eqb_neq in E. destruct H as [H|H]; [congruence|]. apply IH. exact H.
Qed.

Lemma nth_update_nth {A : Type} (n : nat) (a d : A) (l : list A) :
  (n < List.length l)%nat -> nth n (update_nth n a l) d = a.
Proof.
  revert n. induction l as [|b l IH]; intros n H; simpl in *; [lia|].
  destruct n; simpl; [reflexivity|]. apply IH. lia.
Qed.

(** C8 (amended).  [enhance_dataframe] has no fallback: on a non-empty
    table a lookup that fails is raised as it is, and the table is left
    without a name column; when every lookup succeeds each row gets the
    name the provider returned for its ticker. *)
Theorem enhance_dataframe_lookup (df : ref) (s : State) :
  let table := nth df (heap s) empty_frame in
  empty table = false ->
  ((exists t, In t (index table) /\ get_market_ticker_name api t = None) ->
   enhance_dataframe api df s = (inl NameLookupError, s)) /\
  ((forall t, In t (index table) -> get_market_ticker_name api t <> None) ->
   exists s',
     enhance_dataframe api df s = (inr df, s') /\
     fetched s' = fetched s /\ report s' = report s /\
     index (nth df (heap s') empty_frame) = index table /\
     forall r, In r (rows (nth df (heap s') empty_frame)) ->
       exists n, get_market_ticker_name api (ticker r) = Some n /\
                 get_cell r "종목명" = CStr n).
Proof.
  intros table Hne.
  assert (df < List.length (heap s))%nat as Hlt.
  { destruct (Nat.lt_ge_cases df (List.length (heap s))) as [H|H]; [exact H|].
    unfold table in Hne. rewrite nth_overflow in Hne by exact H. discriminate Hne. }
  split.
  - intros Hfail.
    cbv [enhance_dataframe bind is_empty read ret index_of].
    fold table. rewrite Hne. cbv [negb].
    rewrite mapM_ticker_name_fail by exact Hfail. reflexivity.
  - intros Hok.
    cbv [enhance_dataframe bind is_empty read ret index_of setitem write].
    fold table. rewrite Hne. cbv [negb].
    rewrite mapM_ticker_name_ok by exact Hok. cbv beta iota.
    eexists. split; [reflexivity|]. simpl.
    split; [reflexivity|]. split; [reflexivity|].
    rewrite nth_update_nth by exact Hlt.
    split.
    + unfold index, add_column. simpl. rewrite map_map. reflexivity.
    + intros r Hr. unfold add_column in Hr. simpl in Hr.
      apply in_map_iff in Hr. destruct Hr as (r0 & <- & Hr0).
      assert (In (ticker r0) (index table)) as Hin.
      { unfold index. apply in_map. exact Hr0. }
      unfold set_cell, get_cell, at_label. simpl. fold table.
      rewrite (assoc_combine_map name_cell _ _ Hin).
      unfold name_cell.
      destruct (get_market_ticker_name api (ticker r0)) as [n|] eqn:E.
      * exists n. split; reflexivity.
      * exfalso. apply (Hok _ Hin). exact E.
Qed.

End WithApi.

End Enhance.

(* ================================================================== *)
(** * Running the program on a store *)
(* ================================================================== *)

Module Exec.

Local Open Scope nat_scope.

(** A store made of the frames [h0] a procedure was given and the frames
    [l] it has allocated since. *)
Definition st (h0 l : list DataFrame) (F : list string)
    (R : option (string * Document)) : State :=
  mkState (h0 ++ l) F R.

(** [wp m s Q]: running [m] from [s] ends in an outcome and a store that
    satisfy [Q]. *)
Definition wp {A : Type} (m : M A) (s : State) (Q : exn + A -> State -> Prop) : Prop :=
  Q (fst (m s)) (snd (m s)).

Lemma wp_bind {A B : Type} (m : M A) (f : A -> M B) (s : State)
    (Q : exn + B -> State -> Prop) :
  wp m s (fun r s' => match r with
                      | inr a => wp (f a) s' Q
                      | inl e => Q (inl e) s'
                      end) ->
  wp (bind m f) s Q.
Proof.
  unfold wp, bind. destruct (m s) as [[e|a] s']; simpl; intros H; exact H.
Qed.

Lemma wp_ret {A : Type} (a : A) (s : State) (Q : exn + A -> State -> Prop) :
  Q (inr a) s -> wp (ret a) s Q.
Proof. intros H; exact H. Qed.

Lemma wp_raise {A : Type} (e : exn) (s : State) (Q : exn + A -> State -> Prop) :
  Q (inl e) s -> wp (raise e) s Q.
Proof. intros H; exact H. Qed.

Lemma wp_try_except {A : Type} (m : M A) (h : exn -> M A) (s : State)
    (Q : exn + A -> State -> Prop) :
  wp m s (fun r s' => match r with
                      | inl e => wp (h e) s' Q
                      | inr a => Q (inr a) s'
                      end) ->
  wp (try_except m h) s Q.
Proof.
  unfold wp, try_except. destruct (m s) as [[e|a] s']; simpl; intros H; exact H.
Qed.

Lemma wp_conseq {A : Type} (m : M A) (s : State) (Q Q' : exn + A -> State -> Prop) :
  wp m s Q -> (forall r s', Q r s' -> Q' r s') -> wp m s Q'.
Proof. unfold wp. intros H HQ. apply HQ. exact H. Qed.

Lemma wp_read_local {h0 l F R} (i : nat) (Q : exn + DataFrame -> State -> Prop) :
  Q (inr (nth i l empty_frame)) (st h0 l F R) ->
  wp (read (List.length h0 + i)) (st h0 l F R) Q.
Proof.
  unfold wp, read, st. simpl. rewrite app_nth2_plus. intros H; exact H.
Qed.

Lemma wp_read_global {h0 l F R} (r : ref) (Q : exn + DataFrame -> State -> Prop) :
  (r < List.length h0)%nat ->
  Q (inr (nth r h0 empty_frame)) (st h0 l F R) ->
  wp (read r) (st h0 l F R) Q.
Proof.
  unfold wp, read, st. simpl. intros Hr. rewrite app_nth1 by exact Hr.
  intros H; exact H.
Qed.

Lemma update_nth_app {A : Type} (h0 l : list A) (i : nat) (a : A) :
  update_nth (List.length h0 + i) a (h0 ++ l) = h0 ++ update_nth i a l.
Proof.
  induction h0 as [|b h0 IH]; simpl; [reflexivity|].
  rewrite IH. reflexivity.
Qed.

Lemma wp_write_local {h0 l F R} (i : nat) (df : DataFrame)
    (Q : exn + unit -> State -> Prop) :
  Q (inr tt) (st h0 (update_nth i df l) F R) ->
  wp (write (List.length h0 + i) df) (st h0 l F R) Q.
Proof.
  unfold wp, write, st. simpl. rewrite update_nth_app. intros H; exact H.
Qed.

Lemma wp_new_frame {h0 l F R} (df : DataFrame) (Q : exn + ref -> State -> Prop) :
  Q (inr (List.length h0 + List.length l)%nat) (st h0 (l ++ [df]) F R) ->
  wp (new_frame df) (st h0 l F R) Q.
Proof.
  unfold wp, new_frame, st. simpl. rewrite length_app, <- app_assoc.
  intros H; exact H.
Qed.

(** The name lookups of [enhance_dataframe], as a function. *)
Fixpoint lookup_names (api : StockApi) (l : list string) : exn + list cell :=
  match l with
  | [] => inr []
  | t :: l' =>
      match get_market_ticker_name api t with
      | None => inl NameLookupError
      | Some n =>
          match lookup_names api l' with
          | inl e => inl e
          | inr ns => inr (CStr n :: ns)
          end
      end
  end.

Lemma mapM_ticker_name_eq (api : StockApi) (l : list string) (s : State) :
  mapM (ticker_name api) l s = (lookup_names api l, s).
Proof.
  induction l as [|t l IH]; simpl; [reflexivity|].
  unfold bind at 1. unfold ticker_name at 1.
  destruct (get_market_ticker_name api t); [|reflexivity].
  unfold ret at 1. unfold bind at 1. rewrite IH.
  destruct (lookup_names api l); reflexivity.
Qed.

Lemma wp_lookup_names (api : StockApi) (l : list string) (s : State)
    (Q : exn + list cell -> State -> Prop) :
  Q (lookup_names api l) s -> wp (mapM (ticker_name api) l) s Q.
Proof. unfold wp. rewrite mapM_ticker_name_eq. intros H; exact H. Qed.

End Exec.

(* ================================================================== *)
(** * The stages of the triggers as functions on tables *)
(* ================================================================== *)

Module Stages.

(** The columns of a provider snapshot (docstring of [get_snapshot]). *)
Definition ohlcv_columns : list string :=
  ["시가"; "고가"; "저가"; "종가"; "거래량"; "거래대금"].

(** [df[df[c] >= k]] *)
Definition mask_ge (c : string) (k : float64) (F : DataFrame) : DataFrame :=
  mask_rows F (s_ge_c (column F c) k).

(** [df[df[c] == True]] *)
Definition qualified (c : string) (F : DataFrame) : DataFrame :=
  mask_rows F (column F c).

(** The volume floor of [apply_absolute_filters]: a fifth of the mean
    volume of the table [F0] it was given. *)
Definition liquid (F0 F : DataFrame) : DataFrame :=
  mask_rows F (s_ge_c (column F "거래량")
                      (fmul (s_mean (column F0 "거래량")) (Fin (2 # 10)))).

Definition absolute_filtered (min_value : Z) (F : DataFrame) : DataFrame :=
  liquid F (mask_ge "거래대금" (of_Z min_value) F).

Definition with_volume_ratio (P F : DataFrame) : DataFrame :=
  add_column F "거래량비율"
    (s_div (column F "거래량") (s_replace_0_nan (column P "거래량"))).

Definition with_growth_of_ratio (F : DataFrame) : DataFrame :=
  add_column F "거래량증가율"
    (s_mul_c (s_sub_c (column F "거래량비율") (Fin 1)) (Fin 100)).

Definition with_volume_growth (P F : DataFrame) : DataFrame :=
  add_column F "거래량증가율"
    (s_mul_c (s_sub_c (s_div (column F "거래량") (s_replace_0_nan (column P "거래량")))
                      (Fin 1)) (Fin 100)).

Definition with_intraday (F : DataFrame) : DataFrame :=
  add_column F "장중등락률"
    (s_mul_c (s_sub_c (s_div (column F "종가") (column F "시가")) (Fin 1)) (Fin 100)).

Definition with_day_over_day (P F : DataFrame) : DataFrame :=
  add_column F "전일대비등락률"
    (s_mul_c (s_div (s_sub (column F "종가") (column P "종가")) (column P "종가"))
             (Fin 100)).

Definition with_rising (c : string) (F : DataFrame) : DataFrame :=
  add_column F c (s_gt (column F "종가") (column F "시가")).

Definition with_gap (P F : DataFrame) : DataFrame :=
  add_column F "갭상승률"
    (s_mul_c (s_sub_c (s_div (column F "시가") (column P "종가")) (Fin 1)) (Fin 100)).

Definition with_momentum (F : DataFrame) : DataFrame :=
  add_column F "종합모멘텀" (s_add (column F "갭상승률") (column F "장중등락률")).

Definition with_value_ratio (F : DataFrame) : DataFrame :=
  add_column F "거래대금비율"
    (s_mul_c (s_div (column F "거래대금") (column F "시가총액")) (Fin 100)).

Definition with_strength_default (F : DataFrame) : DataFrame :=
  add_const_column F "마감강도" (CNum (Fin 0)).

Definition with_closing_strength (F : DataFrame) : DataFrame :=
  let valid_range := s_ne (column F "고가") (column F "저가") in
  add_column_where F valid_range "마감강도"
    (s_div (s_sub (mask_series (column F "종가") valid_range)
                  (mask_series (column F "저가") valid_range))
           (s_sub (mask_series (column F "고가") valid_range)
                  (mask_series (column F "저가") valid_range))).

Definition with_volume_up (P F : DataFrame) : DataFrame :=
  add_column F "거래량증가"
    (s_gt_c (s_sub (column F "거래량") (s_replace_0_nan (column P "거래량"))) (Fin 0)).

(** The flat flag, the test being the one
    [trigger_afternoon_volume_surge_flat] makes. *)
Definition with_flat (F : DataFrame) : DataFrame :=
  add_column F "횡보여부" (s_lt_c (s_abs (column F "장중등락률")) (Fin 5)).

(** [F[name] = (F[c] - min) / range], minimum and range taken on [F0]. *)
Definition with_norm_from (F0 : DataFrame) (name c : string) (F : DataFrame) : DataFrame :=
  add_column F name
    (normalize (column F c) (s_min (column F0 c))
               (range_of (s_max (column F0 c)) (s_min (column F0 c)))).

Definition with_norm (name c : string) (F : DataFrame) : DataFrame :=
  with_norm_from F name c F.

Definition with_score2 (a : string) (wa : float64) (b : string) (wb : float64)
    (F : DataFrame) : DataFrame :=
  add_column F "복합점수" (s_add (s_mul_c (column F a) wa) (s_mul_c (column F b) wb)).

Definition with_score3 (a : string) (wa : float64) (b : string) (wb : float64)
    (c : string) (wc : float64) (F : DataFrame) : DataFrame :=
  add_column F "복합점수"
    (s_add (s_add (s_mul_c (column F a) wa) (s_mul_c (column F b) wb))
           (s_mul_c (column F c) wc)).

(** The table [normalize_and_score] leaves in place of a non-empty [F]. *)
Definition scored2 (rc rn ac an : string) (rw aw : float64) (F : DataFrame) : DataFrame :=
  with_score2 rn rw an aw (with_norm_from F an ac (with_norm rn rc F)).

(** The table the three-metric scoring leaves in place of [F]. *)
Definition scored3 (a an b bn c cn : string) (wa wb wc : float64) (F : DataFrame)
    : DataFrame :=
  with_score3 an wa bn wb cn wc (with_norm cn c (with_norm bn b (with_norm an a F))).

(** [enhance_dataframe], on the table itself. *)
Definition enhanced (api : StockApi) (F : DataFrame) : exn + DataFrame :=
  if empty F then inr F
  else match Exec.lookup_names api (index F) with
       | inl e => inl e
       | inr names => inr (add_column F "종목명" (combine (index F) names))
       end.

(** The final cut of every trigger with a qualifier:
    [enhance_dataframe(result.sort_values("복합점수", ascending=False).head(3))]. *)
Definition top3 (api : StockApi) (result : DataFrame) : exn + DataFrame :=
  if empty result then inr empty_frame
  else enhanced api (head 3 (sort_values_desc "복합점수" result)).

End Stages.

(* ================================================================== *)
(** * What each trigger computes, as a function of the two snapshots *)
(* ================================================================== *)

Module Views.
Import Stages.

(** [snapshot.index.intersection(prev_snapshot.index)] *)
Definition common (S P : DataFrame) : list string :=
  intersection (index S) (index P).

(** ** Morning: volume surge *)

(** The tickers that pass the absolute filters, with their metrics. *)
Definition volume_surge_metrics (S P : DataFrame) : DataFrame :=
  with_rising "상승여부"
    (with_day_over_day (loc P (common S P))
       (with_intraday
          (with_growth_of_ratio
             (with_volume_ratio (loc P (common S P))
                (absolute_filtered 500000000 (loc S (common S P))))))).

(** The candidates: volume up by 30 % or more. *)
Definition volume_surge_candidates (S P : DataFrame) : DataFrame :=
  mask_ge "거래량증가율" (Fin 30) (volume_surge_metrics S P).

(** The scored candidates, best first. *)
Definition volume_surge_scored (S P : DataFrame) : DataFrame :=
  sort_values_desc "복합점수"
    (scored2 "거래량증가율" "거래량증가율_norm" "거래량" "거래량_norm"
       (Fin (6 # 10)) (Fin (4 # 10)) (volume_surge_candidates S P)).

Definition volume_surge_view (api : StockApi) (S P : DataFrame) (top_n : nat)
    : exn + DataFrame :=
  if empty (volume_surge_candidates S P) then inr empty_frame
  else top3 api (qualified "상승여부" (head top_n (volume_surge_scored S P))).

(** ** Morning: gap-up momentum *)

Definition gap_up_candidates (S P : DataFrame) : DataFrame :=
  mask_ge "갭상승률" (Fin 1)
    (with_rising "상승지속"
       (with_day_over_day (loc P (common S P))
          (with_intraday
             (with_gap (loc P (common S P))
                (absolute_filtered 500000000 (loc S (common S P))))))).

Definition gap_up_scored (S P : DataFrame) : DataFrame :=
  sort_values_desc "복합점수"
    (scored3 "갭상승률" "갭상승률_norm" "장중등락률" "장중등락률_norm"
       "거래대금" "거래대금_norm" (Fin (5 # 10)) (Fin (3 # 10)) (Fin (2 # 10))
       (gap_up_candidates S P)).

(** The table the qualifier is applied to: the top N of the scored
    candidates, or the (empty) candidates themselves. *)
Definition gap_up_top (S P : DataFrame) (top_n : nat) : DataFrame :=
  if empty (gap_up_candidates S P) then gap_up_candidates S P
  else head top_n (gap_up_scored S P).

Definition gap_up_view (api : StockApi) (S P : DataFrame) (top_n : nat)
    : exn + DataFrame :=
  let result := qualified "상승지속" (gap_up_top S P top_n) in
  if empty result then inr empty_frame
  else enhanced api (head 3 (sort_values_desc "복합점수" (with_momentum result))).

(** ** Morning: value to cap *)

Definition cap_merged (S C : DataFrame) : DataFrame :=
  merge_inner S (select_column C "시가총액").

Definition value_to_cap_filtered (S P C : DataFrame) : DataFrame :=
  absolute_filtered 500000000
    (loc (cap_merged S C) (common (cap_merged S C) P)).

Definition value_to_cap_candidates (S P C : DataFrame) : DataFrame :=
  mask_ge "시가총액" (of_Z 10000000000)
    (with_rising "상승여부"
       (with_day_over_day (loc P (common (cap_merged S C) P))
          (with_intraday
             (with_value_ratio (value_to_cap_filtered S P C))))).

Definition value_to_cap_scored (S P C : DataFrame) : DataFrame :=
  sort_values_desc "복합점수"
    (scored3 "거래대금비율" "거래대금비율_norm" "거래대금" "거래대금_norm"
       "장중등락률" "장중등락률_norm" (Fin (5 # 10)) (Fin (3 # 10)) (Fin (2 # 10))
       (value_to_cap_candidates S P C)).

(** Any failure inside the [try] block ends in an empty table. *)
Definition caught (v : exn + DataFrame) : exn + DataFrame :=
  match v with
  | inl _ => inr empty_frame
  | inr df => inr df
  end.

Definition value_to_cap_view (api : StockApi) (S P C : DataFrame) (top_n : nat)
    : exn + DataFrame :=
  if empty S then inr empty_frame
  else if empty P then inr empty_frame
  else if empty C then inr empty_frame
  else if negb (mem "시가총액" (columns C)) then inr empty_frame
  else if Nat.eqb (List.length (common (cap_merged S C) P)) 0 then inr empty_frame
  else if empty (value_to_cap_filtered S P C) then inr empty_frame
  else if empty (value_to_cap_candidates S P C) then inr empty_frame
  else caught (top3 api (qualified "상승여부"
                           (head top_n (value_to_cap_scored S P C)))).

(** ** Afternoon: daily rise *)

Definition daily_rise_candidates (S P : DataFrame) : DataFrame :=
  mask_ge "장중등락률" (Fin 3)
    (with_day_over_day (loc P (common S P))
       (with_intraday
          (absolute_filtered 1000000000 (loc S (common S P))))).

Definition daily_rise_scored (S P : DataFrame) : DataFrame :=
  sort_values_desc "복합점수"
    (scored2 "장중등락률" "장중등락률_norm" "거래대금" "거래대금_norm"
       (Fin (6 # 10)) (Fin (4 # 10)) (daily_rise_candidates S P)).

Definition daily_rise_view (api : StockApi) (S P : DataFrame) (top_n : nat)
    : exn + DataFrame :=
  if empty (daily_rise_candidates S P) then inr empty_frame
  else enhanced api (head 3 (head top_n (daily_rise_scored S P))).

(** ** Afternoon: closing strength *)

Definition closing_strength_metrics (S P : DataFrame) : DataFrame :=
  with_rising "상승여부"
    (with_volume_up (loc P (common S P))
       (with_day_over_day (loc P (common S P))
          (with_intraday
             (with_volume_growth (loc P (common S P))
                (with_closing_strength
                   (with_strength_default
                      (absolute_filtered 500000000 (loc S (common S P))))))))).

Definition closing_strength_candidates (S P : DataFrame) : DataFrame :=
  qualified "거래량증가" (closing_strength_metrics S P).

Definition closing_strength_scored (S P : DataFrame) : DataFrame :=
  sort_values_desc "복합점수"
    (scored3 "마감강도" "마감강도_norm" "거래량증가율" "거래량증가율_norm"
       "거래대금" "거래대금_norm" (Fin (5 # 10)) (Fin (3 # 10)) (Fin (2 # 10))
       (closing_strength_candidates S P)).

Definition closing_strength_top (S P : DataFrame) (top_n : nat) : DataFrame :=
  if empty (closing_strength_candidates S P) then closing_strength_candidates S P
  else head top_n (closing_strength_scored S P).

Definition closing_strength_view (api : StockApi) (S P : DataFrame) (top_n : nat)
    : exn + DataFrame :=
  top3 api (qualified "상승여부" (closing_strength_top S P top_n)).

(** ** Afternoon: volume surge, flat price *)

Definition surge_flat_candidates (S P : DataFrame) : DataFrame :=
  mask_ge "거래량증가율" (Fin 50)
    (with_flat
       (with_day_over_day (loc P (common S P))
          (with_intraday
             (with_volume_growth (loc P (common S P))
                (absolute_filtered 500000000 (loc S (common S P))))))).

Definition surge_flat_scored (S P : DataFrame) : DataFrame :=
  sort_values_desc "복합점수"
    (scored2 "거래량증가율" "거래량증가율_norm" "거래대금" "거래대금_norm"
       (Fin (6 # 10)) (Fin (4 # 10)) (surge_flat_candidates S P)).

Definition surge_flat_view (api : StockApi) (S P : DataFrame) (top_n : nat)
    : exn + DataFrame :=
  if empty (surge_flat_candidates S P) then inr empty_frame
  else top3 api (qualified "횡보여부" (head top_n (surge_flat_scored S P))).

End Views.

(* ================================================================== *)
(** * The triggers compute their views and only allocate *)
(* ================================================================== *)

Module Run.
Import Exec Stages Views.

Local Open Scope nat_scope.

(** ** Columns of the stages *)

Definition add_col (c : string) (l : list string) : list string :=
  if mem c l then l else l ++ [c].

(** The column names of a merge on the index. *)
Definition merge_columns (l r : list string) : list string :=
  map (fun c => if mem c r then (c ++ "_x")%string else c) l ++
  map (fun c => if mem c l then (c ++ "_y")%string else c) r.

Lemma columns_mkDF c r : columns (mkDF c r) = c.
Proof. reflexivity. Qed.
Lemma columns_add_column F c s : columns (add_column F c s) = add_col c (columns F).
Proof. reflexivity. Qed.
Lemma columns_add_const_column F c v :
  columns (add_const_column F c v) = add_col c (columns F).
Proof. reflexivity. Qed.
Lemma columns_add_column_where F m c s :
  columns (add_column_where F m c s) = add_col c (columns F).
Proof. reflexivity. Qed.
Lemma columns_mask_rows F m : columns (mask_rows F m) = columns F.
Proof. reflexivity. Qed.
Lemma columns_head n F : columns (head n F) = columns F.
Proof. reflexivity. Qed.
Lemma columns_sort_values_desc c F : columns (sort_values_desc c F) = columns F.
Proof. reflexivity. Qed.
Lemma columns_loc F l : columns (loc F l) = columns F.
Proof. reflexivity. Qed.
Lemma columns_select_column F c : columns (select_column F c) = [c].
Proof. reflexivity. Qed.
Lemma columns_merge_inner L R :
  columns (merge_inner L R) = merge_columns (columns L) (columns R).
Proof. reflexivity. Qed.
Lemma columns_cap_merged S C :
  columns (cap_merged S C) = merge_columns (columns S) ["시가총액"].
Proof. reflexivity. Qed.
Lemma columns_mask_ge c k F : columns (mask_ge c k F) = columns F.
Proof. reflexivity. Qed.
Lemma columns_qualified c F : columns (qualified c F) = columns F.
Proof. reflexivity. Qed.
Lemma columns_liquid F0 F : columns (liquid F0 F) = columns F.
Proof. reflexivity. Qed.
Lemma columns_absolute_filtered m F : columns (absolute_filtered m F) = columns F.
Proof. reflexivity. Qed.
Lemma columns_with_volume_ratio P F :
  columns (with_volume_ratio P F) = add_col "거래량비율" (columns F).
Proof. reflexivity. Qed.
Lemma columns_with_growth_of_ratio F :
  columns (with_growth_of_ratio F) = add_col "거래량증가율" (columns F).
Proof. reflexivity. Qed.
Lemma columns_with_volume_growth P F :
  columns (with_volume_growth P F) = add_col "거래량증가율" (columns F).
Proof. reflexivity. Qed.
Lemma columns_with_intraday F :
  columns (with_intraday F) = add_col "장중등락률" (columns F).
Proof. reflexivity. Qed.
Lemma columns_with_day_over_day P F :
  columns (with_day_over_day P F) = add_col "전일대비등락률" (columns F).
Proof. reflexivity. Qed.
Lemma columns_with_rising c F : columns (with_rising c F) = add_col c (columns F).
Proof. reflexivity. Qed.
Lemma columns_with_gap P F : columns (with_gap P F) = add_col "갭상승률" (columns F).
Proof. reflexivity. Qed.
Lemma columns_with_momentum F :
  columns (with_momentum F) = add_col "종합모멘텀" (columns F).
Proof. reflexivity. Qed.
Lemma columns_with_value_ratio F :
  columns (with_value_ratio F) = add_col "거래대금비율" (columns F).
Proof. reflexivity. Qed.
Lemma columns_with_strength_default F :
  columns (with_strength_default F) = add_col "마감강도" (columns F).
Proof. reflexivity. Qed.
Lemma columns_with_closing_strength F :
  columns (with_closing_strength F) = add_col "마감강도" (columns F).
Proof. reflexivity. Qed.
Lemma columns_with_volume_up P F :
  columns (with_volume_up P F) = add_col "거래량증가" (columns F).
Proof. reflexivity. Qed.
Lemma columns_with_flat F : columns (with_flat F) = add_col "횡보여부" (columns F).
Proof. reflexivity. Qed.
Lemma columns_with_norm_from F0 n c F :
  columns (with_norm_from F0 n c F) = add_col n (columns F).
Proof. reflexivity. Qed.
Lemma columns_with_norm n c F : columns (with_norm n c F) = add_col n (columns F).
Proof. reflexivity. Qed.
Lemma columns_with_score2 a wa b wb F :
  columns (with_score2 a wa b wb F) = add_col "복합점수" (columns F).
Proof. reflexivity. Qed.
Lemma columns_with_score3 a wa b wb c wc F :
  columns (with_score3 a wa b wb c wc F) = add_col "복합점수" (columns F).
Proof. reflexivity. Qed.
Lemma columns_scored2 rc rn ac an rw aw F :
  columns (scored2 rc rn ac an rw aw F) =
  add_col "복합점수" (add_col an (add_col rn (columns F))).
Proof. reflexivity. Qed.
Lemma columns_scored3 a an b bn c cn wa wb wc F :
  columns (scored3 a an b bn c cn wa wb wc F) =
  add_col "복합점수" (add_col cn (add_col bn (add_col an (columns F)))).
Proof. reflexivity. Qed.

Create Rewrite HintDb cols.
#[export] Hint Rewrite
  columns_mkDF columns_add_column columns_add_const_column columns_add_column_where
  columns_mask_rows columns_head columns_sort_values_desc columns_loc
  columns_select_column columns_merge_inner columns_cap_merged
  columns_mask_ge columns_qualified columns_liquid columns_absolute_filtered
  columns_with_volume_ratio columns_with_growth_of_ratio columns_with_volume_growth
  columns_with_intraday columns_with_day_over_day columns_with_rising columns_with_gap
  columns_with_momentum columns_with_value_ratio columns_with_strength_default
  columns_with_closing_strength columns_with_volume_up columns_with_flat
  columns_with_norm_from columns_with_norm columns_with_score2 columns_with_score3
  columns_scored2 columns_scored3 : cols.

(** ** Recognising a stage in the store *)

Lemma fold_mask_ge F c k : mask_rows F (s_ge_c (column F c) k) = mask_ge c k F.
Proof. reflexivity. Qed.
Lemma fold_qualified F c : mask_rows F (column F c) = qualified c F.
Proof. reflexivity. Qed.
Lemma fold_liquid F0 F :
  mask_rows F (s_ge_c (column F "거래량")
                      (fmul (s_mean (column F0 "거래량")) (Fin (2 # 10)))) =
  liquid F0 F.
Proof. reflexivity. Qed.
Lemma fold_absolute_filtered m F :
  liquid F (mask_ge "거래대금" (of_Z m) F) = absolute_filtered m F.
Proof. reflexivity. Qed.
Lemma fold_with_volume_ratio P F :
  add_column F "거래량비율"
    (s_div (column F "거래량") (s_replace_0_nan (column P "거래량"))) =
  with_volume_ratio P F.
Proof. reflexivity. Qed.
Lemma fold_with_growth_of_ratio F :
  add_column F "거래량증가율"
    (s_mul_c (s_sub_c (column F "거래량비율") (Fin 1)) (Fin 100)) =
  with_growth_of_ratio F.
Proof. reflexivity. Qed.
Lemma fold_with_volume_growth P F :
  add_column F "거래량증가율"
    (s_mul_c (s_sub_c (s_div (column F "거래량") (s_replace_0_nan (column P "거래량")))
                      (Fin 1)) (Fin 100)) =
  with_volume_growth P F.
Proof. reflexivity. Qed.
Lemma fold_with_intraday F :
  add_column F "장중등락률"
    (s_mul_c (s_sub_c (s_div (column F "종가") (column F "시가")) (Fin 1)) (Fin 100)) =
  with_intraday F.
Proof. reflexivity. Qed.
Lemma fold_with_day_over_day P F :
  add_column F "전일대비등락률"
    (s_mul_c (s_div (s_sub (column F "종가") (column P "종가")) (column P "종가"))
             (Fin 100)) =
  with_day_over_day P F.
Proof. reflexivity. Qed.
Lemma fold_with_rising c F :
  add_column F c (s_gt (column F "종가") (column F "시가")) = with_rising c F.
Proof. reflexivity. Qed.
Lemma fold_with_gap P F :
  add_column F "갭상승률"
    (s_mul_c (s_sub_c (s_div (column F "시가") (column P "종가")) (Fin 1)) (Fin 100)) =
  with_gap P F.
Proof. reflexivity. Qed.
Lemma fold_with_momentum F :
  add_column F "종합모멘텀" (s_add (column F "갭상승률") (column F "장중등락률")) =
  with_momentum F.
Proof. reflexivity. Qed.
Lemma fold_with_value_ratio F :
  add_column F "거래대금비율"
    (s_mul_c (s_div (column F "거래대금") (column F "시가총액")) (Fin 100)) =
  with_value_ratio F.
Proof. reflexivity. Qed.
Lemma fold_with_strength_default F :
  add_const_column F "마감강도" (CNum (Fin 0)) = with_strength_default F.
Proof. reflexivity. Qed.
Lemma fold_with_closing_strength F :
  add_column_where F (s_ne (column F "고가") (column F "저가")) "마감강도"
    (s_div (s_sub (mask_series (column F "종가") (s_ne (column F "고가") (column F "저가")))
                  (mask_series (column F "저가") (s_ne (column F "고가") (column F "저가"))))
           (s_sub (mask_series (column F "고가") (s_ne (column F "고가") (column F "저가")))
                  (mask_series (column F "저가") (s_ne (column F "고가") (column F "저가"))))) =
  with_closing_strength F.
Proof. reflexivity. Qed.
Lemma fold_with_volume_up P F :
  add_column F "거래량증가"
    (s_gt_c (s_sub (column F "거래량") (s_replace_0_nan (column P "거래량"))) (Fin 0)) =
  with_volume_up P F.
Proof. reflexivity. Qed.
Lemma fold_with_flat F :
  add_column F "횡보여부" (s_lt_c (s_abs (column F "장중등락률")) (Fin 5)) = with_flat F.
Proof. reflexivity. Qed.
Lemma fold_with_norm_from F0 name c F :
  add_column F name
    (normalize (column F c) (s_min (column F0 c))
               (range_of (s_max (column F0 c)) (s_min (column F0 c)))) =
  with_norm_from F0 name c F.
Proof. reflexivity. Qed.
Lemma fold_with_norm F n c : with_norm_from F n c F = with_norm n c F.
Proof. reflexivity. Qed.
Lemma fold_with_score2 a wa b wb F :
  add_column F "복합점수" (s_add (s_mul_c (column F a) wa) (s_mul_c (column F b) wb)) =
  with_score2 a wa b wb F.
Proof. reflexivity. Qed.
Lemma fold_with_score3 a wa b wb c wc F :
  add_column F "복합점수"
    (s_add (s_add (s_mul_c (column F a) wa) (s_mul_c (column F b) wb))
           (s_mul_c (column F c) wc)) =
  with_score3 a wa b wb c wc F.
Proof. reflexivity. Qed.
Lemma fold_scored2 rc rn ac an rw aw F :
  with_score2 rn rw an aw (with_norm_from F an ac (with_norm rn rc F)) =
  scored2 rc rn ac an rw aw F.
Proof. reflexivity. Qed.
Lemma fold_scored3 a an b bn c cn wa wb wc F :
  with_score3 an wa bn wb cn wc (with_norm cn c (with_norm bn b (with_norm an a F))) =
  scored3 a an b bn c cn wa wb wc F.
Proof. reflexivity. Qed.
Lemma fold_common S P : intersection (index S) (index P) = common S P.
Proof. reflexivity. Qed.
Lemma fold_cap_merged S C : merge_inner S (select_column C "시가총액") = cap_merged S C.
Proof. reflexivity. Qed.

Ltac fold_stages :=
  repeat first
    [ rewrite fold_common | rewrite fold_cap_merged
    | rewrite fold_liquid | rewrite fold_mask_ge | rewrite fold_qualified
    | rewrite fold_absolute_filtered
    | rewrite fold_with_volume_ratio | rewrite fold_with_growth_of_ratio
    | rewrite fold_with_volume_growth
    | rewrite fold_with_intraday | rewrite fold_with_day_over_day
    | rewrite fold_with_gap | rewrite fold_with_momentum | rewrite fold_with_value_ratio
    | rewrite fold_with_strength_default | rewrite fold_with_closing_strength
    | rewrite fold_with_volume_up | rewrite fold_with_flat
    | rewrite fold_with_rising
    | rewrite fold_with_norm_from | rewrite fold_with_norm
    | rewrite fold_with_score3 | rewrite fold_with_score2
    | rewrite fold_scored2 | rewrite fold_scored3 ].

(** ** Stepping through a procedure *)

Ltac head_of t := lazymatch t with ?f _ => head_of f | _ => t end.

Ltac eval_mem :=
  repeat match goal with
  | |- context [mem ?c ?l] =>
      let b := eval lazy in (mem c l) in
      lazymatch b with true => idtac | false => idtac end;
      change (mem c l) with b
  end.

Ltac eval_strings :=
  repeat match goal with
  | |- context [String.append ?a ?b] =>
      let s := eval vm_compute in (String.append a b) in
      change (String.append a b) with s
  end.

Ltac rewrite_globals :=
  repeat match goal with
  | H : nth ?r ?h empty_frame = _ |- context [nth ?r ?h empty_frame] => rewrite H
  end.

Ltac post :=
  cbv beta iota;
  cbn [nth update_nth app List.length Nat.add fst snd negb];
  rewrite_globals.

Ltac decide_test b :=
  first [ match goal with H : b = _ |- _ => rewrite H end
        | let E := fresh "E" in destruct b eqn:E ].

Ltac decide_mem :=
  eval_mem;
  try match goal with
      | |- wp (if mem ?c ?l then _ else _) _ _ => decide_test (mem c l)
      | |- wp (if negb (mem ?c ?l) then _ else _) _ _ => decide_test (mem c l)
      end;
  cbn [negb]; cbv iota.

Ltac step :=
  lazymatch goal with
  | |- wp (bind _ _) _ _ => apply wp_bind
  | |- wp (ret _) _ _ => apply wp_ret; post
  | |- wp (raise _) _ _ => apply wp_raise; post
  | |- wp (try_except _ _) _ _ => apply wp_try_except
  | |- wp (read (List.length ?h + _)) (st ?h _ _ _) _ => apply wp_read_local; post
  | |- wp (read _) (st _ _ _ _) _ => apply wp_read_global; [assumption | post]
  | |- wp (write (List.length ?h + _) _) (st ?h _ _ _) _ =>
      apply wp_write_local; post; fold_stages
  | |- wp (new_frame _) (st _ _ _ _) _ => apply wp_new_frame; post; fold_stages
  | |- wp (mapM (ticker_name _) _) _ _ => apply wp_lookup_names; post
  | |- wp (if mem _ _ then _ else _) _ _ => decide_mem
  | |- wp (if negb (mem _ _) then _ else _) _ _ => decide_mem
  | |- wp (if negb (Nat.eqb (List.length (filter _ _)) 0) then _ else _) _ _ =>
      match goal with
      | |- context [filter ?f ?l] =>
          let v := eval lazy in (filter f l) in
          change (filter f l) with v
      end;
      cbn [List.length Nat.eqb negb]; cbv iota
  | |- wp (if negb ?b then _ else _) _ _ => decide_test b; cbn [negb]; cbv iota
  | |- wp (if ?b then _ else _) _ _ => decide_test b; cbv iota
  | |- wp (normalize_columns _ _) _ _ => cbn [normalize_columns]
  | |- wp ?m _ _ => let h := head_of m in unfold h; cbv beta zeta; eval_strings
  | |- match ?x with inl _ => _ | inr _ => _ end =>
      let E := fresh "E" in destruct x eqn:E
  end.

(** Stepping when only the shape of the store matters: every table the
    procedure builds is kept as an unknown. *)
Ltac blind_step :=
  lazymatch goal with
  | |- wp (write (List.length ?h + _) ?df) (st ?h _ _ _) _ =>
      let X := fresh "X" in generalize df; intro X; apply wp_write_local; post
  | |- wp (new_frame ?df) (st _ _ _ _) _ =>
      let X := fresh "X" in generalize df; intro X; apply wp_new_frame; post
  | |- wp (if mem ?c ?l then _ else _) _ _ => decide_test (mem c l); cbv iota
  | |- wp (if negb (mem ?c ?l) then _ else _) _ _ =>
      decide_test (mem c l); cbn [negb]; cbv iota
  | |- wp (if negb (Nat.eqb ?a ?b) then _ else _) _ _ =>
      decide_test (Nat.eqb a b); cbn [negb]; cbv iota
  | |- _ => step
  end.

(** ** Outcomes *)

(** What a procedure returns, with the table in place of its reference. *)
Definition outcome (h : list DataFrame) (res : exn + ref) : exn + DataFrame :=
  match res with
  | inr r => inr (nth r h empty_frame)
  | inl e => inl e
  end.

(** A reference that is returned refers to an object of the store. *)
Definition in_store (h : list DataFrame) (res : exn + ref) : Prop :=
  match res with
  | inr r => r < List.length h
  | inl _ => True
  end.

(** The procedure left every object of the store [h0] it was given as it
    was, allocated the objects [l], and its outcome is [v]. *)
Definition returns (h0 : list DataFrame) (F : list string)
    (R : option (string * Document)) (v : exn + DataFrame)
    (res : exn + ref) (s' : State) : Prop :=
  exists l, s' = st h0 l F R /\ outcome (h0 ++ l) res = v /\ in_store (h0 ++ l) res.

(** The procedure left every object of the store it was given as it was. *)
Definition only_allocates {A : Type} (h0 : list DataFrame) (F : list string)
    (R : option (string * Document)) (res : exn + A) (s' : State) : Prop :=
  exists l, s' = st h0 l F R.

Lemma returns_local h0 l F R i v :
  i < List.length l ->
  inr (nth i l empty_frame) = v ->
  returns h0 F R v (inr (List.length h0 + i)) (st h0 l F R).
Proof.
  intros Hi H. exists l. split; [reflexivity|]. split.
  - simpl. rewrite app_nth2_plus. exact H.
  - simpl. rewrite length_app. lia.
Qed.

Lemma returns_error h0 l F R e v :
  inl e = v -> returns h0 F R v (inl e) (st h0 l F R).
Proof. intros H. exists l. split; [reflexivity|]. split; [exact H | exact I]. Qed.

Lemma only_allocates_intro {A : Type} h0 l F R (res : exn + A) :
  only_allocates h0 F R res (st h0 l F R).
Proof. exists l. reflexivity. Qed.

Ltac finish :=
  lazymatch goal with
  | |- returns _ _ _ _ (inr (List.length _ + _)) _ =>
      apply returns_local; [cbn [List.length]; lia | cbn [nth]]
  | |- returns _ _ _ _ (inl _) _ => apply returns_error
  | |- only_allocates _ _ _ _ _ => apply only_allocates_intro
  end.

Lemma empty_mask_rows F m : empty F = true -> empty (mask_rows F m) = true.
Proof.
  unfold empty, mask_rows. simpl.
  destruct (rows F) as [|r rs]; [reflexivity|].
  destruct (columns F); [|discriminate].
  intros _. destruct (filter _ (r :: rs)); reflexivity.
Qed.

Lemma empty_qualified c F : empty F = true -> empty (qualified c F) = true.
Proof. apply empty_mask_rows. Qed.

(** A table filtered out of an empty table cannot be non-empty. *)
Ltac absurd_empty :=
  match goal with
  | H1 : empty ?X = true, H2 : empty (qualified ?c ?X) = false |- _ =>
      rewrite (empty_qualified c X H1) in H2; discriminate H2
  end.

Ltac rewrite_tests :=
  repeat match goal with
  | H : empty _ = _ |- _ => rewrite H
  | H : lookup_names _ _ = _ |- _ => rewrite H
  | H : mem _ _ = _ |- _ => rewrite H
  | H : Nat.eqb _ _ = _ |- _ => rewrite H
  end.

Section Triggers.

Variable api : StockApi.

Ltac snapshots S P Cs Cp :=
  let cs := fresh "cs" in
  let cp := fresh "cp" in
  let rs := fresh "rs" in
  let rp := fresh "rp" in
  destruct S as [cs rs], P as [cp rp]; simpl in Cs, Cp; subst cs cp.

Lemma volume_surge_run h0 F R d snapshot prev S P top_n :
  snapshot < List.length h0 -> prev < List.length h0 ->
  nth snapshot h0 empty_frame = S -> nth prev h0 empty_frame = P ->
  columns S = ohlcv_columns -> columns P = ohlcv_columns ->
  wp (trigger_morning_volume_surge api d snapshot prev top_n) (st h0 [] F R)
     (returns h0 F R (volume_surge_view api S P top_n)).
Proof.
  intros Hs Hp Es Ep Cs Cp. snapshots S P Cs Cp.
  unfold trigger_morning_volume_surge.
  repeat step.
  all: finish.
  all: unfold volume_surge_view, top3, enhanced, volume_surge_scored,
    volume_surge_candidates, volume_surge_metrics.
  all: rewrite_tests; reflexivity.
Qed.

Lemma gap_up_run h0 F R d snapshot prev S P top_n :
  snapshot < List.length h0 -> prev < List.length h0 ->
  nth snapshot h0 empty_frame = S -> nth prev h0 empty_frame = P ->
  columns S = ohlcv_columns -> columns P = ohlcv_columns ->
  wp (trigger_morning_gap_up_momentum api d snapshot prev top_n) (st h0 [] F R)
     (returns h0 F R (gap_up_view api S P top_n)).
Proof.
  intros Hs Hp Es Ep Cs Cp. snapshots S P Cs Cp.
  unfold trigger_morning_gap_up_momentum.
  repeat step.
  all: try absurd_empty.
  all: finish.
  all: unfold gap_up_view, gap_up_top, enhanced, gap_up_scored, gap_up_candidates.
  all: cbv zeta; rewrite_tests; reflexivity.
Qed.

Lemma value_to_cap_run h0 F R d snapshot prev cap S P C top_n :
  snapshot < List.length h0 -> prev < List.length h0 -> cap < List.length h0 ->
  nth snapshot h0 empty_frame = S -> nth prev h0 empty_frame = P ->
  nth cap h0 empty_frame = C ->
  columns S = ohlcv_columns -> columns P = ohlcv_columns ->
  wp (trigger_morning_value_to_cap_ratio api d snapshot prev cap top_n) (st h0 [] F R)
     (returns h0 F R (value_to_cap_view api S P C top_n)).
Proof.
  intros Hs Hp Hc Es Ep Ec Cs Cp. snapshots S P Cs Cp.
  unfold trigger_morning_value_to_cap_ratio.
  repeat step.
  all: finish.
  all: unfold value_to_cap_view, caught, top3, enhanced, value_to_cap_scored,
    value_to_cap_candidates, value_to_cap_filtered.
  all: unfold common in *; rewrite_tests; cbn [negb]; rewrite_tests; reflexivity.
Qed.

Lemma daily_rise_run h0 F R d snapshot prev S P top_n :
  snapshot < List.length h0 -> prev < List.length h0 ->
  nth snapshot h0 empty_frame = S -> nth prev h0 empty_frame = P ->
  columns S = ohlcv_columns -> columns P = ohlcv_columns ->
  wp (trigger_afternoon_daily_rise_top api d snapshot prev top_n) (st h0 [] F R)
     (returns h0 F R (daily_rise_view api S P top_n)).
Proof.
  intros Hs Hp Es Ep Cs Cp. snapshots S P Cs Cp.
  unfold trigger_afternoon_daily_rise_top.
  repeat step.
  all: finish.
  all: unfold daily_rise_view, enhanced, daily_rise_scored, daily_rise_candidates.
  all: rewrite_tests; reflexivity.
Qed.

Lemma closing_strength_run h0 F R d snapshot prev S P top_n :
  snapshot < List.length h0 -> prev < List.length h0 ->
  nth snapshot h0 empty_frame = S -> nth prev h0 empty_frame = P ->
  columns S = ohlcv_columns -> columns P = ohlcv_columns ->
  wp (trigger_afternoon_closing_strength api d snapshot prev top_n) (st h0 [] F R)
     (returns h0 F R (closing_strength_view api S P top_n)).
Proof.
  intros Hs Hp Es Ep Cs Cp. snapshots S P Cs Cp.
  unfold trigger_afternoon_closing_strength.
  repeat step.
  all: try absurd_empty.
  all: finish.
  all: unfold closing_strength_view, closing_strength_top, top3, enhanced,
    closing_strength_scored, closing_strength_candidates, closing_strength_metrics.
  all: rewrite_tests; reflexivity.
Qed.

Lemma surge_flat_run h0 F R d snapshot prev S P top_n :
  snapshot < List.length h0 -> prev < List.length h0 ->
  nth snapshot h0 empty_frame = S -> nth prev h0 empty_frame = P ->
  columns S = ohlcv_columns -> columns P = ohlcv_columns ->
  wp (trigger_afternoon_volume_surge_flat api d snapshot prev top_n) (st h0 [] F R)
     (returns h0 F R (surge_flat_view api S P top_n)).
Proof.
  intros Hs Hp Es Ep Cs Cp. snapshots S P Cs Cp.
  unfold trigger_afternoon_volume_surge_flat.
  repeat step.
  all: finish.
  all: unfold surge_flat_view, top3, enhanced, surge_flat_scored, surge_flat_candidates.
  all: rewrite_tests; reflexivity.
Qed.

(** ** Whatever the tables, a trigger only allocates *)

Lemma volume_surge_frame h0 F R d snapshot prev top_n :
  snapshot < List.length h0 -> prev < List.length h0 ->
  wp (trigger_morning_volume_surge api d snapshot prev top_n) (st h0 [] F R)
     (only_allocates h0 F R).
Proof.
  intros Hs Hp. unfold trigger_morning_volume_surge.
  repeat blind_step. all: finish.
Qed.

Lemma gap_up_frame h0 F R d snapshot prev top_n :
  snapshot < List.length h0 -> prev < List.length h0 ->
  wp (trigger_morning_gap_up_momentum api d snapshot prev top_n) (st h0 [] F R)
     (only_allocates h0 F R).
Proof.
  intros Hs Hp. unfold trigger_morning_gap_up_momentum.
  repeat blind_step. all: finish.
Qed.

Lemma value_to_cap_frame h0 F R d snapshot prev cap top_n :
  snapshot < List.length h0 -> prev < List.length h0 -> cap < List.length h0 ->
  wp (trigger_morning_value_to_cap_ratio api d snapshot prev cap top_n) (st h0 [] F R)
     (only_allocates h0 F R).
Proof.
  intros Hs Hp Hc. unfold trigger_morning_value_to_cap_ratio.
  repeat blind_step. all: finish.
Qed.

Lemma daily_rise_frame h0 F R d snapshot prev top_n :
  snapshot < List.length h0 -> prev < List.length h0 ->
  wp (trigger_afternoon_daily_rise_top api d snapshot prev top_n) (st h0 [] F R)
     (only_allocates h0 F R).
Proof.
  intros Hs Hp. unfold trigger_afternoon_daily_rise_top.
  repeat blind_step. all: finish.
Qed.

Lemma closing_strength_frame h0 F R d snapshot prev top_n :
  snapshot < List.length h0 -> prev < List.length h0 ->
  wp (trigger_afternoon_closing_strength api d snapshot prev top_n) (st h0 [] F R)
     (only_allocates h0 F R).
Proof.
  intros Hs Hp. unfold trigger_afternoon_closing_strength.
  repeat blind_step. all: finish.
Qed.

Lemma surge_flat_frame h0 F R d snapshot prev top_n :
  snapshot < List.length h0 -> prev < List.length h0 ->
  wp (trigger_afternoon_volume_surge_flat api d snapshot prev top_n) (st h0 [] F R)
     (only_allocates h0 F R).
Proof.
  intros Hs Hp. unfold trigger_afternoon_volume_surge_flat.
  repeat blind_step. all: finish.
Qed.

End Triggers.


(** ** The snapshots survive every trigger *)

Section Frame.

Variable api : StockApi.

(** Every object of the store is as it was before [m] ran; [m] may have
    added objects behind them. *)
Definition preserves_objects (m : M ref) (s : State) : Prop :=
  exists l, snd (m s) = mkState (heap s ++ l) (fetched s) (report s).

(** The table that [r] refers to is the same before and after [m]. *)
Definition unchanged (r : ref) (m : M ref) (s : State) : Prop :=
  nth r (heap (snd (m s))) empty_frame = nth r (heap s) empty_frame.

Definition snapshots_untouched (snapshot prev : ref) (m : M ref) (s : State) : Prop :=
  preserves_objects m s /\ unchanged snapshot m s /\ unchanged prev m s.

Lemma st_of_state (s : State) : s = st (heap s) [] (fetched s) (report s).
Proof. destruct s as [h f r]. unfold st. simpl. rewrite app_nil_r. reflexivity. Qed.

Lemma untouched_of_wp (snapshot prev : ref) (m : M ref) (s : State) :
  snapshot < List.length (heap s) -> prev < List.length (heap s) ->
  wp m (st (heap s) [] (fetched s) (report s))
     (only_allocates (heap s) (fetched s) (report s)) ->
  snapshots_untouched snapshot prev m s.
Proof.
  intros Hs Hp H. unfold wp in H. rewrite <- st_of_state in H.
  destruct H as (l & Hl). unfold st in Hl.
  unfold snapshots_untouched, preserves_objects, unchanged.
  rewrite Hl. simpl.
  split; [exists l; reflexivity|].
  split; apply app_nth1; assumption.
Qed.

(** C9.  Whatever tables the store holds, each of the six triggers leaves
    every object it was given as it was: the snapshot and the previous-day
    snapshot are the same tables after the call as before, and the tables
    the trigger built for itself are new objects behind them. *)
Theorem triggers_leave_snapshots_unchanged (d : string) (s : State)
    (snapshot prev cap : ref) (top_n : nat) :
  snapshot < List.length (heap s) -> prev < List.length (heap s) ->
  cap < List.length (heap s) ->
  snapshots_untouched snapshot prev
    (trigger_morning_volume_surge api d snapshot prev top_n) s /\
  snapshots_untouched snapshot prev
    (trigger_morning_gap_up_momentum api d snapshot prev top_n) s /\
  snapshots_untouched snapshot prev
    (trigger_morning_value_to_cap_ratio api d snapshot prev cap top_n) s /\
  snapshots_untouched snapshot prev
    (trigger_afternoon_daily_rise_top api d snapshot prev top_n) s /\
  snapshots_untouched snapshot prev
    (trigger_afternoon_closing_strength api d snapshot prev top_n) s /\
  snapshots_untouched snapshot prev
    (trigger_afternoon_volume_surge_flat api d snapshot prev top_n) s.
Proof.
  intros Hs Hp Hc.
  refine (conj _ (conj _ (conj _ (conj _ (conj _ _)))));
    apply untouched_of_wp; try assumption.
  - apply volume_surge_frame; assumption.
  - apply gap_up_frame; assumption.
  - apply value_to_cap_frame; assumption.
  - apply daily_rise_frame; assumption.
  - apply closing_strength_frame; assumption.
  - apply surge_flat_frame; assumption.
Qed.

End Frame.

End Run.

(* ================================================================== *)
(** * Rows, labels and values of the stages *)
(* ================================================================== *)

Module Tables.
Import Stages Views Selection.

(** The value of column [c] for label [t], as label-aligned operations
    read it: the first row labelled [t] decides. *)
Definition val (F : DataFrame) (c t : string) : cell := at_label (column F c) t.

Lemma assoc_map_fst {A B : Type} (f : A -> B) (g : A -> string) (l : list A) (t : string) :
  assoc t (map (fun a => (g a, f a)) l) =
  option_map f (find (fun a => String.eqb t (g a)) l).
Proof.
  induction l as [|a l IH]; simpl; [reflexivity|].
  destruct (String.eqb t (g a)); [reflexivity | exact IH].
Qed.

(** The first row labelled [t]. *)
Definition row_of (F : DataFrame) (t : string) : option Row :=
  find (fun r => String.eqb t (ticker r)) (rows F).

Lemma val_row_of (F : DataFrame) (c t : string) :
  val F c t = match row_of F t with Some r => get_cell r c | None => CNum NaN end.
Proof.
  unfold val, at_label, column, row_of.
  rewrite (assoc_map_fst (fun r => get_cell r c) ticker).
  destruct (find _ (rows F)); reflexivity.
Qed.

Lemma at_label_s_map (f : cell -> cell) (s : Series) (t : string) :
  assoc t s <> None -> at_label (s_map f s) t = f (at_label s t).
Proof.
  unfold at_label, s_map. induction s as [|[k v] s IH]; simpl; [congruence|].
  destruct (String.eqb t k); [reflexivity | exact IH].
Qed.

Lemma at_label_s_zip (f : float64 -> float64 -> cell) (s1 s2 : Series) (t : string) :
  assoc t s1 <> None ->
  at_label (s_zip f s1 s2) t = f (num (at_label s1 t)) (num (at_label s2 t)).
Proof.
  unfold at_label at 1 2, s_zip. induction s1 as [|[k v] s IH]; simpl; [congruence|].
  destruct (String.eqb t k) eqn:E; [|exact IH].
  apply String.eqb_eq in E. subst k. reflexivity.
Qed.

Lemma assoc_column (F : DataFrame) (c t : string) :
  assoc t (column F c) <> None <-> row_of F t <> None.
Proof.
  unfold column, row_of.
  rewrite (assoc_map_fst (fun r => get_cell r c) ticker).
  destruct (find _ (rows F)); simpl; split; congruence.
Qed.

Lemma row_of_in (F : DataFrame) (r : Row) : In r (rows F) -> row_of F (ticker r) <> None.
Proof.
  unfold row_of. induction (rows F) as [|a l IH]; simpl; [tauto|].
  intros [->|H].
  - rewrite String.eqb_refl. discriminate.
  - destruct (String.eqb (ticker r) (ticker a)); [discriminate | apply IH; exact H].
Qed.

Lemma row_of_some (F : DataFrame) (t : string) (r : Row) :
  row_of F t = Some r -> In r (rows F) /\ ticker r = t.
Proof.
  unfold row_of. intros H. apply find_some in H. destruct H as [H1 H2].
  apply String.eqb_eq in H2. split; [exact H1 | symmetry; exact H2].
Qed.

(** ** Rows of the table operations *)

Lemma rows_add_column F c s :
  rows (add_column F c s) = map (fun r => set_cell r c (at_label s (ticker r))) (rows F).
Proof. reflexivity. Qed.

Lemma rows_mask_rows F m :
  rows (mask_rows F m) = filter (fun r => truth (at_label m (ticker r))) (rows F).
Proof. reflexivity. Qed.

Lemma rows_head n F : rows (head n F) = firstn n (rows F).
Proof. reflexivity. Qed.

Lemma rows_sort_values_desc c F :
  rows (sort_values_desc c F) = sort_desc (fun r => num (get_cell r c)) (rows F).
Proof. reflexivity. Qed.

Lemma index_add_column F c s : index (add_column F c s) = index F.
Proof. unfold index. rewrite rows_add_column, map_map. reflexivity. Qed.

Lemma index_add_const_column F c v : index (add_const_column F c v) = index F.
Proof. unfold index, add_const_column. simpl. rewrite map_map. reflexivity. Qed.

Lemma index_add_column_where F m c s : index (add_column_where F m c s) = index F.
Proof.
  unfold index, add_column_where. simpl. rewrite map_map.
  apply map_ext. intros r. destruct (truth _); reflexivity.
Qed.


Lemma get_set_same r c v : get_cell (set_cell r c v) c = v.
Proof. unfold get_cell, set_cell. simpl. rewrite String.eqb_refl. reflexivity. Qed.

Lemma get_set_other r c c' v : c' <> c -> get_cell (set_cell r c v) c' = get_cell r c'.
Proof.
  intros H. unfold get_cell, set_cell. simpl.
  apply String.eqb_neq in H. rewrite H. reflexivity.
Qed.






(** ** Labels of the table operations *)

Lemma In_firstn {A : Type} (n : nat) (l : list A) (x : A) :
  In x (firstn n l) -> In x l.
Proof.
  revert l. induction n as [|n IH]; intros [|a l]; simpl; try tauto.
  intros [H|H]; [now left | right; apply IH; exact H].
Qed.

Lemma NoDup_firstn {A : Type} (n : nat) (l : list A) : NoDup l -> NoDup (firstn n l).
Proof.
  revert l. induction n as [|n IH]; intros [|a l] H; simpl; try constructor.
  - inversion H; subst. intros Hin. apply In_firstn in Hin. contradiction.
  - inversion H; subst. apply IH. assumption.
Qed.





Lemma index_in_row_of F t : In t (index F) <-> row_of F t <> None.
Proof.
  unfold index. split.
  - intros H. apply in_map_iff in H. destruct H as (r & <- & Hr).
    apply row_of_in. exact Hr.
  - intros H. destruct (row_of F t) as [r|] eqn:E; [|congruence].
    apply row_of_some in E. destruct E as [E1 E2].
    apply in_map_iff. exists r. tauto.
Qed.

(** [df.loc[labels]] keeps, for each requested label, the first row of
    the table with that label in front. *)
Lemma row_of_loc F labels t :
  row_of (loc F labels) t = if mem t labels then row_of F t else None.
Proof.
  unfold row_of, loc. simpl.
  induction labels as [|l labels IH]; simpl; [reflexivity|].
  assert (forall (rs : list Row) (rest : list Row),
            find (fun r => String.eqb t (ticker r))
                 (filter (fun r => String.eqb (ticker r) l) rs ++ rest) =
            if String.eqb t l
            then match find (fun r => String.eqb t (ticker r)) rs with
                 | Some r => Some r
                 | None => find (fun r => String.eqb t (ticker r)) rest
                 end
            else find (fun r => String.eqb t (ticker r)) rest) as Hf.
  { intros rs rest. destruct (String.eqb t l) eqn:E2.
    - apply String.eqb_eq in E2. subst l.
      induction rs as [|a rs IHrs]; simpl; [reflexivity|].
      destruct (String.eqb (ticker a) t) eqn:E1; simpl;
        rewrite (String.eqb_sym t (ticker a)), E1; [reflexivity | exact IHrs].
    - induction rs as [|a rs IHrs]; simpl; [reflexivity|].
      destruct (String.eqb (ticker a) l) eqn:E1; simpl; [|exact IHrs].
      apply String.eqb_eq in E1. subst l. rewrite E2. exact IHrs. }
  rewrite Hf. rewrite IH.
  destruct (String.eqb t l); simpl; [|reflexivity].
  destruct (find _ (rows F)); [reflexivity|].
  destruct (mem t labels); reflexivity.
Qed.

Lemma val_loc F labels c t :
  mem t labels = true -> val (loc F labels) c t = val F c t.
Proof. intros H. rewrite !val_row_of, row_of_loc, H. reflexivity. Qed.

(** ** Reading a Series expression at a label *)

Lemma assoc_s_map (f : cell -> cell) (s : Series) (t : string) :
  assoc t (s_map f s) = option_map f (assoc t s).
Proof.
  unfold s_map. induction s as [|[k v] s IH]; simpl; [reflexivity|].
  destruct (String.eqb t k); [reflexivity | exact IH].
Qed.

Lemma assoc_s_zip (f : float64 -> float64 -> cell) (s1 s2 : Series) (t : string) :
  assoc t (s_zip f s1 s2) =
  option_map (fun v => f (num v) (num (at_label s2 t))) (assoc t s1).
Proof.
  unfold s_zip. induction s1 as [|[k v] s IH]; simpl; [reflexivity|].
  destruct (String.eqb t k) eqn:E; [|exact IH].
  apply String.eqb_eq in E. subst k. reflexivity.
Qed.

Lemma assoc_column_eq (F : DataFrame) (c t : string) :
  assoc t (column F c) = option_map (fun r => get_cell r c) (row_of F t).
Proof.
  unfold column, row_of. apply (assoc_map_fst (fun r => get_cell r c) ticker).
Qed.

(** Unfold a Series expression read at a label down to the first rows
    of the tables it was built from. *)
Ltac read_series :=
  unfold s_add, s_sub, s_div, s_gt, s_ne, s_add_c, s_sub_c, s_mul_c, s_div_c,
    s_ge_c, s_gt_c, s_lt_c, s_abs, s_replace_0_nan;
  repeat first [ rewrite assoc_s_map | rewrite assoc_s_zip | rewrite assoc_column_eq ].


(** ** Zero prior-day volume *)


















(** ** Labels of a trigger's result *)

Lemma enhanced_index api F df : enhanced api F = inr df -> index df = index F.
Proof.
  unfold enhanced. destruct (empty F); [intros H; inversion H; reflexivity|].
  destruct (Exec.lookup_names api (index F)); [discriminate|].
  intros H. inversion H. apply index_add_column.
Qed.





Lemma index_scored2 rc rn ac an rw aw F : index (scored2 rc rn ac an rw aw F) = index F.
Proof.
  unfold scored2, with_score2, with_norm, with_norm_from.
  rewrite !index_add_column. reflexivity.
Qed.








End Tables.

(* ================================================================== *)
(** * A small market
(* ================================================================== *)

    Four tickers on two consecutive business days, used to run the
    program on concrete data. *)

Module Market.
Import Stages.

Definition ohlcv_row (t : string) (o h l c v tv : Z) : Row :=
  mkRow t [("시가", CNum (of_Z o)); ("고가", CNum (of_Z h)); ("저가", CNum (of_Z l));
           ("종가", CNum (of_Z c)); ("거래량", CNum (of_Z v)); ("거래대금", CNum (of_Z tv))].

Definition cap_row (t : string) (c : Z) : Row :=
  mkRow t [("시가총액", CNum (of_Z c))].

(** The trade date.  [C] traded 5000 shares after a day without trades. *)
Definition today : DataFrame := mkDF ohlcv_columns
  [ohlcv_row "A" 100 120 90 110 1300 600000000;
   ohlcv_row "B" 100 130 100 125 2000 900000000;
   ohlcv_row "C" 105 130 100 125 5000 1900000000;
   ohlcv_row "D" 100 120 90 110 1300 100].

(** The previous business day. *)
Definition yesterday : DataFrame := mkDF ohlcv_columns
  [ohlcv_row "A" 100 120 90 100 1000 600000000;
   ohlcv_row "B" 100 120 90 95 1000 600000000;
   ohlcv_row "C" 100 120 90 100 0 600000000;
   ohlcv_row "D" 100 120 90 100 1000 100].

Definition caps : DataFrame := mkDF ["시가총액"]
  [cap_row "A" 20000000000; cap_row "B" 50000000000;
   cap_row "C" 5; cap_row "D" 90000000000].

(** The provider: data for 2024-01-02 and 2024-01-01, nothing else. *)
Definition ohlcv_of (d : string) : DataFrame :=
  if String.eqb d "20240102" then today
  else if String.eqb d "20240101" then yesterday
  else empty_frame.

Definition names (t : string) : option string := Some (String.append "N" t).

(** [str.upper()] on ASCII letters. *)
Definition upper_letter (c : ascii) : ascii :=
  let n := nat_of_ascii c in
  if (97 <=? n)%nat && (n <=? 122)%nat then ascii_of_nat (n - 32) else c.

Fixpoint upper (s : string) : string :=
  match s with
  | EmptyString => EmptyString
  | String c s' => String (upper_letter c) (upper s')
  end.

Definition provider : StockApi :=
  mkApi ohlcv_of (fun _ => caps) (fun d => d) names
        "20240102" (fun _ => "20240101") "2024-01-02T09:10:00" upper.

(** A provider whose name lookup raises for every ticker. *)
Definition nameless : StockApi :=
  mkApi ohlcv_of (fun _ => caps) (fun d => d) (fun _ => None)
        "20240102" (fun _ => "20240101") "2024-01-02T09:10:00" upper.


(** A busier trade date: [X] has the largest volume surge but fell,
    [Y], [Z], [W] and [V] rose on smaller surges. *)
Definition busy_today : DataFrame := mkDF ohlcv_columns
  [ohlcv_row "X" 100 120 90 95 9000 900000000;
   ohlcv_row "Y" 100 120 90 110 3000 900000000;
   ohlcv_row "Z" 100 120 90 105 2000 900000000;
   ohlcv_row "W" 100 120 90 104 1800 900000000;
   ohlcv_row "V" 100 120 90 103 1500 900000000].

Definition busy_yesterday : DataFrame := mkDF ohlcv_columns
  [ohlcv_row "X" 100 120 90 100 1000 600000000;
   ohlcv_row "Y" 100 120 90 100 1000 600000000;
   ohlcv_row "Z" 100 120 90 100 1000 600000000;
   ohlcv_row "W" 100 120 90 100 1000 600000000;
   ohlcv_row "V" 100 120 90 100 1000 600000000].

Definition busy_store : State := mkState [busy_today; busy_yesterday; caps] [] None.

(** The store after both snapshots were fetched. *)
Definition fetched_store : State := mkState [today; yesterday; caps] [] None.

Definition initial : State := mkState [] [] None.

(** Trigger tables that carry a score only. *)
Definition scored_row (t : string) (score : Q) : Row :=
  mkRow t [("복합점수", CNum (Fin score))].

Definition picks (l : list (string * Q)) : DataFrame :=
  mkDF ["복합점수"] (map (fun p => scored_row (fst p) (snd p)) l).

(** Category A tops at 0.92 with [X], category B at 0.95 with [Y]. *)
Definition two_tops : Triggers :=
  [("A", picks [("X", 92 # 100)]); ("B", picks [("Y", 95 # 100)])].

(** The same ticker in two categories, scored higher in the second. *)
Definition same_ticker : Triggers :=
  [("A", picks [("X", 1 # 2)]); ("B", picks [("X", 19 # 20)])].

End Market.

(* ================================================================== *)
(** * A prior-day volume of zero *)
(* ================================================================== *)

Module ZeroVolume.
Import Exec Stages Views Run Tables.
Local Open Scope nat_scope.

(** The table a trigger hands back, read from the store it leaves. *)
Definition table_of (m : M ref) (s : State) : exn + DataFrame :=
  outcome (heap (snd (m s))) (fst (m s)).

Lemma table_of_run (m : M ref) (s : State) (v : exn + DataFrame) :
  wp m (st (heap s) [] (fetched s) (report s))
       (returns (heap s) (fetched s) (report s) v) ->
  table_of m s = v.
Proof.
  unfold wp. rewrite <- st_of_state. intros (l & Hs & Ho & _).
  unfold table_of. rewrite Hs. exact Ho.
Qed.




Section WithApi.

Variable api : StockApi.


End WithApi.

End ZeroVolume.

(* ================================================================== *)
(** * Tables keyed by distinct tickers *)
(* ================================================================== *)

Module Labels.
Import Stages Views Selection Tables.

Lemma unique_mask_rows F m : unique_index F -> unique_index (mask_rows F m).
Proof. unfold unique_index, index. rewrite rows_mask_rows. apply filter_rows_NoDup. Qed.

Lemma unique_head n F : unique_index F -> unique_index (head n F).
Proof.
  unfold unique_index, index. rewrite rows_head, <- firstn_map. apply NoDup_firstn.
Qed.

Lemma unique_sort_values_desc c F :
  unique_index F -> unique_index (sort_values_desc c F).
Proof.
  unfold unique_index, index. rewrite rows_sort_values_desc. intros H.
  apply (Permutation_NoDup (l := map ticker (rows F))); [|exact H].
  apply Permutation_map. apply Permutation_sym.
  apply (SortFacts.sort_desc_perm (fun r => num (get_cell r c))).
Qed.

Lemma unique_add_column F c s : unique_index F -> unique_index (add_column F c s).
Proof. unfold unique_index. rewrite index_add_column. tauto. Qed.

Lemma unique_add_const_column F c v :
  unique_index F -> unique_index (add_const_column F c v).
Proof. unfold unique_index. rewrite index_add_const_column. tauto. Qed.

Lemma unique_add_column_where F m c s :
  unique_index F -> unique_index (add_column_where F m c s).
Proof. unfold unique_index. rewrite index_add_column_where. tauto. Qed.

(** [df.loc[labels]] on a table keyed by distinct tickers that has every
    label: the rows of the labels, in their order. *)
Lemma index_loc_all F labels :
  unique_index F -> incl labels (index F) -> index (loc F labels) = labels.
Proof.
  intros Hu. unfold index, loc. simpl.
  induction labels as [|t labels IH]; intros Hi; simpl; [reflexivity|].
  rewrite map_app, IH by (intros x Hx; apply Hi; now right).
  rewrite (filter_eq_single (rows F) t Hu) by (apply Hi; now left).
  reflexivity.
Qed.

Lemma unique_loc_common S P : unique_index S -> unique_index (loc S (common S P)).
Proof.
  intros Hu. unfold unique_index.
  rewrite index_loc_all; [|exact Hu|].
  - unfold common, intersection. apply NoDup_filter. exact Hu.
  - unfold common, intersection. intros t Ht. apply filter_In in Ht. tauto.
Qed.

Lemma unique_merge_inner L R : unique_index L -> unique_index (merge_inner L R).
Proof.
  unfold unique_index, index, merge_inner. simpl.
  induction (rows L) as [|lr rs IH]; simpl; intros H; [constructor|].
  inversion H as [|? ? Hn Hd]; subst.
  destruct (find _ (rows R)); simpl; [|apply IH; exact Hd].
  constructor; [|apply IH; exact Hd].
  intros Hin. apply Hn. apply in_map_iff in Hin. destruct Hin as (x & E & Hx).
  apply in_flat_map in Hx. destruct Hx as (y & Hy & Hx).
  destruct (find _ (rows R)); [|contradiction].
  destruct Hx as [<-|[]]. simpl in E. rewrite <- E.
  apply in_map. exact Hy.
Qed.

(** The stages keep the tickers distinct. *)

Lemma unique_mask_ge c k F : unique_index F -> unique_index (mask_ge c k F).
Proof. unfold mask_ge. apply unique_mask_rows. Qed.

Lemma unique_qualified c F : unique_index F -> unique_index (qualified c F).
Proof. unfold qualified. apply unique_mask_rows. Qed.

Lemma unique_liquid F0 F : unique_index F -> unique_index (liquid F0 F).
Proof. unfold liquid. apply unique_mask_rows. Qed.

Lemma unique_with_volume_ratio P F : unique_index F -> unique_index (with_volume_ratio P F).
Proof. unfold with_volume_ratio. apply unique_add_column. Qed.

Lemma unique_with_growth_of_ratio F : unique_index F -> unique_index (with_growth_of_ratio F).
Proof. unfold with_growth_of_ratio. apply unique_add_column. Qed.

Lemma unique_with_volume_growth P F : unique_index F -> unique_index (with_volume_growth P F).
Proof. unfold with_volume_growth. apply unique_add_column. Qed.

Lemma unique_with_intraday F : unique_index F -> unique_index (with_intraday F).
Proof. unfold with_intraday. apply unique_add_column. Qed.

Lemma unique_with_day_over_day P F : unique_index F -> unique_index (with_day_over_day P F).
Proof. unfold with_day_over_day. apply unique_add_column. Qed.

Lemma unique_with_rising c F : unique_index F -> unique_index (with_rising c F).
Proof. unfold with_rising. apply unique_add_column. Qed.

Lemma unique_with_gap P F : unique_index F -> unique_index (with_gap P F).
Proof. unfold with_gap. apply unique_add_column. Qed.

Lemma unique_with_momentum F : unique_index F -> unique_index (with_momentum F).
Proof. unfold with_momentum. apply unique_add_column. Qed.

Lemma unique_with_value_ratio F : unique_index F -> unique_index (with_value_ratio F).
Proof. unfold with_value_ratio. apply unique_add_column. Qed.

Lemma unique_with_strength_default F : unique_index F -> unique_index (with_strength_default F).
Proof. unfold with_strength_default. apply unique_add_const_column. Qed.

Lemma unique_with_closing_strength F : unique_index F -> unique_index (with_closing_strength F).
Proof. unfold with_closing_strength. cbv zeta. apply unique_add_column_where. Qed.

Lemma unique_with_volume_up P F : unique_index F -> unique_index (with_volume_up P F).
Proof. unfold with_volume_up. apply unique_add_column. Qed.

Lemma unique_with_flat F : unique_index F -> unique_index (with_flat F).
Proof. unfold with_flat. apply unique_add_column. Qed.

Lemma unique_with_norm_from F0 name c F : unique_index F -> unique_index (with_norm_from F0 name c F).
Proof. unfold with_norm_from. apply unique_add_column. Qed.

Lemma unique_with_score2 a wa b wb F : unique_index F -> unique_index (with_score2 a wa b wb F).
Proof. unfold with_score2. apply unique_add_column. Qed.

Lemma unique_with_score3 a wa b wb c wc F : unique_index F -> unique_index (with_score3 a wa b wb c wc F).
Proof. unfold with_score3. apply unique_add_column. Qed.

Lemma unique_with_norm n c F : unique_index F -> unique_index (with_norm n c F).
Proof. unfold with_norm. apply unique_with_norm_from. Qed.

Lemma unique_absolute_filtered m F :
  unique_index F -> unique_index (absolute_filtered m F).
Proof.
  intros H. unfold absolute_filtered. apply unique_liquid. apply unique_mask_ge. exact H.
Qed.

Lemma unique_scored2 rc rn ac an rw aw F :
  unique_index F -> unique_index (scored2 rc rn ac an rw aw F).
Proof.
  intros H. unfold scored2. apply unique_with_score2. apply unique_with_norm_from.
  apply unique_with_norm. exact H.
Qed.

Lemma unique_scored3 a an b bn c cn wa wb wc F :
  unique_index F -> unique_index (scored3 a an b bn c cn wa wb wc F).
Proof.
  intros H. unfold scored3. apply unique_with_score3.
  apply unique_with_norm. apply unique_with_norm. apply unique_with_norm. exact H.
Qed.

Ltac unique_stage :=
  lazymatch goal with
  | |- unique_index (head _ _) => apply unique_head
  | |- unique_index (sort_values_desc _ _) => apply unique_sort_values_desc
  | |- unique_index (scored2 _ _ _ _ _ _ _) => apply unique_scored2
  | |- unique_index (scored3 _ _ _ _ _ _ _ _ _ _) => apply unique_scored3
  | |- unique_index (mask_ge _ _ _) => apply unique_mask_ge
  | |- unique_index (qualified _ _) => apply unique_qualified
  | |- unique_index (with_rising _ _) => apply unique_with_rising
  | |- unique_index (with_day_over_day _ _) => apply unique_with_day_over_day
  | |- unique_index (with_intraday _) => apply unique_with_intraday
  | |- unique_index (with_growth_of_ratio _) => apply unique_with_growth_of_ratio
  | |- unique_index (with_volume_ratio _ _) => apply unique_with_volume_ratio
  | |- unique_index (with_volume_growth _ _) => apply unique_with_volume_growth
  | |- unique_index (with_gap _ _) => apply unique_with_gap
  | |- unique_index (with_momentum _) => apply unique_with_momentum
  | |- unique_index (with_value_ratio _) => apply unique_with_value_ratio
  | |- unique_index (with_volume_up _ _) => apply unique_with_volume_up
  | |- unique_index (with_closing_strength _) => apply unique_with_closing_strength
  | |- unique_index (with_strength_default _) => apply unique_with_strength_default
  | |- unique_index (with_flat _) => apply unique_with_flat
  | |- unique_index (absolute_filtered _ _) => apply unique_absolute_filtered
  | |- unique_index (loc _ (common _ _)) => apply unique_loc_common
  | |- unique_index (merge_inner _ _) => apply unique_merge_inner
  end.

Ltac unique_stages := repeat unique_stage; assumption.

Lemma unique_volume_surge_scored S P :
  unique_index S -> unique_index (volume_surge_scored S P).
Proof.
  intros Hu. unfold volume_surge_scored, volume_surge_candidates, volume_surge_metrics.
  unique_stages.
Qed.

Lemma unique_gap_up_scored S P : unique_index S -> unique_index (gap_up_scored S P).
Proof. intros Hu. unfold gap_up_scored, gap_up_candidates. unique_stages. Qed.

Lemma unique_value_to_cap_scored S P C :
  unique_index S -> unique_index (value_to_cap_scored S P C).
Proof.
  intros Hu.
  unfold value_to_cap_scored, value_to_cap_candidates, value_to_cap_filtered, cap_merged.
  unique_stages.
Qed.

Lemma unique_daily_rise_scored S P :
  unique_index S -> unique_index (daily_rise_scored S P).
Proof. intros Hu. unfold daily_rise_scored, daily_rise_candidates. unique_stages. Qed.

Lemma unique_closing_strength_scored S P :
  unique_index S -> unique_index (closing_strength_scored S P).
Proof.
  intros Hu.
  unfold closing_strength_scored, closing_strength_candidates, closing_strength_metrics.
  unique_stages.
Qed.

Lemma unique_surge_flat_scored S P :
  unique_index S -> unique_index (surge_flat_scored S P).
Proof. intros Hu. unfold surge_flat_scored, surge_flat_candidates. unique_stages. Qed.

(** In a table keyed by distinct tickers the value under the label of a
    row is the value of the row. *)
Lemma val_own F c r : unique_index F -> In r (rows F) -> val F c (ticker r) = get_cell r c.
Proof.
  intros Hu Hr. rewrite val_row_of. unfold row_of.
  unfold unique_index, index in Hu.
  induction (rows F) as [|a l IH]; simpl in *; [contradiction|].
  inversion Hu as [|? ? Hn Hd]; subst.
  destruct Hr as [->|Hr].
  - rewrite String.eqb_refl. reflexivity.
  - destruct (String.eqb (ticker r) (ticker a)) eqn:E; [|apply IH; assumption].
    apply String.eqb_eq in E. exfalso. apply Hn. rewrite <- E.
    apply in_map. exact Hr.
Qed.

(** ** The tables the triggers hand back *)

Section WithApi.

Variable api : StockApi.

Lemma unique_enhanced F df :
  enhanced api F = inr df -> unique_index F -> unique_index df.
Proof.
  intros H Hu. apply enhanced_index in H. unfold unique_index. rewrite H. exact Hu.
Qed.

Lemma unique_empty_frame : unique_index empty_frame.
Proof. constructor. Qed.

Lemma unique_top3 F df : top3 api F = inr df -> unique_index F -> unique_index df.
Proof.
  unfold top3. destruct (empty F).
  - intros H _. inversion H. apply unique_empty_frame.
  - intros H Hu. apply (unique_enhanced _ _ H). unique_stages.
Qed.

Lemma unique_volume_surge_view S P n df :
  unique_index S -> volume_surge_view api S P n = inr df -> unique_index df.
Proof.
  intros Hu. unfold volume_surge_view. destruct (empty _).
  - intros H. inversion H. apply unique_empty_frame.
  - intros H. apply (unique_top3 _ _ H).
    pose proof (unique_volume_surge_scored S P Hu). unique_stages.
Qed.

Lemma unique_gap_up_view S P n df :
  unique_index S -> gap_up_view api S P n = inr df -> unique_index df.
Proof.
  intros Hu. unfold gap_up_view. cbv zeta.
  assert (unique_index (gap_up_top S P n)) as Ht.
  { unfold gap_up_top. destruct (empty (gap_up_candidates S P)).
    - unfold gap_up_candidates. unique_stages.
    - pose proof (unique_gap_up_scored S P Hu). unique_stages. }
  destruct (empty _).
  - intros H. inversion H. apply unique_empty_frame.
  - intros H. apply (unique_enhanced _ _ H). unique_stages.
Qed.

Lemma unique_value_to_cap_view S P C n df :
  unique_index S -> value_to_cap_view api S P C n = inr df -> unique_index df.
Proof.
  intros Hu. unfold value_to_cap_view.
  repeat match goal with
  | |- (if ?b then inr empty_frame else _) = _ -> _ =>
      destruct b; [intros H; inversion H; apply unique_empty_frame|]
  end.
  destruct (top3 api _) as [e|df'] eqn:T; cbn [caught]; intros H; inversion H.
  - apply unique_empty_frame.
  - subst df'. apply (unique_top3 _ _ T).
    pose proof (unique_value_to_cap_scored S P C Hu). unique_stages.
Qed.

Lemma unique_daily_rise_view S P n df :
  unique_index S -> daily_rise_view api S P n = inr df -> unique_index df.
Proof.
  intros Hu. unfold daily_rise_view. destruct (empty _).
  - intros H. inversion H. apply unique_empty_frame.
  - intros H. apply (unique_enhanced _ _ H).
    pose proof (unique_daily_rise_scored S P Hu). unique_stages.
Qed.

Lemma unique_closing_strength_view S P n df :
  unique_index S -> closing_strength_view api S P n = inr df -> unique_index df.
Proof.
  intros Hu. unfold closing_strength_view. intros H. apply (unique_top3 _ _ H).
  apply unique_qualified. unfold closing_strength_top.
  destruct (empty (closing_strength_candidates S P)).
  - unfold closing_strength_candidates, closing_strength_metrics. unique_stages.
  - pose proof (unique_closing_strength_scored S P Hu). unique_stages.
Qed.

Lemma unique_surge_flat_view S P n df :
  unique_index S -> surge_flat_view api S P n = inr df -> unique_index df.
Proof.
  intros Hu. unfold surge_flat_view. destruct (empty _).
  - intros H. inversion H. apply unique_empty_frame.
  - intros H. apply (unique_top3 _ _ H).
    pose proof (unique_surge_flat_scored S P Hu). unique_stages.
Qed.

End WithApi.

End Labels.

(* ================================================================== *)
(** * The top-N cut and the qualifier *)
(* ================================================================== *)

Module Qualifier.
Import Exec Stages Views Run Tables Labels ZeroVolume.
Local Open Scope nat_scope.

(** The composite score of a row. *)
Definition score (r : Row) : float64 := num (get_cell r "복합점수").

(** Best first: no later row has to go before an earlier one. *)
Definition best_first (a b : Row) : Prop := before (score b) (score a) = false.

(** The flag that the table [T] records under the ticker of [r]. *)
Definition passes (c : string) (T : DataFrame) (r : Row) : bool :=
  truth (val T c (ticker r)).

(** The rows of [top] that pass the qualifier, best first, cut to three. *)
Definition shortlist (c : string) (top : DataFrame) : list Row :=
  firstn 3 (sort_desc score (filter (passes c top) (rows top))).

(** [r'] is the row [r] with values under the columns [cols] added. *)
Definition annotated (cols : list string) (r' r : Row) : Prop :=
  ticker r' = ticker r /\
  forall c, ~ In c cols -> get_cell r' c = get_cell r c.

(** The table [df] lists the rows [l], annotated, best first, three at most. *)
Definition lists (cols : list string) (l : list Row) (df : DataFrame) : Prop :=
  Forall2 (annotated cols) (rows df) l /\
  List.length (rows df) <= 3 /\
  StronglySorted best_first (rows df).

(** What a trigger hands back: a table with the property [Q], or the
    failure of the name lookup of some ticker. *)
Definition hands_back (api : StockApi) (Q : DataFrame -> Prop) (v : exn + DataFrame)
    : Prop :=
  match v with
  | inr df => Q df
  | inl e => e = NameLookupError /\ exists t, get_market_ticker_name api t = None
  end.





(** ** Lists *)








Lemma StronglySorted_firstn {A : Type} (R : A -> A -> Prop) (n : nat) (l : list A) :
  StronglySorted R l -> StronglySorted R (firstn n l).
Proof.
  revert n. induction l as [|a l IH]; intros n H; destruct n; simpl; try constructor.
  - apply IH. inversion H; assumption.
  - inversion H; subst. apply Forall_forall. intros x Hx.
    apply In_firstn in Hx. exact (proj1 (Forall_forall _ _) H3 x Hx).
Qed.

Lemma StronglySorted_map {A : Type} (R : A -> A -> Prop) (f : A -> A) (l : list A) :
  (forall x y, R x y -> R (f x) (f y)) ->
  StronglySorted R l -> StronglySorted R (map f l).
Proof.
  intros Hf. induction 1 as [|a l Hl IH Ha]; simpl; constructor.
  - exact IH.
  - apply Forall_forall. intros y Hy. apply in_map_iff in Hy.
    destruct Hy as (x & <- & Hx). apply Hf.
    exact (proj1 (Forall_forall _ _) Ha x Hx).
Qed.

Lemma Forall2_map_self {A : Type} (R : A -> A -> Prop) (f : A -> A) (l : list A) :
  (forall x, R (f x) x) -> Forall2 R (map f l) l.
Proof. intros H. induction l; simpl; constructor; auto. Qed.

(** ** Rows *)

Lemma get_cell_set_other (r : Row) (c c' : string) (v : cell) :
  c' <> c -> get_cell (set_cell r c v) c' = get_cell r c'.
Proof.
  intros H. unfold get_cell, set_cell. simpl.
  destruct (String.eqb c' c) eqn:E; [|reflexivity].
  apply String.eqb_eq in E. contradiction.
Qed.

Lemma annotated_set (cols : list string) (r : Row) (c : string) (v : cell) :
  In c cols -> annotated cols (set_cell r c v) r.
Proof.
  intros Hc. split; [reflexivity|]. intros c' Hn.
  apply get_cell_set_other. intros ->. contradiction.
Qed.

Lemma annotated_trans (cols : list string) (a b c : Row) :
  annotated cols a b -> annotated cols b c -> annotated cols a c.
Proof.
  intros [T1 G1] [T2 G2]. split; [congruence|].
  intros k Hk. rewrite G1, G2 by assumption. reflexivity.
Qed.

Lemma annotated_score (cols : list string) (r' r : Row) :
  ~ In "복합점수" cols -> annotated cols r' r -> score r' = score r.
Proof. intros Hn [_ G]. unfold score. rewrite G by assumption. reflexivity. Qed.

(** Annotating the first three of a sorted list keeps what [lists] asks. *)
Lemma lists_intro (cols : list string) (f : Row -> Row) (l : list Row) (df : DataFrame) :
  ~ In "복합점수" cols -> (forall r, annotated cols (f r) r) ->
  rows df = map f (firstn 3 (sort_desc score l)) ->
  lists cols (firstn 3 (sort_desc score l)) df.
Proof.
  intros Hn Hf E. unfold lists. rewrite E. split; [|split].
  - apply Forall2_map_self. exact Hf.
  - rewrite length_map. apply firstn_le_length.
  - apply StronglySorted_map.
    + unfold best_first. intros x y H.
      rewrite !(annotated_score cols _ _ Hn (Hf _)). exact H.
    + apply StronglySorted_firstn. apply SortFacts.sort_desc_sorted.
Qed.

Lemma lists_nil (cols : list string) (df : DataFrame) :
  rows df = [] -> lists cols [] df.
Proof.
  intros E. unfold lists. rewrite E. repeat split; [constructor | simpl; lia | constructor].
Qed.

(** ** Tables *)

Lemma empty_rows (F : DataFrame) : columns F <> [] -> empty F = true -> rows F = [].
Proof.
  unfold empty. destruct (rows F); [reflexivity|].
  destruct (columns F); [contradiction | discriminate].
Qed.

Lemma add_col_nonempty (c : string) (l : list string) : add_col c l <> [].
Proof.
  unfold add_col. destruct (mem c l) eqn:E.
  - intros ->. discriminate E.
  - destruct l; discriminate.
Qed.

Lemma rows_qualified (c : string) (T : DataFrame) :
  rows (qualified c T) = filter (passes c T) (rows T).
Proof. reflexivity. Qed.

Lemma shortlist_nil (c : string) (T : DataFrame) : rows T = [] -> shortlist c T = [].
Proof. intros E. unfold shortlist. rewrite E. reflexivity. Qed.

(** The flag recorded under the ticker of a row is the flag of the row. *)
Definition own_flags (c : string) (T : DataFrame) : Prop :=
  forall r, In r (rows T) -> passes c T r = truth (get_cell r c).

Lemma own_flags_unique (c : string) (T : DataFrame) :
  Selection.unique_index T -> own_flags c T.
Proof. intros Hu r Hr. unfold passes. rewrite (val_own T c r Hu Hr). reflexivity. Qed.

Section WithApi.

Variable api : StockApi.

Lemma lookup_names_fails (l : list string) (e : exn) :
  lookup_names api l = inl e ->
  e = NameLookupError /\ exists t, get_market_ticker_name api t = None.
Proof.
  induction l as [|t l IH]; simpl; [discriminate|].
  destruct (get_market_ticker_name api t) eqn:E.
  - destruct (lookup_names api l); [|discriminate].
    intros H. inversion H. subst. apply IH. reflexivity.
  - intros H. inversion H. split; [reflexivity | exists t; exact E].
Qed.

(** [enhance_dataframe] adds the name column to every row. *)
Lemma enhanced_rows (F : DataFrame) :
  columns F <> [] ->
  hands_back api
    (fun df => exists names : Series,
       rows df = map (fun r => set_cell r "종목명" (at_label names (ticker r))) (rows F))
    (enhanced api F).
Proof.
  intros Hc. unfold enhanced. destruct (empty F) eqn:E.
  - simpl. exists []. rewrite (empty_rows F Hc E). reflexivity.
  - destruct (lookup_names api (index F)) as [e|ns] eqn:L; simpl.
    + exact (lookup_names_fails _ _ L).
    + exists (combine (index F) ns). reflexivity.
Qed.

(** The final cut of a trigger: the rows of [result], best first, cut to
    three, each with its name. *)
Lemma top3_rows (result : DataFrame) :
  columns result <> [] ->
  hands_back api
    (fun df => exists names : Series,
       rows df = map (fun r => set_cell r "종목명" (at_label names (ticker r)))
                     (firstn 3 (sort_desc score (rows result))))
    (top3 api result).
Proof.
  intros Hc. unfold top3. destruct (empty result) eqn:E.
  - simpl. exists []. rewrite (empty_rows result Hc E). reflexivity.
  - apply (enhanced_rows (head 3 (sort_values_desc "복합점수" result))).
    rewrite columns_head, columns_sort_values_desc. exact Hc.
Qed.

Lemma hands_back_impl (Q Q' : DataFrame -> Prop) (v : exn + DataFrame) :
  (forall df, Q df -> Q' df) -> hands_back api Q v -> hands_back api Q' v.
Proof. intros H. destruct v; simpl; auto. Qed.

(** A trigger that ends in [top3] of the qualified top rows hands back
    the shortlist of these rows. *)
Lemma top3_shortlist (c : string) (top : DataFrame) :
  columns top <> [] ->
  hands_back api (lists ["종목명"] (shortlist c top)) (top3 api (qualified c top)).
Proof.
  intros Hc.
  refine (hands_back_impl _ _ _ _ (top3_rows (qualified c top) _)).
  - intros df (names & E). unfold shortlist. rewrite <- rows_qualified.
    apply (lists_intro _ (fun r => set_cell r "종목명" (at_label names (ticker r)))).
    + simpl. intros [H|[]]. discriminate H.
    + intros r. apply annotated_set. left. reflexivity.
    + exact E.
  - rewrite columns_qualified. exact Hc.
Qed.

(** ** Where a lookup fails *)






(** ** The triggers *)

Lemma rows_scored2_nil rc rn ac an rw aw c F :
  rows F = [] -> rows (sort_values_desc c (scored2 rc rn ac an rw aw F)) = [].
Proof.
  intros E. rewrite rows_sort_values_desc.
  unfold scored2, with_score2, with_norm, with_norm_from.
  rewrite !rows_add_column, E. reflexivity.
Qed.

Lemma rows_scored3_nil a an b bn c cn wa wb wc k F :
  rows F = [] -> rows (sort_values_desc k (scored3 a an b bn c cn wa wb wc F)) = [].
Proof.
  intros E. rewrite rows_sort_values_desc.
  unfold scored3, with_score3, with_norm, with_norm_from.
  rewrite !rows_add_column, E. reflexivity.
Qed.

Lemma rows_head_nil n F : rows F = [] -> rows (head n F) = [].
Proof. intros E. rewrite rows_head, E. apply firstn_nil. Qed.

Lemma volume_surge_lists (S P : DataFrame) (top_n : nat) :
  hands_back api
    (lists ["종목명"] (shortlist "상승여부" (head top_n (volume_surge_scored S P))))
    (volume_surge_view api S P top_n).
Proof.
  unfold volume_surge_view. destruct (empty (volume_surge_candidates S P)) eqn:E.
  - simpl. rewrite shortlist_nil; [apply lists_nil; reflexivity|].
    apply rows_head_nil. apply rows_scored2_nil. apply empty_rows; [|exact E].
    unfold volume_surge_candidates, volume_surge_metrics.
    rewrite columns_mask_ge, columns_with_rising. apply add_col_nonempty.
  - apply top3_shortlist. unfold volume_surge_scored.
    rewrite columns_head, columns_sort_values_desc, columns_scored2.
    apply add_col_nonempty.
Qed.

Lemma surge_flat_lists (S P : DataFrame) (top_n : nat) :
  hands_back api
    (lists ["종목명"] (shortlist "횡보여부" (head top_n (surge_flat_scored S P))))
    (surge_flat_view api S P top_n).
Proof.
  unfold surge_flat_view. destruct (empty (surge_flat_candidates S P)) eqn:E.
  - simpl. rewrite shortlist_nil; [apply lists_nil; reflexivity|].
    apply rows_head_nil. apply rows_scored2_nil. apply empty_rows; [|exact E].
    unfold surge_flat_candidates.
    rewrite columns_mask_ge, columns_with_flat. apply add_col_nonempty.
  - apply top3_shortlist. unfold surge_flat_scored.
    rewrite columns_head, columns_sort_values_desc, columns_scored2.
    apply add_col_nonempty.
Qed.

Lemma closing_strength_lists (S P : DataFrame) (top_n : nat) :
  hands_back api
    (lists ["종목명"] (shortlist "상승여부" (head top_n (closing_strength_scored S P))))
    (closing_strength_view api S P top_n).
Proof.
  unfold closing_strength_view, closing_strength_top.
  assert (columns (closing_strength_candidates S P) <> []) as Hc.
  { unfold closing_strength_candidates, closing_strength_metrics.
    rewrite columns_qualified, columns_with_rising. apply add_col_nonempty. }
  destruct (empty (closing_strength_candidates S P)) eqn:E.
  - pose proof (empty_rows _ Hc E) as Er.
    rewrite shortlist_nil
      by (apply rows_head_nil; apply rows_scored3_nil; exact Er).
    rewrite <- (shortlist_nil "상승여부" (closing_strength_candidates S P) Er).
    apply top3_shortlist. exact Hc.
  - apply top3_shortlist. unfold closing_strength_scored.
    rewrite columns_head, columns_sort_values_desc, columns_scored3.
    apply add_col_nonempty.
Qed.













End WithApi.


End Qualifier.

(* ================================================================== *)
(** * The batch driver *)
(* ================================================================== *)

Module Batch.
Import Exec Stages Views Run Tables.
Local Open Scope nat_scope.

(** ** Procedures that do not touch the store *)

(** [m] returns [v] and leaves the store as it is. *)
Definition yields {A : Type} (m : M A) (v : exn + A) : Prop :=
  forall s, m s = (v, s).

Definition stateless {A : Type} (m : M A) : Prop := exists v, yields m v.

Lemma stateless_ret {A : Type} (a : A) : stateless (ret a).
Proof. exists (inr a). intros s. reflexivity. Qed.

Lemma stateless_raise {A : Type} (e : exn) : stateless (@raise A e).
Proof. exists (inl e). intros s. reflexivity. Qed.

Lemma stateless_bind {A B : Type} (m : M A) (f : A -> M B) :
  stateless m -> (forall a, stateless (f a)) -> stateless (bind m f).
Proof.
  intros [[e|a] Hm] Hf.
  - exists (inl e). intros s. unfold bind. rewrite Hm. reflexivity.
  - destruct (Hf a) as [v Hv]. exists v. intros s. unfold bind. rewrite Hm. apply Hv.
Qed.

Lemma stateless_mapM {A B : Type} (f : A -> M B) (l : list A) :
  (forall a, stateless (f a)) -> stateless (mapM f l).
Proof.
  intros Hf. induction l as [|a l IH]; simpl.
  - apply stateless_ret.
  - apply stateless_bind; [apply Hf|]. intros b.
    apply stateless_bind; [exact IH|]. intros bs. apply stateless_ret.
Qed.

Lemma stateless_to_float (c : cell) : stateless (to_float c).
Proof. destruct c; unfold to_float; first [apply stateless_ret | apply stateless_raise]. Qed.

Lemma stateless_to_int (c : cell) : stateless (to_int c).
Proof.
  destruct c as [x|b|str]; unfold to_int; try apply stateless_raise.
  - destruct (num (CNum x)); first [apply stateless_ret | apply stateless_raise].
  - destruct (num (CBool b)); first [apply stateless_ret | apply stateless_raise].
Qed.

Ltac stateless_step :=
  first [ apply stateless_ret | apply stateless_raise
        | apply stateless_to_float | apply stateless_to_int
        | apply stateless_bind; [|intros ?]
        | match goal with |- stateless (if ?b then _ else _) => destruct b end ].

Lemma stateless_stock_info (trigger_type : string) (df : DataFrame) (t : string) :
  stateless (stock_info trigger_type df t).
Proof. unfold stock_info. repeat stateless_step. Qed.

Lemma stateless_tier_records (items : Triggers) : stateless (tier_records items).
Proof.
  induction items as [|[k df] items IH]; simpl.
  - apply stateless_ret.
  - destruct (negb (empty df)); [|exact IH].
    apply stateless_bind; [apply stateless_mapM; intros t; apply stateless_stock_info|].
    intros infos. apply stateless_bind; [exact IH|]. intros rest. apply stateless_ret.
Qed.

Definition blank : State := mkState [] [] None.

(** The records of one tier, or the failure of a conversion. *)
Definition records (items : Triggers) : exn + list (string * list StockInfo) :=
  fst (tier_records items blank).

Lemma tier_records_yields (items : Triggers) : yields (tier_records items) (records items).
Proof.
  destruct (stateless_tier_records items) as [v Hv].
  unfold records. rewrite Hv. exact Hv.
Qed.

(** ** Procedures that fail in one way only *)













(** ** Rules for the steps of the driver *)

Lemma wp_yields {A : Type} (m : M A) (v : exn + A) (s : State)
    (Q : exn + A -> State -> Prop) :
  yields m v -> Q v s -> wp m s Q.
Proof. intros H HQ. unfold wp. rewrite H. exact HQ. Qed.

Lemma wp_log_fetch {h0 l F R} (d : string) (Q : exn + unit -> State -> Prop) :
  Q (inr tt) (st h0 l (F ++ [d]) R) -> wp (log_fetch d) (st h0 l F R) Q.
Proof. intros H; exact H. Qed.

Lemma wp_write_report {h0 l F R} (path : string) (doc : Document)
    (Q : exn + unit -> State -> Prop) :
  Q (inr tt) (st h0 l F (Some (path, doc))) -> wp (write_report path doc) (st h0 l F R) Q.
Proof. intros H; exact H. Qed.

Lemma wp_read (r : ref) (s : State) (Q : exn + DataFrame -> State -> Prop) :
  Q (inr (nth r (heap s) empty_frame)) s -> wp (read r) s Q.
Proof. intros H; exact H. Qed.

(** The outcome of a call stays readable while the store grows. *)
Lemma outcome_stable (h ext : list DataFrame) (res : exn + ref) :
  in_store h res -> outcome (h ++ ext) res = outcome h res.
Proof.
  destruct res as [e|r]; simpl; [reflexivity|].
  intros Hr. rewrite app_nth1 by exact Hr. reflexivity.
Qed.

(** Calling a procedure that is known by its outcome [v] on the store it
    is given. *)
Lemma wp_call {h0 l F R} (m : M ref) (v : exn + DataFrame)
    (Q : exn + ref -> State -> Prop) :
  wp m (st (h0 ++ l) [] F R) (returns (h0 ++ l) F R v) ->
  (forall l' res,
     (forall ext, outcome (h0 ++ l ++ l' ++ ext) res = v) ->
     Q res (st h0 (l ++ l') F R)) ->
  wp m (st h0 l F R) Q.
Proof.
  unfold wp.
  assert (st (h0 ++ l) [] F R = st h0 l F R) as E
    by (unfold st; rewrite app_nil_r; reflexivity).
  rewrite E. intros (l' & Hs & Ho & Hin) HQ. rewrite Hs.
  assert (st (h0 ++ l) l' F R = st h0 (l ++ l') F R) as E'
    by (unfold st; rewrite app_assoc; reflexivity).
  rewrite E'. apply HQ. intros ext.
  rewrite !app_assoc. rewrite outcome_stable by exact Hin. exact Ho.
Qed.

End Batch.

(* ================================================================== *)
(** * The batch, as a function of what the provider serves *)
(* ================================================================== *)

Module BatchView.
Import Exec Stages Views Run Tables Batch.
Local Open Scope nat_scope.

(** Sequencing of outcomes. *)
Definition and_then {A B : Type} (v : exn + A) (k : A -> exn + B) : exn + B :=
  match v with
  | inl e => inl e
  | inr a => k a
  end.

(** What a run of the batch amounts to: what it returns, the dates it
    asked the provider for, and the report it wrote, if any. *)
Record Run : Type := mkRun {
  result : exn + option Allocation;
  dates : list string;
  written : option (string * Document)
}.

(** The path of the report, when one is asked for ([if output_file:]). *)
Definition wants_report (output_file : option string) : option string :=
  match output_file with
  | Some path => if negb (String.eqb path "") then Some path else None
  | None => None
  end.

Section WithApi.

Variable api : StockApi.

(** The provider serves tables with the OHLCV columns. *)
Definition schema : Prop :=
  forall d, empty (get_market_ohlcv_by_ticker api d) = false ->
            columns (get_market_ohlcv_by_ticker api d) = ohlcv_columns.

Definition first_date : string :=
  get_nearest_business_day_in_a_week api (today_str api).

Definition retry_date : string :=
  get_nearest_business_day_in_a_week api first_date.

Definition previous_date (d : string) : string :=
  get_nearest_business_day_in_a_week api (day_before api d).

(** The tables of the three triggers of a mode; [None] for a mode that
    is neither. *)
Definition tables_of (mode : string) (S P C : DataFrame) : exn + option Triggers :=
  if String.eqb mode "morning" then
    and_then (volume_surge_view api S P 10) (fun r1 =>
    and_then (gap_up_view api S P 15) (fun r2 =>
    and_then (value_to_cap_view api S P C 10) (fun r3 =>
    inr (Some [("거래량 급증 상위주", r1); ("갭 상승 모멘텀 상위주", r2);
               ("시총 대비 집중 자금 유입 상위주", r3)]))))
  else if String.eqb mode "afternoon" then
    and_then (daily_rise_view api S P 15) (fun r1 =>
    and_then (closing_strength_view api S P 15) (fun r2 =>
    and_then (surge_flat_view api S P 20) (fun r3 =>
    inr (Some [("일중 상승률 상위주", r1); ("마감 강도 상위주", r2);
               ("거래량 증가 상위 횡보주", r3)]))))
  else inr None.

Definition document (mode d : string) (a : Allocation) : exn + Document :=
  and_then (records (free a)) (fun f =>
  and_then (records (premium a)) (fun p =>
  inr (mkDoc f p [("run_time", now_iso api); ("trigger_mode", mode);
                  ("trade_date", d)]))).

(** The run once the three tables of the provider are in the store. *)
Definition after_data (mode : string) (out : option string) (d : string)
    (S P C : DataFrame) (log : list string) : Run :=
  match tables_of mode S P C with
  | inl e => mkRun (inl e) log None
  | inr None => mkRun (inr None) log None
  | inr (Some triggers) =>
      let a := select_final_tickers triggers in
      match wants_report out with
      | Some path =>
          match document mode d a with
          | inl e => mkRun (inl e) log None
          | inr doc => mkRun (inr (Some a)) log (Some (path, doc))
          end
      | None => mkRun (inr (Some a)) log None
      end
  end.

(** The run once the snapshot of the trade date [d] is in the store. *)
Definition with_snapshot (mode : string) (out : option string) (d : string)
    (S : DataFrame) (log : list string) : Run :=
  let pd := previous_date d in
  let P := get_market_ohlcv_by_ticker api pd in
  let C := get_market_cap_by_ticker api d in
  if empty P then mkRun (inl ValueError) (log ++ [pd]) None
  else if empty C then mkRun (inl ValueError) (log ++ [pd]) None
  else after_data mode out d S P C (log ++ [pd]).

Definition batch_view (mode : string) (out : option string) : Run :=
  let d0 := first_date in
  let d1 := retry_date in
  if empty (get_market_ohlcv_by_ticker api d0) then
    if empty (get_market_ohlcv_by_ticker api d1) then mkRun (inl ValueError) [d0; d1] None
    else with_snapshot mode out d1 (get_market_ohlcv_by_ticker api d1) [d0; d1]
  else with_snapshot mode out d0 (get_market_ohlcv_by_ticker api d0) [d0].

(** The store and the outcome a run [v] leaves, started from a store
    with the objects [h0], the dates [F] and the report [R]. *)
Definition ends_as (v : Run) (h0 : list DataFrame) (F : list string)
    (R : option (string * Document))
    (res : exn + option Allocation) (s' : State) : Prop :=
  res = result v /\
  exists l, s' = st h0 l (F ++ dates v)
                   (match written v with Some w => Some w | None => R end).

(** The part of [run_batch] that follows the triggers. *)
Definition conclude (mode : string) (out : option string) (d : string)
    (triggers : option (list (string * ref))) : M (option Allocation) :=
  match triggers with
  | None => ret None
  | Some refs =>
      triggers <- read_all refs ;;
      let final_results := select_final_tickers triggers in
      save_results api out mode d final_results ;;;
      ret (Some final_results)
  end.

Lemma read_all_yields (s : State) (names : list string) (refs : list ref)
    (tabs : list DataFrame) :
  List.length names = List.length refs ->
  Forall2 (fun r df => nth r (heap s) empty_frame = df) refs tabs ->
  read_all (combine names refs) s = (inr (combine names tabs), s).
Proof.
  intros Hl H. revert names Hl.
  induction H as [|r df refs tabs Hr H IH]; intros [|n names] Hl;
    try discriminate Hl; try reflexivity.
  simpl in Hl. injection Hl as Hl. specialize (IH names Hl).
  unfold read_all in *. simpl. unfold bind at 1. unfold bind at 1.
  unfold read at 1. cbn [fst snd]. unfold ret at 1.
  unfold bind at 1. rewrite IH. unfold ret. rewrite Hr. reflexivity.
Qed.

Lemma save_results_run h0 l F R mode out d (a : Allocation)
    (Q : exn + unit -> State -> Prop) :
  match wants_report out with
  | Some path =>
      match document mode d a with
      | inl e => Q (inl e) (st h0 l F R)
      | inr doc => Q (inr tt) (st h0 l F (Some (path, doc)))
      end
  | None => Q (inr tt) (st h0 l F R)
  end ->
  wp (save_results api out mode d a) (st h0 l F R) Q.
Proof.
  unfold save_results, wants_report, document.
  destruct out as [path|]; [|intros H; exact H].
  destruct (negb (String.eqb path "")); [|intros H; exact H].
  intros H. apply wp_bind.
  apply (wp_yields _ _ _ _ (tier_records_yields (free a))).
  destruct (records (free a)) as [e|f]; [exact H|].
  apply wp_bind.
  apply (wp_yields _ _ _ _ (tier_records_yields (premium a))).
  destruct (records (premium a)) as [e|p]; [exact H|].
  apply wp_write_report. exact H.
Qed.

Lemma conclude_run h0 l F R mode out d (names : list string) (refs : list ref)
    (tabs : list DataFrame) (Q : exn + option Allocation -> State -> Prop) :
  List.length names = List.length refs ->
  Forall2 (fun r df => nth r (h0 ++ l) empty_frame = df) refs tabs ->
  (let a := select_final_tickers (combine names tabs) in
   match wants_report out with
   | Some path =>
       match document mode d a with
       | inl e => Q (inl e) (st h0 l F R)
       | inr doc => Q (inr (Some a)) (st h0 l F (Some (path, doc)))
       end
   | None => Q (inr (Some a)) (st h0 l F R)
   end) ->
  wp (conclude mode out d (Some (combine names refs))) (st h0 l F R) Q.
Proof.
  intros Hl Hr H. unfold conclude. apply wp_bind.
  unfold wp at 1. rewrite (read_all_yields (st h0 l F R) names refs tabs Hl Hr).
  cbn [fst snd]. apply wp_bind. apply save_results_run.
  cbv zeta in H.
  destruct (wants_report out) as [path|].
  - destruct (document mode d (select_final_tickers (combine names tabs))) as [e|doc].
    + exact H.
    + apply wp_ret. exact H.
  - apply wp_ret. exact H.
Qed.

(** The outcome and the report of a run, the dates being logged already. *)
Definition leaves (v : Run) (h0 : list DataFrame) (F : list string)
    (R : option (string * Document))
    (res : exn + option Allocation) (s' : State) : Prop :=
  res = result v /\
  exists l, s' = st h0 l F (match written v with Some w => Some w | None => R end).

(** Calling a trigger on the snapshots at [i] and [j] of the frames [l1]
    the batch fetched, [l2] being what earlier triggers allocated. *)
Lemma wp_trigger {h0 l1 l2 F R} (t : ref -> ref -> M ref)
    (view : DataFrame -> DataFrame -> exn + DataFrame) (i j : nat)
    (Q : exn + ref -> State -> Prop) :
  (forall h F R s p S P,
     s < List.length h -> p < List.length h ->
     nth s h empty_frame = S -> nth p h empty_frame = P ->
     columns S = ohlcv_columns -> columns P = ohlcv_columns ->
     wp (t s p) (st h [] F R) (returns h F R (view S P))) ->
  i < List.length l1 -> j < List.length l1 ->
  columns (nth i l1 empty_frame) = ohlcv_columns ->
  columns (nth j l1 empty_frame) = ohlcv_columns ->
  (forall l' res,
     (forall ext, outcome (h0 ++ l1 ++ l2 ++ l' ++ ext) res
                  = view (nth i l1 empty_frame) (nth j l1 empty_frame)) ->
     Q res (st h0 (l1 ++ l2 ++ l') F R)) ->
  wp (t (List.length h0 + i) (List.length h0 + j)) (st h0 (l1 ++ l2) F R) Q.
Proof.
  intros Hrun Hi Hj Ci Cj HQ.
  apply (wp_call _ (view (nth i l1 empty_frame) (nth j l1 empty_frame))).
  - apply Hrun; try assumption.
    + rewrite !length_app. lia.
    + rewrite !length_app. lia.
    + rewrite app_nth2_plus. apply app_nth1. exact Hi.
    + rewrite app_nth2_plus. apply app_nth1. exact Hj.
  - intros l' res H. rewrite <- app_assoc. apply HQ.
    intros ext. rewrite <- (H ext). rewrite <- !app_assoc. reflexivity.
Qed.

Lemma wp_trigger3 {h0 l1 l2 F R} (t : ref -> ref -> ref -> M ref)
    (view : DataFrame -> DataFrame -> DataFrame -> exn + DataFrame) (i j k : nat)
    (Q : exn + ref -> State -> Prop) :
  (forall h F R s p c S P C,
     s < List.length h -> p < List.length h -> c < List.length h ->
     nth s h empty_frame = S -> nth p h empty_frame = P -> nth c h empty_frame = C ->
     columns S = ohlcv_columns -> columns P = ohlcv_columns ->
     wp (t s p c) (st h [] F R) (returns h F R (view S P C))) ->
  i < List.length l1 -> j < List.length l1 -> k < List.length l1 ->
  columns (nth i l1 empty_frame) = ohlcv_columns ->
  columns (nth j l1 empty_frame) = ohlcv_columns ->
  (forall l' res,
     (forall ext, outcome (h0 ++ l1 ++ l2 ++ l' ++ ext) res
                  = view (nth i l1 empty_frame) (nth j l1 empty_frame)
                         (nth k l1 empty_frame)) ->
     Q res (st h0 (l1 ++ l2 ++ l') F R)) ->
  wp (t (List.length h0 + i) (List.length h0 + j) (List.length h0 + k))
     (st h0 (l1 ++ l2) F R) Q.
Proof.
  intros Hrun Hi Hj Hk Ci Cj HQ.
  apply (wp_call _ (view (nth i l1 empty_frame) (nth j l1 empty_frame)
                         (nth k l1 empty_frame))).
  - apply Hrun; try assumption.
    + rewrite !length_app. lia.
    + rewrite !length_app. lia.
    + rewrite !length_app. lia.
    + rewrite app_nth2_plus. apply app_nth1. exact Hi.
    + rewrite app_nth2_plus. apply app_nth1. exact Hj.
    + rewrite app_nth2_plus. apply app_nth1. exact Hk.
  - intros l' res H. rewrite <- app_assoc. apply HQ.
    intros ext. rewrite <- (H ext). rewrite <- !app_assoc. reflexivity.
Qed.

Lemma leaves_intro (v : Run) h0 l F R res :
  res = result v ->
  leaves v h0 F R res (st h0 l F (match written v with Some w => Some w | None => R end)).
Proof. intros H. split; [exact H | exists l; reflexivity]. Qed.

(** Put the outcome [H] of a trigger, read from a store extended by
    [ext], in place of its view. *)
Ltac known H ext :=
  let E := fresh "E" in
  pose proof (H ext) as E; cbn [outcome app] in E;
  rewrite <- ?app_assoc, ?app_nil_r in E; cbn [app] in E;
  rewrite <- E; clear E; cbn [and_then].

Ltac failed := apply (leaves_intro (mkRun _ _ None)); reflexivity.

Ltac reported :=
  cbv zeta; cbn [combine];
  destruct (wants_report _) as [?path|];
  [ destruct (document _ _ _) as [?e|?doc];
    [ apply (leaves_intro (mkRun _ _ None))
    | apply (leaves_intro (mkRun _ _ (Some _))) ]
  | apply (leaves_intro (mkRun _ _ None)) ];
  reflexivity.

Lemma after_data_run h0 l F R mode out d (i j k : nat) (log : list string) :
  i < List.length l -> j < List.length l -> k < List.length l ->
  columns (nth i l empty_frame) = ohlcv_columns ->
  columns (nth j l empty_frame) = ohlcv_columns ->
  wp (bind (run_triggers api mode d (List.length h0 + i) (List.length h0 + j)
                         (List.length h0 + k))
           (conclude mode out d))
     (st h0 l F R)
     (leaves (after_data mode out d (nth i l empty_frame) (nth j l empty_frame)
                         (nth k l empty_frame) log) h0 F R).
Proof.
  intros Hi Hj Hk Ci Cj.
  replace (st h0 l F R) with (st h0 (l ++ []) F R) by (rewrite app_nil_r; reflexivity).
  unfold run_triggers, after_data, tables_of.
  destruct (String.eqb mode "morning"); [|destruct (String.eqb mode "afternoon")].
  - apply wp_bind. apply wp_bind.
    apply (wp_trigger (fun s p => trigger_morning_volume_surge api d s p 10)
                      (fun S P => volume_surge_view api S P 10) i j); try assumption.
    { intros. apply volume_surge_run; assumption. }
    intros l1 [e|r1] H1; [known H1 (@nil DataFrame); failed|]. cbn [app].
    apply wp_bind.
    apply (wp_trigger (l2 := l1)
                      (fun s p => trigger_morning_gap_up_momentum api d s p 15)
                      (fun S P => gap_up_view api S P 15) i j); try assumption.
    { intros. apply gap_up_run; assumption. }
    intros l2 [e|r2] H2; [known H1 l2; known H2 (@nil DataFrame); failed|].
    apply wp_bind.
    apply (wp_trigger3 (l2 := l1 ++ l2)
             (fun s p c => trigger_morning_value_to_cap_ratio api d s p c 10)
             (fun S P C => value_to_cap_view api S P C 10) i j k); try assumption.
    { intros. apply value_to_cap_run; assumption. }
    intros l3 [e|r3] H3;
      [known H1 (l2 ++ l3); known H2 l3; known H3 (@nil DataFrame); failed|].
    apply wp_ret. rewrite <- ?app_assoc.
    known H1 (l2 ++ l3). known H2 l3. known H3 (@nil DataFrame).
    eapply (conclude_run _ _ _ _ _ _ _
              ["거래량 급증 상위주"; "갭 상승 모멘텀 상위주"; "시총 대비 집중 자금 유입 상위주"]
              [r1; r2; r3]); [reflexivity | repeat constructor | reported].
  - apply wp_bind. apply wp_bind.
    apply (wp_trigger (fun s p => trigger_afternoon_daily_rise_top api d s p 15)
                      (fun S P => daily_rise_view api S P 15) i j); try assumption.
    { intros. apply daily_rise_run; assumption. }
    intros l1 [e|r1] H1; [known H1 (@nil DataFrame); failed|]. cbn [app].
    apply wp_bind.
    apply (wp_trigger (l2 := l1)
                      (fun s p => trigger_afternoon_closing_strength api d s p 15)
                      (fun S P => closing_strength_view api S P 15) i j); try assumption.
    { intros. apply closing_strength_run; assumption. }
    intros l2 [e|r2] H2; [known H1 l2; known H2 (@nil DataFrame); failed|].
    apply wp_bind.
    apply (wp_trigger (l2 := l1 ++ l2)
                      (fun s p => trigger_afternoon_volume_surge_flat api d s p 20)
                      (fun S P => surge_flat_view api S P 20) i j); try assumption.
    { intros. apply surge_flat_run; assumption. }
    intros l3 [e|r3] H3;
      [known H1 (l2 ++ l3); known H2 l3; known H3 (@nil DataFrame); failed|].
    apply wp_ret. rewrite <- ?app_assoc.
    known H1 (l2 ++ l3). known H2 l3. known H3 (@nil DataFrame).
    eapply (conclude_run _ _ _ _ _ _ _
              ["일중 상승률 상위주"; "마감 강도 상위주"; "거래량 증가 상위 횡보주"]
              [r1; r2; r3]); [reflexivity | repeat constructor | reported].
  - apply wp_bind. apply wp_ret. unfold conclude. apply wp_ret. failed.
Qed.

(** A table is put in the store and checked:
    [df = ...; if df.empty: raise ValueError(...)]. *)
Lemma wp_new_checked {A : Type} {h0 l F R} (X : DataFrame) (k : ref -> A)
    (Q : exn + A -> State -> Prop) :
  (if empty X then Q (inl ValueError) (st h0 (l ++ [X]) F R)
   else Q (inr (k (List.length h0 + List.length l))) (st h0 (l ++ [X]) F R)) ->
  wp (df <- new_frame X ;; e <- is_empty df ;;
      if e then raise ValueError else ret (k df)) (st h0 l F R) Q.
Proof.
  intros H. apply wp_bind. apply wp_new_frame. apply wp_bind.
  unfold is_empty. apply wp_bind. apply wp_read_local. apply wp_ret.
  rewrite nth_middle.
  destruct (empty X); [apply wp_raise | apply wp_ret]; exact H.
Qed.

Lemma dates_after_data mode out d S P C log :
  dates (after_data mode out d S P C log) = log.
Proof.
  unfold after_data. destruct (tables_of mode S P C) as [e|[t|]]; try reflexivity.
  cbv zeta. destruct (wants_report out); [|reflexivity].
  destruct (document mode d _); reflexivity.
Qed.

Lemma ends_as_leaves (v : Run) h0 F R res s' :
  leaves v h0 (F ++ dates v) R res s' -> ends_as v h0 F R res s'.
Proof. intros H; exact H. Qed.

Lemma with_snapshot_run h0 l F R mode out d (i : nat) (log : list string) :
  schema ->
  i < List.length l ->
  columns (nth i l empty_frame) = ohlcv_columns ->
  wp (pp <- get_previous_snapshot api d ;;
      cap_df <- get_market_cap_df api d ;;
      bind (run_triggers api mode d (List.length h0 + i) (fst pp) cap_df)
           (conclude mode out d))
     (st h0 l (F ++ log) R)
     (ends_as (with_snapshot mode out d (nth i l empty_frame) log) h0 F R).
Proof.
  intros Hschema Hi Ci.
  apply wp_bind. unfold get_previous_snapshot. cbv zeta.
  apply wp_bind. apply wp_log_fetch.
  apply (wp_new_checked _ (fun df => (df, _))).
  unfold with_snapshot, previous_date. cbv zeta.
  destruct (empty (get_market_ohlcv_by_ticker api
                     (get_nearest_business_day_in_a_week api (day_before api d))))
    eqn:EP.
  { apply ends_as_leaves. cbn [dates]. rewrite <- (app_assoc F).
    apply (leaves_intro (mkRun _ _ None)). reflexivity. }
  cbn [fst]. apply wp_bind. unfold get_market_cap_df.
  apply (wp_new_checked _ (fun df => df)).
  destruct (empty (get_market_cap_by_ticker api d)) eqn:EC.
  { apply ends_as_leaves. cbn [dates]. rewrite <- (app_assoc F).
    apply (leaves_intro (mkRun _ _ None)). reflexivity. }
  cbv beta iota.
  set (pd := get_nearest_business_day_in_a_week api (day_before api d)) in *.
  set (P := get_market_ohlcv_by_ticker api pd) in *.
  set (C := get_market_cap_by_ticker api d) in *.
  apply (wp_conseq _ _ (leaves (after_data mode out d (nth i l empty_frame) P C
                                           (log ++ [pd]))
                               h0 ((F ++ log) ++ [pd]) R));
    [|intros r s' Hl; apply ends_as_leaves;
      rewrite dates_after_data, app_assoc; exact Hl].
  rewrite length_app. cbn [List.length].
  pose proof (after_data_run h0 ((l ++ [P]) ++ [C]) ((F ++ log) ++ [pd]) R mode out d
                i (List.length l) (List.length l + 1) (log ++ [pd])) as H.
  assert (nth i ((l ++ [P]) ++ [C]) empty_frame = nth i l empty_frame) as Ei.
  { rewrite <- app_assoc. apply app_nth1. exact Hi. }
  assert (nth (List.length l) ((l ++ [P]) ++ [C]) empty_frame = P) as Ej.
  { rewrite <- app_assoc. apply nth_middle. }
  assert (nth (List.length l + 1) ((l ++ [P]) ++ [C]) empty_frame = C) as Ek.
  { replace (List.length l + 1) with (List.length (l ++ [P]))
      by (rewrite length_app; reflexivity).
    apply nth_middle. }
  rewrite Ei, Ej, Ek in H.
  apply H.
  - rewrite !length_app. cbn [List.length]. lia.
  - rewrite !length_app. cbn [List.length]. lia.
  - rewrite !length_app. cbn [List.length]. lia.
  - exact Ci.
  - apply Hschema. exact EP.
Qed.

(** The snapshot of the first date, or of the retry date. *)
Lemma snapshot_or_retry_run h0 F R (Q : exn + (ref * string) -> State -> Prop) :
  (let S0 := get_market_ohlcv_by_ticker api first_date in
   let S1 := get_market_ohlcv_by_ticker api retry_date in
   if empty S0 then
     if empty S1 then
       Q (inl ValueError) (st h0 [S0; S1] (F ++ [first_date; retry_date]) R)
     else Q (inr (List.length h0 + 1, retry_date))
            (st h0 [S0; S1] (F ++ [first_date; retry_date]) R)
   else Q (inr (List.length h0 + 0, first_date)) (st h0 [S0] (F ++ [first_date]) R)) ->
  wp (snapshot_or_retry api first_date) (st h0 [] F R) Q.
Proof.
  cbv zeta. intros H. unfold snapshot_or_retry, on_value_error.
  apply wp_try_except. apply wp_bind. unfold get_snapshot at 1.
  apply wp_bind. apply wp_log_fetch.
  apply (wp_new_checked _ (fun df => df)). cbn [app List.length].
  destruct (empty (get_market_ohlcv_by_ticker api first_date)).
  - cbv zeta. apply wp_bind. unfold get_snapshot.
    apply wp_bind. apply wp_log_fetch.
    apply (wp_new_checked _ (fun df => df)). cbn [app List.length].
    fold retry_date. rewrite <- app_assoc. cbn [app].
    destruct (empty (get_market_ohlcv_by_ticker api retry_date)).
    + exact H.
    + apply wp_ret. exact H.
  - apply wp_ret. exact H.
Qed.

(** The failure of the two [setLevel] calls, when the log level brings
    one about. *)
Definition level_failure (lvl : string) : option exn :=
  match logging_getattr (str_upper api lvl) with
  | LevelNumber => None
  | FormatString => Some ValueError
  | StyleTable => Some TypeError
  end.

(** A log level that is refused ends the batch before anything is done. *)
Lemma run_batch_refused (mode lvl : string) (out : option string) (s : State) (e : exn) :
  level_failure lvl = Some e -> run_batch api mode lvl out s = (inl e, s).
Proof.
  unfold level_failure, run_batch. cbv zeta.
  destruct (logging_getattr (str_upper api lvl)); intros H; inversion H; reflexivity.
Qed.

(** With a log level that is accepted, the batch is the run that
    [batch_view] describes. *)
Lemma run_batch_run h0 F R mode lvl out :
  schema -> level_failure lvl = None ->
  wp (run_batch api mode lvl out) (st h0 [] F R) (ends_as (batch_view mode out) h0 F R).
Proof.
  intros Hschema L. unfold run_batch. cbv zeta. fold first_date.
  unfold level_failure in L.
  destruct (logging_getattr (str_upper api lvl)); try discriminate L.
  apply wp_bind, wp_ret. apply wp_bind, wp_ret.
  apply wp_bind. apply snapshot_or_retry_run. cbv zeta. unfold batch_view. cbv zeta.
  destruct (empty (get_market_ohlcv_by_ticker api first_date)) eqn:E0.
  - destruct (empty (get_market_ohlcv_by_ticker api retry_date)) eqn:E1.
    + apply (leaves_intro (mkRun _ _ None)). reflexivity.
    + cbn [fst snd].
      apply (with_snapshot_run h0 [_; _] F R mode out retry_date 1
               [first_date; retry_date] Hschema).
      * cbn [List.length]. lia.
      * cbn [nth]. apply Hschema. exact E1.
  - cbn [fst snd].
    apply (with_snapshot_run h0 [_] F R mode out first_date 0 [first_date] Hschema).
    + cbn [List.length]. lia.
    + cbn [nth]. apply Hschema. exact E0.
Qed.

(** ** What a run can end in *)












(** The trade date the batch settles on. *)
Definition trade_date : string :=
  if empty (get_market_ohlcv_by_ticker api first_date) then retry_date else first_date.








End WithApi.
End BatchView.

(* ================================================================== *)
(** * The records of the report *)
(* ================================================================== *)

Module Report.
Import Exec Stages Views Run Tables Selection Batch BatchView.
Local Open Scope nat_scope.

(** ** Where the tables of a tier come from *)

(** [df] has the columns of [T] and rows of [T] only. *)
Definition from_table (T df : DataFrame) : Prop :=
  columns df = columns T /\ incl (rows df) (rows T).

(** Every table of the tier [d] comes from the trigger table of its key. *)
Definition sourced (triggers d : Triggers) : Prop :=
  forall k df, In (k, df) d -> from_table (dict_get triggers k) df.

Lemma from_table_loc (T : DataFrame) (l : list string) : from_table T (loc T l).
Proof.
  split; [reflexivity|]. unfold loc. simpl. intros r Hr.
  apply in_flat_map in Hr. destruct Hr as (t & _ & Hr).
  apply filter_In in Hr. apply Hr.
Qed.

Lemma filter_not_mem_self (l : list string) :
  filter (fun c => negb (mem c l)) l = [].
Proof.
  assert (forall l', incl l' l -> filter (fun c => negb (mem c l)) l' = []) as H.
  { induction l' as [|a l' IH]; intros Hi; simpl; [reflexivity|].
    assert (mem a l = true) as -> by (apply mem_In; apply Hi; now left).
    simpl. apply IH. intros x Hx. apply Hi. now right. }
  apply H. apply incl_refl.
Qed.

Lemma from_table_concat (T a b : DataFrame) :
  from_table T a -> from_table T b -> from_table T (concat a b).
Proof.
  intros [Ca Ra] [Cb Rb]. split.
  - unfold concat. simpl. rewrite Cb, <- Ca, filter_not_mem_self. apply app_nil_r.
  - unfold concat. simpl. apply incl_app; assumption.
Qed.

Lemma from_table_empty (T df : DataFrame) :
  from_table T df -> empty T = true -> empty df = true.
Proof.
  intros [C R]. unfold empty. rewrite C.
  destruct (rows T) as [|r rs].
  - destruct (rows df) as [|x xs]; [reflexivity|].
    exfalso. apply (R x). now left.
  - destruct (columns T); [|discriminate]. intros _. destruct (rows df); reflexivity.
Qed.

Lemma In_dict_set (d : Triggers) (k : string) (v : DataFrame) (k' : string)
    (df : DataFrame) :
  In (k', df) (dict_set d k v) -> (k' = k /\ df = v) \/ In (k', df) d.
Proof.
  induction d as [|[k0 v0] d IH]; simpl.
  - intros [H|[]]. inversion H. left. split; reflexivity.
  - destruct (String.eqb k k0) eqn:E; simpl.
    + apply String.eqb_eq in E. subst k0. intros [H|H].
      * inversion H. left. split; reflexivity.
      * right. right. exact H.
    + intros [H|H]; [right; left; exact H|].
      destruct (IH H) as [H'|H']; [left; exact H' | right; right; exact H'].
Qed.

Lemma dict_get_in (d : Triggers) (k : string) :
  dict_has d k = true -> In (k, dict_get d k) d.
Proof.
  unfold dict_has, dict_get. induction d as [|[k0 v0] d IH]; simpl; [discriminate|].
  destruct (String.eqb k k0) eqn:E.
  - apply String.eqb_eq in E. subst k0. intros _. now left.
  - intros H. right. apply IH. exact H.
Qed.

Lemma sourced_dict_set (triggers d : Triggers) (k : string) (v : DataFrame) :
  sourced triggers d -> from_table (dict_get triggers k) v ->
  sourced triggers (dict_set d k v).
Proof.
  intros Hd Hv k' df H. apply In_dict_set in H.
  destruct H as [[-> ->]|H]; [exact Hv | apply Hd; exact H].
Qed.

Lemma premium_tops_sourced (triggers items d : Triggers) (pt : list string) :
  (forall name df, In (name, df) items -> dict_get triggers name = df) ->
  sourced triggers d ->
  sourced triggers (fst (premium_tops items d pt)).
Proof.
  revert d pt. induction items as [|[name df] items IH]; intros d pt Hi Hd; simpl.
  - exact Hd.
  - assert (forall n f, In (n, f) items -> dict_get triggers n = f) as Hi'
      by (intros n f H; apply Hi; now right).
    destruct (negb (empty df) && (List.length pt <? 3)); [|apply IH; assumption].
    destruct (negb (mem (hd "" (index df)) pt)); [|apply IH; assumption].
    apply IH; [assumption|]. apply sourced_dict_set; [exact Hd|].
    rewrite (Hi name df) by now left. apply from_table_loc.
Qed.

Lemma premium_fill_sourced (triggers : Triggers) (pool : list PoolEntry)
    (d : Triggers) (pt : list string) :
  sourced triggers d ->
  sourced triggers (fst (premium_fill triggers pool d pt)).
Proof.
  revert d pt. induction pool as [|[[name t] sc] pool IH]; intros d pt Hd; simpl.
  - exact Hd.
  - destruct (negb (mem t pt) && (List.length pt <? 3)); [|apply IH; assumption].
    apply IH. destruct (dict_has d name) eqn:Hh.
    + apply sourced_dict_set; [exact Hd|]. apply from_table_concat.
      * apply Hd. apply dict_get_in. exact Hh.
      * apply from_table_loc.
    + apply sourced_dict_set; [exact Hd | apply from_table_loc].
Qed.

Lemma free_select_eq (triggers : Triggers) :
  free (select_final_tickers triggers) =
  free_select triggers (sort_pool (all_tickers_with_scores triggers)).
Proof.
  unfold select_final_tickers.
  destruct (premium_tops triggers [] []) as [r pt].
  destruct (List.length pt <? 3).
  - destruct (premium_fill triggers _ r pt). reflexivity.
  - reflexivity.
Qed.

(** Both tiers are made of rows of the trigger tables. *)
Lemma select_sourced (triggers : Triggers) :
  NoDup (map fst triggers) ->
  sourced triggers (free (select_final_tickers triggers)) /\
  sourced triggers (premium (select_final_tickers triggers)).
Proof.
  intros Hn. split.
  - rewrite free_select_eq. unfold free_select.
    destruct (sort_pool _) as [|[[name t] sc] pool]; [intros k df []|].
    apply sourced_dict_set; [intros k df [] | apply from_table_loc].
  - rewrite premium_select_eq. unfold premium_select. cbv zeta.
    assert (sourced triggers (fst (premium_tops triggers [] []))) as H.
    { apply premium_tops_sourced; [|intros k df []].
      intros name df Hin. apply dict_get_unique; assumption. }
    destruct (List.length (snd (premium_tops triggers [] [])) <? 3); [|exact H].
    apply premium_fill_sourced. exact H.
Qed.

(** ** The records that [tier_records] builds *)

Lemma yields_bind_inr {A B : Type} (m : M A) (f : A -> M B) (b : B) :
  stateless m -> yields (bind m f) (inr b) ->
  exists a, yields m (inr a) /\ yields (f a) (inr b).
Proof.
  intros [[e|a] Hm] H.
  - specialize (H blank). unfold bind in H. rewrite Hm in H. discriminate H.
  - exists a. split; [exact Hm|]. intros s. specialize (H s).
    unfold bind in H. rewrite Hm in H. exact H.
Qed.

Lemma yields_ret_inr {A : Type} (a b : A) : yields (ret a) (inr b) -> a = b.
Proof. intros H. specialize (H blank). inversion H. reflexivity. Qed.

Lemma yields_mapM_inr {A B : Type} (f : A -> M B) (l : list A) (bs : list B) :
  (forall a, stateless (f a)) -> yields (mapM f l) (inr bs) ->
  Forall2 (fun a b => yields (f a) (inr b)) l bs.
Proof.
  intros Hf. revert bs. induction l as [|a l IH]; intros bs H; simpl in H.
  - apply yields_ret_inr in H. subst bs. constructor.
  - apply yields_bind_inr in H; [|apply Hf]. destruct H as (b & Hb & H).
    apply yields_bind_inr in H; [|apply stateless_mapM; exact Hf].
    destruct H as (bs' & Hbs & H). apply yields_ret_inr in H. subst bs.
    constructor; [exact Hb | apply IH; exact Hbs].
Qed.

(** A record of a tier was built by [stock_info] for a ticker of a
    non-empty table of the tier. *)
Lemma records_in (items : Triggers) (recs : list (string * list StockInfo))
    (k : string) (infos : list StockInfo) (info : StockInfo) :
  records items = inr recs -> In (k, infos) recs -> In info infos ->
  exists df t, In (k, df) items /\ empty df = false /\
               yields (stock_info k df t) (inr info).
Proof.
  intros H. assert (yields (tier_records items) (inr recs)) as Hy
    by (rewrite <- H; apply tier_records_yields).
  clear H. revert recs Hy.
  induction items as [|[k0 df0] items IH]; intros recs Hy Hk Hi; simpl in Hy.
  - apply yields_ret_inr in Hy. subst recs. contradiction.
  - destruct (empty df0) eqn:E; simpl in Hy.
    + destruct (IH recs Hy Hk Hi) as (df & t & Hin & He & Hs).
      exists df, t. split; [right; exact Hin | split; assumption].
    + apply yields_bind_inr in Hy;
        [|apply stateless_mapM; intros t; apply stateless_stock_info].
      destruct Hy as (infos0 & H0 & Hy).
      apply yields_bind_inr in Hy; [|apply stateless_tier_records].
      destruct Hy as (rest & Hrest & Hy). apply yields_ret_inr in Hy. subst recs.
      destruct Hk as [Hk|Hk].
      * inversion Hk. subst k0 infos0.
        apply yields_mapM_inr in H0; [|intros t; apply stateless_stock_info].
        assert (exists t, yields (stock_info k df0 t) (inr info)) as [t Ht].
        { clear - H0 Hi. induction H0 as [|t i l l' Hti H0 IH'].
          - contradiction.
          - destruct Hi as [<-|Hi]; [exists t; exact Hti | apply IH'; exact Hi]. }
        exists df0, t. split; [left; reflexivity | split; assumption].
      * destruct (IH rest Hrest Hk Hi) as (df & t & Hin & He & Hs).
        exists df, t. split; [right; exact Hin | split; assumption].
Qed.

(** ** The fields of a record *)

(** The fields every record has. *)
Definition base_fields : list string :=
  ["code"; "name"; "current_price"; "change_rate"; "volume"; "trade_value"].

(** The fields that the [if]/[elif] chain of the report adds for a table
    with the columns [cols] of the trigger [trigger_type]. *)
Definition specific_fields (trigger_type : string) (cols : list string) : list string :=
  if mem "거래량증가율" cols && String.eqb trigger_type "거래량 급증 상위주"
  then ["volume_increase"]
  else if mem "갭상승률" cols then ["gap_rate"]
  else if mem "거래대금비율" cols then ["trade_value_ratio"; "market_cap"]
  else if mem "마감강도" cols then ["closing_strength"]
  else [].

Ltac stateless_goal := repeat Batch.stateless_step.

Lemma stock_info_fields (k : string) (df : DataFrame) (t : string) (info : StockInfo) :
  yields (stock_info k df t) (inr info) ->
  map fst info = base_fields ++ specific_fields k (columns df).
Proof.
  unfold stock_info, specific_fields. cbv zeta. intros H.
  apply yields_bind_inr in H; [|stateless_goal]. destruct H as (cp & _ & H).
  apply yields_bind_inr in H; [|stateless_goal]. destruct H as (cr & _ & H).
  apply yields_bind_inr in H; [|stateless_goal]. destruct H as (vol & _ & H).
  apply yields_bind_inr in H; [|stateless_goal]. destruct H as (tv & _ & H).
  destruct (mem "거래량증가율" (columns df) && String.eqb k "거래량 급증 상위주").
  { apply yields_bind_inr in H; [|stateless_goal]. destruct H as (v & _ & H).
    apply yields_ret_inr in H. subst info. reflexivity. }
  destruct (mem "갭상승률" (columns df)).
  { apply yields_bind_inr in H; [|stateless_goal]. destruct H as (v & _ & H).
    apply yields_ret_inr in H. subst info. reflexivity. }
  destruct (mem "거래대금비율" (columns df)).
  { apply yields_bind_inr in H; [|stateless_goal]. destruct H as (v & _ & H).
    apply yields_bind_inr in H; [|stateless_goal]. destruct H as (w & _ & H).
    apply yields_ret_inr in H. subst info. reflexivity. }
  destruct (mem "마감강도" (columns df)).
  { apply yields_bind_inr in H; [|stateless_goal]. destruct H as (v & _ & H).
    apply yields_ret_inr in H. subst info. reflexivity. }
  apply yields_ret_inr in H. subst info. reflexivity.
Qed.

(** The fields that the report adds for a category. *)
Definition category_fields (k : string) : list string :=
  if String.eqb k "거래량 급증 상위주" then ["volume_increase"]
  else if String.eqb k "갭 상승 모멘텀 상위주" then ["gap_rate"]
  else if String.eqb k "시총 대비 집중 자금 유입 상위주"
       then ["trade_value_ratio"; "market_cap"]
  else if String.eqb k "마감 강도 상위주" then ["closing_strength"]
  else [].

Section WithApi.

Variable api : StockApi.

(** The table of category [k] has the columns that give the records of
    the category their fields. *)
Definition tagged (k : string) (v : exn + DataFrame) : Prop :=
  forall df, v = inr df -> empty df = false ->
             specific_fields k (columns df) = category_fields k.

(** [enhance_dataframe] adds the name column, or nothing to a table
    without rows. *)
Definition named (cols : list string) (df : DataFrame) : Prop :=
  columns df = cols \/ columns df = add_col "종목명" cols.

Lemma enhanced_named F df : enhanced api F = inr df -> named (columns F) df.
Proof.
  unfold enhanced. destruct (empty F).
  - intros H. inversion H. left. reflexivity.
  - destruct (lookup_names api (index F)); [discriminate|].
    intros H. inversion H. right. apply columns_add_column.
Qed.

Lemma top3_named F df :
  top3 api F = inr df -> empty df = false -> named (columns F) df.
Proof.
  unfold top3. destruct (empty F).
  - intros H He. inversion H. subst df. discriminate He.
  - intros H _. apply enhanced_named in H.
    rewrite columns_head, columns_sort_values_desc in H. exact H.
Qed.

Lemma tagged_empty_frame k : tagged k (inr empty_frame).
Proof. intros df H He. inversion H. subst df. discriminate He. Qed.

(** A table with the columns [cols], named or not, gives the records of
    category [k] their fields. *)
Lemma tagged_named k cols v :
  (forall df, v = inr df -> empty df = false -> named cols df) ->
  specific_fields k cols = category_fields k ->
  specific_fields k (add_col "종목명" cols) = category_fields k ->
  tagged k v.
Proof.
  intros Hn H1 H2 df H He. destruct (Hn df H He) as [-> | ->]; assumption.
Qed.

(** The columns of a table, stage by stage. *)
Ltac columns_of :=
  repeat first
    [ rewrite columns_head | rewrite columns_sort_values_desc
    | rewrite columns_qualified | rewrite columns_mask_ge
    | rewrite columns_scored2 | rewrite columns_scored3
    | rewrite columns_with_rising | rewrite columns_with_day_over_day
    | rewrite columns_with_intraday | rewrite columns_with_growth_of_ratio
    | rewrite columns_with_volume_ratio | rewrite columns_with_volume_growth
    | rewrite columns_with_gap | rewrite columns_with_momentum
    | rewrite columns_with_value_ratio | rewrite columns_with_volume_up
    | rewrite columns_with_closing_strength | rewrite columns_with_strength_default
    | rewrite columns_with_flat | rewrite columns_absolute_filtered
    | rewrite columns_loc | rewrite columns_cap_merged ].

Lemma volume_surge_scored_columns S P :
  columns S = ohlcv_columns ->
  columns (volume_surge_scored S P) =
  ohlcv_columns ++ ["거래량비율"; "거래량증가율"; "장중등락률"; "전일대비등락률"; "상승여부";
                    "거래량증가율_norm"; "거래량_norm"; "복합점수"].
Proof.
  intros Cs. unfold volume_surge_scored, volume_surge_candidates, volume_surge_metrics.
  columns_of. rewrite Cs. vm_compute. reflexivity.
Qed.

Lemma gap_up_candidates_columns S P :
  columns S = ohlcv_columns ->
  columns (gap_up_candidates S P) =
  ohlcv_columns ++ ["갭상승률"; "장중등락률"; "전일대비등락률"; "상승지속"].
Proof.
  intros Cs. unfold gap_up_candidates.
  columns_of. rewrite Cs. vm_compute. reflexivity.
Qed.

Lemma gap_up_scored_columns S P :
  columns S = ohlcv_columns ->
  columns (gap_up_scored S P) =
  ohlcv_columns ++ ["갭상승률"; "장중등락률"; "전일대비등락률"; "상승지속";
                    "갭상승률_norm"; "장중등락률_norm"; "거래대금_norm"; "복합점수"].
Proof.
  intros Cs. unfold gap_up_scored. columns_of.
  rewrite (gap_up_candidates_columns S P Cs). vm_compute. reflexivity.
Qed.

Lemma value_to_cap_scored_columns S P C :
  columns S = ohlcv_columns ->
  columns (value_to_cap_scored S P C) =
  ohlcv_columns ++ ["시가총액"; "거래대금비율"; "장중등락률"; "전일대비등락률"; "상승여부";
                    "거래대금비율_norm"; "거래대금_norm"; "장중등락률_norm"; "복합점수"].
Proof.
  intros Cs. unfold value_to_cap_scored, value_to_cap_candidates, value_to_cap_filtered.
  columns_of. rewrite Cs. vm_compute. reflexivity.
Qed.

Lemma daily_rise_scored_columns S P :
  columns S = ohlcv_columns ->
  columns (daily_rise_scored S P) =
  ohlcv_columns ++ ["장중등락률"; "전일대비등락률"; "장중등락률_norm"; "거래대금_norm";
                    "복합점수"].
Proof.
  intros Cs. unfold daily_rise_scored, daily_rise_candidates.
  columns_of. rewrite Cs. vm_compute. reflexivity.
Qed.

Lemma closing_strength_candidates_columns S P :
  columns S = ohlcv_columns ->
  columns (closing_strength_candidates S P) =
  ohlcv_columns ++ ["마감강도"; "거래량증가율"; "장중등락률"; "전일대비등락률";
                    "거래량증가"; "상승여부"].
Proof.
  intros Cs. unfold closing_strength_candidates, closing_strength_metrics.
  columns_of. rewrite Cs. vm_compute. reflexivity.
Qed.

Lemma closing_strength_scored_columns S P :
  columns S = ohlcv_columns ->
  columns (closing_strength_scored S P) =
  ohlcv_columns ++ ["마감강도"; "거래량증가율"; "장중등락률"; "전일대비등락률";
                    "거래량증가"; "상승여부"; "마감강도_norm"; "거래량증가율_norm";
                    "거래대금_norm"; "복합점수"].
Proof.
  intros Cs. unfold closing_strength_scored. columns_of.
  rewrite (closing_strength_candidates_columns S P Cs). vm_compute. reflexivity.
Qed.

Lemma surge_flat_scored_columns S P :
  columns S = ohlcv_columns ->
  columns (surge_flat_scored S P) =
  ohlcv_columns ++ ["거래량증가율"; "장중등락률"; "전일대비등락률"; "횡보여부";
                    "거래량증가율_norm"; "거래대금_norm"; "복합점수"].
Proof.
  intros Cs. unfold surge_flat_scored, surge_flat_candidates.
  columns_of. rewrite Cs. vm_compute. reflexivity.
Qed.

Lemma volume_surge_tagged S P n :
  columns S = ohlcv_columns -> columns P = ohlcv_columns ->
  tagged "거래량 급증 상위주" (volume_surge_view api S P n).
Proof.
  intros Cs _. unfold volume_surge_view.
  destruct (empty (volume_surge_candidates S P)); [apply tagged_empty_frame|].
  apply (tagged_named _ (columns (volume_surge_scored S P))).
  - intros df H He. apply top3_named in H; [|exact He].
    rewrite columns_qualified, columns_head in H. exact H.
  - rewrite (volume_surge_scored_columns S P Cs). vm_compute. reflexivity.
  - rewrite (volume_surge_scored_columns S P Cs). vm_compute. reflexivity.
Qed.

Lemma gap_up_tagged S P n :
  columns S = ohlcv_columns -> columns P = ohlcv_columns ->
  tagged "갭 상승 모멘텀 상위주" (gap_up_view api S P n).
Proof.
  intros Cs _. unfold gap_up_view. cbv zeta.
  destruct (empty (qualified "상승지속" (gap_up_top S P n)));
    [apply tagged_empty_frame|].
  apply (tagged_named _ (add_col "종합모멘텀" (columns (gap_up_top S P n)))).
  - intros df H He. apply enhanced_named in H.
    rewrite columns_head, columns_sort_values_desc, columns_with_momentum,
      columns_qualified in H. exact H.
  - unfold gap_up_top. destruct (empty (gap_up_candidates S P)); columns_of.
    + rewrite (gap_up_candidates_columns S P Cs). vm_compute. reflexivity.
    + rewrite (gap_up_scored_columns S P Cs). vm_compute. reflexivity.
  - unfold gap_up_top. destruct (empty (gap_up_candidates S P)); columns_of.
    + rewrite (gap_up_candidates_columns S P Cs). vm_compute. reflexivity.
    + rewrite (gap_up_scored_columns S P Cs). vm_compute. reflexivity.
Qed.

Lemma value_to_cap_tagged S P C n :
  columns S = ohlcv_columns -> columns P = ohlcv_columns ->
  tagged "시총 대비 집중 자금 유입 상위주" (value_to_cap_view api S P C n).
Proof.
  intros Cs _. unfold value_to_cap_view.
  repeat match goal with
  | |- tagged _ (if ?b then inr empty_frame else _) =>
      destruct b; [apply tagged_empty_frame|]
  end.
  apply (tagged_named _ (columns (value_to_cap_scored S P C))).
  - intros df H He.
    destruct (top3 api _) as [e|df'] eqn:T; cbn [caught] in H.
    + inversion H. subst df. discriminate He.
    + inversion H. subst df'. apply top3_named in T; [|exact He].
      rewrite columns_qualified, columns_head in T. exact T.
  - rewrite (value_to_cap_scored_columns S P C Cs). vm_compute. reflexivity.
  - rewrite (value_to_cap_scored_columns S P C Cs). vm_compute. reflexivity.
Qed.

Lemma daily_rise_tagged S P n :
  columns S = ohlcv_columns -> columns P = ohlcv_columns ->
  tagged "일중 상승률 상위주" (daily_rise_view api S P n).
Proof.
  intros Cs _. unfold daily_rise_view.
  destruct (empty (daily_rise_candidates S P)); [apply tagged_empty_frame|].
  apply (tagged_named _ (columns (daily_rise_scored S P))).
  - intros df H He. apply enhanced_named in H.
    rewrite !columns_head in H. exact H.
  - rewrite (daily_rise_scored_columns S P Cs). vm_compute. reflexivity.
  - rewrite (daily_rise_scored_columns S P Cs). vm_compute. reflexivity.
Qed.

Lemma closing_strength_tagged S P n :
  columns S = ohlcv_columns -> columns P = ohlcv_columns ->
  tagged "마감 강도 상위주" (closing_strength_view api S P n).
Proof.
  intros Cs _. unfold closing_strength_view.
  apply (tagged_named _ (columns (closing_strength_top S P n))).
  - intros df H He. apply top3_named in H; [|exact He].
    rewrite columns_qualified in H. exact H.
  - unfold closing_strength_top.
    destruct (empty (closing_strength_candidates S P)); columns_of.
    + rewrite (closing_strength_candidates_columns S P Cs). vm_compute. reflexivity.
    + rewrite (closing_strength_scored_columns S P Cs). vm_compute. reflexivity.
  - unfold closing_strength_top.
    destruct (empty (closing_strength_candidates S P)); columns_of.
    + rewrite (closing_strength_candidates_columns S P Cs). vm_compute. reflexivity.
    + rewrite (closing_strength_scored_columns S P Cs). vm_compute. reflexivity.
Qed.

Lemma surge_flat_tagged S P n :
  columns S = ohlcv_columns -> columns P = ohlcv_columns ->
  tagged "거래량 증가 상위 횡보주" (surge_flat_view api S P n).
Proof.
  intros Cs _. unfold surge_flat_view.
  destruct (empty (surge_flat_candidates S P)); [apply tagged_empty_frame|].
  apply (tagged_named _ (columns (surge_flat_scored S P))).
  - intros df H He. apply top3_named in H; [|exact He].
    rewrite columns_qualified, columns_head in H. exact H.
  - rewrite (surge_flat_scored_columns S P Cs). vm_compute. reflexivity.
  - rewrite (surge_flat_scored_columns S P Cs). vm_compute. reflexivity.
Qed.

(** The tables of a mode carry distinct names and the columns of their
    categories. *)
Lemma tables_of_tagged mode S P C (triggers : Triggers) :
  columns S = ohlcv_columns -> columns P = ohlcv_columns ->
  tables_of api mode S P C = inr (Some triggers) ->
  NoDup (map fst triggers) /\
  forall k df, In (k, df) triggers -> tagged k (inr df).
Proof.
  intros Cs Cp. unfold tables_of.
  destruct (String.eqb mode "morning"); [|destruct (String.eqb mode "afternoon")].
  - pose proof (volume_surge_tagged S P 10 Cs Cp) as T1.
    pose proof (gap_up_tagged S P 15 Cs Cp) as T2.
    pose proof (value_to_cap_tagged S P C 10 Cs Cp) as T3.
    destruct (volume_surge_view api S P 10) as [e|r1]; [discriminate|].
    destruct (gap_up_view api S P 15) as [e|r2]; [discriminate|].
    destruct (value_to_cap_view api S P C 10) as [e|r3]; [discriminate|].
    cbn [and_then]. intros H. inversion H. subst triggers. split.
    + repeat constructor; simpl; intuition discriminate.
    + intros k df [E|[E|[E|[]]]]; inversion E; subst; assumption.
  - pose proof (daily_rise_tagged S P 15 Cs Cp) as T1.
    pose proof (closing_strength_tagged S P 15 Cs Cp) as T2.
    pose proof (surge_flat_tagged S P 20 Cs Cp) as T3.
    destruct (daily_rise_view api S P 15) as [e|r1]; [discriminate|].
    destruct (closing_strength_view api S P 15) as [e|r2]; [discriminate|].
    destruct (surge_flat_view api S P 20) as [e|r3]; [discriminate|].
    cbn [and_then]. intros H. inversion H. subst triggers. split.
    + repeat constructor; simpl; intuition discriminate.
    + intros k df [E|[E|[E|[]]]]; inversion E; subst; assumption.
  - discriminate.
Qed.

(** A report that was written holds the records of an allocation of
    tagged tables. *)
Lemma written_cases mode out path doc :
  schema api ->
  written (batch_view api mode out) = Some (path, doc) ->
  exists d S P C triggers,
    columns S = ohlcv_columns /\ columns P = ohlcv_columns /\
    tables_of api mode S P C = inr (Some triggers) /\
    document api mode d (select_final_tickers triggers) = inr doc.
Proof.
  intros Hschema.
  assert (forall d S log,
            columns S = ohlcv_columns ->
            written (with_snapshot api mode out d S log) = Some (path, doc) ->
            exists d S P C triggers,
              columns S = ohlcv_columns /\ columns P = ohlcv_columns /\
              tables_of api mode S P C = inr (Some triggers) /\
              document api mode d (select_final_tickers triggers) = inr doc) as Hw.
  { intros d S log Cs. unfold with_snapshot. cbv zeta.
    destruct (empty (get_market_ohlcv_by_ticker api (previous_date api d))) eqn:EP;
      [discriminate|].
    destruct (empty (get_market_cap_by_ticker api d)); [discriminate|].
    unfold after_data.
    destruct (tables_of api mode S _ _) as [e|[t|]] eqn:T; try discriminate.
    cbv zeta. destruct (wants_report out); [|discriminate].
    destruct (document api mode d (select_final_tickers t)) as [e|doc'] eqn:D;
      [discriminate|].
    cbn [written]. intros H. inversion H. subst.
    exists d, S, (get_market_ohlcv_by_ticker api (previous_date api d)),
      (get_market_cap_by_ticker api d), t.
    refine (conj Cs (conj (Hschema _ EP) (conj T D))). }
  unfold batch_view. cbv zeta.
  destruct (empty (get_market_ohlcv_by_ticker api (first_date api))) eqn:E0.
  - destruct (empty (get_market_ohlcv_by_ticker api (retry_date api))) eqn:E1;
      [discriminate|].
    apply Hw. apply Hschema. exact E1.
  - apply Hw. apply Hschema. exact E0.
Qed.

Lemma dict_get_nonempty (d : Triggers) (k : string) :
  empty (dict_get d k) = false -> In (k, dict_get d k) d.
Proof.
  intros H. apply dict_get_in. unfold dict_has, dict_get in *.
  induction d as [|[k0 v0] d IH]; simpl in *; [discriminate H|].
  destruct (String.eqb k k0); [reflexivity | apply IH; exact H].
Qed.

(** The records of a tier of an allocation of tagged tables. *)
Lemma tier_fields (triggers tier : Triggers) (recs : list (string * list StockInfo))
    (k : string) (infos : list StockInfo) (info : StockInfo) :
  (forall k df, In (k, df) triggers -> tagged k (inr df)) ->
  sourced triggers tier ->
  records tier = inr recs -> In (k, infos) recs -> In info infos ->
  map fst info = base_fields ++ category_fields k.
Proof.
  intros Ht Hs Hr Hk Hi.
  destruct (records_in tier recs k infos info Hr Hk Hi) as (df & t & Hin & He & Hy).
  rewrite (stock_info_fields k df t info Hy). f_equal.
  destruct (Hs k df Hin) as [Hc Hrows].
  assert (empty (dict_get triggers k) = false) as Hne.
  { destruct (empty (dict_get triggers k)) eqn:E; [|reflexivity].
    rewrite (from_table_empty _ df (conj Hc Hrows) E) in He. discriminate He. }
  rewrite Hc.
  exact (Ht k _ (dict_get_nonempty triggers k Hne) _ eq_refl Hne).
Qed.

(** C7 (amended).  Let the provider serve tables with the
    OHLCV columns and let the batch start without a report.  Every record
    of the report that the batch writes, in the free and in the premium
    tier, has the fields code, name, current_price, change_rate, volume
    and trade_value, in this order, followed by the fields of its
    category: volume_increase for the volume surge, gap_rate for the
    gap-up momentum, trade_value_ratio and market_cap for the value to
    cap, closing_strength for the closing strength, and no further field
    for the daily rise and for the volume surge with a flat price. *)
Theorem report_records_fields (mode lvl : string) (out : option string) (s : State)
    (path : string) (doc : Document) :
  schema api ->
  report s = None ->
  report (snd (run_batch api mode lvl out s)) = Some (path, doc) ->
  forall k infos info,
    In (k, infos) (doc_free doc ++ doc_premium doc) -> In info infos ->
    map fst info = base_fields ++ category_fields k.
Proof.
  intros Hschema Hnone Hrep k infos info Hk Hi.
  destruct (level_failure api lvl) as [e0|] eqn:L.
  { rewrite (run_batch_refused api mode lvl out s e0 L) in Hrep. cbn [snd] in Hrep.
    rewrite Hnone in Hrep. discriminate Hrep. }
  pose proof (run_batch_run api (heap s) (fetched s) (report s) mode lvl out Hschema L)
    as H.
  unfold wp in H. rewrite <- st_of_state in H. destruct H as (_ & l & Hst).
  rewrite Hst in Hrep. cbn [report st] in Hrep.
  destruct (written (batch_view api mode out)) as [w|] eqn:W;
    [|rewrite Hnone in Hrep; discriminate Hrep].
  inversion Hrep. subst w.
  destruct (written_cases mode out path doc Hschema W)
    as (d & S & P & C & triggers & Cs & Cp & T & D).
  destruct (tables_of_tagged mode S P C triggers Cs Cp T) as [Hn Ht].
  destruct (select_sourced triggers Hn) as [Hf Hp].
  unfold document in D.
  destruct (records (free (select_final_tickers triggers))) as [e|f] eqn:Ef;
    [discriminate D|].
  destruct (records (premium (select_final_tickers triggers))) as [e|p] eqn:Ep;
    [discriminate D|].
  cbn [and_then] in D. inversion D. subst doc. cbn [doc_free doc_premium] in Hk.
  apply in_app_or in Hk. destruct Hk as [Hk|Hk].
  - exact (tier_fields triggers _ f k infos info Ht Hf Ef Hk Hi).
  - exact (tier_fields triggers _ p k infos info Ht Hp Ep Hk Hi).
Qed.

End WithApi.

End Report.

(* ================================================================== *)
(** * The two tiers side by side *)
(* ================================================================== *)

Module Tiers.
Import Selection Report.
Local Open Scope nat_scope.

Lemma premium_fill_keeps (triggers : Triggers) (pool : list PoolEntry)
    (d : Triggers) (pt : list string) (t : string) :
  In t pt -> In t (snd (premium_fill triggers pool d pt)).
Proof.
  revert d pt. induction pool as [|[[name t'] sc] pool IH]; intros d pt H; simpl.
  - exact H.
  - destruct (negb (mem t' pt) && (List.length pt <? 3)); apply IH;
      [right; exact H | exact H].
Qed.

(** With room left, the filling loop takes the ticker of the first pool
    entry unless the premium tickers hold it already. *)
Lemma premium_fill_first (triggers : Triggers) (name t : string) (sc : float64)
    (rest : list PoolEntry) (d : Triggers) (pt : list string) :
  List.length pt < 3 ->
  In t (snd (premium_fill triggers ((name, t, sc) :: rest) d pt)).
Proof.
  intros Hl. simpl. apply Nat.ltb_lt in Hl. rewrite Hl.
  destruct (mem t pt) eqn:E; simpl.
  - apply premium_fill_keeps. apply mem_In. exact E.
  - apply premium_fill_keeps. left. reflexivity.
Qed.

(** C10.  The premium tier is what the two premium loops compute from the
    trigger tables and the sorted pool; the free tier is no input of
    theirs.  The free tier holds the ticker of the first entry of the
    sorted pool, and whenever the first loop leaves room the second loop
    puts that very ticker among the premium tickers.  With category A
    topping at 0.92 and category B at 0.95 the ticker of B is in the free
    tier and in the premium tier. *)
Theorem premium_ignores_free_pick :
  (forall triggers,
     premium (select_final_tickers triggers) = fst (premium_select triggers)) /\
  (forall triggers name t sc rest,
     sort_pool (all_tickers_with_scores triggers) = (name, t, sc) :: rest ->
     free (select_final_tickers triggers)
       = [(name, loc (dict_get triggers name) [t])] /\
     (List.length (snd (premium_tops triggers [] [])) < 3 ->
      In t (snd (premium_select triggers)))) /\
  (exists triggers t,
     In t (tickers_of (free (select_final_tickers triggers))) /\
     In t (tickers_of (premium (select_final_tickers triggers)))).
Proof.
  split; [exact premium_select_eq|]. split.
  - intros triggers name t sc rest E. split.
    + rewrite free_select_eq, E. reflexivity.
    + intros Hl. unfold premium_select. cbv zeta.
      apply Nat.ltb_lt in Hl. rewrite Hl. rewrite E.
      apply premium_fill_first. apply Nat.ltb_lt. exact Hl.
  - exists Market.two_tops, "Y". split; vm_compute; tauto.
Qed.

End Tiers.

(* ================================================================== *)
(** * The program on the small market *)
(* ================================================================== *)

Module Examples.
Import Exec Stages Views Run Tables Selection Batch BatchView Report.
Import ZeroVolume Qualifier.
Local Open Scope nat_scope.

Lemma provider_schema : schema Market.provider.
Proof.
  intros d. unfold Market.provider, Market.ohlcv_of. cbn [get_market_ohlcv_by_ticker].
  destruct (String.eqb d "20240102"); [reflexivity|].
  destruct (String.eqb d "20240101"); [reflexivity | discriminate].
Qed.

Lemma nameless_schema : schema Market.nameless.
Proof.
  intros d. unfold Market.nameless, Market.ohlcv_of. cbn [get_market_ohlcv_by_ticker].
  destruct (String.eqb d "20240102"); [reflexivity|].
  destruct (String.eqb d "20240101"); [reflexivity | discriminate].
Qed.

(** ** Selection *)

(** On the tops 0.92 and 0.95 the free tier is the ticker of B. *)
Lemma free_pick_example :
  NoDup (map fst Market.two_tops) /\
  unique_indexes Market.two_tops /\
  map fst (free (select_final_tickers Market.two_tops)) = ["B"] /\
  exists best table,
    In best (all_tickers_with_scores Market.two_tops) /\
    free (select_final_tickers Market.two_tops) = [(entry_trigger best, table)] /\
    index table = [entry_ticker best] /\
    forall e, In e (all_tickers_with_scores Market.two_tops) ->
              fgt (entry_score e) (entry_score best) = false.
Proof.
  assert (NoDup (map fst Market.two_tops)) as Hn
    by (repeat constructor; simpl; intuition discriminate).
  assert (unique_indexes Market.two_tops) as Hu
    by (repeat constructor; simpl; intuition discriminate).
  assert (Forall (fun e => is_nan (entry_score e) = false)
                 (occurrences Market.two_tops)) as Hs
    by (vm_compute; repeat constructor).
  destruct (free_is_best_of_deduplicated_pool Market.two_tops Hn Hu Hs)
    as (_ & _ & _ & _ & _ & H).
  refine (conj Hn (conj Hu (conj eq_refl _))).
  apply H. vm_compute. discriminate.
Defined.

(** A ticker of two categories has one pool entry, that of the first
    category, and the free tier takes it although the second category
    scores it higher. *)
Lemma pool_drops_second_occurrence :
  occurrences Market.same_ticker
    = [("A", "X", Fin (1 # 2)); ("B", "X", Fin (19 # 20))] /\
  all_tickers_with_scores Market.same_ticker = [("A", "X", Fin (1 # 2))] /\
  map fst (free (select_final_tickers Market.same_ticker)) = ["A"] /\
  fgt (Fin (19 # 20)) (Fin (1 # 2)) = true.
Proof. repeat split; vm_compute; reflexivity. Qed.

Lemma premium_example :
  unique_indexes Market.same_ticker /\
  NoDup (tickers_of (premium (select_final_tickers Market.same_ticker))) /\
  List.length (tickers_of (premium (select_final_tickers Market.same_ticker))) <= 3.
Proof.
  assert (unique_indexes Market.same_ticker) as Hu
    by (repeat constructor; simpl; intuition discriminate).
  exact (conj Hu (premium_no_duplicate_at_most_three Market.same_ticker Hu)).
Defined.

(** ** Names *)

Lemma enhance_example :
  empty (nth 0 (heap Market.fetched_store) empty_frame) = false /\
  exists s',
    enhance_dataframe Market.provider 0 Market.fetched_store = (inr 0, s') /\
    index (nth 0 (heap s') empty_frame) = ["A"; "B"; "C"; "D"].
Proof.
  assert (empty (nth 0 (heap Market.fetched_store) empty_frame) = false) as He
    by reflexivity.
  destruct (Enhance.enhance_dataframe_lookup Market.provider 0 Market.fetched_store He)
    as [_ H].
  destruct H as (s' & H1 & _ & _ & H4 & _).
  { intros t _. discriminate. }
  refine (conj He _). exists s'. split; [exact H1 | exact H4].
Defined.

(** A lookup that fails is raised: no name is made up, no report is
    written. *)
Lemma failed_lookup_aborts :
  enhance_dataframe Market.nameless 0 Market.fetched_store
    = (inl NameLookupError, Market.fetched_store) /\
  fst (run_batch Market.nameless "morning" "INFO" (Some "out.json") Market.initial)
    = inl NameLookupError /\
  report (snd (run_batch Market.nameless "morning" "INFO" (Some "out.json")
                 Market.initial)) = None.
Proof. repeat split; vm_compute; reflexivity. Qed.

(** ** Snapshots *)

Lemma snapshots_example :
  snapshots_untouched 0 1
    (trigger_morning_volume_surge Market.provider "20240102" 0 1 10)
    Market.fetched_store /\
  snapshots_untouched 0 1
    (trigger_afternoon_closing_strength Market.provider "20240102" 0 1 15)
    Market.fetched_store.
Proof.
  destruct (triggers_leave_snapshots_unchanged Market.provider "20240102"
              Market.fetched_store 0 1 2 10
              ltac:(simpl; lia) ltac:(simpl; lia) ltac:(simpl; lia))
    as (H1 & _).
  destruct (triggers_leave_snapshots_unchanged Market.provider "20240102"
              Market.fetched_store 0 1 2 15
              ltac:(simpl; lia) ltac:(simpl; lia) ltac:(simpl; lia))
    as (_ & _ & _ & _ & H5 & _).
  exact (conj H1 H5).
Defined.

(** ** A prior-day volume of zero *)


(** ** The cut and the qualifier *)


(** ** The batch *)



(** ** The report *)

Lemma report_example :
  schema Market.provider /\
  exists doc,
    report (snd (run_batch Market.provider "afternoon" "INFO" (Some "out.json")
                   Market.initial)) = Some ("out.json", doc) /\
    map fst (doc_premium doc) = ["일중 상승률 상위주"; "마감 강도 상위주"] /\
    forall k infos info,
      In (k, infos) (doc_free doc ++ doc_premium doc) -> In info infos ->
      map fst info = base_fields ++ category_fields k.
Proof.
  split; [exact provider_schema|].
  eexists. split; [vm_compute; reflexivity|]. split; [reflexivity|].
  apply (report_records_fields Market.provider "afternoon" "INFO" (Some "out.json")
           Market.initial "out.json" _ provider_schema eq_refl).
  vm_compute. reflexivity.
Defined.

(** The record of the daily rise has the six common fields and no field
    of its category. *)
Lemma daily_rise_record_has_no_specific_field :
  exists doc infos info,
    report (snd (run_batch Market.provider "afternoon" "INFO" (Some "out.json")
                   Market.initial)) = Some ("out.json", doc) /\
    In ("일중 상승률 상위주", infos) (doc_premium doc) /\
    In info infos /\
    map fst info
      = ["code"; "name"; "current_price"; "change_rate"; "volume"; "trade_value"].
Proof.
  eexists. eexists. eexists.
  split; [vm_compute; reflexivity|].
  split; [left; reflexivity|].
  split; [left; reflexivity | reflexivity].
Qed.

(** ** The tiers *)

Lemma free_pick_in_premium_example :
  In "Y" (snd (premium_select Market.two_tops)).
Proof.
  exact (proj2 (proj1 (proj2 Tiers.premium_ignores_free_pick) Market.two_tops
                  "B" "Y" (Fin (95 # 100)) [("A", "X", Fin (92 # 100))]
                  ltac:(vm_compute; reflexivity))
               ltac:(vm_compute; lia)).
Defined.

End Examples.

(* ================================================================== *)
(** * The low-liquidity filter *)
(* ================================================================== *)

Module Liquidity.
Import FloatFacts SortFacts Selection Tables.

Local Open Scope Q_scope.

(** ** Sorting finite values *)

Definition below (a b : Q) : bool := flt (Fin a) (Fin b).

Lemma insert_by_Fin (a : Q) (l : list Q) :
  insert_by ascending (Fin a) (map Fin l) = map Fin (insert_by below a l).
Proof.
  induction l as [|b l IH]; simpl; [reflexivity|].
  unfold below at 1. destruct (flt (Fin b) (Fin a)); simpl; [rewrite IH|]; reflexivity.
Qed.

Lemma sort_by_Fin (l : list Q) :
  sort_by ascending (map Fin l) = map Fin (sort_by below l).
Proof.
  unfold sort_by. induction l as [|a l IH]; simpl; [reflexivity|].
  rewrite IH. apply insert_by_Fin.
Qed.

Lemma below_sorted (l : list Q) :
  StronglySorted (fun x y => x <= y) (sort_by below l).
Proof.
  assert (StronglySorted (not_after Q below) (sort_by below l)) as H.
  { apply (sort_by_sorted Q below (fun _ => True)).
    - intros a b _ _ E. apply flt_fin in E. apply flt_fin_false. lra.
    - intros a b c _ _ _ E1 E2. apply flt_fin_false in E1. apply flt_fin_false in E2.
      apply flt_fin_false. lra.
    - apply Forall_forall. intros; exact I. }
  induction H as [|x l' Hs IH Hall]; constructor; [exact IH|].
  apply Forall_forall. intros y Hy. rewrite Forall_forall in Hall.
  specialize (Hall y Hy). unfold not_after, below in Hall.
  apply flt_fin_false in Hall. exact Hall.
Qed.

Lemma sorted_nth_le (l : list Q) (i j : nat) :
  StronglySorted (fun x y => x <= y) l ->
  (i <= j)%nat -> (j < List.length l)%nat -> nth i l 0 <= nth j l 0.
Proof.
  intros Hs. revert i j. induction Hs as [|x l Hs IH Hall]; intros i j Hij Hj.
  - simpl in Hj. lia.
  - destruct i as [|i], j as [|j]; simpl in *; try lia.
    + apply Qle_refl.
    + rewrite Forall_forall in Hall. apply Hall. apply nth_In. lia.
    + apply IH; lia.
Qed.

Lemma last_map_Fin (l : list Q) : l <> [] -> last (map Fin l) NaN = Fin (last l 0).
Proof.
  induction l as [|a l IH]; intros H; [congruence|].
  destruct l as [|b l]; [reflexivity|].
  change (last (map Fin (b :: l)) NaN = Fin (last (b :: l) 0)).
  apply IH. discriminate.
Qed.

Lemma nth_map_Fin (l : list Q) (i : nat) :
  (i < List.length l)%nat -> nth i (map Fin l) NaN = Fin (nth i l 0).
Proof.
  revert i. induction l as [|a l IH]; intros i Hi; simpl in Hi; [lia|].
  destruct i as [|i]; simpl; [reflexivity|]. apply IH. lia.
Qed.

Lemma last_nth (l : list Q) : last l 0 = nth (Nat.pred (List.length l)) l 0.
Proof.
  induction l as [|a l IH]; [reflexivity|].
  destruct l as [|b l]; [reflexivity|].
  change (last (b :: l) 0 = nth (List.length l) (b :: l) 0).
  rewrite IH. reflexivity.
Qed.

(** ** The interpolation stays between its two points *)

Lemma lerp_between (a b t : Q) :
  a <= b -> 0 <= t <= 1 ->
  exists v, lerp (Fin a) (Fin b) t = Fin v /\ a <= v <= b.
Proof.
  intros Hab Ht. unfold lerp. cbv zeta.
  destruct (Qle_bool (1 # 2) t); simpl.
  - eexists. split; [reflexivity|]. nra.
  - eexists. split; [reflexivity|]. nra.
Qed.

(** ** The percentile of finite values lies between two of them *)

Lemma percentile_between (qs : list Q) (q : Q) :
  qs <> [] -> 0 <= q <= 100 ->
  exists p lo hi,
    percentile (map Fin qs) q = Some (Fin p) /\
    In lo qs /\ In hi qs /\ lo <= p <= hi.
Proof.
  intros Hne Hq. unfold percentile.
  assert (Qle_bool 0 q && Qle_bool q 100 = true)%bool as ->.
  { apply andb_true_iff. split; apply Qle_bool_iff; tauto. }
  rewrite sort_by_Fin. cbv zeta.
  set (l := sort_by below qs).
  assert (l <> []) as Hl.
  { unfold l. intros E. apply sort_by_nil in E. contradiction. }
  assert (forall x, In x l -> In x qs) as Hin.
  { intros x. unfold l. apply sort_by_in. }
  pose proof (below_sorted qs) as Hs. fold l in Hs.
  destruct (map Fin l) as [|y ys] eqn:El.
  { destruct l; [congruence | discriminate El]. }
  rewrite <- El. clear El y ys.
  rewrite last_map_Fin by exact Hl. cbn [is_nan].
  rewrite length_map.
  assert (0 < List.length l)%nat as Hlen.
  { destruct l; [congruence | simpl; lia]. }
  set (n := Z.of_nat (List.length l)).
  set (v := inject_Z (n - 1) * (q / 100)).
  assert (0 <= v) as Hv0.
  { unfold v. apply Qmult_le_0_compat.
    - change 0 with (inject_Z 0). rewrite <- Zle_Qle. unfold n. lia.
    - apply Qle_shift_div_l; lra. }
  assert (0 <= Qfloor v)%Z as Hf0.
  { change 0%Z with (Qfloor 0). apply Qfloor_resp_le. exact Hv0. }
  assert (0 <= v - inject_Z (Qfloor v) <= 1) as Hg.
  { pose proof (Qfloor_le v). pose proof (Qlt_floor v) as Hlt.
    rewrite inject_Z_plus in Hlt. change (inject_Z 1) with 1 in Hlt. lra. }
  destruct (n - 1 <=? Qfloor v)%Z eqn:Eb.
  - destruct (lerp_between (last l 0) (last l 0) (v - inject_Z (Qfloor v)))
      as (p & Ep & Hp); [lra | exact Hg |].
    exists p, (last l 0), (last l 0).
    split; [rewrite Ep; reflexivity|].
    assert (In (last l 0) qs) as H.
    { apply Hin. rewrite last_nth. apply nth_In. lia. }
    split; [exact H|]. split; [exact H|]. exact Hp.
  - apply Z.leb_gt in Eb.
    set (i := Z.to_nat (Qfloor v)).
    assert (S i < List.length l)%nat as Hi.
    { unfold i, n in *. lia. }
    replace (Z.to_nat (Qfloor v + 1)) with (S i) by (unfold i; lia).
    rewrite !nth_map_Fin by lia.
    destruct (lerp_between (nth i l 0) (nth (S i) l 0) (v - inject_Z (Qfloor v)))
      as (p & Ep & Hp).
    + apply sorted_nth_le; [exact Hs | lia | lia].
    + exact Hg.
    + exists p, (nth i l 0), (nth (S i) l 0).
      split; [rewrite Ep; reflexivity|].
      split; [apply Hin, nth_In; lia|].
      split; [apply Hin, nth_In; lia|]. exact Hp.
Qed.

(** ** The filter *)

Lemma row_of_own (F : DataFrame) (r : Row) :
  unique_index F -> In r (rows F) -> row_of F (ticker r) = Some r.
Proof.
  unfold unique_index, index, row_of.
  induction (rows F) as [|a l IH]; simpl; intros Hnd Hin; [contradiction|].
  inversion Hnd as [|? ? Hn Hd]; subst.
  destruct Hin as [->|Hin].
  - rewrite String.eqb_refl. reflexivity.
  - destruct (String.eqb (ticker r) (ticker a)) eqn:E.
    + apply String.eqb_eq in E. exfalso. apply Hn. rewrite <- E.
      apply in_map. exact Hin.
    + apply IH; assumption.
Qed.

(** The volume of a row that is at most every volume of the table. *)
Definition lowest_volume (df : DataFrame) (r : Row) : Prop :=
  forall r', In r' (rows df) ->
    fgt (num (get_cell r "거래량")) (num (get_cell r' "거래량")) = false.

(** On a non-empty table of distinct tickers and finite volumes, with a
    threshold between 0 and 1, [filter_low_liquidity] succeeds; its cutoff
    lies between two volumes of the table, it keeps (in their order)
    exactly the rows whose volume is strictly above the cutoff, and hence
    never keeps a row of lowest volume. *)
Theorem filter_low_liquidity_drops_the_lowest (df : DataFrame) (threshold : Q)
    (qs : list Q) :
  mem "거래량" (columns df) = true ->
  unique_index df ->
  values (column df "거래량") = map Fin qs ->
  rows df <> [] ->
  0 <= threshold <= 1 ->
  exists cutoff lo hi out,
    percentile (values (column df "거래량")) (threshold * 100) = Some (Fin cutoff) /\
    In lo qs /\ In hi qs /\ lo <= cutoff <= hi /\
    filter_low_liquidity df threshold = Some out /\
    columns out = columns df /\
    rows out = filter (fun r => fgt (num (get_cell r "거래량")) (Fin cutoff)) (rows df) /\
    forall r, In r (rows df) -> lowest_volume df r -> ~ In r (rows out).
Proof.
  intros Hcol Hu Hv Hne Ht.
  assert (qs <> []) as Hq.
  { intros E. subst qs. unfold values, column in Hv. rewrite map_map in Hv.
    destruct (rows df); [congruence | discriminate Hv]. }
  destruct (percentile_between qs (threshold * 100) Hq) as (p & lo & hi & Ep & Hlo & Hhi & Hp).
  { nra. }
  assert (rows (mask_rows df (s_gt_c (column df "거래량") (Fin p))) =
          filter (fun r => fgt (num (get_cell r "거래량")) (Fin p)) (rows df)) as Hrows.
  { rewrite rows_mask_rows. apply filter_ext_in. intros r Hr.
    unfold at_label, s_gt_c. rewrite assoc_s_map, assoc_column_eq.
    rewrite (row_of_own df r Hu Hr). reflexivity. }
  exists p, lo, hi, (mask_rows df (s_gt_c (column df "거래량") (Fin p))).
  rewrite Hv. split; [exact Ep|].
  split; [exact Hlo|]. split; [exact Hhi|]. split; [exact Hp|].
  split; [unfold filter_low_liquidity; rewrite Hcol, Hv, Ep; reflexivity|].
  split; [reflexivity|]. split; [exact Hrows|].
  intros r Hr Hlow. rewrite Hrows. intros Hin. apply filter_In in Hin.
  destruct Hin as [_ Hgt].
  (* the row that holds [lo] has a volume that [r] does not exceed *)
  assert (In (Fin lo) (values (column df "거래량"))) as Hlo'.
  { rewrite Hv. apply in_map. exact Hlo. }
  unfold values, column in Hlo'. rewrite map_map in Hlo'. simpl in Hlo'.
  apply in_map_iff in Hlo'. destruct Hlo' as (r' & Er' & Hr').
  specialize (Hlow r' Hr'). rewrite Er' in Hlow.
  destruct (num (get_cell r "거래량")) as [x| | |]; try discriminate Hgt.
  - apply fgt_fin in Hgt. apply fgt_fin_false in Hlow. lra.
  - discriminate Hlow.
Qed.

Definition thin : DataFrame := mkDF ["거래량"]
  [mkRow "A" [("거래량", CNum (Fin 10))]; mkRow "B" [("거래량", CNum (Fin 10))];
   mkRow "C" [("거래량", CNum (Fin 30))]].

Lemma filter_low_liquidity_example :
  exists cutoff lo hi out,
    percentile (values (column thin "거래량")) ((2 # 10) * 100) = Some (Fin cutoff) /\
    In lo [10; 10; 30] /\ In hi [10; 10; 30] /\ lo <= cutoff <= hi /\
    filter_low_liquidity thin (2 # 10) = Some out /\
    columns out = columns thin /\
    rows out = filter (fun r => fgt (num (get_cell r "거래량")) (Fin cutoff)) (rows thin) /\
    forall r, In r (rows thin) -> lowest_volume thin r -> ~ In r (rows out).
Proof.
  apply (filter_low_liquidity_drops_the_lowest thin (2 # 10) [10; 10; 30]).
  - reflexivity.
  - unfold unique_index. vm_compute.
    repeat constructor; simpl; intuition discriminate.
  - reflexivity.
  - discriminate.
  - split; [discriminate | discriminate].
Defined.

End Liquidity.
(* ================================================================== *)
(** * The absolute filters *)
(* ================================================================== *)

Module AbsoluteFilters.
Import FloatFacts Selection Tables Stages Liquidity.

Local Open Scope nat_scope.

(** A fifth of the mean volume of a table (NaN entries skipped). *)
Definition volume_floor (F : DataFrame) : float64 :=
  fmul (s_mean (column F "거래량")) (Fin (2 # 10)).

(** The test a row has to pass. *)
Definition liquid_enough (F : DataFrame) (min_value : Z) (r : Row) : bool :=
  fge (num (get_cell r "거래대금")) (of_Z min_value) &&
  fge (num (get_cell r "거래량")) (volume_floor F).

Lemma rows_mask_ge_own (c : string) (k : float64) (F : DataFrame) :
  unique_index F ->
  rows (mask_ge c k F) = filter (fun r => fge (num (get_cell r c)) k) (rows F).
Proof.
  intros Hu. unfold mask_ge. rewrite rows_mask_rows. apply filter_ext_in.
  intros r Hr. unfold at_label, s_ge_c. rewrite assoc_s_map, assoc_column_eq.
  rewrite (row_of_own F r Hu Hr). reflexivity.
Qed.

Lemma filter_filter {A : Type} (f g : A -> bool) (l : list A) :
  filter g (filter f l) = filter (fun x => f x && g x) l.
Proof.
  induction l as [|a l IH]; simpl; [reflexivity|].
  destruct (f a); simpl; [destruct (g a)|]; rewrite IH; reflexivity.
Qed.

Lemma rows_absolute_filtered (min_value : Z) (F : DataFrame) :
  unique_index F ->
  rows (absolute_filtered min_value F) = filter (liquid_enough F min_value) (rows F).
Proof.
  intros Hu. unfold absolute_filtered, liquid.
  change (mask_rows ?G (s_ge_c (column ?G "거래량") ?k)) with (mask_ge "거래량" k G).
  rewrite rows_mask_ge_own by (apply Labels.unique_mask_ge; exact Hu).
  rewrite rows_mask_ge_own by exact Hu.
  apply filter_filter.
Qed.

Lemma nth_fresh {A : Type} (h : list A) (x d : A) : nth (List.length h) (h ++ [x]) d = x.
Proof. rewrite app_nth2, Nat.sub_diag by lia. reflexivity. Qed.

(** [apply_absolute_filters] on a table of distinct tickers that has the
    two columns: the table given stays as it is, two tables are added to
    the store, and the one returned holds, in their order, exactly the
    rows whose trade value reaches [min_value] and whose volume reaches a
    fifth of the mean volume of the whole table given (the rows that fail
    the trade-value test count in that mean).  A table that lacks one of
    the two columns makes the call raise [KeyError]. *)
Theorem apply_absolute_filters_keeps (df : ref) (min_value : Z) (s : State) :
  df < List.length (heap s) ->
  let F := nth df (heap s) empty_frame in
  let run := apply_absolute_filters df min_value s in
  (mem "거래대금" (columns F) = true -> mem "거래량" (columns F) = true ->
   unique_index F ->
   exists kept out,
     fst run = inr (List.length (heap s) + 1) /\
     heap (snd run) = heap s ++ [kept; out] /\
     fetched (snd run) = fetched s /\ report (snd run) = report s /\
     columns out = columns F /\
     rows out = filter (liquid_enough F min_value) (rows F)) /\
  (mem "거래대금" (columns F) = false \/ mem "거래량" (columns F) = false ->
   fst run = inl KeyError).
Proof.
  intros Hlt F run. split.
  - intros H1 H2 Hu.
    exists (mask_ge "거래대금" (of_Z min_value) F), (absolute_filtered min_value F).
    unfold run, apply_absolute_filters, getitem, getitem_mask, bind, read, ret, new_frame.
    cbn [heap fetched report fst snd]. fold F. rewrite H1.
    cbn [heap fetched report fst snd].
    rewrite app_nth1 by exact Hlt. fold F. rewrite H2.
    cbn [heap fetched report fst snd].
    rewrite nth_fresh. cbn [columns mask_rows]. rewrite H2.
    cbn [heap fetched report fst snd].
    rewrite nth_fresh, length_app, <- app_assoc. cbn [List.length app].
    split; [reflexivity|]. split; [reflexivity|].
    split; [reflexivity|]. split; [reflexivity|].
    split; [reflexivity|]. apply rows_absolute_filtered. exact Hu.
  - intros H.
    unfold run, apply_absolute_filters, getitem, getitem_mask, bind, read, ret, new_frame,
      raise.
    cbn [heap fetched report fst snd]. fold F.
    destruct (mem "거래대금" (columns F)) eqn:H1; [|reflexivity].
    destruct H as [H|H]; [discriminate H|].
    cbn [heap fetched report fst snd].
    rewrite app_nth1 by exact Hlt. fold F. rewrite H. reflexivity.
Qed.

Lemma apply_absolute_filters_example :
  0 < List.length (heap Market.fetched_store) /\
  exists kept out,
    fst (apply_absolute_filters 0 500000000 Market.fetched_store) = inr 4 /\
    heap (snd (apply_absolute_filters 0 500000000 Market.fetched_store))
      = heap Market.fetched_store ++ [kept; out] /\
    index out = ["A"; "B"; "C"].
Proof.
  split; [simpl; lia|].
  destruct (apply_absolute_filters_keeps 0 500000000 Market.fetched_store)
    as [H _]; [simpl; lia|].
  destruct H as (kept & out & E1 & E2 & _ & _ & _ & E3).
  - reflexivity.
  - reflexivity.
  - unfold unique_index. vm_compute. repeat constructor; simpl; intuition discriminate.
  - exists kept, out. split; [exact E1|]. split; [exact E2|].
    unfold index. rewrite E3. vm_compute. reflexivity.
Defined.

End AbsoluteFilters.
(* ================================================================== *)
(** * The three fetchers *)
(* ================================================================== *)

Module Fetchers.

Local Open Scope nat_scope.

Section WithApi.

Variable api : StockApi.

(** What a fetcher leaves behind when it has asked for the table [T]:
    the table is a new object at the end of the store, and the call
    either raises [ValueError] (an empty table) or returns [found]. *)
Definition fetches {A : Type} (T : DataFrame) (log : list string) (found : A)
    (s : State) (run : (exn + A) * State) : Prop :=
  snd run = mkState (heap s ++ [T]) (fetched s ++ log) (report s) /\
  fst run = (if empty T then inl ValueError else inr found).

(** [get_snapshot] asks the provider for the OHLCV table of the date it is
    given, once per call and without remembering an earlier answer (a
    second call for the same date is a second request); an empty table
    raises [ValueError], any other table is returned as a new object.
    [get_market_cap_df] does the same with the market-cap table, which
    leaves no trace among the requested snapshot dates.
    [get_previous_snapshot] steps one calendar day back, asks the
    provider for the nearest business day of that day and fetches the
    OHLCV table of the date it is told; it returns the new table together
    with that date, and raises [ValueError] when the table is empty.
    None of the three touches an object of the store or the report. *)
Theorem fetchers_raise_on_empty_table (d : string) (s : State) :
  let prev_date := get_nearest_business_day_in_a_week api (day_before api d) in
  fetches (get_market_ohlcv_by_ticker api d) [d] (List.length (heap s))
          s (get_snapshot api d s) /\
  fetches (get_market_cap_by_ticker api d) [] (List.length (heap s))
          s (get_market_cap_df api d s) /\
  fetches (get_market_ohlcv_by_ticker api prev_date) [prev_date]
          (List.length (heap s), prev_date) s (get_previous_snapshot api d s) /\
  (empty (get_market_ohlcv_by_ticker api d) = false ->
   fetched (snd ((get_snapshot api d ;;; get_snapshot api d) s)) = fetched s ++ [d; d]).
Proof.
  unfold fetches, get_previous_snapshot, get_snapshot, get_market_cap_df, log_fetch,
    new_frame, is_empty, bind, read, ret, raise.
  cbn [heap fetched report fst snd].
  rewrite !AbsoluteFilters.nth_fresh.
  split; [|split; [|split]].
  - destruct (empty (get_market_ohlcv_by_ticker api d)); split; reflexivity.
  - destruct (empty (get_market_cap_by_ticker api d)); rewrite app_nil_r;
      split; reflexivity.
  - destruct (empty _); split; reflexivity.
  - intros E. rewrite E. cbn [heap fetched report fst snd].
    rewrite length_app. cbn [List.length].
    replace (List.length (heap s) + 1) with (List.length (heap s ++ [get_market_ohlcv_by_ticker api d]))
      by (rewrite length_app; reflexivity).
    rewrite AbsoluteFilters.nth_fresh, E. cbn [heap fetched report fst snd].
    rewrite <- app_assoc. reflexivity.
Qed.

End WithApi.

End Fetchers.
(* ================================================================== *)
(** * normalize_and_score *)
(* ================================================================== *)

Module Scoring.
Import FloatFacts SortFacts Selection Tables Exec Stages Liquidity.

Local Open Scope nat_scope.

(** ** Rules for a store that is known only by its objects *)

Lemma update_nth_twice {A : Type} (n : nat) (a b : A) (l : list A) :
  update_nth n b (update_nth n a l) = update_nth n b l.
Proof.
  revert n. induction l as [|c l IH]; intros n; destruct n; simpl;
    try reflexivity.
  rewrite IH. reflexivity.
Qed.

Lemma length_update_nth {A : Type} (n : nat) (a : A) (l : list A) :
  List.length (update_nth n a l) = List.length l.
Proof.
  revert n. induction l as [|c l IH]; intros n; destruct n; simpl;
    try reflexivity.
  rewrite IH. reflexivity.
Qed.

Lemma wp_is_empty (r : ref) (h : list DataFrame) (f : list string)
    (rp : option (string * Document)) (Q : exn + bool -> State -> Prop) :
  Q (inr (empty (nth r h empty_frame))) (mkState h f rp) ->
  wp (is_empty r) (mkState h f rp) Q.
Proof. intros H; exact H. Qed.

Lemma wp_columns_of (r : ref) (h : list DataFrame) (f : list string)
    (rp : option (string * Document)) (Q : exn + list string -> State -> Prop) :
  Q (inr (columns (nth r h empty_frame))) (mkState h f rp) ->
  wp (columns_of r) (mkState h f rp) Q.
Proof. intros H; exact H. Qed.

Lemma wp_index_of (r : ref) (h : list DataFrame) (f : list string)
    (rp : option (string * Document)) (Q : exn + list string -> State -> Prop) :
  Q (inr (index (nth r h empty_frame))) (mkState h f rp) ->
  wp (index_of r) (mkState h f rp) Q.
Proof. intros H; exact H. Qed.

Lemma wp_new (df : DataFrame) (h : list DataFrame) (f : list string)
    (rp : option (string * Document)) (Q : exn + ref -> State -> Prop) :
  Q (inr (List.length h)) (mkState (h ++ [df]) f rp) ->
  wp (new_frame df) (mkState h f rp) Q.
Proof. intros H; exact H. Qed.

Lemma wp_loc_copy (r : ref) (labels : list string) (h : list DataFrame)
    (f : list string) (rp : option (string * Document))
    (Q : exn + ref -> State -> Prop) :
  Q (inr (List.length h + 1))
    (mkState (h ++ [loc (nth r h empty_frame) labels; loc (nth r h empty_frame) labels])
             f rp) ->
  wp (loc_copy r labels) (mkState h f rp) Q.
Proof.
  unfold wp, loc_copy, loc_, copy, bind, read, new_frame. cbn [heap fetched report fst snd].
  rewrite AbsoluteFilters.nth_fresh, length_app, <- app_assoc. intros H; exact H.
Qed.

Lemma wp_getitem (r : ref) (c : string) (h : list DataFrame) (f : list string)
    (rp : option (string * Document)) (Q : exn + Series -> State -> Prop) :
  (if mem c (columns (nth r h empty_frame))
   then Q (inr (column (nth r h empty_frame) c)) (mkState h f rp)
   else Q (inl KeyError) (mkState h f rp)) ->
  wp (getitem r c) (mkState h f rp) Q.
Proof.
  unfold wp, getitem, bind, read, ret, raise. cbn [heap fst snd].
  destruct (mem c (columns (nth r h empty_frame))); intros H; exact H.
Qed.

Lemma wp_setitem (r : ref) (c : string) (x : Series) (h : list DataFrame)
    (f : list string) (rp : option (string * Document))
    (Q : exn + unit -> State -> Prop) :
  Q (inr tt) (mkState (update_nth r (add_column (nth r h empty_frame) c x) h) f rp) ->
  wp (setitem r c x) (mkState h f rp) Q.
Proof. intros H; exact H. Qed.

Lemma wp_sort_values (r : ref) (c : string) (h : list DataFrame) (f : list string)
    (rp : option (string * Document)) (Q : exn + ref -> State -> Prop) :
  (if mem c (columns (nth r h empty_frame))
   then Q (inr (List.length h))
          (mkState (h ++ [sort_values_desc c (nth r h empty_frame)]) f rp)
   else Q (inl KeyError) (mkState h f rp)) ->
  wp (sort_values r c) (mkState h f rp) Q.
Proof.
  unfold wp, sort_values, bind, read, new_frame, raise. cbn [heap fst snd].
  destruct (mem c (columns (nth r h empty_frame))); intros H; exact H.
Qed.

Lemma mem_add (c : string) (F : DataFrame) (s : Series) :
  mem c (columns (add_column F c s)) = true.
Proof.
  unfold add_column. cbn [columns].
  destruct (mem c (columns F)) eqn:E; [exact E|].
  apply mem_In. apply in_or_app. right. now left.
Qed.

Lemma mem_add_other (c c' : string) (F : DataFrame) (s : Series) :
  mem c' (columns F) = true -> mem c' (columns (add_column F c s)) = true.
Proof.
  intros H. unfold add_column. cbn [columns].
  destruct (mem c (columns F)); [exact H|].
  apply mem_In. apply in_or_app. left. apply mem_In. exact H.
Qed.

Lemma normalize_and_score_run (df : ref) (rc ac : string)
    (rw aw : float64) (s : State) :
  df < List.length (heap s) ->
  let F := nth df (heap s) empty_frame in
  let scored := scored2 rc (rc ++ "_norm") ac (ac ++ "_norm") rw aw F in
  let run := normalize_and_score df rc ac rw aw s in
  empty F = false -> mem rc (columns F) = true -> mem ac (columns F) = true ->
  fst run = inr (List.length (heap s)) /\
  heap (snd run) = update_nth df scored (heap s) ++ [sort_values_desc "복합점수" scored] /\
  nth df (heap (snd run)) empty_frame = scored /\
  fetched (snd run) = fetched s /\ report (snd run) = report s.
Proof.
  intros Hlt F scored run.
  intros E Hr Ha. destruct s as [h f rp]. cbn [heap fetched report] in *.
    change (wp (normalize_and_score df rc ac rw aw) (mkState h f rp)
              (fun res s' =>
                 res = inr (List.length h) /\
                 heap s' = update_nth df scored h ++ [sort_values_desc "복합점수" scored] /\
                 nth df (heap s') empty_frame = scored /\
                 fetched s' = f /\ report s' = rp)).
    unfold normalize_and_score.
    apply wp_bind, wp_is_empty. fold F. rewrite E.
    apply wp_bind, wp_getitem. fold F. rewrite Hr.
    apply wp_bind, wp_getitem. fold F. rewrite Ha.
    apply wp_bind, wp_getitem. fold F. rewrite Hr.
    apply wp_bind, wp_setitem. fold F.
    rewrite Run.fold_with_norm_from, Run.fold_with_norm.
    apply wp_bind, wp_getitem.
    rewrite Enhance.nth_update_nth by exact Hlt.
    assert (mem ac (columns (with_norm (rc ++ "_norm") rc F)) = true) as Ha'
      by (apply mem_add_other; exact Ha).
    rewrite Ha'.
    apply wp_bind, wp_setitem.
    rewrite update_nth_twice, Enhance.nth_update_nth by exact Hlt.
    rewrite Run.fold_with_norm_from.
    set (G := with_norm_from F (ac ++ "_norm") ac (with_norm (rc ++ "_norm") rc F)).
    assert (mem (ac ++ "_norm") (columns G) = true) as H1 by apply mem_add.
    assert (mem (rc ++ "_norm") (columns G) = true) as H2.
    { unfold G, with_norm_from. apply mem_add_other. apply mem_add. }
    apply wp_bind, wp_getitem.
    rewrite Enhance.nth_update_nth by exact Hlt. rewrite H2.
    apply wp_bind, wp_getitem.
    rewrite Enhance.nth_update_nth by exact Hlt. rewrite H1.
    apply wp_bind, wp_setitem.
    rewrite update_nth_twice, Enhance.nth_update_nth by exact Hlt.
    rewrite Run.fold_with_score2.
    change (with_score2 (rc ++ "_norm") rw (ac ++ "_norm") aw G) with scored.
    apply wp_sort_values.
    rewrite Enhance.nth_update_nth by exact Hlt.
    assert (mem "복합점수" (columns scored) = true) as Hs by apply mem_add.
    rewrite Hs.
    cbn [heap fetched report]. rewrite length_update_nth.
    split; [reflexivity|]. split; [reflexivity|].
    split; [|split; reflexivity].
    rewrite app_nth1 by (rewrite length_update_nth; exact Hlt).
    apply Enhance.nth_update_nth. exact Hlt.
Qed.

(** [normalize_and_score] writes into the table it is given: after the
    call that object holds the two normalised columns and the score, and
    the reference returned is a new object, the same rows sorted by
    descending score.  An empty table is returned as it is (the same
    object, nothing written); a missing column raises [KeyError] before
    anything is written. *)
Theorem normalize_and_score_writes_in_place (df : ref) (rc ac : string)
    (rw aw : float64) (s : State) :
  df < List.length (heap s) ->
  let F := nth df (heap s) empty_frame in
  let scored := scored2 rc (rc ++ "_norm") ac (ac ++ "_norm") rw aw F in
  let run := normalize_and_score df rc ac rw aw s in
  (empty F = true -> run = (inr df, s)) /\
  (empty F = false -> mem rc (columns F) = true -> mem ac (columns F) = true ->
   fst run = inr (List.length (heap s)) /\
   heap (snd run) = update_nth df scored (heap s) ++ [sort_values_desc "복합점수" scored] /\
   nth df (heap (snd run)) empty_frame = scored /\
   fetched (snd run) = fetched s /\ report (snd run) = report s) /\
  (empty F = false -> mem rc (columns F) = false \/ mem ac (columns F) = false ->
   fst run = inl KeyError /\ snd run = s).
Proof.
  intros Hlt F scored run.
  split; [|split].
  - intros E. unfold run, normalize_and_score, is_empty, bind, read, ret.
    fold F. rewrite E. reflexivity.
  - intros E Hr Ha. apply normalize_and_score_run; assumption.
  - intros E H. destruct s as [h f rp]. cbn [heap] in *.
    change (wp (normalize_and_score df rc ac rw aw) (mkState h f rp)
              (fun res s' => res = inl KeyError /\ s' = mkState h f rp)).
    unfold normalize_and_score.
    apply wp_bind, wp_is_empty. fold F. rewrite E.
    apply wp_bind, wp_getitem. fold F.
    destruct (mem rc (columns F)) eqn:Hr; [|split; reflexivity].
    destruct H as [H|H]; [discriminate H|].
    apply wp_bind, wp_getitem. fold F. rewrite H. split; reflexivity.
Qed.

Lemma normalize_and_score_example :
  0 < List.length (heap Market.fetched_store) /\
  fst (normalize_and_score 0 "종가" "거래대금" (Fin (6 # 10)) (Fin (4 # 10))
         Market.fetched_store) = inr 3 /\
  index (nth 3 (heap (snd (normalize_and_score 0 "종가" "거래대금" (Fin (6 # 10))
                             (Fin (4 # 10)) Market.fetched_store))) empty_frame)
    = ["C"; "B"; "A"; "D"] /\
  mem "복합점수"
      (columns (nth 0 (heap (snd (normalize_and_score 0 "종가" "거래대금" (Fin (6 # 10))
                                    (Fin (4 # 10)) Market.fetched_store))) empty_frame))
    = true.
Proof.
  split; [simpl; lia|].
  destruct (normalize_and_score_writes_in_place 0 "종가" "거래대금" (Fin (6 # 10))
              (Fin (4 # 10)) Market.fetched_store) as (_ & H & _); [simpl; lia|].
  destruct H as (E1 & E2 & E3 & _); [reflexivity | reflexivity | reflexivity |].
  split; [exact E1|]. rewrite E3, E2.
  split; vm_compute; reflexivity.
Defined.

(** ** The scores *)

Local Open Scope Q_scope.

Lemma normalized_in_unit (s : Series) (qs : list Q) (x : Q) :
  values s = map Fin qs -> In x qs ->
  exists v, fdiv (fsub (Fin x) (s_min s)) (range_of (s_max s) (s_min s)) = Fin v /\
            0 <= v <= 1.
Proof.
  intros Hv Hx.
  assert (qs <> []) as Hq by (intros E; subst qs; contradiction).
  destruct (s_min_fin s qs Hv Hq) as (mn & Emn & _ & Hmn).
  destruct (s_max_fin s qs Hv Hq) as (mx & Emx & _ & Hmx).
  rewrite Emn, Emx. specialize (Hmn x Hx). specialize (Hmx x Hx).
  unfold range_of. destruct (fgt (Fin mx) (Fin mn)) eqn:E.
  - apply fgt_fin in E.
    exists ((x + - mn) / (mx + - mn)). split.
    + apply Normalization.normalize_entry_fin. lra.
    + split; [apply Qle_shift_div_l | apply Qle_shift_div_r]; lra.
  - apply fgt_fin_false in E.
    exists ((x + - mn) / 1). split.
    + apply Normalization.normalize_entry_fin. lra.
    + assert (x == mn) as -> by lra. split; field_simplify; lra.
Qed.

Lemma cell_in_values (F : DataFrame) (c : string) (r : Row) (qs : list Q) :
  values (column F c) = map Fin qs -> In r (rows F) ->
  exists x, num (get_cell r c) = Fin x /\ In x qs.
Proof.
  intros Hv Hr.
  assert (In (num (get_cell r c)) (values (column F c))) as H.
  { unfold values, column. rewrite map_map. cbn [snd].
    apply in_map_iff. exists r. split; [reflexivity | exact Hr]. }
  rewrite Hv in H. apply in_map_iff in H. destruct H as (x & E & Hx).
  exists x. split; [symmetry; exact E | exact Hx].
Qed.

(** Reading a series at the label of a row of the table it was computed
    from, when the labels of that table are distinct. *)
Ltac row_at_label Hu Hr :=
  repeat (unfold at_label; read_series);
  rewrite ?(row_of_own _ _ Hu Hr); cbn [option_map].

(** The rows of the scored table, one by one: each row of the table given
    with its two normalised values and its score. *)
Lemma scored2_row (rc rn ac an : string) (rw aw : float64) (F : DataFrame) (r' : Row) :
  unique_index F -> rn <> ac ->
  In r' (rows (scored2 rc rn ac an rw aw F)) ->
  exists r,
    In r (rows F) /\ ticker r' = ticker r /\
    let v1 := fdiv (fsub (num (get_cell r rc)) (s_min (column F rc)))
                   (range_of (s_max (column F rc)) (s_min (column F rc))) in
    let v2 := fdiv (fsub (num (get_cell r ac)) (s_min (column F ac)))
                   (range_of (s_max (column F ac)) (s_min (column F ac))) in
    get_cell r' "복합점수" =
      CNum (fadd (fmul (if String.eqb rn an then v2 else v1) rw) (fmul v2 aw)).
Proof.
  intros Hu Hne Hin.
  set (G1 := with_norm rn rc F).
  set (G2 := with_norm_from F an ac G1).
  assert (unique_index G1) as Hu1 by (apply Labels.unique_with_norm; exact Hu).
  assert (unique_index G2) as Hu2 by (apply Labels.unique_with_norm_from; exact Hu1).
  assert (forall r, In r (rows F) ->
            at_label (normalize (column F rc) (s_min (column F rc))
                        (range_of (s_max (column F rc)) (s_min (column F rc))))
                     (ticker r)
            = CNum (fdiv (fsub (num (get_cell r rc)) (s_min (column F rc)))
                         (range_of (s_max (column F rc)) (s_min (column F rc))))) as K0.
  { intros r Hr. unfold normalize. row_at_label Hu Hr. reflexivity. }
  assert (forall r, In r (rows G1) ->
            at_label (normalize (column G1 ac) (s_min (column F ac))
                        (range_of (s_max (column F ac)) (s_min (column F ac))))
                     (ticker r)
            = CNum (fdiv (fsub (num (get_cell r ac)) (s_min (column F ac)))
                         (range_of (s_max (column F ac)) (s_min (column F ac))))) as K1.
  { intros r Hr. unfold normalize. row_at_label Hu1 Hr. reflexivity. }
  assert (forall r, In r (rows G2) ->
            at_label (s_add (s_mul_c (column G2 rn) rw) (s_mul_c (column G2 an) aw))
                     (ticker r)
            = CNum (fadd (fmul (num (get_cell r rn)) rw) (fmul (num (get_cell r an)) aw)))
    as K2.
  { intros r Hr. row_at_label Hu2 Hr. reflexivity. }
  unfold scored2, with_score2 in Hin. fold G1 G2 in Hin.
  rewrite rows_add_column in Hin.
  apply in_map_iff in Hin. destruct Hin as (r2 & <- & Hin2).
  rewrite get_set_same, (K2 r2 Hin2).
  unfold G2, with_norm_from in Hin2. rewrite rows_add_column in Hin2.
  apply in_map_iff in Hin2. destruct Hin2 as (r1 & <- & Hin1).
  rewrite (K1 r1 Hin1).
  unfold G1, with_norm, with_norm_from in Hin1. rewrite rows_add_column in Hin1.
  apply in_map_iff in Hin1. destruct Hin1 as (r & <- & Hin).
  rewrite (K0 r Hin).
  exists r. split; [exact Hin|]. split; [reflexivity|]. cbv zeta.
  rewrite get_set_same.
  rewrite (get_set_other _ rn ac) by (intros E; apply Hne; symmetry; exact E).
  destruct (String.eqb rn an) eqn:E.
  - apply String.eqb_eq in E. subst an. rewrite get_set_same. reflexivity.
  - apply String.eqb_neq in E. rewrite get_set_other by exact E.
    rewrite get_set_same. reflexivity.
Qed.

(** On a non-empty table of distinct tickers whose two scored columns hold
    finite values, and with weights that are not negative,
    [normalize_and_score] returns the tickers it was given, ordered by
    descending score, and every score lies between 0 and the sum of the
    two weights. *)
Theorem composite_score_range (df : ref) (rc ac : string) (rw aw : Q) (s : State)
    (xs ys : list Q) :
  (df < List.length (heap s))%nat ->
  let F := nth df (heap s) empty_frame in
  empty F = false -> unique_index F ->
  mem rc (columns F) = true -> mem ac (columns F) = true ->
  (rc ++ "_norm")%string <> ac ->
  values (column F rc) = map Fin xs -> values (column F ac) = map Fin ys ->
  0 <= rw -> 0 <= aw ->
  exists T,
    ZeroVolume.table_of (normalize_and_score df rc ac (Fin rw) (Fin aw)) s = inr T /\
    Permutation (index T) (index F) /\
    StronglySorted Qualifier.best_first (rows T) /\
    forall r, In r (rows T) ->
      exists v, Qualifier.score r = Fin v /\ 0 <= v <= rw + aw.
Proof.
  intros Hlt F Hne Hu Hr Ha Hn Hx Hy Hrw Haw.
  destruct (normalize_and_score_run df rc ac (Fin rw) (Fin aw) s Hlt Hne Hr Ha)
    as (E1 & E2 & _).
  fold F in E2.
  set (scored := scored2 rc (rc ++ "_norm") ac (ac ++ "_norm") (Fin rw) (Fin aw) F) in *.
  exists (sort_values_desc "복합점수" scored).
  split.
  { unfold ZeroVolume.table_of. rewrite E1, E2. cbn [Run.outcome]. f_equal.
    rewrite <- (length_update_nth df scored (heap s)). apply AbsoluteFilters.nth_fresh. }
  split.
  { unfold index. rewrite rows_sort_values_desc.
    apply Permutation_trans with (map ticker (rows scored)).
    - apply Permutation_map. apply sort_desc_perm.
    - apply Permutation_refl'. apply (index_scored2 rc _ ac _ _ _ F). }
  split.
  { rewrite rows_sort_values_desc. apply sort_desc_sorted. }
  intros r' Hr'. rewrite rows_sort_values_desc in Hr'.
  apply (Permutation_in _ (sort_desc_perm _ _)) in Hr'.
  destruct (scored2_row _ _ _ _ _ _ F r' Hu Hn Hr') as (r & Hin & _ & Hs).
  cbv zeta in Hs. unfold Qualifier.score. rewrite Hs. cbn [num].
  destruct (cell_in_values F rc r xs Hx Hin) as (x & Ex & Hxin).
  destruct (cell_in_values F ac r ys Hy Hin) as (y & Ey & Hyin).
  rewrite Ex, Ey.
  destruct (normalized_in_unit _ xs x Hx Hxin) as (v1 & -> & Hv1).
  destruct (normalized_in_unit _ ys y Hy Hyin) as (v2 & -> & Hv2).
  destruct (String.eqb _ _); cbn [fmul fadd]; eexists; (split; [reflexivity|]); nra.
Qed.

Lemma composite_score_example :
  exists T,
    ZeroVolume.table_of
      (normalize_and_score 0%nat "종가" "거래대금" (Fin (6 # 10)) (Fin (4 # 10)))
      Market.fetched_store = inr T /\
    Permutation (index T) ["A"; "B"; "C"; "D"] /\
    StronglySorted Qualifier.best_first (rows T) /\
    forall r, In r (rows T) ->
      exists v, Qualifier.score r = Fin v /\ 0 <= v <= (6 # 10) + (4 # 10).
Proof.
  apply (composite_score_range 0%nat "종가" "거래대금" (6 # 10) (4 # 10) Market.fetched_store
           [110; 125; 125; 110] [600000000; 900000000; 1900000000; 100]).
  - simpl. lia.
  - reflexivity.
  - unfold unique_index. vm_compute. repeat constructor; simpl; intuition discriminate.
  - reflexivity.
  - reflexivity.
  - intros E. vm_compute in E. discriminate E.
  - reflexivity.
  - reflexivity.
  - discriminate.
  - discriminate.
Defined.

Local Open Scope nat_scope.

(** ** The normalised columns *)

Lemma length_append (a b : string) :
  String.length (a ++ b) = String.length a + String.length b.
Proof. induction a as [|c a IH]; simpl; [reflexivity | rewrite IH; reflexivity]. Qed.

Lemma append_cancel_r (a b s : string) : (a ++ s)%string = (b ++ s)%string -> a = b.
Proof.
  revert b. induction a as [|c a IH]; intros [|c' b] H; simpl in H.
  - reflexivity.
  - apply (f_equal String.length) in H. simpl in H. rewrite length_append in H. lia.
  - apply (f_equal String.length) in H. simpl in H. rewrite length_append in H. lia.
  - injection H as -> H. f_equal. apply IH. exact H.
Qed.

Lemma norm_is_not_score (c : string) : (c ++ "_norm")%string <> "복합점수".
Proof.
  intros H. apply (f_equal String.length) in H as L. rewrite length_append in L.
  simpl in L.
  repeat (destruct c as [|? c]; simpl in L; [try lia; discriminate H|];
          simpl in H; injection H as _ H).
  simpl in L. lia.
Qed.

Local Open Scope Q_scope.

(** What [y] has to be for the value [x] of a column with the extremes
    [qmin] and [qmax]. *)
Definition minmax_of (qmin qmax x y : Q) : Prop :=
  qmin <= x <= qmax /\
  (qmin < qmax ->
   y == (x - qmin) / (qmax - qmin) /\ 0 <= y <= 1 /\
   (x == qmin -> y == 0) /\ (x == qmax -> y == 1)) /\
  (qmax == qmin -> y == 0).

Lemma normalized_value (s : Series) (qs : list Q) :
  values s = map Fin qs -> qs <> [] ->
  exists qmin qmax,
    s_min s = Fin qmin /\ s_max s = Fin qmax /\ In qmin qs /\ In qmax qs /\
    forall x, In x qs ->
      exists y, fdiv (fsub (Fin x) (s_min s)) (range_of (s_max s) (s_min s)) = Fin y /\
                minmax_of qmin qmax x y.
Proof.
  intros Hv Hq.
  destruct (s_min_fin s qs Hv Hq) as (mn & Emn & Imn & Hmn).
  destruct (s_max_fin s qs Hv Hq) as (mx & Emx & Imx & Hmx).
  exists mn, mx. rewrite Emn, Emx.
  split; [reflexivity|]. split; [reflexivity|]. split; [exact Imn|]. split; [exact Imx|].
  intros x Hx. specialize (Hmn x Hx). specialize (Hmx x Hx).
  unfold range_of, minmax_of. destruct (fgt (Fin mx) (Fin mn)) eqn:E.
  - apply fgt_fin in E.
    exists ((x + - mn) / (mx + - mn)). split.
    + apply Normalization.normalize_entry_fin. lra.
    + split; [lra|]. split.
      * intros _. split; [reflexivity|]. split.
        -- split; [apply Qle_shift_div_l | apply Qle_shift_div_r]; lra.
        -- split; intros Ex; rewrite Ex; field; lra.
      * intros Eq. lra.
  - apply fgt_fin_false in E.
    exists ((x + - mn) / 1). split.
    + apply Normalization.normalize_entry_fin. lra.
    + split; [lra|]. split.
      * intros Hlt. lra.
      * intros _. assert (x == mn) as -> by lra. field.
Qed.

Local Open Scope nat_scope.

(** The two normalised cells of a row of the scored table. *)
Lemma scored2_norms (rc rn ac an : string) (rw aw : float64) (F : DataFrame) (r : Row) :
  unique_index F -> rn <> ac -> rn <> an -> rn <> "복합점수" -> an <> "복합점수" ->
  In r (rows F) ->
  let G := scored2 rc rn ac an rw aw F in
  val G rn (ticker r)
    = CNum (fdiv (fsub (num (get_cell r rc)) (s_min (column F rc)))
                 (range_of (s_max (column F rc)) (s_min (column F rc)))) /\
  val G an (ticker r)
    = CNum (fdiv (fsub (num (get_cell r ac)) (s_min (column F ac)))
                 (range_of (s_max (column F ac)) (s_min (column F ac)))).
Proof.
  intros Hu N1 N2 N3 N4 Hr G.
  set (G1 := with_norm rn rc F).
  set (G2 := with_norm_from F an ac G1).
  assert (unique_index G1) as Hu1 by (apply Labels.unique_with_norm; exact Hu).
  assert (unique_index G2) as Hu2 by (apply Labels.unique_with_norm_from; exact Hu1).
  assert (unique_index G) as Hu3 by (apply Labels.unique_scored2; exact Hu).
  set (v1 := CNum (fdiv (fsub (num (get_cell r rc)) (s_min (column F rc)))
                        (range_of (s_max (column F rc)) (s_min (column F rc))))).
  set (r1 := set_cell r rn v1).
  assert (In r1 (rows G1)) as H1.
  { unfold G1, with_norm, with_norm_from. rewrite rows_add_column.
    apply in_map_iff. exists r. split; [|exact Hr].
    unfold r1, v1. f_equal. unfold normalize. row_at_label Hu Hr. reflexivity. }
  set (v2 := CNum (fdiv (fsub (num (get_cell r ac)) (s_min (column F ac)))
                        (range_of (s_max (column F ac)) (s_min (column F ac))))).
  set (r2 := set_cell r1 an v2).
  assert (In r2 (rows G2)) as H2.
  { unfold G2, with_norm_from. rewrite rows_add_column.
    apply in_map_iff. exists r1. split; [|exact H1].
    unfold r2, v2. f_equal. unfold normalize. row_at_label Hu1 H1.
    unfold r1.
    rewrite (get_set_other _ rn ac) by (intros E; apply N1; symmetry; exact E).
    reflexivity. }
  set (r3 := set_cell r2 "복합점수"
               (at_label (s_add (s_mul_c (column G2 rn) rw) (s_mul_c (column G2 an) aw))
                         (ticker r2))).
  assert (In r3 (rows G)) as H3.
  { unfold G, scored2, with_score2. fold G1 G2. rewrite rows_add_column.
    apply in_map_iff. exists r2. split; [reflexivity | exact H2]. }
  change (ticker r) with (ticker r3).
  rewrite !(Labels.val_own G _ r3 Hu3 H3).
  unfold r3.
  rewrite !get_set_other
    by (first [assumption | intros E; symmetry in E; revert E; assumption]).
  unfold r2. split.
  - rewrite get_set_other by exact N2.
    unfold r1. apply get_set_same.
  - apply get_set_same.
Qed.

Local Open Scope Q_scope.

(** The column [cn] of [G] holds the normalised values of the column [c]
    of [F], whose values are [qs]. *)
Definition normalized_column (F : DataFrame) (c : string) (qs : list Q)
    (G : DataFrame) (cn : string) : Prop :=
  exists qmin qmax,
    s_min (column F c) = Fin qmin /\ s_max (column F c) = Fin qmax /\
    In qmin qs /\ In qmax qs /\
    forall r, In r (rows F) ->
      exists x y, num (get_cell r c) = Fin x /\ val G cn (ticker r) = CNum (Fin y) /\
                  minmax_of qmin qmax x y.

(** C4.  [normalize_and_score] on a non-empty table of distinct tickers
    whose two columns hold finite values writes the two normalised
    columns into the table it is given.  For each of the two columns,
    with [qmin] and [qmax] the least and the greatest of its values: when
    the column is not constant every row gets [(x - qmin) / (qmax - qmin)],
    a value of [0,1] that is 0 for a row at the minimum and 1 for a row at
    the maximum; when the column is constant the divisor is 1 and every
    row gets 0.  The table returned holds the same rows, sorted. *)
Theorem minmax_normalization (df : ref) (rc ac : string) (rw aw : float64) (s : State)
    (xs ys : list Q) :
  (df < List.length (heap s))%nat ->
  let F := nth df (heap s) empty_frame in
  empty F = false -> unique_index F ->
  mem rc (columns F) = true -> mem ac (columns F) = true ->
  (rc ++ "_norm")%string <> ac -> rc <> ac ->
  values (column F rc) = map Fin xs -> values (column F ac) = map Fin ys ->
  let run := normalize_and_score df rc ac rw aw s in
  let G := nth df (heap (snd run)) empty_frame in
  index G = index F /\
  normalized_column F rc xs G (rc ++ "_norm") /\
  normalized_column F ac ys G (ac ++ "_norm") /\
  ZeroVolume.table_of (normalize_and_score df rc ac rw aw) s
    = inr (sort_values_desc "복합점수" G).
Proof.
  intros Hlt F Hne Hu Hr Ha N1 N0 Hx Hy run G.
  destruct (normalize_and_score_run df rc ac rw aw s Hlt Hne Hr Ha)
    as (E1 & E2 & E3 & _).
  fold F in E2, E3. fold run in E1, E2, E3.
  assert (G = scored2 rc (rc ++ "_norm") ac (ac ++ "_norm") rw aw F) as EG by exact E3.
  assert (rows F <> []) as Hrows.
  { intros E. unfold empty in Hne. rewrite E in Hne. discriminate Hne. }
  assert (xs <> []) as Hxs.
  { intros E. subst xs. unfold values, column in Hx. rewrite map_map in Hx.
    destruct (rows F); [congruence | discriminate Hx]. }
  assert (ys <> []) as Hys.
  { intros E. subst ys. unfold values, column in Hy. rewrite map_map in Hy.
    destruct (rows F); [congruence | discriminate Hy]. }
  assert ((rc ++ "_norm")%string <> (ac ++ "_norm")%string) as N2.
  { intros E. apply N0. exact (append_cancel_r _ _ _ E). }
  assert (forall r, In r (rows F) ->
            val G (rc ++ "_norm") (ticker r)
              = CNum (fdiv (fsub (num (get_cell r rc)) (s_min (column F rc)))
                           (range_of (s_max (column F rc)) (s_min (column F rc)))) /\
            val G (ac ++ "_norm") (ticker r)
              = CNum (fdiv (fsub (num (get_cell r ac)) (s_min (column F ac)))
                           (range_of (s_max (column F ac)) (s_min (column F ac)))))
    as Hcells.
  { intros r Hin. rewrite EG.
    apply scored2_norms; try assumption; apply norm_is_not_score. }
  split; [rewrite EG; apply index_scored2|].
  split; [|split].
  - destruct (normalized_value (column F rc) xs Hx Hxs)
      as (qmin & qmax & Emin & Emax & Imin & Imax & Hval).
    exists qmin, qmax. refine (conj Emin (conj Emax (conj Imin (conj Imax _)))).
    intros r Hin. destruct (cell_in_values F rc r xs Hx Hin) as (x & Ex & Hxin).
    destruct (Hval x Hxin) as (y & Ey & Hm).
    exists x, y. split; [exact Ex|]. split; [|exact Hm].
    rewrite (proj1 (Hcells r Hin)), Ex, Ey. reflexivity.
  - destruct (normalized_value (column F ac) ys Hy Hys)
      as (qmin & qmax & Emin & Emax & Imin & Imax & Hval).
    exists qmin, qmax. refine (conj Emin (conj Emax (conj Imin (conj Imax _)))).
    intros r Hin. destruct (cell_in_values F ac r ys Hy Hin) as (x & Ex & Hxin).
    destruct (Hval x Hxin) as (y & Ey & Hm).
    exists x, y. split; [exact Ex|]. split; [|exact Hm].
    rewrite (proj2 (Hcells r Hin)), Ex, Ey. reflexivity.
  - unfold ZeroVolume.table_of. fold run. rewrite E1, E2. cbn [Run.outcome]. f_equal.
    rewrite <- (length_update_nth df G (heap s)) at 1.
    rewrite EG. apply AbsoluteFilters.nth_fresh.
Qed.

Lemma minmax_example :
  index (nth 0%nat (heap (snd (normalize_and_score 0%nat "종가" "거래대금" (Fin (6 # 10))
                             (Fin (4 # 10)) Market.fetched_store))) empty_frame)
    = index Market.today /\
  normalized_column Market.today "종가" [110; 125; 125; 110]
    (nth 0%nat (heap (snd (normalize_and_score 0%nat "종가" "거래대금" (Fin (6 # 10))
                         (Fin (4 # 10)) Market.fetched_store))) empty_frame)
    "종가_norm" /\
  normalized_column Market.today "거래대금" [600000000; 900000000; 1900000000; 100]
    (nth 0%nat (heap (snd (normalize_and_score 0%nat "종가" "거래대금" (Fin (6 # 10))
                         (Fin (4 # 10)) Market.fetched_store))) empty_frame)
    "거래대금_norm" /\
  ZeroVolume.table_of
    (normalize_and_score 0%nat "종가" "거래대금" (Fin (6 # 10)) (Fin (4 # 10)))
    Market.fetched_store
    = inr (sort_values_desc "복합점수"
             (nth 0%nat (heap (snd (normalize_and_score 0%nat "종가" "거래대금" (Fin (6 # 10))
                                  (Fin (4 # 10)) Market.fetched_store))) empty_frame)).
Proof.
  apply (minmax_normalization 0%nat "종가" "거래대금" (Fin (6 # 10)) (Fin (4 # 10))
           Market.fetched_store [110; 125; 125; 110]
           [600000000; 900000000; 1900000000; 100]).
  - simpl. lia.
  - reflexivity.
  - unfold unique_index. vm_compute. repeat constructor; simpl; intuition discriminate.
  - reflexivity.
  - reflexivity.
  - intros E. vm_compute in E. discriminate E.
  - intros E. vm_compute in E. discriminate E.
  - reflexivity.
  - reflexivity.
Defined.

End Scoring.
(* ================================================================== *)
(** * What a row of a trigger result satisfies *)
(* ================================================================== *)

Module Criteria.
Import FloatFacts SortFacts Selection Tables Stages Views Liquidity AbsoluteFilters
  Scoring Qualifier.

Local Open Scope nat_scope.

(** [(x / y - 1) * 100] *)
Definition percent_over (x y : float64) : float64 :=
  fmul (fsub (fdiv x y) (Fin 1)) (Fin 100).

(** [((c - p) / p) * 100] *)
Definition percent_change (c p : float64) : float64 :=
  fmul (fdiv (fsub c p) p) (Fin 100).

(** One value of [s.replace(0, np.nan)]. *)
Definition zero_as_nan (x : float64) : float64 :=
  if feq x (Fin 0) then NaN else x.

(** ** Reading a series at the label of a row *)

Lemma at_label_own (F : DataFrame) (c : string) (r : Row) :
  unique_index F -> In r (rows F) -> at_label (column F c) (ticker r) = get_cell r c.
Proof. intros Hu Hr. apply (Labels.val_own F c r Hu Hr). Qed.

Lemma num_replace_zero (P : DataFrame) (c t : string) :
  num (at_label (s_replace_0_nan (column P c)) t) = zero_as_nan (num (val P c t)).
Proof.
  unfold val, at_label, s_replace_0_nan. rewrite assoc_s_map.
  destruct (assoc t (column P c)) as [v|]; cbn [option_map]; unfold zero_as_nan.
  - destruct (feq (num v) (Fin 0)); reflexivity.
  - reflexivity.
Qed.

Lemma get_set (r : Row) (c c' : string) (v : cell) :
  get_cell (set_cell r c v) c' = if String.eqb c' c then v else get_cell r c'.
Proof. unfold get_cell, set_cell. simpl. destruct (String.eqb c' c); reflexivity. Qed.

Lemma ticker_set (r : Row) (c : string) (v : cell) : ticker (set_cell r c v) = ticker r.
Proof. reflexivity. Qed.

Lemma get_if (b : bool) (r1 r2 : Row) (c : string) :
  get_cell (if b then r1 else r2) c = if b then get_cell r1 c else get_cell r2 c.
Proof. destruct b; reflexivity. Qed.

Lemma ticker_if (b : bool) (r1 r2 : Row) :
  ticker (if b then r1 else r2) = if b then ticker r1 else ticker r2.
Proof. destruct b; reflexivity. Qed.

Lemma if_same {A : Type} (b : bool) (x : A) : (if b then x else x) = x.
Proof. destruct b; reflexivity. Qed.

(** Deciding the comparisons of column names. *)
Ltac column_names :=
  repeat match goal with
  | |- context [String.eqb ?a ?b] =>
      let v := eval vm_compute in (String.eqb a b) in
      lazymatch v with
      | true => change (String.eqb a b) with true
      | false => change (String.eqb a b) with false
      end
  end;
  cbv iota.

Ltac cells := repeat (rewrite get_set || rewrite get_if); column_names; rewrite ?if_same.

(** The value of a series computed from the columns of [F] (and of another
    table), at a row of [F]. *)
Ltac own_row Hu Hr :=
  unfold at_label at 1;
  unfold s_add, s_sub, s_div, s_gt, s_ne, s_add_c, s_sub_c, s_mul_c, s_div_c,
    s_ge_c, s_gt_c, s_lt_c, s_abs;
  repeat first [ rewrite assoc_s_map | rewrite assoc_s_zip | rewrite assoc_column_eq ];
  rewrite ?(row_of_own _ _ Hu Hr); cbn [option_map num];
  rewrite ?(at_label_own _ _ _ Hu Hr), ?num_replace_zero.

Lemma add_column_row (F : DataFrame) (c : string) (s : Series) (g : Row -> cell)
    (r' : Row) :
  (forall r, In r (rows F) -> at_label s (ticker r) = g r) ->
  In r' (rows (add_column F c s)) ->
  exists r, In r (rows F) /\ r' = set_cell r c (g r).
Proof.
  intros Hg Hin. rewrite rows_add_column in Hin. apply in_map_iff in Hin.
  destruct Hin as (r & <- & Hr). exists r. split; [exact Hr|].
  rewrite (Hg r Hr). reflexivity.
Qed.

Lemma assoc_mask_series (s m : Series) (t : string) :
  assoc t (mask_series s m) = if truth (at_label m t) then assoc t s else None.
Proof.
  unfold mask_series. induction s as [|[k v] s IH]; simpl.
  - destruct (truth (at_label m t)); reflexivity.
  - destruct (String.eqb t k) eqn:E.
    + apply String.eqb_eq in E. subst k.
      destruct (truth (at_label m t)) eqn:Et; simpl.
      * rewrite String.eqb_refl. reflexivity.
      * rewrite IH. reflexivity.
    + destruct (truth (at_label m k)); simpl; [rewrite E|]; exact IH.
Qed.

Lemma at_label_mask_series (s m : Series) (t : string) :
  at_label (mask_series s m) t = if truth (at_label m t) then at_label s t else CNum NaN.
Proof.
  unfold at_label at 1 3. rewrite assoc_mask_series.
  destruct (truth (at_label m t)); reflexivity.
Qed.

(** ** The stages, row by row *)

Section Stage.

Variables (P F : DataFrame).
Hypothesis unique : unique_index F.

Lemma with_volume_ratio_row (r' : Row) :
  In r' (rows (with_volume_ratio P F)) ->
  exists r, In r (rows F) /\
    r' = set_cell r "거래량비율"
           (CNum (fdiv (num (get_cell r "거래량"))
                       (zero_as_nan (num (val P "거래량" (ticker r)))))).
Proof.
  unfold with_volume_ratio. apply add_column_row.
  intros r Hr. own_row unique Hr. reflexivity.
Qed.

Lemma with_growth_of_ratio_row (r' : Row) :
  In r' (rows (with_growth_of_ratio F)) ->
  exists r, In r (rows F) /\
    r' = set_cell r "거래량증가율"
           (CNum (fmul (fsub (num (get_cell r "거래량비율")) (Fin 1)) (Fin 100))).
Proof.
  unfold with_growth_of_ratio. apply add_column_row.
  intros r Hr. own_row unique Hr. reflexivity.
Qed.

Lemma with_volume_growth_row (r' : Row) :
  In r' (rows (with_volume_growth P F)) ->
  exists r, In r (rows F) /\
    r' = set_cell r "거래량증가율"
           (CNum (percent_over (num (get_cell r "거래량"))
                               (zero_as_nan (num (val P "거래량" (ticker r)))))).
Proof.
  unfold with_volume_growth. apply add_column_row.
  intros r Hr. own_row unique Hr. reflexivity.
Qed.

Lemma with_intraday_row (r' : Row) :
  In r' (rows (with_intraday F)) ->
  exists r, In r (rows F) /\
    r' = set_cell r "장중등락률"
           (CNum (percent_over (num (get_cell r "종가")) (num (get_cell r "시가")))).
Proof.
  unfold with_intraday. apply add_column_row.
  intros r Hr. own_row unique Hr. reflexivity.
Qed.

Lemma with_day_over_day_row (r' : Row) :
  In r' (rows (with_day_over_day P F)) ->
  exists r, In r (rows F) /\
    r' = set_cell r "전일대비등락률"
           (CNum (percent_change (num (get_cell r "종가"))
                                 (num (val P "종가" (ticker r))))).
Proof.
  unfold with_day_over_day. apply add_column_row.
  intros r Hr. own_row unique Hr. reflexivity.
Qed.

Lemma with_rising_row (c : string) (r' : Row) :
  In r' (rows (with_rising c F)) ->
  exists r, In r (rows F) /\
    r' = set_cell r c (CBool (fgt (num (get_cell r "종가")) (num (get_cell r "시가")))).
Proof.
  unfold with_rising. apply add_column_row.
  intros r Hr. own_row unique Hr. reflexivity.
Qed.

Lemma with_gap_row (r' : Row) :
  In r' (rows (with_gap P F)) ->
  exists r, In r (rows F) /\
    r' = set_cell r "갭상승률"
           (CNum (percent_over (num (get_cell r "시가")) (num (val P "종가" (ticker r))))).
Proof.
  unfold with_gap. apply add_column_row.
  intros r Hr. own_row unique Hr. reflexivity.
Qed.

Lemma with_momentum_row (r' : Row) :
  In r' (rows (with_momentum F)) ->
  exists r, In r (rows F) /\
    r' = set_cell r "종합모멘텀"
           (CNum (fadd (num (get_cell r "갭상승률")) (num (get_cell r "장중등락률")))).
Proof.
  unfold with_momentum. apply add_column_row.
  intros r Hr. own_row unique Hr. reflexivity.
Qed.

Lemma with_value_ratio_row (r' : Row) :
  In r' (rows (with_value_ratio F)) ->
  exists r, In r (rows F) /\
    r' = set_cell r "거래대금비율"
           (CNum (fmul (fdiv (num (get_cell r "거래대금")) (num (get_cell r "시가총액")))
                       (Fin 100))).
Proof.
  unfold with_value_ratio. apply add_column_row.
  intros r Hr. own_row unique Hr. reflexivity.
Qed.

Lemma with_volume_up_row (r' : Row) :
  In r' (rows (with_volume_up P F)) ->
  exists r, In r (rows F) /\
    r' = set_cell r "거래량증가"
           (CBool (fgt (fsub (num (get_cell r "거래량"))
                             (zero_as_nan (num (val P "거래량" (ticker r)))))
                       (Fin 0))).
Proof.
  unfold with_volume_up. apply add_column_row.
  intros r Hr. own_row unique Hr. reflexivity.
Qed.

Lemma with_flat_row (r' : Row) :
  In r' (rows (with_flat F)) ->
  exists r, In r (rows F) /\
    r' = set_cell r "횡보여부"
           (CBool (flt (fabs (num (get_cell r "장중등락률"))) (Fin 5))).
Proof.
  unfold with_flat. apply add_column_row.
  intros r Hr. own_row unique Hr. reflexivity.
Qed.

Lemma with_strength_default_row (r' : Row) :
  In r' (rows (with_strength_default F)) ->
  exists r, In r (rows F) /\ r' = set_cell r "마감강도" (CNum (Fin 0)).
Proof.
  unfold with_strength_default, add_const_column. cbn [rows]. intros H.
  apply in_map_iff in H. destruct H as (r & <- & Hr). exists r. tauto.
Qed.

Lemma with_closing_strength_row (r' : Row) :
  In r' (rows (with_closing_strength F)) ->
  exists r, In r (rows F) /\
    r' = if fne (num (get_cell r "고가")) (num (get_cell r "저가"))
         then set_cell r "마감강도"
                (CNum (fdiv (fsub (num (get_cell r "종가")) (num (get_cell r "저가")))
                            (fsub (num (get_cell r "고가")) (num (get_cell r "저가")))))
         else r.
Proof.
  unfold with_closing_strength, add_column_where. cbn [rows]. intros H.
  apply in_map_iff in H. destruct H as (r & <- & Hr). exists r. split; [exact Hr|].
  assert (at_label (s_ne (column F "고가") (column F "저가")) (ticker r)
          = CBool (fne (num (get_cell r "고가")) (num (get_cell r "저가")))) as Em.
  { own_row unique Hr. reflexivity. }
  rewrite Em. cbn [truth].
  destruct (fne (num (get_cell r "고가")) (num (get_cell r "저가"))) eqn:E; [|reflexivity].
  f_equal.
  unfold at_label at 1. unfold s_div, s_sub.
  rewrite !assoc_s_zip, !at_label_mask_series, !assoc_mask_series, Em.
  cbn [truth]. cbv iota.
  rewrite assoc_column_eq, (row_of_own _ _ unique Hr). cbn [option_map num].
  unfold at_label at 1 2. rewrite !assoc_s_zip, !assoc_mask_series, Em.
  cbn [truth]. cbv iota.
  rewrite !assoc_column_eq, (row_of_own _ _ unique Hr). cbn [option_map num].
  rewrite !at_label_mask_series, Em. cbn [truth]. cbv iota.
  rewrite !(at_label_own _ _ _ unique Hr). reflexivity.
Qed.

Lemma mask_ge_row (c : string) (k : float64) (r : Row) :
  In r (rows (mask_ge c k F)) ->
  In r (rows F) /\ fge (num (get_cell r c)) k = true.
Proof.
  rewrite (rows_mask_ge_own c k F unique). intros H. apply filter_In in H. exact H.
Qed.

Lemma qualified_row (c : string) (r : Row) :
  In r (rows (qualified c F)) -> In r (rows F) /\ truth (get_cell r c) = true.
Proof.
  unfold qualified. rewrite rows_mask_rows. intros H. apply filter_In in H.
  destruct H as [Hr Ht]. split; [exact Hr|].
  rewrite (at_label_own F c r unique Hr) in Ht. exact Ht.
Qed.

Lemma absolute_filtered_row (m : Z) (r : Row) :
  In r (rows (absolute_filtered m F)) ->
  In r (rows F) /\
  fge (num (get_cell r "거래대금")) (of_Z m) = true /\
  fge (num (get_cell r "거래량")) (volume_floor F) = true.
Proof.
  rewrite (rows_absolute_filtered m F unique). intros H. apply filter_In in H.
  destruct H as [Hr Ht]. apply andb_true_iff in Ht. tauto.
Qed.

End Stage.

(** ** From the rows of a result back to the rows of the snapshot *)

Lemma loc_row (F : DataFrame) (labels : list string) (r : Row) :
  In r (rows (loc F labels)) -> In r (rows F) /\ mem (ticker r) labels = true.
Proof.
  unfold loc. cbn [rows]. intros H. apply in_flat_map in H.
  destruct H as (t & Ht & Hr). apply filter_In in Hr. destruct Hr as [Hr E].
  apply String.eqb_eq in E. split; [exact Hr|]. apply mem_In. rewrite E. exact Ht.
Qed.

Lemma common_both (S P : DataFrame) (t : string) :
  mem t (common S P) = true -> In t (index S) /\ In t (index P).
Proof.
  intros H. apply mem_In in H. unfold common, intersection in H.
  apply filter_In in H. destruct H as [H1 H2]. split; [exact H1|].
  apply mem_In. exact H2.
Qed.

Lemma scored2_annotated rc rn ac an rw aw (F : DataFrame) (r1 : Row) :
  In r1 (rows (scored2 rc rn ac an rw aw F)) ->
  exists r, In r (rows F) /\ annotated [rn; an; "복합점수"] r1 r.
Proof.
  unfold scored2, with_score2, with_norm, with_norm_from.
  rewrite !rows_add_column, !map_map. intros H. apply in_map_iff in H.
  destruct H as (r & <- & Hr). exists r. split; [exact Hr|].
  apply annotated_trans with (set_cell (set_cell r rn
    (at_label (normalize (column F rc) (s_min (column F rc))
                 (range_of (s_max (column F rc)) (s_min (column F rc)))) (ticker r)))
    an (at_label (normalize (column (add_column F rn
                 (normalize (column F rc) (s_min (column F rc))
                    (range_of (s_max (column F rc)) (s_min (column F rc))))) ac)
                 (s_min (column F ac))
                 (range_of (s_max (column F ac)) (s_min (column F ac)))) (ticker r))).
  - apply annotated_set. simpl. tauto.
  - eapply annotated_trans; apply annotated_set; simpl; tauto.
Qed.

Lemma add_column_annotated (cols : list string) (F : DataFrame) (c : string)
    (s : Series) (r' : Row) :
  In c cols -> In r' (rows (add_column F c s)) ->
  exists r, In r (rows F) /\ annotated cols r' r.
Proof.
  intros Hc H. rewrite rows_add_column in H. apply in_map_iff in H.
  destruct H as (r & <- & Hr). exists r. split; [exact Hr|].
  apply annotated_set. exact Hc.
Qed.

Lemma scored3_annotated a an b bn c cn wa wb wc (F : DataFrame) (r1 : Row) :
  In r1 (rows (scored3 a an b bn c cn wa wb wc F)) ->
  exists r, In r (rows F) /\ annotated [an; bn; cn; "복합점수"] r1 r.
Proof.
  unfold scored3, with_score3, with_norm, with_norm_from. intros H.
  apply (add_column_annotated [an; bn; cn; "복합점수"]) in H; [|simpl; tauto].
  destruct H as (r3 & H & A3).
  apply (add_column_annotated [an; bn; cn; "복합점수"]) in H; [|simpl; tauto].
  destruct H as (r2 & H & A2).
  apply (add_column_annotated [an; bn; cn; "복합점수"]) in H; [|simpl; tauto].
  destruct H as (r1' & H & A1).
  apply (add_column_annotated [an; bn; cn; "복합점수"]) in H; [|simpl; tauto].
  destruct H as (r & H & A0).
  exists r. split; [exact H|].
  eapply annotated_trans; [exact A3|]. eapply annotated_trans; [exact A2|].
  eapply annotated_trans; [exact A1 | exact A0].
Qed.

Lemma sorted_row (c : string) (F : DataFrame) (r : Row) :
  In r (rows (sort_values_desc c F)) -> In r (rows F).
Proof.
  rewrite rows_sort_values_desc. apply Permutation_in. apply sort_desc_perm.
Qed.

Lemma head_row (n : nat) (F : DataFrame) (r : Row) :
  In r (rows (head n F)) -> In r (rows F).
Proof. rewrite rows_head. apply In_firstn. Qed.

Lemma Forall2_in_l {A B : Type} (R : A -> B -> Prop) (l1 : list A) (l2 : list B) (x : A) :
  Forall2 R l1 l2 -> In x l1 -> exists y, In y l2 /\ R x y.
Proof.
  induction 1 as [|a b l1 l2 Hab _ IH]; intros Hx; [contradiction|].
  destruct Hx as [<-|Hx].
  - exists b. split; [now left | exact Hab].
  - destruct (IH Hx) as (y & Hy & Hr). exists y. split; [now right | exact Hr].
Qed.

(** A row listed from the shortlist of [T] is a row of [T] that carries
    the flag, up to the name column. *)
Lemma listed_row (cols : list string) (c : string) (T df : DataFrame) (r' : Row) :
  unique_index T ->
  lists cols (shortlist c T) df -> In r' (rows df) ->
  exists r, In r (rows T) /\ truth (get_cell r c) = true /\ annotated cols r' r.
Proof.
  intros Hu (Hf & _) Hr'.
  destruct (Forall2_in_l _ _ _ _ Hf Hr') as (r & Hr & Ha).
  unfold shortlist in Hr. apply In_firstn in Hr.
  apply (Permutation_in _ (sort_desc_perm _ _)) in Hr.
  apply filter_In in Hr. destruct Hr as [Hr Hp].
  exists r. split; [exact Hr|]. split; [|exact Ha].
  rewrite <- (own_flags_unique c T Hu r Hr). exact Hp.
Qed.

(** ** The criteria shared by the triggers *)

(** The ticker of the row was traded on both days, and the row carries
    the snapshot's figures of that ticker unchanged. *)
Definition from_both_days (S P : DataFrame) (r : Row) : Prop :=
  In (ticker r) (index S) /\ In (ticker r) (index P) /\
  forall c, In c ohlcv_columns -> get_cell r c = val S c (ticker r).

(** The absolute filters, on the snapshot's figures: the trade value
    reaches [min_value] and the volume a fifth of the mean volume of the
    tickers traded on both days. *)
Definition liquid_on (S P : DataFrame) (min_value : Z) (t : string) : Prop :=
  fge (num (val S "거래대금" t)) (of_Z min_value) = true /\
  fge (num (val S "거래량" t)) (volume_floor (loc S (common S P))) = true.

Lemma filtered_row (m : Z) (S P : DataFrame) (r : Row) :
  unique_index S ->
  In r (rows (absolute_filtered m (loc S (common S P)))) ->
  In r (rows S) /\ mem (ticker r) (common S P) = true /\
  (forall c, val S c (ticker r) = get_cell r c) /\
  liquid_on S P m (ticker r).
Proof.
  intros Hu H.
  apply absolute_filtered_row in H; [|apply Labels.unique_loc_common; exact Hu].
  destruct H as (H & Htv & Hvol). apply loc_row in H. destruct H as [Hr Hm].
  split; [exact Hr|]. split; [exact Hm|].
  assert (forall c, val S c (ticker r) = get_cell r c) as Hv
    by (intros c; apply Labels.val_own; assumption).
  split; [exact Hv|]. unfold liquid_on. rewrite !Hv. tauto.
Qed.

Ltac not_listed := simpl; intuition discriminate.

Ltac stage_unique := repeat Labels.unique_stage; assumption.

(** One stage back: the row in hand is a row of the table before the
    stage with one more cell; the cells asked of it are read off at once. *)
Ltac peel lem H :=
  apply lem in H; [|stage_unique];
  let r := fresh "r" in
  destruct H as (r & H & ->);
  rewrite ?ticker_set; cells; cbn [num].

(** The end of the way back: a row of the snapshot. *)
Ltac base H Hu Hr Hm Hv Hl HS HP :=
  apply filtered_row in H; [|exact Hu];
  destruct H as (Hr & Hm & Hv & Hl);
  rewrite ?(val_loc _ _ _ _ Hm), ?Hv;
  destruct (common_both _ _ _ Hm) as [HS HP].

Ltac snapshot_cells Hv :=
  let c := fresh "c" in
  let Hc := fresh "Hc" in
  intros c Hc; simpl in Hc;
  repeat (destruct Hc as [<-|Hc]; [cells; rewrite ?Hv; reflexivity|]);
  contradiction.

(** ** Morning: volume surge *)

Definition volume_surge_pick (S P : DataFrame) (r : Row) : Prop :=
  let t := ticker r in
  let volume := num (val S "거래량" t) in
  let prev_volume := zero_as_nan (num (val P "거래량" t)) in
  let close := num (val S "종가" t) in
  let open := num (val S "시가" t) in
  from_both_days S P r /\
  liquid_on S P 500000000 t /\
  get_cell r "거래량비율" = CNum (fdiv volume prev_volume) /\
  get_cell r "거래량증가율" = CNum (percent_over volume prev_volume) /\
  fge (percent_over volume prev_volume) (Fin 30) = true /\
  get_cell r "장중등락률" = CNum (percent_over close open) /\
  get_cell r "전일대비등락률" = CNum (percent_change close (num (val P "종가" t))) /\
  get_cell r "상승여부" = CBool true /\
  fgt close open = true.

Lemma volume_surge_metrics_row (S P : DataFrame) (r : Row) :
  unique_index S ->
  In r (rows (volume_surge_metrics S P)) ->
  let t := ticker r in
  let volume := num (val S "거래량" t) in
  let prev_volume := zero_as_nan (num (val P "거래량" t)) in
  let close := num (val S "종가" t) in
  let open := num (val S "시가" t) in
  from_both_days S P r /\
  liquid_on S P 500000000 t /\
  get_cell r "거래량비율" = CNum (fdiv volume prev_volume) /\
  get_cell r "거래량증가율" = CNum (percent_over volume prev_volume) /\
  get_cell r "장중등락률" = CNum (percent_over close open) /\
  get_cell r "전일대비등락률" = CNum (percent_change close (num (val P "종가" t))) /\
  get_cell r "상승여부" = CBool (fgt close open).
Proof.
  intros Hu H. cbv zeta. unfold from_both_days, volume_surge_metrics in *.
  peel with_rising_row H. peel with_day_over_day_row H. peel with_intraday_row H.
  peel with_growth_of_ratio_row H. peel with_volume_ratio_row H.
  base H Hu Hr Hm Hv Hl HS HP.
  split; [split; [exact HS|]; split; [exact HP|]; snapshot_cells Hv|].
  split; [exact Hl|]. repeat split.
Qed.

(** ** Afternoon: volume surge, flat price *)

Definition surge_flat_pick (S P : DataFrame) (r : Row) : Prop :=
  let t := ticker r in
  let volume := num (val S "거래량" t) in
  let prev_volume := zero_as_nan (num (val P "거래량" t)) in
  let close := num (val S "종가" t) in
  let open := num (val S "시가" t) in
  from_both_days S P r /\
  liquid_on S P 500000000 t /\
  get_cell r "거래량증가율" = CNum (percent_over volume prev_volume) /\
  fge (percent_over volume prev_volume) (Fin 50) = true /\
  get_cell r "장중등락률" = CNum (percent_over close open) /\
  get_cell r "전일대비등락률" = CNum (percent_change close (num (val P "종가" t))) /\
  get_cell r "횡보여부" = CBool true /\
  flt (fabs (percent_over close open)) (Fin 5) = true.

Lemma surge_flat_candidate_row (S P : DataFrame) (r : Row) :
  unique_index S ->
  In r (rows (surge_flat_candidates S P)) ->
  let t := ticker r in
  let volume := num (val S "거래량" t) in
  let prev_volume := zero_as_nan (num (val P "거래량" t)) in
  let close := num (val S "종가" t) in
  let open := num (val S "시가" t) in
  from_both_days S P r /\
  liquid_on S P 500000000 t /\
  get_cell r "거래량증가율" = CNum (percent_over volume prev_volume) /\
  fge (percent_over volume prev_volume) (Fin 50) = true /\
  get_cell r "장중등락률" = CNum (percent_over close open) /\
  get_cell r "전일대비등락률" = CNum (percent_change close (num (val P "종가" t))) /\
  get_cell r "횡보여부" = CBool (flt (fabs (percent_over close open)) (Fin 5)).
Proof.
  intros Hu H. cbv zeta. unfold from_both_days, surge_flat_candidates in *.
  apply mask_ge_row in H; [|stage_unique]. destruct H as (H & Hge). revert Hge.
  peel with_flat_row H. peel with_day_over_day_row H. peel with_intraday_row H.
  peel with_volume_growth_row H.
  base H Hu Hr Hm Hv Hl HS HP. intros Hge.
  split; [split; [exact HS|]; split; [exact HP|]; snapshot_cells Hv|].
  split; [exact Hl|]. repeat split. exact Hge.
Qed.

(** ** Afternoon: daily rise *)

Definition daily_rise_pick (S P : DataFrame) (r : Row) : Prop :=
  let t := ticker r in
  let close := num (val S "종가" t) in
  let open := num (val S "시가" t) in
  from_both_days S P r /\
  liquid_on S P 1000000000 t /\
  get_cell r "장중등락률" = CNum (percent_over close open) /\
  fge (percent_over close open) (Fin 3) = true /\
  get_cell r "전일대비등락률" = CNum (percent_change close (num (val P "종가" t))).

Lemma daily_rise_candidate_row (S P : DataFrame) (r : Row) :
  unique_index S ->
  In r (rows (daily_rise_candidates S P)) -> daily_rise_pick S P r.
Proof.
  intros Hu H. unfold daily_rise_pick. cbv zeta.
  unfold from_both_days, daily_rise_candidates in *.
  apply mask_ge_row in H; [|stage_unique]. destruct H as (H & Hge). revert Hge.
  peel with_day_over_day_row H. peel with_intraday_row H.
  base H Hu Hr Hm Hv Hl HS HP. intros Hge.
  split; [split; [exact HS|]; split; [exact HP|]; snapshot_cells Hv|].
  split; [exact Hl|]. repeat split. exact Hge.
Qed.

(** ** Morning: gap-up momentum *)

Definition gap_up_pick (S P : DataFrame) (r : Row) : Prop :=
  let t := ticker r in
  let close := num (val S "종가" t) in
  let open := num (val S "시가" t) in
  let prev_close := num (val P "종가" t) in
  from_both_days S P r /\
  liquid_on S P 500000000 t /\
  get_cell r "갭상승률" = CNum (percent_over open prev_close) /\
  fge (percent_over open prev_close) (Fin 1) = true /\
  get_cell r "장중등락률" = CNum (percent_over close open) /\
  get_cell r "전일대비등락률" = CNum (percent_change close prev_close) /\
  get_cell r "상승지속" = CBool true /\
  fgt close open = true /\
  get_cell r "종합모멘텀"
    = CNum (fadd (percent_over open prev_close) (percent_over close open)).

Lemma gap_up_candidate_row (S P : DataFrame) (r : Row) :
  unique_index S ->
  In r (rows (gap_up_candidates S P)) ->
  let t := ticker r in
  let close := num (val S "종가" t) in
  let open := num (val S "시가" t) in
  let prev_close := num (val P "종가" t) in
  from_both_days S P r /\
  liquid_on S P 500000000 t /\
  get_cell r "갭상승률" = CNum (percent_over open prev_close) /\
  fge (percent_over open prev_close) (Fin 1) = true /\
  get_cell r "장중등락률" = CNum (percent_over close open) /\
  get_cell r "전일대비등락률" = CNum (percent_change close prev_close) /\
  get_cell r "상승지속" = CBool (fgt close open).
Proof.
  intros Hu H. cbv zeta. unfold from_both_days, gap_up_candidates in *.
  apply mask_ge_row in H; [|stage_unique]. destruct H as (H & Hge). revert Hge.
  peel with_rising_row H. peel with_day_over_day_row H. peel with_intraday_row H.
  peel with_gap_row H.
  base H Hu Hr Hm Hv Hl HS HP. intros Hge.
  split; [split; [exact HS|]; split; [exact HP|]; snapshot_cells Hv|].
  split; [exact Hl|]. repeat split. exact Hge.
Qed.

(** ** Afternoon: closing strength *)

(** [(close - low) / (high - low)], or 0 when the day had no range. *)
Definition closing_strength_of (close low high : float64) : float64 :=
  if fne high low then fdiv (fsub close low) (fsub high low) else Fin 0.

Definition closing_strength_pick (S P : DataFrame) (r : Row) : Prop :=
  let t := ticker r in
  let volume := num (val S "거래량" t) in
  let prev_volume := zero_as_nan (num (val P "거래량" t)) in
  let close := num (val S "종가" t) in
  let open := num (val S "시가" t) in
  from_both_days S P r /\
  liquid_on S P 500000000 t /\
  get_cell r "마감강도"
    = CNum (closing_strength_of close (num (val S "저가" t)) (num (val S "고가" t))) /\
  get_cell r "거래량증가율" = CNum (percent_over volume prev_volume) /\
  get_cell r "장중등락률" = CNum (percent_over close open) /\
  get_cell r "전일대비등락률" = CNum (percent_change close (num (val P "종가" t))) /\
  get_cell r "거래량증가" = CBool true /\
  fgt (fsub volume prev_volume) (Fin 0) = true /\
  get_cell r "상승여부" = CBool true /\
  fgt close open = true.

Lemma closing_strength_metrics_row (S P : DataFrame) (r : Row) :
  unique_index S ->
  In r (rows (closing_strength_metrics S P)) ->
  let t := ticker r in
  let volume := num (val S "거래량" t) in
  let prev_volume := zero_as_nan (num (val P "거래량" t)) in
  let close := num (val S "종가" t) in
  let open := num (val S "시가" t) in
  from_both_days S P r /\
  liquid_on S P 500000000 t /\
  get_cell r "마감강도"
    = CNum (closing_strength_of close (num (val S "저가" t)) (num (val S "고가" t))) /\
  get_cell r "거래량증가율" = CNum (percent_over volume prev_volume) /\
  get_cell r "장중등락률" = CNum (percent_over close open) /\
  get_cell r "전일대비등락률" = CNum (percent_change close (num (val P "종가" t))) /\
  get_cell r "거래량증가" = CBool (fgt (fsub volume prev_volume) (Fin 0)) /\
  get_cell r "상승여부" = CBool (fgt close open).
Proof.
  intros Hu H. cbv zeta.
  unfold from_both_days, closing_strength_of, closing_strength_metrics in *.
  peel with_rising_row H. peel with_volume_up_row H. peel with_day_over_day_row H.
  peel with_intraday_row H. peel with_volume_growth_row H.
  apply with_closing_strength_row in H; [|stage_unique].
  destruct H as (r & H & ->). rewrite !get_if, !ticker_if.
  rewrite ?ticker_set. cells.
  apply with_strength_default_row in H. destruct H as (r0 & H & ->).
  rewrite ?ticker_set. cells. cbn [num].
  rewrite ?if_same.
  base H Hu Hr Hm Hv Hl HS HP.
  split; [split; [exact HS|]; split; [exact HP|]; snapshot_cells Hv|].
  split; [exact Hl|].
  split; [destruct (fne _ _); reflexivity|]. repeat split.
Qed.

(** ** Morning: value to cap *)

Lemma find_map_row (f : Row -> Row) (l : list Row) (t : string) :
  (forall r, ticker (f r) = ticker r) ->
  find (fun r => String.eqb (ticker r) t) (map f l) =
  option_map f (find (fun r => String.eqb (ticker r) t) l).
Proof.
  intros Hf. induction l as [|a l IH]; simpl; [reflexivity|].
  rewrite Hf. destruct (String.eqb (ticker a) t); [reflexivity | exact IH].
Qed.

Lemma find_row_of (F : DataFrame) (t : string) :
  find (fun r => String.eqb (ticker r) t) (rows F) = row_of F t.
Proof.
  unfold row_of. induction (rows F) as [|a l IH]; simpl; [reflexivity|].
  rewrite (String.eqb_sym (ticker a) t). destruct (String.eqb t (ticker a));
    [reflexivity | exact IH].
Qed.

(** A row of the snapshot merged with the market caps: a row of the
    snapshot whose ticker has a market cap, with that cap added. *)
Lemma cap_merged_row (S C : DataFrame) (r : Row) :
  columns S = ohlcv_columns ->
  In r (rows (cap_merged S C)) ->
  exists lr, In lr (rows S) /\ ticker r = ticker lr /\
    In (ticker lr) (index C) /\
    (forall c, In c ohlcv_columns -> get_cell r c = get_cell lr c) /\
    get_cell r "시가총액" = val C "시가총액" (ticker lr).
Proof.
  intros Cs H. unfold cap_merged, merge_inner in H. cbn [rows] in H.
  apply in_flat_map in H. destruct H as (lr & Hlr & H).
  unfold select_column in H. cbn [rows columns] in H.
  rewrite (find_map_row (fun r => mkRow (ticker r) [("시가총액", get_cell r "시가총액")]))
    in H by reflexivity.
  rewrite find_row_of in H.
  destruct (row_of C (ticker lr)) as [rc|] eqn:Ec; cbn [option_map] in H;
    [|contradiction].
  destruct H as [<-|[]]. exists lr. split; [exact Hlr|]. split; [reflexivity|].
  split.
  { apply index_in_row_of. rewrite Ec. discriminate. }
  rewrite Cs. split.
  - intros c Hc. simpl in Hc.
    repeat (destruct Hc as [<-|Hc]; [vm_compute; reflexivity|]). contradiction.
  - rewrite val_row_of, Ec. vm_compute. reflexivity.
Qed.

Definition value_to_cap_pick (S P C : DataFrame) (r : Row) : Prop :=
  let t := ticker r in
  let close := num (val S "종가" t) in
  let open := num (val S "시가" t) in
  let trade_value := num (val S "거래대금" t) in
  let cap := num (val C "시가총액" t) in
  let merged := loc (cap_merged S C) (common (cap_merged S C) P) in
  from_both_days S P r /\
  In t (index C) /\
  get_cell r "시가총액" = val C "시가총액" t /\
  fge trade_value (of_Z 500000000) = true /\
  fge (num (val S "거래량" t)) (volume_floor merged) = true /\
  get_cell r "거래대금비율" = CNum (fmul (fdiv trade_value cap) (Fin 100)) /\
  get_cell r "장중등락률" = CNum (percent_over close open) /\
  get_cell r "전일대비등락률" = CNum (percent_change close (num (val P "종가" t))) /\
  fge cap (of_Z 10000000000) = true /\
  get_cell r "상승여부" = CBool true /\
  fgt close open = true.

Lemma value_to_cap_candidate_row (S P C : DataFrame) (r : Row) :
  columns S = ohlcv_columns -> unique_index S ->
  In r (rows (value_to_cap_candidates S P C)) ->
  let t := ticker r in
  let close := num (val S "종가" t) in
  let open := num (val S "시가" t) in
  let trade_value := num (val S "거래대금" t) in
  let cap := num (val C "시가총액" t) in
  let merged := loc (cap_merged S C) (common (cap_merged S C) P) in
  from_both_days S P r /\
  In t (index C) /\
  get_cell r "시가총액" = val C "시가총액" t /\
  fge trade_value (of_Z 500000000) = true /\
  fge (num (val S "거래량" t)) (volume_floor merged) = true /\
  get_cell r "거래대금비율" = CNum (fmul (fdiv trade_value cap) (Fin 100)) /\
  get_cell r "장중등락률" = CNum (percent_over close open) /\
  get_cell r "전일대비등락률" = CNum (percent_change close (num (val P "종가" t))) /\
  fge cap (of_Z 10000000000) = true /\
  get_cell r "상승여부" = CBool (fgt close open).
Proof.
  intros Cs Hu H. cbv zeta.
  unfold from_both_days, value_to_cap_candidates, value_to_cap_filtered in *.
  assert (unique_index (cap_merged S C)) as Hum
    by (apply Labels.unique_merge_inner; exact Hu).
  apply mask_ge_row in H; [|stage_unique]. destruct H as (H & Hge). revert Hge.
  peel with_rising_row H. peel with_day_over_day_row H. peel with_intraday_row H.
  peel with_value_ratio_row H.
  apply absolute_filtered_row in H; [|stage_unique]. destruct H as (H & Htv & Hvol).
  apply loc_row in H. destruct H as [Hr Hm].
  destruct (cap_merged_row S C r Cs Hr) as (lr & Hlr & Et & HC & Hc & Hcap).
  assert (forall c, val S c (ticker r) = get_cell lr c) as Hv.
  { intros c. rewrite Et. apply Labels.val_own; assumption. }
  destruct (common_both _ P _ Hm) as [_ HP].
  assert (In (ticker r) (index S)) as HS.
  { rewrite Et. unfold index. apply in_map. exact Hlr. }
  rewrite !(val_loc P _ _ _ Hm), !Hv.
  assert (forall c, In c ohlcv_columns -> get_cell lr c = get_cell r c) as Hc'
    by (intros c Hin; symmetry; apply Hc; exact Hin).
  rewrite (Hc' "종가"), (Hc' "시가"), (Hc' "거래대금"), (Hc' "거래량") by (simpl; tauto).
  rewrite Et, <- Hcap.
  intros Hge.
  split.
  { split; [rewrite <- Et; exact HS|]. split; [rewrite <- Et; exact HP|].
    intros c Hin. rewrite <- Et, Hv, (Hc' c Hin). simpl in Hin.
    repeat (destruct Hin as [<-|Hin]; [cells; reflexivity|]). contradiction. }
  split; [exact HC|].
  repeat split; assumption.
Qed.

Lemma annotated_weaken (cols cols' : list string) (r' r : Row) :
  incl cols cols' -> annotated cols r' r -> annotated cols' r' r.
Proof.
  intros Hi [Ht Hg]. split; [exact Ht|]. intros c Hc. apply Hg.
  intros H. apply Hc, Hi, H.
Qed.

Lemma table_rows (m : M ref) (s : State) (v : exn + DataFrame) (Pk : Row -> Prop) :
  Exec.wp m (Exec.st (heap s) [] (fetched s) (report s))
     (Run.returns (heap s) (fetched s) (report s) v) ->
  (forall df, v = inr df -> forall r, In r (rows df) -> Pk r) ->
  forall df, ZeroVolume.table_of m s = inr df -> forall r, In r (rows df) -> Pk r.
Proof.
  intros Hrun Hv df E. apply Hv. rewrite <- E. symmetry.
  apply ZeroVolume.table_of_run. exact Hrun.
Qed.

Lemma joined (cols c1 c2 : list string) (a b c : Row) :
  annotated c1 a b -> annotated c2 b c -> incl c1 cols -> incl c2 cols ->
  annotated cols a c.
Proof.
  intros A1 A2 I1 I2.
  apply annotated_trans with b.
  - apply (annotated_weaken c1); assumption.
  - apply (annotated_weaken c2); assumption.
Qed.

Ltac sub_cols :=
  let x := fresh in
  let H := fresh in
  intros x H; simpl in H |- *; tauto.

Lemma from_both_days_annotated (cols : list string) (S P : DataFrame) (r r2 : Row) :
  annotated cols r r2 ->
  (forall c, In c ohlcv_columns -> ~ In c cols) ->
  from_both_days S P r2 -> from_both_days S P r.
Proof.
  intros [Ht Hg] Hn (HS & HP & Hc). unfold from_both_days. rewrite Ht.
  split; [exact HS|]. split; [exact HP|].
  intros c Hin. rewrite Hg by (apply Hn; exact Hin). apply Hc. exact Hin.
Qed.

Ltac not_snapshot :=
  let c := fresh in
  let H1 := fresh in
  let H2 := fresh in
  intros c H1 H2; simpl in H1, H2; intuition (subst; discriminate).

(** The facts about [r2] hold of [r], which differs from it only in the
    columns [cols]. *)
Ltac transfer cols A1 A2 HB :=
  let A := fresh "A" in
  let Ht := fresh "Ht" in
  let Hg := fresh "Hg" in
  pose proof (joined cols _ _ _ _ _ A1 A2 ltac:(sub_cols) ltac:(sub_cols)) as A;
  pose proof (from_both_days_annotated cols _ _ _ _ A ltac:(not_snapshot) HB);
  destruct A as [Ht Hg];
  cbv zeta; rewrite ?Ht; rewrite ?Hg by not_listed.

Lemma named_rows (df F : DataFrame) (names : Series) (r : Row) :
  rows df = map (fun r => set_cell r "종목명" (at_label names (ticker r))) (rows F) ->
  In r (rows df) ->
  exists r1, In r1 (rows F) /\ annotated ["종목명"] r r1.
Proof.
  intros E Hr. rewrite E in Hr. apply in_map_iff in Hr.
  destruct Hr as (r1 & <- & Hr1). exists r1. split; [exact Hr1|].
  apply annotated_set. now left.
Qed.

Lemma annotated_refl (cols : list string) (r : Row) : annotated cols r r.
Proof. split; reflexivity. Qed.

Section WithApi.

Variable api : StockApi.

Lemma volume_surge_view_rows (S P : DataFrame) (n : nat) (df : DataFrame) :
  unique_index S -> volume_surge_view api S P n = inr df ->
  forall r, In r (rows df) -> volume_surge_pick S P r.
Proof.
  intros Hu E r Hr.
  pose proof (volume_surge_lists api S P n) as L. rewrite E in L. cbn [hands_back] in L.
  destruct (listed_row _ _ _ _ _ (Labels.unique_head _ _
              (Labels.unique_volume_surge_scored S P Hu)) L Hr) as (r1 & H & Hflag & A1).
  apply head_row, sorted_row, scored2_annotated in H. destruct H as (r2 & H & A2).
  apply mask_ge_row in H; [|unfold volume_surge_metrics; stage_unique].
  destruct H as (H & Hge).
  pose proof (volume_surge_metrics_row S P r2 Hu H) as F. cbv zeta in F.
  destruct F as (HB & Hl & F1 & F2 & F3 & F4 & F5).
  rewrite (proj2 A2), F5 in Hflag by not_listed. cbn [truth] in Hflag.
  rewrite F2 in Hge. cbn [num] in Hge.
  unfold volume_surge_pick.
  transfer ["거래량증가율_norm"; "거래량_norm"; "복합점수"; "종목명"] A1 A2 HB.
  rewrite F5, Hflag. tauto.
Qed.

(** Every row that [trigger_morning_volume_surge] returns is a ticker
    traded on both days, with the snapshot's figures unchanged, that
    passes the absolute filters (trade value of at least 500 million,
    volume of at least a fifth of the mean), whose volume is up by 30 % or
    more on the previous day, and that closed above its open; its derived
    columns hold the ratios the source computes. *)
Theorem volume_surge_picks_meet_criteria (d : string) (s : State)
    (snapshot prev : ref) (top_n : nat) :
  snapshot < List.length (heap s) -> prev < List.length (heap s) ->
  let S := nth snapshot (heap s) empty_frame in
  let P := nth prev (heap s) empty_frame in
  columns S = ohlcv_columns -> columns P = ohlcv_columns ->
  unique_index S ->
  forall df,
    ZeroVolume.table_of (trigger_morning_volume_surge api d snapshot prev top_n) s
      = inr df ->
    forall r, In r (rows df) -> volume_surge_pick S P r.
Proof.
  intros Hs Hp S P Cs Cp Hu.
  apply (table_rows _ _ (volume_surge_view api S P top_n)).
  - apply Run.volume_surge_run; auto.
  - intros df E. apply (volume_surge_view_rows S P top_n); assumption.
Qed.

Lemma surge_flat_view_rows (S P : DataFrame) (n : nat) (df : DataFrame) :
  unique_index S -> surge_flat_view api S P n = inr df ->
  forall r, In r (rows df) -> surge_flat_pick S P r.
Proof.
  intros Hu E r Hr.
  pose proof (surge_flat_lists api S P n) as L. rewrite E in L. cbn [hands_back] in L.
  destruct (listed_row _ _ _ _ _ (Labels.unique_head _ _
              (Labels.unique_surge_flat_scored S P Hu)) L Hr) as (r1 & H & Hflag & A1).
  apply head_row, sorted_row, scored2_annotated in H. destruct H as (r2 & H & A2).
  pose proof (surge_flat_candidate_row S P r2 Hu H) as F. cbv zeta in F.
  destruct F as (HB & Hl & F1 & F2 & F3 & F4 & F5).
  rewrite (proj2 A2), F5 in Hflag by not_listed. cbn [truth] in Hflag.
  unfold surge_flat_pick.
  transfer ["거래량증가율_norm"; "거래대금_norm"; "복합점수"; "종목명"] A1 A2 HB.
  rewrite F5, Hflag. tauto.
Qed.

(** Every row that [trigger_afternoon_volume_surge_flat] returns is a
    ticker traded on both days that passes the absolute filters, whose
    volume is up by 50 % or more on the previous day, and whose close is
    less than 5 % off its open: a close of exactly 5 % above or below the
    open is not flat. *)
Theorem surge_flat_picks_meet_criteria (d : string) (s : State)
    (snapshot prev : ref) (top_n : nat) :
  snapshot < List.length (heap s) -> prev < List.length (heap s) ->
  let S := nth snapshot (heap s) empty_frame in
  let P := nth prev (heap s) empty_frame in
  columns S = ohlcv_columns -> columns P = ohlcv_columns ->
  unique_index S ->
  forall df,
    ZeroVolume.table_of (trigger_afternoon_volume_surge_flat api d snapshot prev top_n) s
      = inr df ->
    forall r, In r (rows df) -> surge_flat_pick S P r.
Proof.
  intros Hs Hp S P Cs Cp Hu.
  apply (table_rows _ _ (surge_flat_view api S P top_n)).
  - apply Run.surge_flat_run; auto.
  - intros df E. apply (surge_flat_view_rows S P top_n); assumption.
Qed.

Lemma daily_rise_view_rows (S P : DataFrame) (n : nat) (df : DataFrame) :
  unique_index S -> daily_rise_view api S P n = inr df ->
  List.length (rows df) <= 3 /\
  StronglySorted best_first (rows df) /\
  forall r, In r (rows df) -> daily_rise_pick S P r.
Proof.
  intros Hu E. unfold daily_rise_view in E.
  destruct (empty (daily_rise_candidates S P)).
  { injection E as <-. split; [simpl; lia|]. split; [constructor|]. intros r []. }
  pose proof (enhanced_rows api (head 3 (head n (daily_rise_scored S P)))) as L.
  rewrite E in L. cbn [hands_back] in L.
  destruct L as (names & Er).
  { unfold daily_rise_scored.
    rewrite !Run.columns_head, Run.columns_sort_values_desc, Run.columns_scored2.
    apply add_col_nonempty. }
  split; [rewrite Er, length_map, rows_head; apply firstn_le_length|].
  split.
  { rewrite Er. apply StronglySorted_map.
    - unfold best_first. intros x y H.
      rewrite !(annotated_score ["종목명"] (set_cell _ _ _) _)
        by (first [not_listed | apply annotated_set; now left]).
      exact H.
    - rewrite !rows_head. apply StronglySorted_firstn, StronglySorted_firstn.
      unfold daily_rise_scored. rewrite rows_sort_values_desc.
      apply sort_desc_sorted. }
  intros r Hr.
  destruct (named_rows _ _ _ _ Er Hr) as (r1 & H & A1).
  apply head_row, head_row, sorted_row, scored2_annotated in H.
  destruct H as (r2 & H & A2).
  pose proof (daily_rise_candidate_row S P r2 Hu H) as F.
  unfold daily_rise_pick in *. cbv zeta in F. destruct F as (HB & F).
  transfer ["장중등락률_norm"; "거래대금_norm"; "복합점수"; "종목명"] A1 A2 HB.
  tauto.
Qed.

(** [trigger_afternoon_daily_rise_top] returns three rows at most, best
    score first, and every row is a ticker traded on both days whose
    trade value reaches one billion, whose volume reaches a fifth of the
    mean, and that closed 3 % or more above its open. *)
Theorem daily_rise_picks_meet_criteria (d : string) (s : State)
    (snapshot prev : ref) (top_n : nat) :
  snapshot < List.length (heap s) -> prev < List.length (heap s) ->
  let S := nth snapshot (heap s) empty_frame in
  let P := nth prev (heap s) empty_frame in
  columns S = ohlcv_columns -> columns P = ohlcv_columns ->
  unique_index S ->
  forall df,
    ZeroVolume.table_of (trigger_afternoon_daily_rise_top api d snapshot prev top_n) s
      = inr df ->
    List.length (rows df) <= 3 /\
    StronglySorted best_first (rows df) /\
    forall r, In r (rows df) -> daily_rise_pick S P r.
Proof.
  intros Hs Hp S P Cs Cp Hu df E.
  apply (daily_rise_view_rows S P top_n); [exact Hu|].
  rewrite <- E. symmetry. apply ZeroVolume.table_of_run.
  apply Run.daily_rise_run; auto.
Qed.

Lemma gap_up_view_rows (S P : DataFrame) (n : nat) (df : DataFrame) :
  unique_index S -> gap_up_view api S P n = inr df ->
  forall r, In r (rows df) -> gap_up_pick S P r.
Proof.
  intros Hu E r Hr. unfold gap_up_view in E. cbv zeta in E.
  set (result := qualified "상승지속" (gap_up_top S P n)) in *.
  destruct (empty result).
  { injection E as <-. contradiction Hr. }
  assert (unique_index (gap_up_top S P n)) as Hut.
  { unfold gap_up_top. destruct (empty (gap_up_candidates S P)).
    - unfold gap_up_candidates. stage_unique.
    - apply Labels.unique_head, Labels.unique_gap_up_scored. exact Hu. }
  pose proof (enhanced_rows api
                (head 3 (sort_values_desc "복합점수" (with_momentum result)))) as L.
  rewrite E in L. cbn [hands_back] in L.
  destruct L as (names & Er).
  { rewrite Run.columns_head, Run.columns_sort_values_desc, Run.columns_with_momentum.
    apply add_col_nonempty. }
  destruct (named_rows _ _ _ _ Er Hr) as (r1 & H & A1).
  apply head_row, sorted_row in H.
  apply with_momentum_row in H; [|apply Labels.unique_qualified; exact Hut].
  destruct H as (r2 & H & E1).
  apply qualified_row in H; [|exact Hut]. destruct H as (H & Hflag).
  assert (In r2 (rows (head n (gap_up_scored S P)))) as H'.
  { unfold gap_up_top in H. destruct (empty (gap_up_candidates S P)) eqn:Ee; [|exact H].
    assert (columns (gap_up_candidates S P) <> []) as Hcn.
    { unfold gap_up_candidates.
      rewrite Run.columns_mask_ge, Run.columns_with_rising. apply add_col_nonempty. }
    rewrite (empty_rows (gap_up_candidates S P) Hcn Ee) in H. contradiction H. }
  clear H. apply head_row, sorted_row, scored3_annotated in H'.
  destruct H' as (r3 & H & A3).
  pose proof (gap_up_candidate_row S P r3 Hu H) as F. cbv zeta in F.
  destruct F as (HB & Hl & F1 & F2 & F3 & F4 & F5).
  rewrite (proj2 A3), F5 in Hflag by not_listed. cbn [truth] in Hflag.
  assert (annotated ["종합모멘텀"] r1 r2) as A2
    by (rewrite E1; apply annotated_set; now left).
  assert (get_cell r "종합모멘텀"
          = CNum (fadd (num (get_cell r3 "갭상승률")) (num (get_cell r3 "장중등락률")))) as Hmo.
  { rewrite (proj2 A1), E1 by not_listed. cells.
    rewrite !(proj2 A3) by not_listed. reflexivity. }
  pose proof (joined ["종합모멘텀"; "종목명"] _ _ _ _ _ A1 A2
                ltac:(sub_cols) ltac:(sub_cols)) as A12.
  unfold gap_up_pick. rewrite Hmo.
  transfer ["갭상승률_norm"; "장중등락률_norm"; "거래대금_norm"; "복합점수";
            "종합모멘텀"; "종목명"] A12 A3 HB.
  rewrite F1, F3, F5, Hflag. cbn [num]. tauto.
Qed.

(** Every row that [trigger_morning_gap_up_momentum] returns is a ticker
    traded on both days that passes the absolute filters, opened 1 % or
    more above the previous close, and closed above its open; its momentum
    column is the sum of the gap and of the intraday change. *)
Theorem gap_up_picks_meet_criteria (d : string) (s : State)
    (snapshot prev : ref) (top_n : nat) :
  snapshot < List.length (heap s) -> prev < List.length (heap s) ->
  let S := nth snapshot (heap s) empty_frame in
  let P := nth prev (heap s) empty_frame in
  columns S = ohlcv_columns -> columns P = ohlcv_columns ->
  unique_index S ->
  forall df,
    ZeroVolume.table_of (trigger_morning_gap_up_momentum api d snapshot prev top_n) s
      = inr df ->
    forall r, In r (rows df) -> gap_up_pick S P r.
Proof.
  intros Hs Hp S P Cs Cp Hu.
  apply (table_rows _ _ (gap_up_view api S P top_n)).
  - apply Run.gap_up_run; auto.
  - intros df E. apply (gap_up_view_rows S P top_n); assumption.
Qed.

Lemma closing_strength_view_rows (S P : DataFrame) (n : nat) (df : DataFrame) :
  unique_index S -> closing_strength_view api S P n = inr df ->
  forall r, In r (rows df) -> closing_strength_pick S P r.
Proof.
  intros Hu E r Hr.
  pose proof (closing_strength_lists api S P n) as L. rewrite E in L.
  cbn [hands_back] in L.
  destruct (listed_row _ _ _ _ _ (Labels.unique_head _ _
              (Labels.unique_closing_strength_scored S P Hu)) L Hr)
    as (r1 & H & Hflag & A1).
  apply head_row, sorted_row, scored3_annotated in H. destruct H as (r2 & H & A2).
  apply qualified_row in H; [|unfold closing_strength_metrics; stage_unique].
  destruct H as (H & Hup).
  pose proof (closing_strength_metrics_row S P r2 Hu H) as F. cbv zeta in F.
  destruct F as (HB & Hl & F1 & F2 & F3 & F4 & F5 & F6).
  rewrite (proj2 A2), F6 in Hflag by not_listed. cbn [truth] in Hflag.
  rewrite F5 in Hup. cbn [truth] in Hup.
  unfold closing_strength_pick.
  transfer ["마감강도_norm"; "거래량증가율_norm"; "거래대금_norm"; "복합점수"; "종목명"]
           A1 A2 HB.
  rewrite F5, F6, Hflag, Hup. tauto.
Qed.

(** Every row that [trigger_afternoon_closing_strength] returns is a
    ticker traded on both days that passes the absolute filters, whose
    volume is above the previous day's, and that closed above its open;
    its closing strength is [(close - low) / (high - low)], or 0 on a day
    without range. *)
Theorem closing_strength_picks_meet_criteria (d : string) (s : State)
    (snapshot prev : ref) (top_n : nat) :
  snapshot < List.length (heap s) -> prev < List.length (heap s) ->
  let S := nth snapshot (heap s) empty_frame in
  let P := nth prev (heap s) empty_frame in
  columns S = ohlcv_columns -> columns P = ohlcv_columns ->
  unique_index S ->
  forall df,
    ZeroVolume.table_of (trigger_afternoon_closing_strength api d snapshot prev top_n) s
      = inr df ->
    forall r, In r (rows df) -> closing_strength_pick S P r.
Proof.
  intros Hs Hp S P Cs Cp Hu.
  apply (table_rows _ _ (closing_strength_view api S P top_n)).
  - apply Run.closing_strength_run; auto.
  - intros df E. apply (closing_strength_view_rows S P top_n); assumption.
Qed.

(** A table with rows that the value-to-cap trigger hands back is the
    shortlist. *)
Lemma value_to_cap_rows_listed (S P C : DataFrame) (top_n : nat) :
  exists df, value_to_cap_view api S P C top_n = inr df /\
    (rows df <> [] ->
     lists ["종목명"] (shortlist "상승여부" (head top_n (value_to_cap_scored S P C))) df).
Proof.
  unfold value_to_cap_view.
  repeat match goal with
  | |- context [if ?b then inr empty_frame else _] =>
      destruct b; [exists empty_frame; split; [reflexivity | intros H; contradiction H; reflexivity]|]
  end.
  pose proof (top3_shortlist api "상승여부" (head top_n (value_to_cap_scored S P C))) as H.
  destruct (top3 api (qualified "상승여부" (head top_n (value_to_cap_scored S P C))))
    as [e|df]; simpl.
  - exists empty_frame. split; [reflexivity | intros H'; contradiction H'; reflexivity].
  - exists df. split; [reflexivity|]. intros _. apply H.
    unfold value_to_cap_scored.
    rewrite Run.columns_head, Run.columns_sort_values_desc, Run.columns_scored3.
    apply add_col_nonempty.
Qed.

Lemma value_to_cap_view_rows (S P C : DataFrame) (n : nat) (df : DataFrame) :
  columns S = ohlcv_columns -> unique_index S ->
  value_to_cap_view api S P C n = inr df ->
  forall r, In r (rows df) -> value_to_cap_pick S P C r.
Proof.
  intros Cs Hu E r Hr.
  destruct (value_to_cap_rows_listed S P C n) as (df' & E' & L).
  rewrite E in E'. injection E' as <-.
  specialize (L ltac:(intros H0; rewrite H0 in Hr; contradiction Hr)).
  destruct (listed_row _ _ _ _ _ (Labels.unique_head _ _
              (Labels.unique_value_to_cap_scored S P C Hu)) L Hr)
    as (r1 & H & Hflag & A1).
  apply head_row, sorted_row, scored3_annotated in H. destruct H as (r2 & H & A2).
  pose proof (value_to_cap_candidate_row S P C r2 Cs Hu H) as F. cbv zeta in F.
  destruct F as (HB & HC & F1 & F2 & F3 & F4 & F5 & F6 & F7 & F8).
  rewrite (proj2 A2), F8 in Hflag by not_listed. cbn [truth] in Hflag.
  unfold value_to_cap_pick.
  transfer ["거래대금비율_norm"; "거래대금_norm"; "장중등락률_norm"; "복합점수"; "종목명"]
           A1 A2 HB.
  rewrite F8, Hflag. tauto.
Qed.

(** Every row that [trigger_morning_value_to_cap_ratio] returns is a
    ticker traded on both days that has a market cap of at least ten
    billion, passes the absolute filters (the mean volume being taken over
    the tickers that have a market cap and were traded on both days), and
    closed above its open; its ratio column is the trade value in percent
    of the market cap. *)
Theorem value_to_cap_picks_meet_criteria (d : string) (s : State)
    (snapshot prev cap : ref) (top_n : nat) :
  snapshot < List.length (heap s) -> prev < List.length (heap s) ->
  cap < List.length (heap s) ->
  let S := nth snapshot (heap s) empty_frame in
  let P := nth prev (heap s) empty_frame in
  let C := nth cap (heap s) empty_frame in
  columns S = ohlcv_columns -> columns P = ohlcv_columns ->
  unique_index S ->
  forall df,
    ZeroVolume.table_of
      (trigger_morning_value_to_cap_ratio api d snapshot prev cap top_n) s = inr df ->
    forall r, In r (rows df) -> value_to_cap_pick S P C r.
Proof.
  intros Hs Hp Hc S P C Cs Cp Hu.
  apply (table_rows _ _ (value_to_cap_view api S P C top_n)).
  - apply Run.value_to_cap_run; auto.
  - intros df E. apply (value_to_cap_view_rows S P C top_n); assumption.
Qed.

End WithApi.

Lemma volume_surge_example :
  exists df,
    ZeroVolume.table_of (trigger_morning_volume_surge Market.provider "20240102" 0 1 2)
      Market.busy_store = inr df /\
    index df = ["Y"] /\
    forall r, In r (rows df) ->
      volume_surge_pick Market.busy_today Market.busy_yesterday r.
Proof.
  eexists. split; [vm_compute; reflexivity|]. split; [reflexivity|].
  apply (volume_surge_picks_meet_criteria Market.provider "20240102" Market.busy_store 0 1 2).
  - simpl. lia.
  - simpl. lia.
  - reflexivity.
  - reflexivity.
  - unfold unique_index. vm_compute. repeat constructor; simpl; intuition discriminate.
  - vm_compute. reflexivity.
Defined.

Lemma surge_flat_example :
  exists df,
    ZeroVolume.table_of (trigger_afternoon_volume_surge_flat Market.provider "20240102" 0 1 20)
      Market.busy_store = inr df /\
    index df = ["W"; "V"] /\
    forall r, In r (rows df) -> surge_flat_pick Market.busy_today Market.busy_yesterday r.
Proof.
  eexists. split; [vm_compute; reflexivity|]. split; [reflexivity|].
  apply (surge_flat_picks_meet_criteria Market.provider "20240102" Market.busy_store 0 1 20).
  - simpl. lia.
  - simpl. lia.
  - reflexivity.
  - reflexivity.
  - unfold unique_index. vm_compute. repeat constructor; simpl; intuition discriminate.
  - vm_compute. reflexivity.
Defined.

Lemma daily_rise_example :
  exists df,
    ZeroVolume.table_of (trigger_afternoon_daily_rise_top Market.provider "20240102" 0 1 15)
      Market.fetched_store = inr df /\
    index df = ["C"] /\
    List.length (rows df) <= 3 /\
    StronglySorted best_first (rows df) /\
    forall r, In r (rows df) -> daily_rise_pick Market.today Market.yesterday r.
Proof.
  eexists. split; [vm_compute; reflexivity|]. split; [reflexivity|].
  apply (daily_rise_picks_meet_criteria Market.provider "20240102" Market.fetched_store 0 1 15).
  - simpl. lia.
  - simpl. lia.
  - reflexivity.
  - reflexivity.
  - unfold unique_index. vm_compute. repeat constructor; simpl; intuition discriminate.
  - vm_compute. reflexivity.
Defined.

Lemma gap_up_example :
  exists df,
    ZeroVolume.table_of (trigger_morning_gap_up_momentum Market.provider "20240102" 0 1 15)
      Market.fetched_store = inr df /\
    index df = ["B"; "C"] /\
    forall r, In r (rows df) -> gap_up_pick Market.today Market.yesterday r.
Proof.
  eexists. split; [vm_compute; reflexivity|]. split; [reflexivity|].
  apply (gap_up_picks_meet_criteria Market.provider "20240102" Market.fetched_store 0 1 15).
  - simpl. lia.
  - simpl. lia.
  - reflexivity.
  - reflexivity.
  - unfold unique_index. vm_compute. repeat constructor; simpl; intuition discriminate.
  - vm_compute. reflexivity.
Defined.

Lemma closing_strength_example :
  exists df,
    ZeroVolume.table_of (trigger_afternoon_closing_strength Market.provider "20240102" 0 1 15)
      Market.fetched_store = inr df /\
    index df = ["B"; "A"] /\
    forall r, In r (rows df) -> closing_strength_pick Market.today Market.yesterday r.
Proof.
  eexists. split; [vm_compute; reflexivity|]. split; [reflexivity|].
  apply (closing_strength_picks_meet_criteria Market.provider "20240102" Market.fetched_store 0 1 15).
  - simpl. lia.
  - simpl. lia.
  - reflexivity.
  - reflexivity.
  - unfold unique_index. vm_compute. repeat constructor; simpl; intuition discriminate.
  - vm_compute. reflexivity.
Defined.

Lemma value_to_cap_example :
  exists df,
    ZeroVolume.table_of (trigger_morning_value_to_cap_ratio Market.provider "20240102" 0 1 2 10)
      Market.fetched_store = inr df /\
    index df = ["A"; "B"] /\
    forall r, In r (rows df) -> value_to_cap_pick Market.today Market.yesterday Market.caps r.
Proof.
  eexists. split; [vm_compute; reflexivity|]. split; [reflexivity|].
  apply (value_to_cap_picks_meet_criteria Market.provider "20240102" Market.fetched_store 0 1 2 10).
  - simpl. lia.
  - simpl. lia.
  - simpl. lia.
  - reflexivity.
  - reflexivity.
  - unfold unique_index. vm_compute. repeat constructor; simpl; intuition discriminate.
  - vm_compute. reflexivity.
Defined.

End Criteria.
(* ================================================================== *)
(** * Edge cases of the triggers *)
(* ================================================================== *)

Module Edges.
Import Selection Tables Exec Stages Views Run ZeroVolume.

Local Open Scope nat_scope.

Section WithApi.

Variable api : StockApi.

(** ** The guarded trigger *)

(** [trigger_morning_value_to_cap_ratio] never raises, whatever the three
    tables hold: an empty table, or a market-cap table without its
    column, is answered by an empty result before anything is computed,
    and any failure later on (a missing column, a failed name lookup)
    is caught, so that the call returns a table all the same. *)
Theorem value_to_cap_never_raises (d : string) (s : State)
    (snapshot prev cap : ref) (top_n : nat) :
  let S := nth snapshot (heap s) empty_frame in
  let P := nth prev (heap s) empty_frame in
  let C := nth cap (heap s) empty_frame in
  let t := trigger_morning_value_to_cap_ratio api d snapshot prev cap top_n in
  (exists r, fst (t s) = inr r) /\
  (empty S = true \/ empty P = true \/ empty C = true \/
   mem "시가총액" (columns C) = false ->
   table_of t s = inr empty_frame).
Proof.
  intros S P C t. destruct s as [h f rp]. cbn [heap] in S, P, C.
  change (wp t (mkState h f rp)
            (fun res s' =>
               (exists r, res = inr r) /\
               (empty S = true \/ empty P = true \/ empty C = true \/
                mem "시가총액" (columns C) = false ->
                outcome (heap s') res = inr empty_frame))).
  unfold t, trigger_morning_value_to_cap_ratio.
  assert (outcome (h ++ [empty_frame]) (inr (List.length h)) = inr empty_frame) as Hnew.
  { cbn [outcome]. rewrite AbsoluteFilters.nth_fresh. reflexivity. }
  apply wp_bind, Scoring.wp_is_empty. fold S.
  destruct (empty S); [apply Scoring.wp_new; split; [eauto | intros _; exact Hnew]|].
  apply wp_bind, Scoring.wp_is_empty. fold P.
  destruct (empty P); [apply Scoring.wp_new; split; [eauto | intros _; exact Hnew]|].
  apply wp_bind, Scoring.wp_is_empty. fold C.
  destruct (empty C); [apply Scoring.wp_new; split; [eauto | intros _; exact Hnew]|].
  apply wp_bind, Scoring.wp_columns_of. fold C.
  destruct (mem "시가총액" (columns C)); cbn [negb];
    [|apply Scoring.wp_new; split; [eauto | intros _; exact Hnew]].
  split.
  - unfold try_except.
    match goal with
    | |- context [match ?m ?s0 with _ => _ end] => destruct (m s0) as [[e|r] s'']
    end; eexists; reflexivity.
  - intros [H|[H|[H|H]]]; discriminate H.
Qed.

(** ** A snapshot without the trade-value column *)

Ltac key_step Hmiss :=
  first
    [ match goal with
      | E : mem "거래대금" _ = true |- _ =>
          exfalso; rewrite ?columns_loc in E; rewrite Hmiss in E; discriminate E
      end
    | step ].

(** The five triggers without a guard raise [KeyError] on a snapshot that
    lacks the trade-value column. *)
Theorem missing_column_raises (d : string) (s : State) (snapshot prev : ref)
    (top_n : nat) :
  snapshot < List.length (heap s) -> prev < List.length (heap s) ->
  mem "거래대금" (columns (nth snapshot (heap s) empty_frame)) = false ->
  fst (trigger_morning_volume_surge api d snapshot prev top_n s) = inl KeyError /\
  fst (trigger_morning_gap_up_momentum api d snapshot prev top_n s) = inl KeyError /\
  fst (trigger_afternoon_daily_rise_top api d snapshot prev top_n s) = inl KeyError /\
  fst (trigger_afternoon_closing_strength api d snapshot prev top_n s) = inl KeyError /\
  fst (trigger_afternoon_volume_surge_flat api d snapshot prev top_n s) = inl KeyError.
Proof.
  intros Hs Hp Hmiss.
  rewrite (st_of_state s).
  set (h0 := heap s) in *. set (F := fetched s). set (R := report s).
  remember (nth snapshot h0 empty_frame) as S eqn:ES. symmetry in ES.
  remember (nth prev h0 empty_frame) as P eqn:EP. symmetry in EP.
  refine (conj _ (conj _ (conj _ (conj _ _)))).
  - change (wp (trigger_morning_volume_surge api d snapshot prev top_n) (st h0 [] F R)
              (fun res _ => res = inl KeyError)).
    unfold trigger_morning_volume_surge. repeat key_step Hmiss. all: reflexivity.
  - change (wp (trigger_morning_gap_up_momentum api d snapshot prev top_n) (st h0 [] F R)
              (fun res _ => res = inl KeyError)).
    unfold trigger_morning_gap_up_momentum. repeat key_step Hmiss. all: reflexivity.
  - change (wp (trigger_afternoon_daily_rise_top api d snapshot prev top_n) (st h0 [] F R)
              (fun res _ => res = inl KeyError)).
    unfold trigger_afternoon_daily_rise_top. repeat key_step Hmiss. all: reflexivity.
  - change (wp (trigger_afternoon_closing_strength api d snapshot prev top_n) (st h0 [] F R)
              (fun res _ => res = inl KeyError)).
    unfold trigger_afternoon_closing_strength. repeat key_step Hmiss. all: reflexivity.
  - change (wp (trigger_afternoon_volume_surge_flat api d snapshot prev top_n)
              (st h0 [] F R) (fun res _ => res = inl KeyError)).
    unfold trigger_afternoon_volume_surge_flat. repeat key_step Hmiss. all: reflexivity.
Qed.

(** ** Two days without a ticker in common *)

Lemma empty_of_no_rows (F : DataFrame) : rows F = [] -> empty F = true.
Proof. unfold empty. intros ->. reflexivity. Qed.

Lemma merged_index_incl (S C : DataFrame) : incl (index (cap_merged S C)) (index S).
Proof.
  unfold index, cap_merged, merge_inner. cbn [rows]. intros t Ht.
  apply in_map_iff in Ht. destruct Ht as (r & <- & Hr).
  apply in_flat_map in Hr. destruct Hr as (lr & Hlr & Hr).
  destruct (find _ _); [|contradiction]. destruct Hr as [<-|[]].
  cbn [ticker]. apply in_map. exact Hlr.
Qed.

Lemma common_merged_nil (S P C : DataFrame) :
  common S P = [] -> common (cap_merged S C) P = [].
Proof.
  unfold common, intersection. intros H.
  destruct (filter _ (index (cap_merged S C))) as [|t l] eqn:E; [reflexivity|].
  assert (In t (filter (fun t => mem t (index P)) (index S))) as Hin.
  { assert (In t (t :: l)) as H0 by now left. rewrite <- E in H0.
    apply filter_In in H0. apply filter_In. split; [|tauto].
    apply (merged_index_incl S C). tauto. }
  rewrite H in Hin. contradiction.
Qed.

Section NoCommon.

Variables (S P : DataFrame).
Hypothesis disjoint : common S P = [].

Lemma no_volume_surge (n : nat) : volume_surge_view api S P n = inr empty_frame.
Proof.
  unfold volume_surge_view.
  rewrite (empty_of_no_rows (volume_surge_candidates S P)); [reflexivity|].
  unfold volume_surge_candidates, volume_surge_metrics. rewrite disjoint. reflexivity.
Qed.

Lemma no_gap_up (n : nat) : gap_up_view api S P n = inr empty_frame.
Proof.
  assert (rows (gap_up_candidates S P) = []) as E.
  { unfold gap_up_candidates. rewrite disjoint. reflexivity. }
  unfold gap_up_view, gap_up_top. cbv zeta.
  rewrite (empty_of_no_rows _ E).
  rewrite (empty_of_no_rows (qualified "상승지속" (gap_up_candidates S P)));
    [reflexivity|].
  unfold qualified. rewrite rows_mask_rows, E. reflexivity.
Qed.

Lemma no_value_to_cap (C : DataFrame) (n : nat) :
  value_to_cap_view api S P C n = inr empty_frame.
Proof.
  unfold value_to_cap_view. rewrite (common_merged_nil S P C disjoint).
  cbn [List.length Nat.eqb].
  repeat match goal with
  | |- (if ?b then inr empty_frame else _) = _ => destruct b; [reflexivity|]
  end.
  reflexivity.
Qed.

Lemma no_daily_rise (n : nat) : daily_rise_view api S P n = inr empty_frame.
Proof.
  unfold daily_rise_view.
  rewrite (empty_of_no_rows (daily_rise_candidates S P)); [reflexivity|].
  unfold daily_rise_candidates. rewrite disjoint. reflexivity.
Qed.

Lemma no_closing_strength (n : nat) : closing_strength_view api S P n = inr empty_frame.
Proof.
  assert (rows (closing_strength_candidates S P) = []) as E.
  { unfold closing_strength_candidates, closing_strength_metrics.
    rewrite disjoint. reflexivity. }
  unfold closing_strength_view, closing_strength_top, top3.
  rewrite (empty_of_no_rows _ E).
  rewrite (empty_of_no_rows (qualified "상승여부" (closing_strength_candidates S P)));
    [reflexivity|].
  unfold qualified. rewrite rows_mask_rows, E. reflexivity.
Qed.

Lemma no_surge_flat (n : nat) : surge_flat_view api S P n = inr empty_frame.
Proof.
  unfold surge_flat_view.
  rewrite (empty_of_no_rows (surge_flat_candidates S P)); [reflexivity|].
  unfold surge_flat_candidates. rewrite disjoint. reflexivity.
Qed.

End NoCommon.

(** When no ticker of the snapshot occurs in the previous-day snapshot,
    each of the six triggers returns an empty table, and it does so
    without a name lookup: a provider whose lookups all fail changes
    nothing. *)
Theorem no_common_ticker_no_pick (d : string) (s : State) (snapshot prev cap : ref)
    (top_n : nat) :
  snapshot < List.length (heap s) -> prev < List.length (heap s) ->
  cap < List.length (heap s) ->
  let S := nth snapshot (heap s) empty_frame in
  let P := nth prev (heap s) empty_frame in
  columns S = ohlcv_columns -> columns P = ohlcv_columns ->
  common S P = [] ->
  table_of (trigger_morning_volume_surge api d snapshot prev top_n) s
    = inr empty_frame /\
  table_of (trigger_morning_gap_up_momentum api d snapshot prev top_n) s
    = inr empty_frame /\
  table_of (trigger_morning_value_to_cap_ratio api d snapshot prev cap top_n) s
    = inr empty_frame /\
  table_of (trigger_afternoon_daily_rise_top api d snapshot prev top_n) s
    = inr empty_frame /\
  table_of (trigger_afternoon_closing_strength api d snapshot prev top_n) s
    = inr empty_frame /\
  table_of (trigger_afternoon_volume_surge_flat api d snapshot prev top_n) s
    = inr empty_frame.
Proof.
  intros Hs Hp Hc S P Cs Cp Hd.
  refine (conj _ (conj _ (conj _ (conj _ (conj _ _))))).
  - rewrite <- (no_volume_surge S P Hd top_n).
    apply table_of_run, volume_surge_run; auto.
  - rewrite <- (no_gap_up S P Hd top_n).
    apply table_of_run, gap_up_run; auto.
  - rewrite <- (no_value_to_cap S P Hd (nth cap (heap s) empty_frame) top_n).
    apply table_of_run, value_to_cap_run; auto.
  - rewrite <- (no_daily_rise S P Hd top_n).
    apply table_of_run, daily_rise_run; auto.
  - rewrite <- (no_closing_strength S P Hd top_n).
    apply table_of_run, closing_strength_run; auto.
  - rewrite <- (no_surge_flat S P Hd top_n).
    apply table_of_run, surge_flat_run; auto.
Qed.

End WithApi.

(** A snapshot without the trade-value column, and a day on which other
    tickers were traded. *)
Definition bare : DataFrame :=
  mkDF ["시가"; "종가"] [mkRow "A" [("시가", CNum (Fin 1)); ("종가", CNum (Fin 2))]].

Definition other_day : DataFrame :=
  mkDF ohlcv_columns [Market.ohlcv_row "Q" 100 120 90 100 1000 600000000].

Lemma missing_column_example :
  fst (trigger_morning_volume_surge Market.nameless "20240102" 0 1 10
         (mkState [bare; Market.yesterday] [] None)) = inl KeyError /\
  fst (trigger_afternoon_daily_rise_top Market.nameless "20240102" 0 1 15
         (mkState [bare; Market.yesterday] [] None)) = inl KeyError.
Proof.
  destruct (missing_column_raises Market.nameless "20240102"
              (mkState [bare; Market.yesterday] [] None) 0 1 10)
    as (H1 & _); [simpl; lia | simpl; lia | reflexivity |].
  destruct (missing_column_raises Market.nameless "20240102"
              (mkState [bare; Market.yesterday] [] None) 0 1 15)
    as (_ & _ & H3 & _); [simpl; lia | simpl; lia | reflexivity |].
  split; assumption.
Defined.

Lemma no_common_ticker_example :
  table_of (trigger_morning_volume_surge Market.nameless "20240102" 0 1 10)
    (mkState [Market.today; other_day; Market.caps] [] None) = inr empty_frame /\
  table_of (trigger_afternoon_closing_strength Market.nameless "20240102" 0 1 15)
    (mkState [Market.today; other_day; Market.caps] [] None) = inr empty_frame.
Proof.
  destruct (no_common_ticker_no_pick Market.nameless "20240102"
              (mkState [Market.today; other_day; Market.caps] [] None) 0 1 2 10)
    as (H1 & _); [simpl; lia | simpl; lia | simpl; lia | reflexivity | reflexivity
                  | reflexivity |].
  destruct (no_common_ticker_no_pick Market.nameless "20240102"
              (mkState [Market.today; other_day; Market.caps] [] None) 0 1 2 15)
    as (_ & _ & _ & _ & H5 & _); [simpl; lia | simpl; lia | simpl; lia | reflexivity
                                  | reflexivity | reflexivity |].
  split; assumption.
Defined.

End Edges.
(* ================================================================== *)
(** * More on the final allocator *)
(* ================================================================== *)

Module Allocator.
Import SortFacts Selection Tables Report.

Local Open Scope nat_scope.

(** ** The order of the sorted pool *)

Section Stable.

Variable A : Type.
Variable goes_before : A -> A -> bool.



End Stable.

(** ** Ties *)




(** ** The premium tier is filled as far as the tickers go *)

Lemma tickers_dict_set_new (d : Triggers) (k : string) (v : DataFrame) :
  ~ In k (map fst d) -> tickers_of (dict_set d k v) = tickers_of d ++ index v.
Proof.
  unfold tickers_of. induction d as [|[k' v'] d IH]; simpl; intros Hn.
  - rewrite app_nil_r. reflexivity.
  - destruct (String.eqb k k') eqn:E.
    + apply String.eqb_eq in E. exfalso. apply Hn. left. symmetry. exact E.
    + simpl. rewrite IH by tauto. rewrite app_assoc. reflexivity.
Qed.

Lemma keys_dict_set (d : Triggers) (k : string) (v : DataFrame) (x : string) :
  In x (map fst (dict_set d k v)) <-> x = k \/ In x (map fst d).
Proof.
  induction d as [|[k' v'] d IH]; simpl.
  - intuition.
  - destruct (String.eqb k k') eqn:E; simpl.
    + apply String.eqb_eq in E. subst k'. intuition.
    + rewrite IH. intuition.
Qed.

Lemma tickers_dict_set_concat (d : Triggers) (k : string) (row : DataFrame) :
  dict_has d k = true ->
  forall x, In x (tickers_of d) \/ In x (index row) ->
            In x (tickers_of (dict_set d k (concat (dict_get d k) row))).
Proof.
  unfold tickers_of, dict_has, dict_get.
  induction d as [|[k' v'] d IH]; simpl; intros Hh x Hx; [discriminate Hh|].
  destruct (String.eqb k k') eqn:E; simpl.
  - rewrite index_concat. rewrite !in_app_iff in *. tauto.
  - rewrite in_app_iff in *. destruct Hx as [[Hx|Hx]|Hx]; [tauto| |].
    + right. apply IH; [exact Hh | tauto].
    + right. apply IH; [exact Hh | tauto].
Qed.

Lemma nonempty_top (df : DataFrame) :
  empty df = false -> In (hd "" (index df)) (index df).
Proof.
  unfold empty, index. destruct (rows df) as [|r rs]; [discriminate|].
  intros _. now left.
Qed.

(** Every ticker the first loop records is stored in the result. *)
Lemma premium_tops_recorded (items d : Triggers) (pt : list string) :
  NoDup (map fst items) ->
  (forall k, In k (map fst d) -> ~ In k (map fst items)) ->
  unique_indexes items ->
  incl pt (tickers_of d) ->
  incl (snd (premium_tops items d pt)) (tickers_of (fst (premium_tops items d pt))).
Proof.
  revert d pt. induction items as [|[name df] items IH]; intros d pt Hnd Hk Hu Hi; simpl.
  - exact Hi.
  - inversion Hnd as [|? ? Hn Hd]; subst. inversion Hu as [|? ? Hdf Hrest]; subst.
    simpl in Hdf.
    assert (forall k, In k (map fst d) -> ~ In k (map fst items)) as Hk'.
    { intros k H1 H2. apply (Hk k H1). right. exact H2. }
    destruct (negb (empty df) && (List.length pt <? 3)) eqn:C; [|apply IH; assumption].
    apply andb_true_iff in C. destruct C as [Ce _]. apply negb_true_iff in Ce.
    destruct (negb (mem (hd "" (index df)) pt)) eqn:Hm; [|apply IH; assumption].
    apply IH; try assumption.
    + intros k H1 H2. apply keys_dict_set in H1. destruct H1 as [->|H1].
      * contradiction.
      * apply (Hk k H1). right. exact H2.
    + rewrite tickers_dict_set_new by (intros H; apply (Hk name H); now left).
      rewrite (index_loc_single_in df _ Hdf (nonempty_top df Ce)).
      intros x [<-|Hx]; apply in_or_app; [right; now left | left; apply Hi; exact Hx].
Qed.

(** Every ticker the first loop records is a ticker of a table with rows. *)
Lemma premium_tops_from (items d : Triggers) (pt : list string) (t : string) :
  In t (snd (premium_tops items d pt)) ->
  In t pt \/ exists name df, In (name, df) items /\ empty df = false /\ In t (index df).
Proof.
  revert d pt. induction items as [|[name df] items IH]; intros d pt H; simpl in H.
  - now left.
  - assert (forall d' pt', In t (snd (premium_tops items d' pt')) ->
              (In t pt' -> In t pt \/
                 exists name0 df0, In (name0, df0) ((name, df) :: items) /\
                                   empty df0 = false /\ In t (index df0)) ->
              In t pt \/
              exists name0 df0, In (name0, df0) ((name, df) :: items) /\
                                empty df0 = false /\ In t (index df0)) as Hstep.
    { intros d' pt' H' Hpt'. destruct (IH d' pt' H') as [H1|(n & f & H1 & H2 & H3)].
      - apply Hpt'. exact H1.
      - right. exists n, f. split; [now right | tauto]. }
    destruct (negb (empty df) && (List.length pt <? 3)) eqn:C;
      [|apply (Hstep _ _ H); tauto].
    apply andb_true_iff in C. destruct C as [Ce _]. apply negb_true_iff in Ce.
    destruct (negb (mem (hd "" (index df)) pt)); [|apply (Hstep _ _ H); tauto].
    apply (Hstep _ _ H). intros [<-|H1]; [|now left].
    right. exists name, df. split; [now left|]. split; [exact Ce|].
    apply nonempty_top. exact Ce.
Qed.

Lemma premium_fill_stops (triggers : Triggers) (pool : list PoolEntry) (d : Triggers)
    (pt : list string) :
  3 <= List.length pt -> premium_fill triggers pool d pt = (d, pt).
Proof.
  intros H. induction pool as [|[[name t] sc] pool IH]; simpl; [reflexivity|].
  assert ((List.length pt <? 3) = false) as -> by (apply Nat.ltb_ge; exact H).
  rewrite andb_false_r. exact IH.
Qed.

(** The second loop ends with three tickers or with every ticker of the
    pool. *)
Lemma premium_fill_full (triggers : Triggers) (pool : list PoolEntry) (d : Triggers)
    (pt : list string) :
  List.length pt <= 3 ->
  List.length (snd (premium_fill triggers pool d pt)) = 3 \/
  forall e, In e pool -> In (entry_ticker e) (snd (premium_fill triggers pool d pt)).
Proof.
  revert d pt. induction pool as [|[[name t] sc] pool IH]; intros d pt Hl; simpl.
  - right. intros e [].
  - destruct (negb (mem t pt) && (List.length pt <? 3)) eqn:C.
    + apply andb_true_iff in C. destruct C as [_ C]. apply Nat.ltb_lt in C.
      match goal with
      | |- context [premium_fill triggers pool ?d' (t :: pt)] =>
          destruct (IH d' (t :: pt)) as [H|H]; [simpl; lia | now left |]
      end.
      right. intros e [<-|He]; [|apply H; exact He].
      apply Tiers.premium_fill_keeps. now left.
    + apply andb_false_iff in C. destruct C as [C|C].
      * apply negb_false_iff, mem_In in C.
        destruct (IH d pt Hl) as [H|H]; [now left|].
        right. intros e [<-|He]; [|apply H; exact He].
        apply Tiers.premium_fill_keeps. exact C.
      * apply Nat.ltb_ge in C. left.
        rewrite premium_fill_stops by exact C. simpl. lia.
Qed.

Lemma premium_fill_from (triggers : Triggers) (pool : list PoolEntry) (d : Triggers)
    (pt : list string) (t : string) :
  In t (snd (premium_fill triggers pool d pt)) ->
  In t pt \/ exists e, In e pool /\ entry_ticker e = t.
Proof.
  revert d pt. induction pool as [|[[name t'] sc] pool IH]; intros d pt H; simpl in H.
  - now left.
  - destruct (negb (mem t' pt) && (List.length pt <? 3)).
    + destruct (IH _ _ H) as [[<-|H1]|(e & He & Et)].
      * right. exists (name, t', sc). split; [now left | reflexivity].
      * now left.
      * right. exists e. split; [now right | exact Et].
    + destruct (IH _ _ H) as [H1|(e & He & Et)]; [now left|].
      right. exists e. split; [now right | exact Et].
Qed.

(** Every ticker the second loop records is stored in the result. *)
Lemma premium_fill_recorded (triggers : Triggers) (pool : list PoolEntry) (d : Triggers)
    (pt : list string) :
  (forall e, In e pool ->
     index (loc (dict_get triggers (entry_trigger e)) [entry_ticker e])
       = [entry_ticker e]) ->
  incl pt (tickers_of d) ->
  incl (snd (premium_fill triggers pool d pt))
       (tickers_of (fst (premium_fill triggers pool d pt))).
Proof.
  revert d pt. induction pool as [|[[name t] sc] pool IH]; intros d pt Hrow Hi; simpl.
  - exact Hi.
  - assert (forall e, In e pool ->
              index (loc (dict_get triggers (entry_trigger e)) [entry_ticker e])
                = [entry_ticker e]) as Hrow' by (intros e He; apply Hrow; now right).
    destruct (negb (mem t pt) && (List.length pt <? 3)); [|apply IH; assumption].
    apply IH; [exact Hrow'|].
    pose proof (Hrow (name, t, sc) ltac:(now left)) as Hr.
    unfold entry_trigger, entry_ticker in Hr. simpl in Hr.
    destruct (dict_has d name) eqn:Eh.
    + intros x [<-|Hx]; apply tickers_dict_set_concat; try exact Eh.
      * right. rewrite Hr. now left.
      * left. apply Hi. exact Hx.
    + rewrite tickers_dict_set_new
        by (intros H; apply mem_In in H; unfold dict_has in Eh; congruence).
      rewrite Hr.
      intros x [<-|Hx]; apply in_or_app; [right; now left | left; apply Hi; exact Hx].
Qed.

Lemma occurrence_of (triggers : Triggers) (name : string) (df : DataFrame) (t : string) :
  In (name, df) triggers -> empty df = false -> In t (index df) ->
  In (name, t, score_in df t) (occurrences triggers).
Proof.
  intros Hin He Ht. unfold occurrences. apply in_flat_map.
  exists (name, df). split; [exact Hin|]. simpl. rewrite He. simpl.
  unfold entries_of. apply in_map_iff. exists t. tauto.
Qed.

Lemma pool_ticker (triggers : Triggers) (name : string) (df : DataFrame) (t : string) :
  In (name, df) triggers -> empty df = false -> In t (index df) ->
  In t (map entry_ticker (all_tickers_with_scores triggers)).
Proof.
  intros Hin He Ht. rewrite pool_is_first_per_ticker.
  destruct (first_per_ticker_cover [] (occurrences triggers) _
              (occurrence_of triggers name df t Hin He Ht)) as (e' & He' & Et).
  { intros []. }
  apply in_map_iff. exists e'. split; [exact Et | exact He'].
Qed.

Lemma pool_row (triggers : Triggers) (e : PoolEntry) :
  NoDup (map fst triggers) -> unique_indexes triggers ->
  In e (all_tickers_with_scores triggers) ->
  index (loc (dict_get triggers (entry_trigger e)) [entry_ticker e]) = [entry_ticker e].
Proof.
  intros Hnd Hu He. rewrite pool_is_first_per_ticker in He.
  apply first_per_ticker_in in He. destruct He as [He _].
  apply occurrences_in in He. destruct He as (df & Hin & _ & Ht & _).
  rewrite (dict_get_unique triggers _ df Hnd Hin).
  apply index_loc_single_in; [|exact Ht].
  unfold unique_indexes in Hu. rewrite Forall_forall in Hu. exact (Hu _ Hin).
Qed.

Lemma same_members_same_length (l1 l2 : list string) :
  NoDup l1 -> NoDup l2 -> incl l1 l2 -> incl l2 l1 -> List.length l1 = List.length l2.
Proof.
  intros N1 N2 I1 I2. apply Nat.le_antisymm; apply NoDup_incl_length; assumption.
Qed.

(** Whatever the trigger results (distinct category names, tables keyed
    by distinct tickers), the premium tier holds three tickers when the
    tables hold three distinct tickers or more between them, and every
    ticker otherwise; with no row to choose from both tiers are empty. *)
Theorem premium_is_filled (triggers : Triggers) :
  NoDup (map fst triggers) -> unique_indexes triggers ->
  List.length (tickers_of (premium (select_final_tickers triggers)))
    = Nat.min 3 (List.length (all_tickers_with_scores triggers)) /\
  (all_tickers_with_scores triggers = [] ->
   select_final_tickers triggers = mkAlloc [] []).
Proof.
  intros Hnd Hu. split.
  - rewrite premium_select_eq.
    pose proof (premium_select_inv triggers Hu) as (N1 & I1 & N2 & L2).
    set (pool := all_tickers_with_scores triggers).
    assert (NoDup (map entry_ticker pool)) as Np.
    { unfold pool. rewrite pool_is_first_per_ticker. apply first_per_ticker_NoDup. }
    assert (incl (snd (premium_tops triggers [] [])) (map entry_ticker pool)) as Itop.
    { intros t Ht. apply premium_tops_from in Ht.
      destruct Ht as [[]|(name & df & H1 & H2 & H3)].
      exact (pool_ticker triggers name df t H1 H2 H3). }
    assert (incl (snd (premium_tops triggers [] []))
                 (tickers_of (fst (premium_tops triggers [] [])))) as Rtop.
    { apply premium_tops_recorded; try assumption.
      - intros k [].
      - intros x []. }
    assert (incl (snd (premium_select triggers))
                 (tickers_of (fst (premium_select triggers))) /\
            incl (snd (premium_select triggers)) (map entry_ticker pool) /\
            (List.length (snd (premium_select triggers)) = 3 \/
             incl (map entry_ticker pool) (snd (premium_select triggers)))) as (R & I & F).
    { unfold premium_select. cbv zeta. fold pool.
      pose proof (premium_tops_inv triggers [] [] Hu premium_inv_init) as (_ & _ & _ & Lt).
      destruct (List.length (snd (premium_tops triggers [] [])) <? 3) eqn:C.
      - split; [|split].
        + apply premium_fill_recorded; [|exact Rtop].
          intros e He. apply (pool_row triggers e Hnd Hu).
          apply sort_pool_in. exact He.
        + intros t Ht. apply premium_fill_from in Ht.
          destruct Ht as [Ht|(e & He & <-)]; [apply Itop; exact Ht|].
          apply in_map. apply sort_pool_in. exact He.
        + destruct (premium_fill_full triggers (sort_pool pool)
                      (fst (premium_tops triggers [] []))
                      (snd (premium_tops triggers [] [])) Lt) as [H|H]; [now left|].
          right. intros t Ht. apply in_map_iff in Ht. destruct Ht as (e & <- & He).
          apply H. apply sort_pool_in. exact He.
      - apply Nat.ltb_ge in C. split; [exact Rtop|]. split; [exact Itop|].
        left. lia. }
    rewrite (same_members_same_length _ (snd (premium_select triggers)) N1 N2 I1 R).
    rewrite <- (length_map entry_ticker pool).
    pose proof (NoDup_incl_length N2 I) as Hle.
    destruct F as [F|F].
    + rewrite F in *. lia.
    + pose proof (NoDup_incl_length Np F). lia.
  - intros E. unfold select_final_tickers. rewrite E.
    assert (premium_tops triggers [] [] = ([], [])) as Et.
    { assert (forall t, ~ In t (snd (premium_tops triggers [] []))) as Hno.
      { intros t Ht. apply premium_tops_from in Ht.
        destruct Ht as [[]|(name & df & H1 & H2 & H3)].
        pose proof (pool_ticker triggers name df t H1 H2 H3) as H. rewrite E in H.
        exact H. }
      assert (forall items d pt,
                (forall t, ~ In t (snd (premium_tops items d pt))) ->
                premium_tops items d pt = (d, pt)) as Hid.
      { induction items as [|[name df] items IH]; intros d pt H; simpl; [reflexivity|].
        simpl in H.
        destruct (negb (empty df) && (List.length pt <? 3)); [|apply IH; exact H].
        destruct (negb (mem (hd "" (index df)) pt)); [|apply IH; exact H].
        exfalso. apply (H (hd "" (index df))).
        assert (forall items' d' pt' t, In t pt' ->
                  In t (snd (premium_tops items' d' pt'))) as Hkeep.
        { induction items' as [|[n f] items' IH']; intros d' pt' t Ht; simpl;
            [exact Ht|].
          destruct (negb (empty f) && (List.length pt' <? 3)); [|apply IH'; exact Ht].
          destruct (negb (mem (hd "" (index f)) pt')); apply IH';
            [right; exact Ht | exact Ht]. }
        apply Hkeep. now left. }
      apply Hid. exact Hno. }
    rewrite Et. reflexivity.
Qed.

(** Two categories with four tickers between them: the two top rows,
    then the best of the others. *)
Definition crowded : Triggers :=
  [("A", Market.picks [("X", 9 # 10); ("Y", 8 # 10)]);
   ("B", Market.picks [("Z", 7 # 10); ("W", 6 # 10)])].

Lemma premium_is_filled_example :
  tickers_of (premium (select_final_tickers crowded)) = ["X"; "Y"; "Z"] /\
  List.length (all_tickers_with_scores crowded) = 4 /\
  List.length (tickers_of (premium (select_final_tickers crowded)))
    = Nat.min 3 (List.length (all_tickers_with_scores crowded)) /\
  (all_tickers_with_scores crowded = [] ->
   select_final_tickers crowded = mkAlloc [] []).
Proof.
  split; [vm_compute; reflexivity|]. split; [vm_compute; reflexivity|].
  apply (premium_is_filled crowded).
  - repeat constructor; simpl; intuition discriminate.
  - repeat constructor; simpl; intuition discriminate.
Defined.

End Allocator.
(* ================================================================== *)
(** * The batch from end to end *)
(* ================================================================== *)

Module Driver.
Import Selection Tables Exec Stages Views Run Batch BatchView Labels Report.

Local Open Scope nat_scope.

(** The category names of a mode, in the order of the batch. *)
Definition categories (mode : string) : list string :=
  if String.eqb mode "morning" then
    ["거래량 급증 상위주"; "갭 상승 모멘텀 상위주"; "시총 대비 집중 자금 유입 상위주"]
  else if String.eqb mode "afternoon" then
    ["일중 상승률 상위주"; "마감 강도 상위주"; "거래량 증가 상위 횡보주"]
  else [].

(** ** The keys of the two tiers *)

Lemma premium_tops_keys (items d : Triggers) (pt : list string) (k : string) :
  In k (map fst (fst (premium_tops items d pt))) ->
  In k (map fst d) \/ In k (map fst items).
Proof.
  revert d pt. induction items as [|[name df] items IH]; intros d pt H; simpl in H.
  - now left.
  - assert (forall d' pt', In k (map fst (fst (premium_tops items d' pt'))) ->
              (In k (map fst d') -> In k (map fst d) \/ k = name) ->
              In k (map fst d) \/ In k (map fst ((name, df) :: items))) as Hstep.
    { intros d' pt' H' Hd. destruct (IH d' pt' H') as [H1|H1].
      - destruct (Hd H1) as [H2|H2]; [now left | right; left; now symmetry].
      - right. now right. }
    destruct (negb (empty df) && (List.length pt <? 3));
      [|apply (Hstep _ _ H); tauto].
    destruct (negb (mem (hd "" (index df)) pt)); [|apply (Hstep _ _ H); tauto].
    apply (Hstep _ _ H). intros H1. apply Allocator.keys_dict_set in H1. tauto.
Qed.

Lemma premium_fill_keys (triggers : Triggers) (pool : list PoolEntry) (d : Triggers)
    (pt : list string) (k : string) :
  In k (map fst (fst (premium_fill triggers pool d pt))) ->
  In k (map fst d) \/ exists e, In e pool /\ entry_trigger e = k.
Proof.
  revert d pt. induction pool as [|[[name t] sc] pool IH]; intros d pt H; simpl in H.
  - now left.
  - assert (forall d' pt', In k (map fst (fst (premium_fill triggers pool d' pt'))) ->
              (In k (map fst d') -> In k (map fst d) \/ k = name) ->
              In k (map fst d) \/
              exists e, In e ((name, t, sc) :: pool) /\ entry_trigger e = k) as Hstep.
    { intros d' pt' H' Hd. destruct (IH d' pt' H') as [H1|(e & He & Ek)].
      - destruct (Hd H1) as [H2|H2]; [now left|].
        right. exists (name, t, sc). split; [now left | now symmetry].
      - right. exists e. split; [now right | exact Ek]. }
    destruct (negb (mem t pt) && (List.length pt <? 3));
      [|apply (Hstep _ _ H); tauto].
    destruct (dict_has d name); apply (Hstep _ _ H); intros H1;
      apply Allocator.keys_dict_set in H1; tauto.
Qed.

Lemma pool_key (triggers : Triggers) (e : PoolEntry) :
  In e (sort_pool (all_tickers_with_scores triggers)) ->
  In (entry_trigger e) (map fst triggers).
Proof.
  intros He. apply (proj1 (sort_pool_in _ _)) in He.
  rewrite pool_is_first_per_ticker in He.
  apply first_per_ticker_in in He. destruct He as [He _].
  apply occurrences_in in He. destruct He as (df & Hin & _).
  apply in_map_iff. exists (entry_trigger e, df). split; [reflexivity | exact Hin].
Qed.

(** Both tiers use the names of the trigger tables, the free tier for
    one ticker at most. *)
Lemma select_keys (triggers : Triggers) :
  NoDup (map fst triggers) -> unique_indexes triggers ->
  incl (map fst (free (select_final_tickers triggers))) (map fst triggers) /\
  incl (map fst (premium (select_final_tickers triggers))) (map fst triggers) /\
  List.length (tickers_of (free (select_final_tickers triggers))) <= 1.
Proof.
  intros Hnd Hu. rewrite free_select_eq, premium_select_eq. split; [|split].
  - unfold free_select.
    destruct (sort_pool (all_tickers_with_scores triggers)) as [|[[k t] sc] rest] eqn:E;
      [intros x []|].
    intros x [<-|[]]. apply (pool_key triggers (k, t, sc)). rewrite E. now left.
  - unfold premium_select. cbv zeta. intros k Hk.
    assert (forall k, In k (map fst (fst (premium_tops triggers [] []))) ->
                      In k (map fst triggers)) as Ht.
    { intros k' H. destruct (premium_tops_keys _ _ _ _ H) as [[]|H1]. exact H1. }
    destruct (List.length (snd (premium_tops triggers [] [])) <? 3);
      [|apply Ht; exact Hk].
    destruct (premium_fill_keys _ _ _ _ _ Hk) as [H1|(e & He & <-)].
    + apply Ht. exact H1.
    + apply pool_key. exact He.
  - unfold free_select.
    destruct (sort_pool (all_tickers_with_scores triggers)) as [|[[k t] sc] rest] eqn:E;
      [simpl; lia|].
    assert (In (k, t, sc) (all_tickers_with_scores triggers)) as Hin.
    { apply sort_pool_in. rewrite E. now left. }
    pose proof (Allocator.pool_row triggers (k, t, sc) Hnd Hu Hin) as Hr.
    unfold entry_trigger, entry_ticker in Hr. simpl in Hr.
    unfold tickers_of. simpl. rewrite Hr. simpl. lia.
Qed.

Section WithApi.

Variable api : StockApi.

(** The three tables the provider serves for the trade date. *)
Definition snapshot_table : DataFrame :=
  get_market_ohlcv_by_ticker api (trade_date api).

Definition previous_table : DataFrame :=
  get_market_ohlcv_by_ticker api (previous_date api (trade_date api)).

Definition cap_table : DataFrame :=
  get_market_cap_by_ticker api (trade_date api).

(** What the batch writes for the allocation [a]. *)
Definition reports (out : option string) (mode : string) (a : Allocation)
    (w : option (string * Document)) : Prop :=
  match wants_report out with
  | Some path =>
      exists f p, records (free a) = inr f /\ records (premium a) = inr p /\
        w = Some (path, mkDoc f p [("run_time", now_iso api); ("trigger_mode", mode);
                                   ("trade_date", trade_date api)])
  | None => w = None
  end.

Lemma after_data_success mode out d S P C log (a : Allocation) :
  result (after_data api mode out d S P C log) = inr (Some a) ->
  exists triggers,
    tables_of api mode S P C = inr (Some triggers) /\
    a = select_final_tickers triggers /\
    match wants_report out with
    | Some path =>
        exists f p, records (free a) = inr f /\ records (premium a) = inr p /\
          written (after_data api mode out d S P C log)
            = Some (path, mkDoc f p [("run_time", now_iso api); ("trigger_mode", mode);
                                     ("trade_date", d)])
    | None => written (after_data api mode out d S P C log) = None
    end.
Proof.
  unfold after_data. destruct (tables_of api mode S P C) as [e|[t|]]; try discriminate.
  cbv zeta. destruct (wants_report out) as [path|].
  - unfold document.
    destruct (records (free (select_final_tickers t))) as [e|f] eqn:Ef;
      [discriminate|].
    destruct (records (premium (select_final_tickers t))) as [e|p] eqn:Ep;
      [discriminate|].
    cbn [and_then result written]. intros H. inversion H. subst a.
    exists t. refine (conj eq_refl (conj eq_refl _)).
    exists f, p. rewrite Ef, Ep. repeat split.
  - cbn [result written]. intros H. inversion H. subst a.
    exists t. repeat split.
Qed.

Lemma batch_view_success mode out (a : Allocation) :
  result (batch_view api mode out) = inr (Some a) ->
  empty snapshot_table = false /\ empty previous_table = false /\
  empty cap_table = false /\
  exists triggers,
    tables_of api mode snapshot_table previous_table cap_table = inr (Some triggers) /\
    a = select_final_tickers triggers /\
    reports out mode a (written (batch_view api mode out)).
Proof.
  assert (forall log,
            empty snapshot_table = false ->
            result (with_snapshot api mode out (trade_date api) snapshot_table log)
              = inr (Some a) ->
            empty snapshot_table = false /\ empty previous_table = false /\
            empty cap_table = false /\
            exists triggers,
              tables_of api mode snapshot_table previous_table cap_table
                = inr (Some triggers) /\
              a = select_final_tickers triggers /\
              reports out mode a
                (written (with_snapshot api mode out (trade_date api) snapshot_table log)))
    as Hw.
  { intros log Es. unfold with_snapshot. cbv zeta.
    fold previous_table. fold cap_table.
    destruct (empty previous_table) eqn:EP; [discriminate|].
    destruct (empty cap_table) eqn:EC; [discriminate|].
    intros H. refine (conj Es (conj eq_refl (conj eq_refl _))).
    exact (after_data_success _ _ _ _ _ _ _ _ H). }
  unfold batch_view. cbv zeta.
  destruct (empty (get_market_ohlcv_by_ticker api (first_date api))) eqn:E0.
  - destruct (empty (get_market_ohlcv_by_ticker api (retry_date api))) eqn:E1;
      [discriminate|].
    assert (trade_date api = retry_date api) as Ed
      by (unfold trade_date; rewrite E0; reflexivity).
    rewrite <- Ed. fold snapshot_table. apply Hw.
    unfold snapshot_table. rewrite Ed. exact E1.
  - assert (trade_date api = first_date api) as Ed
      by (unfold trade_date; rewrite E0; reflexivity).
    rewrite <- Ed. fold snapshot_table. apply Hw.
    unfold snapshot_table. rewrite Ed. exact E0.
Qed.

Lemma tables_of_unique mode S P C (triggers : Triggers) :
  unique_index S ->
  tables_of api mode S P C = inr (Some triggers) ->
  map fst triggers = categories mode /\ unique_indexes triggers.
Proof.
  intros Hu. unfold tables_of, categories.
  destruct (String.eqb mode "morning"); [|destruct (String.eqb mode "afternoon")].
  - destruct (volume_surge_view api S P 10) as [e|r1] eqn:E1; [discriminate|].
    destruct (gap_up_view api S P 15) as [e|r2] eqn:E2; [discriminate|].
    destruct (value_to_cap_view api S P C 10) as [e|r3] eqn:E3; [discriminate|].
    cbn [and_then]. intros H. inversion H. subst triggers. split; [reflexivity|].
    repeat constructor; cbn [snd].
    + exact (unique_volume_surge_view api S P 10 r1 Hu E1).
    + exact (unique_gap_up_view api S P 15 r2 Hu E2).
    + exact (unique_value_to_cap_view api S P C 10 r3 Hu E3).
  - destruct (daily_rise_view api S P 15) as [e|r1] eqn:E1; [discriminate|].
    destruct (closing_strength_view api S P 15) as [e|r2] eqn:E2; [discriminate|].
    destruct (surge_flat_view api S P 20) as [e|r3] eqn:E3; [discriminate|].
    cbn [and_then]. intros H. inversion H. subst triggers. split; [reflexivity|].
    repeat constructor; cbn [snd].
    + exact (unique_daily_rise_view api S P 15 r1 Hu E1).
    + exact (unique_closing_strength_view api S P 15 r2 Hu E2).
    + exact (unique_surge_flat_view api S P 20 r3 Hu E3).
  - discriminate.
Qed.

Lemma categories_distinct (mode : string) : NoDup (categories mode).
Proof.
  unfold categories.
  destruct (String.eqb mode "morning"); [|destruct (String.eqb mode "afternoon")];
    repeat constructor; simpl; intuition discriminate.
Qed.


(** What a batch that returns the allocation [a] went through. *)
Lemma run_batch_returns (mode lvl : string) (out : option string) (s : State)
    (a : Allocation) :
  schema api ->
  fst (run_batch api mode lvl out s) = inr (Some a) ->
  result (batch_view api mode out) = inr (Some a) /\
  report (snd (run_batch api mode lvl out s))
    = match written (batch_view api mode out) with
      | Some w => Some w
      | None => report s
      end.
Proof.
  intros Hschema Hr.
  destruct (level_failure api lvl) as [e0|] eqn:L.
  { rewrite (run_batch_refused api mode lvl out s e0 L) in Hr. discriminate Hr. }
  pose proof (run_batch_run api (heap s) (fetched s) (report s) mode lvl out Hschema L)
    as H.
  unfold wp in H. rewrite <- st_of_state in H. destruct H as (Hres & l & Hst).
  rewrite Hr in Hres. split; [symmetry; exact Hres|].
  rewrite Hst. reflexivity.
Qed.


(** Let the provider serve tables with the OHLCV columns and a snapshot
    in which a ticker labels one row.  In an allocation that the batch
    returns the two tiers use category names of the mode only, the free
    tier holds one ticker at most, and the premium tier holds three
    tickers at most, no ticker twice. *)
Theorem run_batch_allocation_shape
    (mode lvl : string) (out : option string) (s : State) (a : Allocation) :
  schema api ->
  unique_index snapshot_table ->
  fst (run_batch api mode lvl out s) = inr (Some a) ->
  incl (map fst (free a)) (categories mode) /\
  incl (map fst (premium a)) (categories mode) /\
  List.length (tickers_of (free a)) <= 1 /\
  NoDup (tickers_of (premium a)) /\
  List.length (tickers_of (premium a)) <= 3.
Proof.
  intros Hschema Hu Hr.
  destruct (run_batch_returns mode lvl out s a Hschema Hr) as [Hres _].
  destruct (batch_view_success mode out a Hres) as (_ & _ & _ & t & Ht & Ha & _).
  destruct (tables_of_unique mode _ _ _ t Hu Ht) as [Hk Hi].
  assert (NoDup (map fst t)) as Hnd by (rewrite Hk; apply categories_distinct).
  destruct (select_keys t Hnd Hi) as (K1 & K2 & K3).
  pose proof (premium_select_inv t Hi) as (N1 & I1 & N2 & L2).
  subst a. rewrite <- Hk.
  refine (conj K1 (conj K2 (conj K3 _))).
  rewrite premium_select_eq. split; [exact N1|].
  apply (Nat.le_trans _ (List.length (snd (premium_select t)))); [|exact L2].
  apply NoDup_incl_length; assumption.
Qed.

End WithApi.


(** A morning run. *)
Lemma run_batch_shape_example :
  exists a,
    fst (run_batch Market.provider "morning" "INFO" None Market.initial)
      = inr (Some a) /\
    tickers_of (free a) = ["B"] /\
    incl (map fst (free a)) (categories "morning") /\
    incl (map fst (premium a)) (categories "morning") /\
    List.length (tickers_of (free a)) <= 1 /\
    NoDup (tickers_of (premium a)) /\
    List.length (tickers_of (premium a)) <= 3.
Proof.
  eexists. split; [vm_compute; reflexivity|]. split; [vm_compute; reflexivity|].
  apply (run_batch_allocation_shape Market.provider "morning" "INFO" None
           Market.initial _ Examples.provider_schema).
  - unfold unique_index. vm_compute. repeat constructor; simpl; intuition discriminate.
  - vm_compute. reflexivity.
Defined.

End Driver.
